(** * CodeForge: data-model validation and generation pipeline

    A shallow embedding of the validation and type-mapping core of the
    CodeForge code generator (TypeScript):

    - [core/types.ts]: the data model ([DataType], [Relationship],
      [EntityField], [Entity], [DataModel], [ProjectConfig], ...);
    - [core/data-model-parser.ts]: [DataModelParser.validateBusinessRules];
    - [cli/commands/validate.ts]: [ValidateCommand] and its rule passes,
      including the relationship-cycle search;
    - [generators/openapi-generator.ts], [generators/asyncapi-generator.ts],
      [generators/nestjs-generator.ts]: the property mappers, the schema and
      channel builders and the [generate] entry points;
    - [cli/commands/validate.ts]: the configuration check, the report and
      the exit code of [ValidateCommand.execute];
    - [generators/nestjs-generator.ts]: the files of an entity (entity
      class, DTOs, service, controller, module) and the file list of the
      backend;
    - [cli/commands/generate.ts]: the dry run of [GenerateCommand].

    Conventions of the embedding.

    - An optional member [x?: T] is an [option T]; [None] is JavaScript's
      [undefined].
    - JavaScript numbers that the model carries ([minLength], [maxLength],
      [min], [max]) are integers of [Z]: the code only copies them, compares
      them and tests them for truthiness, where [0] is the falsy number.
    - A JavaScript object used as a dictionary is an association list in
      insertion order; writing a key that exists replaces the value in place,
      writing a new key appends it (the keys used here are never array
      indices).
    - Code that can throw returns [Exc]; [try]/[catch] is [try_catch].
    - Record fields carry a short prefix, since TypeScript reuses [name],
      [type] and [description] across interfaces. *)

From Stdlib Require Import ZArith String List Bool Ascii Lia.
From stdpp Require Import base option list strings gmap sets pretty.

Import ListNotations.
Set Warnings "-register-all".
Open Scope string_scope.
Open Scope list_scope.

(* ===================================================================== *)
(** ** JavaScript values, objects and exceptions *)
(* ===================================================================== *)

Module Js.

(** A JSON-like value. [JUndefined] is the value of a key that was written
    from an absent optional member; [JDec d k] is the decimal literal
    [d / 10^k] (the generators write [3.14] as a sample value). *)
Inductive JsVal : Type :=
| JUndefined
| JNull
| JBool (b : bool)
| JNum (n : Z)
| JDec (digits : Z) (scale : nat)
| JStr (s : string)
| JArr (xs : list JsVal)
| JObj (kvs : list (string * JsVal)).

(** [o[k] = v] on an object with string keys. *)
Fixpoint obj_set {A : Type} (k : string) (v : A) (o : list (string * A))
  : list (string * A) :=
  match o with
  | [] => [(k, v)]
  | (k', v') :: o' =>
      if decide (k = k') then (k, v) :: o' else (k', v') :: obj_set k v o'
  end.

(** [o[k]] *)
Fixpoint obj_get {A : Type} (k : string) (o : list (string * A)) : option A :=
  match o with
  | [] => None
  | (k', v') :: o' => if decide (k = k') then Some v' else obj_get k o'
  end.

(** [Object.keys(o)] *)
Definition obj_keys {A : Type} (o : list (string * A)) : list string :=
  map fst o.

(** An optional string member read into a value. *)
Definition of_opt_string (o : option string) : JsVal :=
  match o with
  | Some s => JStr s
  | None => JUndefined
  end.

(** Truthiness of the optional members the code tests with [if (x)]. *)
Definition truthy_string (o : option string) : bool :=
  match o with
  | Some s => negb (String.eqb s "")
  | None => false
  end.

Definition truthy_num (o : option Z) : bool :=
  match o with
  | Some n => negb (Z.eqb n 0)
  | None => false
  end.

Definition truthy_bool (o : option bool) : bool :=
  match o with
  | Some b => b
  | None => false
  end.

Definition truthy_opt {A : Type} (o : option A) : bool :=
  match o with
  | Some _ => true
  | None => false
  end.

(** [x === 's'] for an optional string member. *)
Definition opt_string_is (o : option string) (s : string) : bool :=
  match o with
  | Some t => String.eqb t s
  | None => false
  end.

(** [x || d] for an optional string member. *)
Definition or_string (o : option string) (d : string) : string :=
  match o with
  | Some s => if String.eqb s "" then d else s
  | None => d
  end.

(** What a [throw] carries: an [Error] with its message, or any other value,
    kept as the text [String(value)] gives. *)
Inductive Thrown : Type :=
| ErrorObj (message : string)
| NonError (text : string).

(** [error instanceof Error ? error.message : String(error)] *)
Definition error_text (e : Thrown) : string :=
  match e with
  | ErrorObj m => m
  | NonError t => t
  end.

Inductive Exc (A : Type) : Type :=
| Ok (a : A)
| Throw (e : Thrown).
Arguments Ok {A} a.
Arguments Throw {A} e.

Definition bind {A B : Type} (m : Exc A) (k : A -> Exc B) : Exc B :=
  match m with
  | Ok a => k a
  | Throw e => Throw e
  end.

(** [try { body } catch (error) { handler(error) }] *)
Definition try_catch {A : Type} (body : Exc A) (handler : Thrown -> Exc A)
  : Exc A :=
  match body with
  | Ok a => Ok a
  | Throw e => handler e
  end.

(** [xs.join(sep)] *)
Fixpoint join (sep : string) (xs : list string) : string :=
  match xs with
  | [] => ""
  | [x] => x
  | x :: rest => x +:+ sep +:+ join sep rest
  end.

(** [s.includes(sub)] *)
Fixpoint includes (sub s : string) : bool :=
  String.prefix sub s
  || match s with
     | EmptyString => false
     | String _ rest => includes sub rest
     end.

(** [c.toLowerCase()] on one ASCII character; other bytes are unchanged. *)
Definition lower_ascii (c : ascii) : ascii :=
  let n := nat_of_ascii c in
  if (65 <=? n)%nat && (n <=? 90)%nat then ascii_of_nat (n + 32) else c.

(** [s.toLowerCase()] on ASCII text (entity names are [A-Za-z0-9]). *)
Fixpoint toLowerCase (s : string) : string :=
  match s with
  | EmptyString => EmptyString
  | String c rest => String (lower_ascii c) (toLowerCase rest)
  end.

End Js.

Import Js.

#[global] Instance Exc_ret : MRet Exc := fun A a => Ok a.
#[global] Instance Exc_bind : MBind Exc := fun A B k m => bind m k.

Definition newline : string := String (ascii_of_nat 10) EmptyString.
Definition dquote : string := String (ascii_of_nat 34) EmptyString.

(* ===================================================================== *)
(** ** core/types.ts *)
(* ===================================================================== *)

Inductive TypeTag : Type :=
| TString | TNumber | TBoolean | TDate | TArray | TObject | TEnum.

Record ValidationRules : Type := {
  v_min : option Z;
  v_max : option Z;
  v_minLength : option Z;
  v_maxLength : option Z;
  v_pattern : option string;
  v_email : option bool;
  v_url : option bool;
  v_uuid : option bool;
  v_custom : option (list string)
}.

(** [DataType]. [dt_properties] lists the entries of the [properties] record
    in [Object.entries] order. *)
Inductive DataType : Type := MkDataType {
  dt_type : TypeTag;
  dt_format : option string;
  dt_items : option DataType;
  dt_properties : option (list (string * DataType));
  dt_enum : option (list string);
  dt_required : option bool;
  dt_nullable : option bool;
  dt_default : option JsVal;
  dt_description : option string;
  dt_validation : option ValidationRules
}.

Inductive RelationshipType : Type :=
| OneToOne | OneToMany | ManyToOne | ManyToMany.

Inductive OnDelete : Type := CASCADE | SET_NULL | RESTRICT.

Record Relationship : Type := {
  r_type : RelationshipType;
  r_target : string;
  r_foreignKey : option string;
  r_joinTable : option string;
  r_cascade : option bool;
  r_eager : option bool;
  r_onDelete : option OnDelete
}.

Inductive GenerationStrategy : Type := GenUuid | GenIncrement | GenTimestamp.

Record EntityField : Type := {
  f_name : string;
  f_dataType : DataType;
  f_relationship : option Relationship;
  f_isPrimaryKey : option bool;
  f_isUnique : option bool;
  f_isIndexed : option bool;
  f_isGenerated : option bool;
  f_generationStrategy : option GenerationStrategy
}.

Record Entity : Type := {
  e_name : string;
  e_tableName : option string;
  e_description : option string;
  e_fields : list EntityField;
  e_timestamps : option bool;
  e_softDelete : option bool
}.

Record EnumDefinition : Type := {
  en_name : string;
  en_values : list string;
  en_description : option string
}.

Record DataModel : Type := {
  m_name : string;
  m_version : string;
  m_description : option string;
  m_entities : list Entity;
  m_enums : option (list EnumDefinition)
}.

Record Project : Type := {
  p_name : string;
  p_description : option string;
  p_version : string;
  p_author : option string
}.

Record Features : Type := {
  ft_authentication : option bool;
  ft_authorization : option bool;
  ft_swagger : option bool;
  ft_asyncapi : option bool;
  ft_docker : option bool;
  ft_testing : option bool;
  ft_logging : option bool;
  ft_monitoring : option bool
}.

(** [ProjectConfig] as the generators receive it: read from JSON without a
    schema check, so [project] and [features] can be absent at run time
    although the interface declares them. *)
Record ProjectConfig : Type := {
  c_project : option Project;
  c_features : option Features
}.

Inductive FileType : Type := Source | Config | Documentation | Test.

Record GeneratedFile : Type := {
  gf_path : string;
  gf_content : string;
  gf_type : FileType;
  gf_language : option string
}.

Record GenerationResult : Type := {
  gr_success : bool;
  gr_files : list GeneratedFile;
  gr_errors : list string;
  gr_warnings : list string
}.

(* ===================================================================== *)
(** ** generators/nestjs-generator.ts: the column-type mapper *)
(* ===================================================================== *)

(** [NestJSGenerator.dataTypeToColumnType]. The [default] arm of the switch
    is unreachable for the seven kinds of [TypeTag]. *)
Definition dataTypeToColumnType (dataType : DataType) : string :=
  match dt_type dataType with
  | TString =>
      if opt_string_is (dt_format dataType) "uuid" then "uuid"
      else
        let maxLength := mbind v_maxLength (dt_validation dataType) in
        if truthy_num maxLength
           && match maxLength with Some n => (n <=? 255)%Z | None => false end
        then "varchar"
        else "text"
  | TNumber =>
      if opt_string_is (dt_format dataType) "int32" then "int"
      else if opt_string_is (dt_format dataType) "int64" then "bigint"
      else "decimal"
  | TBoolean => "boolean"
  | TDate => if opt_string_is (dt_format dataType) "date" then "date" else "timestamp"
  | TArray => "json"
  | TObject => "json"
  | TEnum => "enum"
  end.

(* ===================================================================== *)
(** ** The OpenAPI and AsyncAPI property mappers *)
(* ===================================================================== *)

(** [Array.isArray(x)] at the declared type [string[]] of [DataType.enum]:
    every value of that type is an array. *)
Definition Array_isArray (xs : list string) : bool := true.

(** [if (c) o[k] = v] *)
Definition set_if {A : Type} (c : bool) (k : string) (v : A)
  (o : list (string * A)) : list (string * A) :=
  if c then obj_set k v o else o.

(** [if (x) o[k] = x] for an optional string member. *)
Definition set_string (k : string) (x : option string)
  (o : list (string * JsVal)) : list (string * JsVal) :=
  set_if (truthy_string x) k (of_opt_string x) o.

Definition of_opt_num (x : option Z) : JsVal :=
  match x with
  | Some n => JNum n
  | None => JUndefined
  end.

(** [for (const [key, value] of Object.entries(ps)) acc[key] = f(value)] *)
Definition entries_loop (f : DataType -> JsVal)
  : list (string * DataType) -> list (string * JsVal) -> list (string * JsVal) :=
  fix loop ps acc :=
    match ps with
    | [] => acc
    | (key, value) :: rest => loop rest (obj_set key (f value) acc)
    end.

(** The tail shared by every arm of the OpenAPI mapper:
    [default] when it is not [undefined], [nullable: true] when truthy. *)
Definition openapi_tail (default : option JsVal) (nullable : option bool)
  (property : list (string * JsVal)) : list (string * JsVal) :=
  let property :=
    match default with
    | Some d => obj_set "default" d property
    | None => property
    end in
  set_if (truthy_bool nullable) "nullable" (JBool true) property.

(** The [enum] arm, the same text in both mappers. *)
Definition enum_arm (enum : option (list string))
  (property : list (string * JsVal)) : list (string * JsVal) :=
  match enum with
  | Some values =>
      if Array_isArray values then
        obj_set "enum" (JArr (map JStr values))
          (obj_set "type" (JStr "string") property)
      else
        match values with
        | first :: _ =>
            obj_set "$ref" (JStr ("#/components/schemas/" +:+ first)) property
        | [] => property
        end
  | None => property
  end.

(** [number]: [format === 'int32' || format === 'int64' ? 'integer' : 'number'] *)
Definition number_type (format : option string) : string :=
  if opt_string_is format "int32" || opt_string_is format "int64"
  then "integer" else "number".

(** [OpenAPIGenerator.dataTypeToOpenAPIProperty] *)
Fixpoint dataTypeToOpenAPIProperty (dataType : DataType) : JsVal :=
  match dataType with
  | MkDataType type format items properties enum _ nullable default
      description validation =>
      let property := [("description", of_opt_string description)] in
      let property :=
        match type with
        | TString =>
            let property := obj_set "type" (JStr "string") property in
            let property := set_string "format" format property in
            match validation with
            | Some v =>
                let property :=
                  set_if (truthy_num (v_minLength v)) "minLength"
                    (of_opt_num (v_minLength v)) property in
                let property :=
                  set_if (truthy_num (v_maxLength v)) "maxLength"
                    (of_opt_num (v_maxLength v)) property in
                set_string "pattern" (v_pattern v) property
            | None => property
            end
        | TNumber =>
            let property := obj_set "type" (JStr (number_type format)) property in
            let property := set_string "format" format property in
            match validation with
            | Some v =>
                let property :=
                  set_if (truthy_opt (v_min v)) "minimum" (of_opt_num (v_min v))
                    property in
                set_if (truthy_opt (v_max v)) "maximum" (of_opt_num (v_max v))
                  property
            | None => property
            end
        | TBoolean => obj_set "type" (JStr "boolean") property
        | TDate =>
            let property := obj_set "type" (JStr "string") property in
            obj_set "format"
              (JStr (or_string format "date-time"))
              property
        | TArray =>
            let property := obj_set "type" (JStr "array") property in
            match items with
            | Some it => obj_set "items" (dataTypeToOpenAPIProperty it) property
            | None => property
            end
        | TObject =>
            let property := obj_set "type" (JStr "object") property in
            match properties with
            | Some ps =>
                obj_set "properties"
                  (JObj (entries_loop dataTypeToOpenAPIProperty ps [])) property
            | None => property
            end
        | TEnum => enum_arm enum property
        end in
      JObj (openapi_tail default nullable property)
  end.

(** [AsyncAPIGenerator.dataTypeToAsyncAPIProperty] *)
Fixpoint dataTypeToAsyncAPIProperty (dataType : DataType) : JsVal :=
  match dataType with
  | MkDataType type format items properties enum _ _ default
      description _ =>
      let property := [("description", of_opt_string description)] in
      let property :=
        match type with
        | TString =>
            let property := obj_set "type" (JStr "string") property in
            set_string "format" format property
        | TNumber =>
            let property := obj_set "type" (JStr (number_type format)) property in
            set_string "format" format property
        | TBoolean => obj_set "type" (JStr "boolean") property
        | TDate =>
            let property := obj_set "type" (JStr "string") property in
            obj_set "format"
              (JStr (or_string format "date-time"))
              property
        | TArray =>
            let property := obj_set "type" (JStr "array") property in
            match items with
            | Some it => obj_set "items" (dataTypeToAsyncAPIProperty it) property
            | None => property
            end
        | TObject =>
            let property := obj_set "type" (JStr "object") property in
            match properties with
            | Some ps =>
                obj_set "properties"
                  (JObj (entries_loop dataTypeToAsyncAPIProperty ps [])) property
            | None => property
            end
        | TEnum => enum_arm enum property
        end in
      JObj (match default with
            | Some d => obj_set "default" d property
            | None => property
            end)
  end.

(* ===================================================================== *)
(** ** generators/openapi-generator.ts: schemas *)
(* ===================================================================== *)

(** The body shared by the three schema builders:
    [for (const field of fields) { if (skip(field)) continue;
       properties[field.name] = mapper(field.dataType);
       if (field.dataType.required) required.push(field.name); }]
    The state is the pair of [schema.properties] and [schema.required]. *)
Definition schema_fields_loop (mapper : DataType -> JsVal)
  (skip : EntityField -> bool)
  : list EntityField -> list (string * JsVal) * list string ->
    list (string * JsVal) * list string :=
  fix loop fields st :=
    match fields with
    | [] => st
    | field :: rest =>
        if skip field then loop rest st
        else
          let properties :=
            obj_set (f_name field) (mapper (f_dataType field)) (fst st) in
          let required :=
            if truthy_bool (dt_required (f_dataType field))
            then snd st ++ [f_name field] else snd st in
          loop rest (properties, required)
    end.

Definition timestamp_property (description : string) : JsVal :=
  JObj [("type", JStr "string"); ("format", JStr "date-time");
        ("description", JStr description)].

(** [if (entity.timestamps) { properties.createdAt = ..; properties.updatedAt = .. }] *)
Definition add_timestamps (entity : Entity) (properties : list (string * JsVal))
  : list (string * JsVal) :=
  if truthy_bool (e_timestamps entity) then
    obj_set "updatedAt" (timestamp_property "Last update timestamp")
      (obj_set "createdAt" (timestamp_property "Creation timestamp") properties)
  else properties.

Definition schema_object (description : JsVal)
  (properties : list (string * JsVal)) (required : list string)
  : list (string * JsVal) :=
  [("type", JStr "object"); ("description", description);
   ("properties", JObj properties); ("required", JArr (map JStr required))].

(** [if (field.relationship) continue;] *)
Definition skip_relationship (field : EntityField) : bool :=
  truthy_opt (f_relationship field).

(** [if (field.isGenerated || field.isPrimaryKey || field.relationship) continue;] *)
Definition skip_create (field : EntityField) : bool :=
  truthy_bool (f_isGenerated field) || truthy_bool (f_isPrimaryKey field)
  || truthy_opt (f_relationship field).

(** [OpenAPIGenerator.entityToSchema], as the key/value list of the object. *)
Definition entityToSchema (entity : Entity) : list (string * JsVal) :=
  let st :=
    schema_fields_loop dataTypeToOpenAPIProperty skip_relationship
      (e_fields entity) ([], []) in
  schema_object (of_opt_string (e_description entity))
    (add_timestamps entity (fst st)) (snd st).

(** [OpenAPIGenerator.entityToCreateDto] *)
Definition entityToCreateDto (entity : Entity) : list (string * JsVal) :=
  let st :=
    schema_fields_loop dataTypeToOpenAPIProperty skip_create
      (e_fields entity) ([], []) in
  schema_object
    (JStr ("Data transfer object for creating " +:+ e_name entity))
    (fst st) (snd st).

(** [OpenAPIGenerator.entityToUpdateDto]:
    [{...createDto, description: .., required: []}] *)
Definition entityToUpdateDto (entity : Entity) : list (string * JsVal) :=
  obj_set "required" (JArr [])
    (obj_set "description"
       (JStr ("Data transfer object for updating " +:+ e_name entity))
       (entityToCreateDto entity)).

(** The enum schemas, the same loop in both spec generators. *)
Definition enum_schema (enumDef : EnumDefinition) : JsVal :=
  JObj [("type", JStr "string");
        ("enum", JArr (map JStr (en_values enumDef)));
        ("description", of_opt_string (en_description enumDef))].

Definition add_enum_schemas (enums : option (list EnumDefinition))
  (schemas : list (string * JsVal)) : list (string * JsVal) :=
  match enums with
  | Some defs =>
      fold_left (fun acc enumDef => obj_set (en_name enumDef) (enum_schema enumDef) acc)
        defs schemas
  | None => schemas
  end.

Definition PaginationMeta : JsVal :=
  JObj [("type", JStr "object");
        ("properties", JObj [
           ("page", JObj [("type", JStr "integer"); ("minimum", JNum 1)]);
           ("limit", JObj [("type", JStr "integer"); ("minimum", JNum 1);
                           ("maximum", JNum 100)]);
           ("total", JObj [("type", JStr "integer"); ("minimum", JNum 0)]);
           ("totalPages", JObj [("type", JStr "integer"); ("minimum", JNum 0)])]);
        ("required", JArr [JStr "page"; JStr "limit"; JStr "total";
                           JStr "totalPages"])].

Definition ErrorResponse : JsVal :=
  JObj [("type", JStr "object");
        ("properties", JObj [
           ("statusCode", JObj [("type", JStr "integer")]);
           ("message", JObj [("type", JStr "string")]);
           ("error", JObj [("type", JStr "string")]);
           ("timestamp", JObj [("type", JStr "string");
                               ("format", JStr "date-time")]);
           ("path", JObj [("type", JStr "string")])]);
        ("required", JArr [JStr "statusCode"; JStr "message"; JStr "timestamp";
                           JStr "path"])].

(** [OpenAPIGenerator.generateSchemas], on [spec.components.schemas]. *)
Definition openapi_generateSchemas (dataModel : DataModel)
  (schemas : list (string * JsVal)) : list (string * JsVal) :=
  let schemas :=
    fold_left
      (fun acc entity =>
         obj_set ("Update" +:+ e_name entity +:+ "Dto")
           (JObj (entityToUpdateDto entity))
           (obj_set ("Create" +:+ e_name entity +:+ "Dto")
              (JObj (entityToCreateDto entity))
              (obj_set (e_name entity) (JObj (entityToSchema entity)) acc)))
      (m_entities dataModel) schemas in
  let schemas := add_enum_schemas (m_enums dataModel) schemas in
  obj_set "ErrorResponse" ErrorResponse
    (obj_set "PaginationMeta" PaginationMeta schemas).

(* ===================================================================== *)
(** ** generators/openapi-generator.ts: paths, document and entry point *)
(* ===================================================================== *)

Definition ref (target : string) : JsVal := JObj [("$ref", JStr target)].

Definition json_content (schema : JsVal) : JsVal :=
  JObj [("application/json", JObj [("schema", schema)])].

Definition schema_ref (name : string) : JsVal :=
  ref ("#/components/schemas/" +:+ name).

Definition id_parameter (entity : Entity) : JsVal :=
  JObj [("name", JStr "id"); ("in", JStr "path"); ("required", JBool true);
        ("description", JStr (e_name entity +:+ " ID"));
        ("schema", JObj [("type", JStr "string")])].

Definition generateListOperation (entity : Entity) : JsVal :=
  JObj [
    ("tags", JArr [JStr (e_name entity)]);
    ("summary", JStr ("List " +:+ e_name entity +:+ "s"));
    ("description",
      JStr ("Retrieve a paginated list of " +:+ e_name entity +:+ "s"));
    ("parameters", JArr [
       JObj [("name", JStr "page"); ("in", JStr "query");
             ("description", JStr "Page number");
             ("schema", JObj [("type", JStr "integer"); ("minimum", JNum 1);
                              ("default", JNum 1)])];
       JObj [("name", JStr "limit"); ("in", JStr "query");
             ("description", JStr "Number of items per page");
             ("schema", JObj [("type", JStr "integer"); ("minimum", JNum 1);
                              ("maximum", JNum 100); ("default", JNum 10)])];
       JObj [("name", JStr "sort"); ("in", JStr "query");
             ("description",
               JStr ("Sort field and direction (e.g., " +:+ dquote
                     +:+ "name:asc" +:+ dquote +:+ ")"));
             ("schema", JObj [("type", JStr "string")])]]);
    ("responses", JObj [
       ("200", JObj [
          ("description", JStr "Successful response");
          ("content", json_content (JObj [
             ("type", JStr "object");
             ("properties", JObj [
                ("data", JObj [("type", JStr "array");
                               ("items", schema_ref (e_name entity))]);
                ("meta", schema_ref "PaginationMeta")])]))]);
       ("400", ref "#/components/responses/BadRequest");
       ("500", ref "#/components/responses/InternalServerError")])].

Definition generateCreateOperation (entity : Entity) : JsVal :=
  JObj [
    ("tags", JArr [JStr (e_name entity)]);
    ("summary", JStr ("Create " +:+ e_name entity));
    ("description", JStr ("Create a new " +:+ e_name entity));
    ("requestBody", JObj [
       ("required", JBool true);
       ("content",
         json_content (schema_ref ("Create" +:+ e_name entity +:+ "Dto")))]);
    ("responses", JObj [
       ("201", JObj [("description", JStr "Created successfully");
                     ("content", json_content (schema_ref (e_name entity)))]);
       ("400", ref "#/components/responses/BadRequest");
       ("500", ref "#/components/responses/InternalServerError")])].

Definition generateGetOperation (entity : Entity) : JsVal :=
  JObj [
    ("tags", JArr [JStr (e_name entity)]);
    ("summary", JStr ("Get " +:+ e_name entity));
    ("description", JStr ("Retrieve a " +:+ e_name entity +:+ " by ID"));
    ("parameters", JArr [id_parameter entity]);
    ("responses", JObj [
       ("200", JObj [("description", JStr "Successful response");
                     ("content", json_content (schema_ref (e_name entity)))]);
       ("404", ref "#/components/responses/NotFound");
       ("500", ref "#/components/responses/InternalServerError")])].

Definition generateUpdateOperation (entity : Entity) : JsVal :=
  JObj [
    ("tags", JArr [JStr (e_name entity)]);
    ("summary", JStr ("Update " +:+ e_name entity));
    ("description", JStr ("Update a " +:+ e_name entity +:+ " by ID"));
    ("parameters", JArr [id_parameter entity]);
    ("requestBody", JObj [
       ("required", JBool true);
       ("content",
         json_content (schema_ref ("Update" +:+ e_name entity +:+ "Dto")))]);
    ("responses", JObj [
       ("200", JObj [("description", JStr "Updated successfully");
                     ("content", json_content (schema_ref (e_name entity)))]);
       ("400", ref "#/components/responses/BadRequest");
       ("404", ref "#/components/responses/NotFound");
       ("500", ref "#/components/responses/InternalServerError")])].

Definition generateDeleteOperation (entity : Entity) : JsVal :=
  JObj [
    ("tags", JArr [JStr (e_name entity)]);
    ("summary", JStr ("Delete " +:+ e_name entity));
    ("description", JStr ("Delete a " +:+ e_name entity +:+ " by ID"));
    ("parameters", JArr [id_parameter entity]);
    ("responses", JObj [
       ("204", JObj [("description", JStr "Deleted successfully")]);
       ("404", ref "#/components/responses/NotFound");
       ("500", ref "#/components/responses/InternalServerError")])].

(** [OpenAPIGenerator.generatePaths], on [spec.paths]. *)
Definition generatePaths (dataModel : DataModel)
  (paths : list (string * JsVal)) : list (string * JsVal) :=
  fold_left
    (fun acc entity =>
       let entityPath := "/" +:+ toLowerCase (e_name entity) +:+ "s" in
       let entityIdPath := entityPath +:+ "/{id}" in
       obj_set entityIdPath
         (JObj [("get", generateGetOperation entity);
                ("put", generateUpdateOperation entity);
                ("delete", generateDeleteOperation entity)])
         (obj_set entityPath
            (JObj [("get", generateListOperation entity);
                   ("post", generateCreateOperation entity)])
            acc))
    (m_entities dataModel) paths.

Definition error_response (description : string) : JsVal :=
  JObj [("description", JStr description);
        ("content", json_content (schema_ref "ErrorResponse"))].

Definition generateCommonResponses : list (string * JsVal) :=
  [("BadRequest", error_response "Bad Request");
   ("NotFound", error_response "Resource not found");
   ("InternalServerError", error_response "Internal Server Error")].

(** [OpenAPIGenerator.generateTags], on [spec.tags]. *)
Definition generateTags (dataModel : DataModel) (tags : list JsVal)
  : list JsVal :=
  fold_left
    (fun acc entity =>
       acc ++ [JObj [("name", JStr (e_name entity));
                     ("description",
                       JStr (or_string (e_description entity)
                               (e_name entity +:+ " operations")))]])
    (m_entities dataModel) tags.

(** The document under construction; optional members are [None] until a
    step writes them. *)
Record OpenAPISpec : Type := {
  oa_info : list (string * JsVal);
  oa_paths : list (string * JsVal);
  oa_schemas : list (string * JsVal);
  oa_responses : list (string * JsVal);
  oa_securitySchemes : option JsVal;
  oa_tags : list JsVal;
  oa_security : option JsVal
}.

(** Reading a member of [this.config] that is absent at run time:
    [this.config.project.name] throws a [TypeError]. *)
Definition read_member {A : Type} (of_member : string) (o : option A)
  : Exc A :=
  match o with
  | Some a => Ok a
  | None =>
      Throw (ErrorObj ("Cannot read properties of undefined (reading '"
                       +:+ of_member +:+ "')"))
  end.

(** [if (this.config.project.author) spec.info.contact = { name: author }] *)
Definition add_contact (project : Project) (info : list (string * JsVal))
  : list (string * JsVal) :=
  set_if (truthy_string (p_author project)) "contact"
    (JObj [("name", of_opt_string (p_author project))]) info.

(** [OpenAPIGenerator.generateOpenAPISpec] *)
Definition generateOpenAPISpec (config : ProjectConfig) (dataModel : DataModel)
  : Exc OpenAPISpec :=
  project ← read_member "name" (c_project config);
  let info :=
    [("title", JStr (p_name project));
     ("description", of_opt_string (p_description project));
     ("version", JStr (p_version project))] in
  let info := add_contact project info in
  let schemas := openapi_generateSchemas dataModel [] in
  let paths := generatePaths dataModel [] in
  features ← read_member "authentication" (c_features config);
  let auth := truthy_bool (ft_authentication features) in
  mret {|
    oa_info := info;
    oa_paths := paths;
    oa_schemas := schemas;
    oa_responses := generateCommonResponses;
    oa_securitySchemes :=
      if auth then
        Some (JObj [("bearerAuth",
                      JObj [("type", JStr "http"); ("scheme", JStr "bearer");
                            ("bearerFormat", JStr "JWT")])])
      else None;
    oa_tags := generateTags dataModel [];
    oa_security :=
      if auth then Some (JArr [JObj [("bearerAuth", JArr [])]]) else None
  |}.

Definition opt_member (k : string) (v : option JsVal) : list (string * JsVal) :=
  match v with
  | Some x => [(k, x)]
  | None => []
  end.

(** The document as the object the serializers receive, keys in the order
    the code writes them. *)
Definition openapi_document (spec : OpenAPISpec) : JsVal :=
  JObj ([("openapi", JStr "3.0.3");
         ("info", JObj (oa_info spec));
         ("servers", JArr [
            JObj [("url", JStr "http://localhost:3000");
                  ("description", JStr "Development server")];
            JObj [("url", JStr "https://api.example.com");
                  ("description", JStr "Production server")]]);
         ("paths", JObj (oa_paths spec));
         ("components",
           JObj ([("schemas", JObj (oa_schemas spec));
                  ("responses", JObj (oa_responses spec))]
                 ++ opt_member "securitySchemes" (oa_securitySchemes spec)));
         ("tags", JArr (oa_tags spec))]
        ++ opt_member "security" (oa_security spec)).

Definition config_file (path content language : string) : GeneratedFile :=
  {| gf_path := path; gf_content := content; gf_type := Config;
     gf_language := Some language |}.

(** The [catch] arm of every [generate]. *)
Definition failure (error : Thrown) : Exc GenerationResult :=
  mret {| gr_success := false; gr_files := [];
          gr_errors := [error_text error]; gr_warnings := [] |}.

Definition success (files : list GeneratedFile) : GenerationResult :=
  {| gr_success := true; gr_files := files; gr_errors := [];
     gr_warnings := [] |}.

Section Serializers.

(** [JSON.stringify(v, null, 2)] and [yaml.stringify(v)]: library code, which
    can throw. *)
Variable JSON_stringify : JsVal -> Exc string.
Variable yaml_stringify : JsVal -> Exc string.

(** The [try] block of [OpenAPIGenerator.generate]. *)
Definition openapi_generate_body (config : ProjectConfig)
  (dataModel : DataModel) : Exc (list GeneratedFile) :=
  spec ← generateOpenAPISpec config dataModel;
  json ← JSON_stringify (openapi_document spec);
  yamlText ← yaml_stringify (openapi_document spec);
  mret [config_file "openapi.json" json "json";
        config_file "openapi.yaml" yamlText "yaml"].

(** [OpenAPIGenerator.generate] *)
Definition openapi_generate (config : ProjectConfig) (dataModel : DataModel)
  : Exc GenerationResult :=
  try_catch (files ← openapi_generate_body config dataModel;
             mret (success files))
            failure.

End Serializers.

(* ===================================================================== *)
(** ** generators/asyncapi-generator.ts *)
(* ===================================================================== *)

(** [AsyncAPIGenerator.generateServers] *)
Definition generateServers : list (string * JsVal) :=
  [("development", JObj [
      ("url", JStr "localhost:5672"); ("protocol", JStr "amqp");
      ("description", JStr "Development RabbitMQ server");
      ("variables", JObj [
         ("port", JObj [("description", JStr "RabbitMQ port");
                        ("default", JStr "5672")])])]);
   ("production", JObj [
      ("url", JStr "message-broker.example.com:5672");
      ("protocol", JStr "amqp");
      ("description", JStr "Production RabbitMQ server")]);
   ("redis", JObj [
      ("url", JStr "localhost:6379"); ("protocol", JStr "redis");
      ("description", JStr "Redis server for real-time events")])].

(** [AsyncAPIGenerator.entityToAsyncAPISchema] *)
Definition entityToAsyncAPISchema (entity : Entity) : list (string * JsVal) :=
  let st :=
    schema_fields_loop dataTypeToAsyncAPIProperty skip_relationship
      (e_fields entity) ([], []) in
  schema_object (of_opt_string (e_description entity))
    (add_timestamps entity (fst st)) (snd st).

(** [AsyncAPIGenerator.generateEventSchema] *)
Definition generateEventSchema (entity : Entity) : JsVal :=
  JObj [
    ("type", JStr "object");
    ("description",
      JStr ("Event payload for " +:+ e_name entity +:+ " operations"));
    ("properties", JObj [
       ("metadata", schema_ref "EventMetadata");
       ("data", schema_ref (e_name entity));
       ("previousData", JObj [
          ("$ref", JStr ("#/components/schemas/" +:+ e_name entity));
          ("description", JStr "Previous state for update/delete events")])]);
    ("required", JArr [JStr "metadata"; JStr "data"])].

Definition described (type : string) (format : option string)
  (description : string) : JsVal :=
  JObj ([("type", JStr type)]
        ++ opt_member "format" (JStr <$> format)
        ++ [("description", JStr description)]).

Definition EventMetadata : JsVal :=
  JObj [
    ("type", JStr "object");
    ("properties", JObj [
       ("eventId", described "string" (Some "uuid") "Unique event identifier");
       ("eventType", described "string" None "Type of the event");
       ("timestamp", described "string" (Some "date-time") "Event timestamp");
       ("version", described "string" None "Event schema version");
       ("source", described "string" None "Event source service");
       ("correlationId",
         described "string" (Some "uuid") "Correlation ID for tracing")]);
    ("required", JArr [JStr "eventId"; JStr "eventType"; JStr "timestamp";
                       JStr "version"; JStr "source"])].

(** [AsyncAPIGenerator.generateSchemas], on [spec.components.schemas]. *)
Definition asyncapi_generateSchemas (dataModel : DataModel)
  (schemas : list (string * JsVal)) : list (string * JsVal) :=
  let schemas :=
    fold_left
      (fun acc entity =>
         obj_set (e_name entity +:+ "Event") (generateEventSchema entity)
           (obj_set (e_name entity) (JObj (entityToAsyncAPISchema entity)) acc))
      (m_entities dataModel) schemas in
  let schemas := add_enum_schemas (m_enums dataModel) schemas in
  obj_set "EventMetadata" EventMetadata schemas.

(** [AsyncAPIGenerator.generateExampleValue] *)
Definition generateExampleValue (field : EntityField) : JsVal :=
  let dataType := f_dataType field in
  match dt_type dataType with
  | TString =>
      if opt_string_is (dt_format dataType) "uuid"
      then JStr "123e4567-e89b-12d3-a456-426614174000"
      else if opt_string_is (dt_format dataType) "email"
      then JStr "user@example.com"
      else if opt_string_is (dt_format dataType) "url"
      then JStr "https://example.com"
      else JStr ("example " +:+ f_name field)
  | TNumber =>
      match dt_format dataType with
      | Some format => if includes "int" format then JNum 42 else JDec 314 2
      | None => JDec 314 2
      end
  | TBoolean => JBool true
  | TDate => JStr "2023-01-01T12:00:00Z"
  | TArray => JArr []
  | TObject => JObj []
  | TEnum =>
      match dt_enum dataType with
      | Some values =>
          if Array_isArray values then
            match values with
            | first :: _ => JStr first
            | [] => JUndefined
            end
          else JStr "EXAMPLE_VALUE"
      | None => JStr "EXAMPLE_VALUE"
      end
  end.

(** [AsyncAPIGenerator.generateExamplePayload] *)
Definition generateExamplePayload (project : Project) (entity : Entity)
  (eventType : string) : JsVal :=
  let data :=
    fold_left
      (fun acc field =>
         if truthy_opt (f_relationship field) then acc
         else obj_set (f_name field) (generateExampleValue field) acc)
      (e_fields entity) [] in
  let data :=
    if truthy_bool (e_timestamps entity) then
      obj_set "updatedAt" (JStr "2023-01-01T12:00:00Z")
        (obj_set "createdAt" (JStr "2023-01-01T12:00:00Z") data)
    else data in
  JObj [
    ("metadata", JObj [
       ("eventId", JStr "123e4567-e89b-12d3-a456-426614174000");
       ("eventType", JStr (e_name entity +:+ "." +:+ eventType));
       ("timestamp", JStr "2023-01-01T12:00:00Z");
       ("version", JStr "1.0.0");
       ("source", JStr (p_name project));
       ("correlationId", JStr "123e4567-e89b-12d3-a456-426614174001")]);
    ("data", JObj data)].

Definition message_ref (name : string) : JsVal :=
  ref ("#/components/messages/" +:+ name).

(** One of the three message definitions of [generateMessages]; only the
    [Created] one carries [examples]. The lower-case spelling of the event in
    the summary is computed from the capitalised one. *)
Definition message (entityName event : string) (examples : option JsVal)
  : JsVal :=
  JObj ([("name", JStr (entityName +:+ event));
         ("title", JStr (entityName +:+ " " +:+ event));
         ("summary",
           JStr ("A " +:+ entityName +:+ " was " +:+ toLowerCase event));
         ("contentType", JStr "application/json");
         ("traits", JArr [ref "#/components/messageTraits/commonHeaders"]);
         ("payload", schema_ref (entityName +:+ "Event"))]
        ++ opt_member "examples" examples).

(** [AsyncAPIGenerator.generateMessages], on [spec.components.messages]. *)
Definition generateMessages (project : Project) (entity : Entity)
  (messages : list (string * JsVal)) : list (string * JsVal) :=
  let entityName := e_name entity in
  let created :=
    message entityName "Created"
      (Some (JArr [JObj [
         ("name", JStr (entityName +:+ "CreatedExample"));
         ("summary",
           JStr ("Example of " +:+ entityName +:+ " created event"));
         ("payload", generateExamplePayload project entity "created")]])) in
  obj_set (entityName +:+ "DeletedMessage") (message entityName "Deleted" None)
    (obj_set (entityName +:+ "UpdatedMessage")
       (message entityName "Updated" None)
       (obj_set (entityName +:+ "CreatedMessage") created messages)).

(** One lifecycle channel of [generateChannels]. *)
Definition channel (entity : Entity) (event : string) : JsVal :=
  JObj [
    ("description",
      JStr (e_name entity +:+ " " +:+ toLowerCase event +:+ " events"));
    ("publish", JObj [
       ("operationId", JStr ("on" +:+ e_name entity +:+ event));
       ("summary",
         JStr ("Handle " +:+ e_name entity +:+ " " +:+ toLowerCase event
               +:+ " event"));
       ("message", message_ref (e_name entity +:+ event +:+ "Message"))])].

Definition HealthCheckMessage : JsVal :=
  JObj [
    ("name", JStr "HealthCheck");
    ("title", JStr "System Health Check");
    ("summary", JStr "System health status information");
    ("contentType", JStr "application/json");
    ("payload", JObj [
       ("type", JStr "object");
       ("properties", JObj [
          ("status", JObj [
             ("type", JStr "string");
             ("enum", JArr [JStr "healthy"; JStr "degraded";
                            JStr "unhealthy"])]);
          ("timestamp", JObj [("type", JStr "string");
                              ("format", JStr "date-time")]);
          ("services", JObj [
             ("type", JStr "object");
             ("additionalProperties", JObj [
                ("type", JStr "object");
                ("properties", JObj [
                   ("status", JObj [
                      ("type", JStr "string");
                      ("enum", JArr [JStr "up"; JStr "down"])]);
                   ("responseTime",
                     JObj [("type", JStr "number");
                           ("description",
                             JStr "Response time in milliseconds")])])])])]);
       ("required", JArr [JStr "status"; JStr "timestamp"])])].

Definition system_health : JsVal :=
  JObj [
    ("description", JStr "System health check events");
    ("subscribe", JObj [
       ("operationId", JStr "publishHealthCheck");
       ("summary", JStr "Publish system health status");
       ("message", message_ref "HealthCheckMessage")])].

(** The body of the entity loop of [generateChannels]: three writes into
    [spec.channels], then [generateMessages]. *)
Definition entity_step (project : Project)
  (acc : list (string * JsVal) * list (string * JsVal)) (entity : Entity)
  : list (string * JsVal) * list (string * JsVal) :=
  let entityName := toLowerCase (e_name entity) in
  let channels :=
    obj_set (entityName +:+ ".deleted") (channel entity "Deleted")
      (obj_set (entityName +:+ ".updated") (channel entity "Updated")
         (obj_set (entityName +:+ ".created") (channel entity "Created")
            (fst acc))) in
  (channels, generateMessages project entity (snd acc)).

(** [AsyncAPIGenerator.generateChannels]: the state is the pair of
    [spec.channels] and [spec.components.messages]. *)
Definition generateChannels (project : Project) (dataModel : DataModel)
  (st : list (string * JsVal) * list (string * JsVal))
  : list (string * JsVal) * list (string * JsVal) :=
  let st := fold_left (entity_step project) (m_entities dataModel) st in
  (obj_set "system.health" system_health (fst st),
   obj_set "HealthCheckMessage" HealthCheckMessage (snd st)).

Definition header (format : option string) (description : string) : JsVal :=
  described "string" format description.

(** [AsyncAPIGenerator.generateMessageTraits] *)
Definition messageTraits : JsVal :=
  JObj [("commonHeaders", JObj [
    ("headers", JObj [
       ("type", JStr "object");
       ("properties", JObj [
          ("x-correlation-id",
            header (Some "uuid") "Correlation ID for request tracing");
          ("x-request-id", header (Some "uuid") "Unique request identifier");
          ("x-user-id",
            header None "ID of the user who triggered the event");
          ("x-source-service",
            header None "Service that published the event")])])])].

Record AsyncAPISpec : Type := {
  aa_info : list (string * JsVal);
  aa_servers : list (string * JsVal);
  aa_channels : list (string * JsVal);
  aa_messages : list (string * JsVal);
  aa_schemas : list (string * JsVal);
  aa_messageTraits : option JsVal
}.

(** [AsyncAPIGenerator.generateAsyncAPISpec] *)
Definition generateAsyncAPISpec (config : ProjectConfig) (dataModel : DataModel)
  : Exc AsyncAPISpec :=
  project ← read_member "name" (c_project config);
  let info :=
    [("title", JStr (p_name project +:+ " Events"));
     ("version", JStr (p_version project));
     ("description", JStr ("Event-driven API for " +:+ p_name project))] in
  let info := add_contact project info in
  let schemas := asyncapi_generateSchemas dataModel [] in
  let st := generateChannels project dataModel ([], []) in
  mret {|
    aa_info := info;
    aa_servers := generateServers;
    aa_channels := fst st;
    aa_messages := snd st;
    aa_schemas := schemas;
    aa_messageTraits := Some messageTraits
  |}.

Definition asyncapi_document (spec : AsyncAPISpec) : JsVal :=
  JObj [("asyncapi", JStr "2.6.0");
        ("info", JObj (aa_info spec));
        ("servers", JObj (aa_servers spec));
        ("channels", JObj (aa_channels spec));
        ("components",
          JObj ([("messages", JObj (aa_messages spec));
                 ("schemas", JObj (aa_schemas spec))]
                ++ opt_member "messageTraits" (aa_messageTraits spec)))].

Section AsyncSerializers.

Variable JSON_stringify : JsVal -> Exc string.
Variable yaml_stringify : JsVal -> Exc string.

(** The [try] block of [AsyncAPIGenerator.generate]. *)
Definition asyncapi_generate_body (config : ProjectConfig)
  (dataModel : DataModel) : Exc (list GeneratedFile) :=
  spec ← generateAsyncAPISpec config dataModel;
  json ← JSON_stringify (asyncapi_document spec);
  yamlText ← yaml_stringify (asyncapi_document spec);
  mret [config_file "asyncapi.json" json "json";
        config_file "asyncapi.yaml" yamlText "yaml"].

(** [AsyncAPIGenerator.generate] *)
Definition asyncapi_generate (config : ProjectConfig) (dataModel : DataModel)
  : Exc GenerationResult :=
  try_catch (files ← asyncapi_generate_body config dataModel;
             mret (success files))
            failure.

End AsyncSerializers.

(* ===================================================================== *)
(** ** core/data-model-parser.ts *)
(* ===================================================================== *)

Definition relationship_type_name (t : RelationshipType) : string :=
  match t with
  | OneToOne => "oneToOne"
  | OneToMany => "oneToMany"
  | ManyToOne => "manyToOne"
  | ManyToMany => "manyToMany"
  end.

(** [['manyToOne', 'oneToOne'].includes(type)] *)
Definition needs_foreignKey (t : RelationshipType) : bool :=
  match t with
  | ManyToOne | OneToOne => true
  | _ => false
  end.

Definition is_manyToMany (t : RelationshipType) : bool :=
  match t with
  | ManyToMany => true
  | _ => false
  end.

Definition is_oneToMany (t : RelationshipType) : bool :=
  match t with
  | OneToMany => true
  | _ => false
  end.

Definition is_enum (t : TypeTag) : bool :=
  match t with TEnum => true | _ => false end.
Definition is_array (t : TypeTag) : bool :=
  match t with TArray => true | _ => false end.
Definition is_string (t : TypeTag) : bool :=
  match t with TString => true | _ => false end.
Definition is_number (t : TypeTag) : bool :=
  match t with TNumber => true | _ => false end.

(** [`Entity ${entity.name}.${field.name}: `] *)
Definition field_label (entity : Entity) (field : EntityField) : string :=
  "Entity " +:+ e_name entity +:+ "." +:+ f_name field +:+ ": ".

(** [if (c) xs.push(x)] *)
Definition push_if (c : bool) (x : string) (xs : list string) : list string :=
  if c then xs ++ [x] else xs.

Module Parser.

(** First loop of [validateBusinessRules]: duplicate entity names. The state
    is the pair of the set [entityNames] and [errors]. *)
Definition duplicate_names (entities : list Entity)
  (st : gset string * list string) : gset string * list string :=
  fold_left
    (fun st entity =>
       (({[e_name entity]} : gset string) ∪ fst st,
        push_if (bool_decide (e_name entity ∈ fst st))
          ("Duplicate entity name: " +:+ e_name entity) (snd st)))
    entities st.

(** The body of [if (field.relationship) { .. }] in the second loop. *)
Definition relationship_rules (entityNames : gset string) (entity : Entity)
  (field : EntityField) (errors : list string) : list string :=
  match f_relationship field with
  | Some relationship =>
      let targetEntity := r_target relationship in
      let errors :=
        push_if (negb (bool_decide (targetEntity ∈ entityNames)))
          (field_label entity field +:+ "relationship target '"
           +:+ targetEntity +:+ "' does not exist") errors in
      let errors :=
        push_if (needs_foreignKey (r_type relationship)
                 && negb (truthy_string (r_foreignKey relationship)))
          (field_label entity field
           +:+ relationship_type_name (r_type relationship)
           +:+ " relationship requires foreignKey") errors in
      push_if (is_manyToMany (r_type relationship)
               && negb (truthy_string (r_joinTable relationship)))
        (field_label entity field
         +:+ "manyToMany relationship requires joinTable") errors
  | None => errors
  end.

(** Second loop: relationships, then the primary-key rule, per entity. *)
Definition entity_rules (entityNames : gset string) (entity : Entity)
  (errors : list string) : list string :=
  let errors :=
    fold_left (fun errors field => relationship_rules entityNames entity field errors)
      (e_fields entity) errors in
  let primaryKeys :=
    filter (fun f => truthy_bool (f_isPrimaryKey f) = true) (e_fields entity) in
  push_if (length primaryKeys =? 0)%nat
    ("Entity " +:+ e_name entity
     +:+ ": must have at least one primary key field") errors.

(** Third loop: enum references. [enumRef] is [field.dataType.enum[0]]. *)
Definition enum_rule (enumNames : gset string) (entity : Entity)
  (field : EntityField) (errors : list string) : list string :=
  if is_enum (dt_type (f_dataType field)) then
    match dt_enum (f_dataType field) with
    | Some enum =>
        let enumRef := head enum in
        push_if (truthy_string enumRef
                 && negb (bool_decide (default "" enumRef ∈ enumNames))
                 && negb (Array_isArray enum))
          (field_label entity field +:+ "enum reference '"
           +:+ default "" enumRef +:+ "' does not exist") errors
    | None => errors
    end
  else errors.

(** [new Set(dataModel.enums?.map(e => e.name) || [])] *)
Definition enum_names (dataModel : DataModel) : gset string :=
  list_to_set (map en_name (default [] (m_enums dataModel))).

(** The messages [validateBusinessRules] has accumulated when it reaches its
    final test. *)
Definition business_rule_errors (dataModel : DataModel) : list string :=
  let st := duplicate_names (m_entities dataModel) (∅, []) in
  let entityNames := fst st in
  let errors :=
    fold_left (fun errors entity => entity_rules entityNames entity errors)
      (m_entities dataModel) (snd st) in
  fold_left
    (fun errors entity =>
       fold_left
         (fun errors field => enum_rule (enum_names dataModel) entity field errors)
         (e_fields entity) errors)
    (m_entities dataModel) errors.

(** [DataModelParser.validateBusinessRules] *)
Definition validateBusinessRules (dataModel : DataModel) : Exc unit :=
  let errors := business_rule_errors dataModel in
  if (0 <? length errors)%nat then
    Throw (ErrorObj ("Business rule validation failed:" +:+ newline
                     +:+ join newline errors))
  else Ok tt.

(** What the schema validator ([ajv], with the published schema) makes of
    the parsed text: a list of violations already rendered as text, or a
    document of the shape of [DataModel]. *)
Inductive Document : Type :=
| SchemaInvalid (errors : string)
| SchemaValid (data : DataModel).

(** [DataModelParser.validateAndParse] *)
Definition validateAndParse (data : Document) : Exc DataModel :=
  match data with
  | SchemaInvalid errors =>
      Throw (ErrorObj ("Data model validation failed: " +:+ errors))
  | SchemaValid dataModel =>
      _ ← validateBusinessRules dataModel;
      mret dataModel
  end.

(** [DataModelParser.parseFromJson]; the argument is what [JSON.parse] gives. *)
Definition parseFromJson (parsed : Exc Document) : Exc DataModel :=
  data ← try_catch parsed
           (fun error => Throw (ErrorObj ("Invalid JSON: " +:+ error_text error)));
  validateAndParse data.

(** [DataModelParser.parseFromYaml]: the [try] also covers validation. *)
Definition parseFromYaml (parsed : Exc Document) : Exc DataModel :=
  try_catch (data ← parsed; validateAndParse data)
    (fun error => Throw (ErrorObj ("Invalid YAML: " +:+ error_text error))).

(** What the file system and the text parsers deliver for a path. *)
Inductive ModelFile : Type :=
| Missing
| JsonFile (parsed : Exc Document)
| YamlFile (parsed : Exc Document)
| OtherFile (ext : string).

(** [DataModelParser.parseFromFile] *)
Definition parseFromFile (filePath : string) (file : ModelFile)
  : Exc DataModel :=
  match file with
  | Missing => Throw (ErrorObj ("Data model file not found: " +:+ filePath))
  | JsonFile parsed => parseFromJson parsed
  | YamlFile parsed => parseFromYaml parsed
  | OtherFile ext => Throw (ErrorObj ("Unsupported file format: " +:+ ext))
  end.

End Parser.

(* ===================================================================== *)
(** ** cli/commands/validate.ts *)
(* ===================================================================== *)

Module Validate.

(** [results.model]: the object every pass pushes into. *)
Record Result : Type := {
  valid : bool;
  errors : list string;
  warnings : list string
}.

(** [if (c) result.errors.push(message)] *)
Definition push_error (c : bool) (message : string) (result : Result) : Result :=
  {| valid := valid result;
     errors := push_if c message (errors result);
     warnings := warnings result |}.

(** [if (c) result.warnings.push(message)] *)
Definition push_warning (c : bool) (message : string) (result : Result)
  : Result :=
  {| valid := valid result;
     errors := errors result;
     warnings := push_if c message (warnings result) |}.

(** The body of [if (field.relationship) { .. }] in
    [validateEntityRelationships]. *)
Definition relationship_checks (entityNames : gset string) (entity : Entity)
  (field : EntityField) (result : Result) : Result :=
  match f_relationship field with
  | Some relationship =>
      let type := r_type relationship in
      let target := r_target relationship in
      let result :=
        push_error (negb (bool_decide (target ∈ entityNames)))
          (field_label entity field +:+ "relationship target '" +:+ target
           +:+ "' does not exist") result in
      let result :=
        push_warning (is_manyToMany type
                      && negb (truthy_string (r_joinTable relationship)))
          (field_label entity field
           +:+ "manyToMany relationship should specify joinTable") result in
      push_warning (needs_foreignKey type
                    && negb (truthy_string (r_foreignKey relationship)))
        (field_label entity field +:+ relationship_type_name type
         +:+ " relationship should specify foreignKey") result
  | None => result
  end.

(** [ValidateCommand.validateEntityRelationships] *)
Definition validateEntityRelationships (dataModel : DataModel)
  (result : Result) : Result :=
  let entityNames : gset string :=
    list_to_set (map e_name (m_entities dataModel)) in
  fold_left
    (fun result entity =>
       fold_left
         (fun result field => relationship_checks entityNames entity field result)
         (e_fields entity) result)
    (m_entities dataModel) result.

(** [a !== undefined && b !== undefined && a > b] *)
Definition both_and_gt (a b : option Z) : bool :=
  match a, b with
  | Some x, Some y => (y <? x)%Z
  | _, _ => false
  end.

(** [ValidateCommand.validateFieldDataType] *)
Definition validateFieldDataType (entityName : string) (field : EntityField)
  (result : Result) (strict : bool) : Result :=
  let dataType := f_dataType field in
  let label := "Entity " +:+ entityName +:+ "." +:+ f_name field +:+ ": " in
  let result :=
    push_error
      (is_enum (dt_type dataType)
       && match dt_enum dataType with
          | Some enum =>
              negb (Array_isArray enum) || (length enum =? 0)%nat
          | None => true
          end)
      (label +:+ "enum type must have at least one value") result in
  let result :=
    push_warning
      (is_array (dt_type dataType) && negb (truthy_opt (dt_items dataType)))
      (label +:+ "array type should specify items type") result in
  let result :=
    push_error
      (is_string (dt_type dataType)
       && match dt_validation dataType with
          | Some v => both_and_gt (v_minLength v) (v_maxLength v)
          | None => false
          end)
      (label +:+ "minLength cannot be greater than maxLength") result in
  let result :=
    push_error
      (is_number (dt_type dataType)
       && match dt_validation dataType with
          | Some v => both_and_gt (v_min v) (v_max v)
          | None => false
          end)
      (label +:+ "min cannot be greater than max") result in
  if strict then
    let result :=
      push_warning (negb (truthy_string (dt_description dataType)))
        (label +:+ "missing field description") result in
    push_warning
      (is_string (dt_type dataType)
       && negb (truthy_num (dt_validation dataType ≫= v_maxLength)))
      (label +:+ "string field should have maxLength constraint") result
  else result.

(** The field loop of [validateEntityFields]; the state is the pair of the
    set [fieldNames] and the result. *)
Definition field_loop (entity : Entity) (strict : bool)
  (fields : list EntityField) (st : gset string * Result)
  : gset string * Result :=
  fold_left
    (fun st field =>
       let result :=
         push_error (bool_decide (f_name field ∈ fst st))
           ("Entity " +:+ e_name entity +:+ ": duplicate field name '"
            +:+ f_name field +:+ "'") (snd st) in
       (({[f_name field]} : gset string) ∪ fst st,
        validateFieldDataType (e_name entity) field result strict))
    fields st.

(** [ValidateCommand.validateEntityFields] *)
Definition validateEntityFields (dataModel : DataModel) (result : Result)
  (strict : bool) : Result :=
  fold_left
    (fun result entity =>
       let result := snd (field_loop entity strict (e_fields entity) (∅, result)) in
       let primaryKeys :=
         filter (fun f => truthy_bool (f_isPrimaryKey f) = true)
           (e_fields entity) in
       let result :=
         push_error (length primaryKeys =? 0)%nat
           ("Entity " +:+ e_name entity
            +:+ ": must have at least one primary key field") result in
       let generatedPrimaryKeys :=
         filter (fun f => truthy_bool (f_isGenerated f) = true) primaryKeys in
       push_error (1 <? length generatedPrimaryKeys)%nat
         ("Entity " +:+ e_name entity
          +:+ ": cannot have multiple generated primary keys") result)
    (m_entities dataModel) result.

Definition in_range (lo hi : nat) (c : ascii) : bool :=
  let n := nat_of_ascii c in (lo <=? n)%nat && (n <=? hi)%nat.
Definition is_upper (c : ascii) : bool := in_range 65 90 c.
Definition is_lower (c : ascii) : bool := in_range 97 122 c.
Definition is_digit (c : ascii) : bool := in_range 48 57 c.

(** [/^<first><rest>*$/.test(s)] for character classes [first] and [rest]. *)
Definition matches (first rest : ascii -> bool) (s : string) : bool :=
  match s with
  | EmptyString => false
  | String c tail => first c && forallb rest (list_ascii_of_string tail)
  end.

(** [/^[A-Z][a-zA-Z0-9]*$/] *)
Definition PascalCase : string -> bool :=
  matches is_upper (fun c => is_lower c || is_upper c || is_digit c).
(** [/^[a-z][a-zA-Z0-9]*$/] *)
Definition camelCase : string -> bool :=
  matches is_lower (fun c => is_lower c || is_upper c || is_digit c).
(** [/^[A-Z][A-Z0-9_]*$/] *)
Definition UPPER_CASE : string -> bool :=
  matches is_upper
    (fun c => is_upper c || is_digit c || (nat_of_ascii c =? 95)%nat).

(** [ValidateCommand.validateNamingConventions] *)
Definition validateNamingConventions (dataModel : DataModel) (result : Result)
  (strict : bool) : Result :=
  let result :=
    fold_left
      (fun result entity =>
         let result :=
           push_warning (negb (PascalCase (e_name entity)))
             ("Entity " +:+ e_name entity +:+ ": name should be in PascalCase")
             result in
         fold_left
           (fun result field =>
              push_warning (negb (camelCase (f_name field)))
                (field_label entity field
                 +:+ "field name should be in camelCase") result)
           (e_fields entity) result)
      (m_entities dataModel) result in
  match m_enums dataModel with
  | Some enums =>
      fold_left
        (fun result enumDef =>
           let result :=
             push_warning (negb (PascalCase (en_name enumDef)))
               ("Enum " +:+ en_name enumDef +:+ ": name should be in PascalCase")
               result in
           fold_left
             (fun result value =>
                push_warning (strict && negb (UPPER_CASE value))
                  ("Enum " +:+ en_name enumDef +:+ "." +:+ value
                   +:+ ": value should be in UPPER_CASE") result)
             (en_values enumDef) result)
        enums result
  | None => result
  end.

(** *** The relationship graph and the cycle search *)

(** The first loop of [checkCircularRelationships]: [entityGraph] is a
    [Map<string, string[]>]; [set] replaces the entry of a name that is
    already there, [get(name)!.push(target)] extends the stored array. *)
Definition add_edges (entity : Entity) (fields : list EntityField)
  (entityGraph : gmap string (list string)) : gmap string (list string) :=
  fold_left
    (fun g field =>
       match f_relationship field with
       | Some relationship =>
           if negb (is_oneToMany (r_type relationship))
           then alter (fun targets => targets ++ [r_target relationship])
                  (e_name entity) g
           else g
       | None => g
       end)
    fields entityGraph.

(** [entityGraph] after the first loop. *)
Definition build_graph (dataModel : DataModel) : gmap string (list string) :=
  fold_left
    (fun g entity =>
       add_edges entity (e_fields entity) (<[e_name entity := []]> g))
    (m_entities dataModel) ∅.

(** The two sets the search shares across calls. *)
Record Dfs : Type := {
  visited : gset string;
  recursionStack : gset string
}.

(** [visited.add(node); recursionStack.add(node);] *)
Definition enter (node : string) (st : Dfs) : Dfs :=
  {| visited := {[node]} ∪ visited st;
     recursionStack := {[node]} ∪ recursionStack st |}.

(** [recursionStack.delete(node);] *)
Definition leave (node : string) (st : Dfs) : Dfs :=
  {| visited := visited st;
     recursionStack := recursionStack st ∖ {[node]} |}.

(** The loop over [neighbors] inside [hasCycle], with the recursive call as a
    parameter; after the loop come [recursionStack.delete(node)] and
    [return false]. An early [return true] leaves the stack as it is. *)
Definition neighbors_loop (call : string -> Dfs -> option (bool * Dfs))
  (node : string) : list string -> Dfs -> option (bool * Dfs) :=
  fix loop neighbors st :=
    match neighbors with
    | [] => Some (false, leave node st)
    | neighbor :: rest =>
        if bool_decide (neighbor ∈ visited st) then
          if bool_decide (neighbor ∈ recursionStack st) then Some (true, st)
          else loop rest st
        else
          match call neighbor st with
          | Some (true, st') => Some (true, st')
          | Some (false, st') => loop rest st'
          | None => None
          end
    end.

(** The closure [hasCycle]. The recursion of the source is on the call
    stack; here it is bounded by [fuel], and [None] means the bound was
    reached. [entityGraph.get(node) || []] *)
Fixpoint hasCycle (fuel : nat) (entityGraph : gmap string (list string))
  (node : string) (st : Dfs) : option (bool * Dfs) :=
  match fuel with
  | O => None
  | S fuel' =>
      neighbors_loop (hasCycle fuel' entityGraph) node
        (default [] (entityGraph !! node)) (enter node st)
  end.

(** [`Potential circular relationship detected involving entity ${name}`] *)
Definition cycle_warning (name : string) : string :=
  "Potential circular relationship detected involving entity " +:+ name.

(** The last loop of [checkCircularRelationships]; the state is the search
    state and the warnings pushed so far. *)
Fixpoint entities_loop (fuel : nat) (entityGraph : gmap string (list string))
  (entities : list Entity) (st : Dfs) (pushed : list string)
  : option (list string) :=
  match entities with
  | [] => Some pushed
  | entity :: rest =>
      if bool_decide (e_name entity ∈ visited st) then
        entities_loop fuel entityGraph rest st pushed
      else
        match hasCycle fuel entityGraph (e_name entity) st with
        | Some (found, st') =>
            entities_loop fuel entityGraph rest st'
              (push_if found (cycle_warning (e_name entity)) pushed)
        | None => None
        end
  end.

(** Every target named by a relationship that is not [oneToMany]. *)
Definition edge_targets (entity : Entity) : list string :=
  omap (fun field =>
          match f_relationship field with
          | Some relationship =>
              if negb (is_oneToMany (r_type relationship))
              then Some (r_target relationship) else None
          | None => None
          end)
       (e_fields entity).

(** A bound on the depth of the search: one more than the number of names
    that occur as an entity or as a target. *)
Definition search_fuel (dataModel : DataModel) : nat :=
  S (length (m_entities dataModel)
     + length (concat (map edge_targets (m_entities dataModel)))).

(** The warnings [checkCircularRelationships] pushes, in order. *)
Definition circular_warnings (dataModel : DataModel) : option (list string) :=
  entities_loop (search_fuel dataModel) (build_graph dataModel)
    (m_entities dataModel) {| visited := ∅; recursionStack := ∅ |} [].

(** [ValidateCommand.checkCircularRelationships]. The [None] arm is never
    taken: [circular_warnings] always returns (see
    [circular_warnings_total]). *)
Definition checkCircularRelationships (dataModel : DataModel) (result : Result)
  : Result :=
  match circular_warnings dataModel with
  | Some pushed =>
      {| valid := valid result; errors := errors result;
         warnings := warnings result ++ pushed |}
  | None => result
  end.

(** [ValidateCommand.validateRelationshipLogic]: an empty body. *)
Definition validateRelationshipLogic (dataModel : DataModel) (result : Result)
  : Result := result.

(** [ValidateCommand.validateBusinessRules] *)
Definition validateBusinessRules (dataModel : DataModel) (result : Result)
  : Result :=
  validateRelationshipLogic dataModel
    (checkCircularRelationships dataModel result).

(** The additional passes of [validateDataModel], after the parser returned. *)
Definition additional_checks (dataModel : DataModel) (result : Result)
  (strict : bool) : Result :=
  let result := validateEntityRelationships dataModel result in
  let result := validateEntityFields dataModel result strict in
  let result := validateNamingConventions dataModel result strict in
  let result := validateBusinessRules dataModel result in
  {| valid := (length (errors result) =? 0)%nat;
     errors := errors result;
     warnings := warnings result |}.

(** [ValidateCommand.validateDataModel]. [file] is what the path holds. *)
Definition validateDataModel (modelPath : string) (file : Parser.ModelFile)
  (result : Result) (strict : bool) : Exc Result :=
  try_catch
    (match file with
     | Parser.Missing =>
         mret (push_error true ("Data model file not found: " +:+ modelPath)
                 result)
     | _ =>
         dataModel ← Parser.parseFromFile modelPath file;
         mret (additional_checks dataModel result strict)
     end)
    (fun error =>
       mret (push_error true
               ("Data model validation failed: " +:+ error_text error) result)).

(** [results.model] at the start of [execute]. *)
Definition fresh : Result := {| valid := false; errors := []; warnings := [] |}.

End Validate.

(* ===================================================================== *)
(** ** generators/nestjs-generator.ts: the entry point *)
(* ===================================================================== *)

Section NestJS.

(** The file builders [generate] awaits. They render text templates from
    [this.config] and [this.dataModel]; each is an [async] method, so each
    can reject. *)
Variable generatePackageJson : ProjectConfig -> Exc GeneratedFile.
Variable generateAppFiles : ProjectConfig -> DataModel -> Exc (list GeneratedFile).
Variable generateEntityFiles :
  ProjectConfig -> DataModel -> Entity -> Exc (list GeneratedFile).
Variable generateDatabaseFiles : ProjectConfig -> Exc (list GeneratedFile).
Variable generateAuthFiles : ProjectConfig -> Exc (list GeneratedFile).
Variable generateConfigFiles : ProjectConfig -> Exc (list GeneratedFile).
Variable generateTestFiles : ProjectConfig -> Exc (list GeneratedFile).

(** [for (const entity of entities) files.push(...await generateEntityFiles(entity))] *)
Fixpoint entity_files_loop (config : ProjectConfig) (dataModel : DataModel)
  (entities : list Entity) (files : list GeneratedFile)
  : Exc (list GeneratedFile) :=
  match entities with
  | [] => mret files
  | entity :: rest =>
      more ← generateEntityFiles config dataModel entity;
      entity_files_loop config dataModel rest (files ++ more)
  end.

(** [if (flag) files.push(...await build())] *)
Definition push_files_if (flag : bool) (build : Exc (list GeneratedFile))
  (files : list GeneratedFile) : Exc (list GeneratedFile) :=
  if flag then more ← build; mret (files ++ more) else mret files.

(** The [try] block of [NestJSGenerator.generate], up to the [return]. *)
Definition nestjs_generate_body (config : ProjectConfig) (dataModel : DataModel)
  : Exc (list GeneratedFile) :=
  let files := [] in
  packageJson ← generatePackageJson config;
  let files := files ++ [packageJson] in
  files ← push_files_if true (generateAppFiles config dataModel) files;
  files ← entity_files_loop config dataModel (m_entities dataModel) files;
  files ← push_files_if true (generateDatabaseFiles config) files;
  features ← read_member "authentication" (c_features config);
  files ← push_files_if (truthy_bool (ft_authentication features))
            (generateAuthFiles config) files;
  files ← push_files_if true (generateConfigFiles config) files;
  features ← read_member "testing" (c_features config);
  push_files_if (truthy_bool (ft_testing features))
    (generateTestFiles config) files.

(** [NestJSGenerator.generate] *)
Definition nestjs_generate (config : ProjectConfig) (dataModel : DataModel)
  : Exc GenerationResult :=
  try_catch (files ← nestjs_generate_body config dataModel;
             mret (success files))
            failure.

End NestJS.

(* ===================================================================== *)
(** ** Sample models *)
(* ===================================================================== *)

(** [{ type: t }] *)
Definition plain (t : TypeTag) : DataType :=
  MkDataType t None None None None None None None None None.

(** [{ type: t, format: f }] *)
Definition formatted (t : TypeTag) (f : string) : DataType :=
  MkDataType t (Some f) None None None None None None None None.

(** [{ type: 'string', validation: { minLength: lo, maxLength: hi } }] *)
Definition sized_string (lo hi : option Z) : DataType :=
  MkDataType TString None None None None None None None None
    (Some {| v_min := None; v_max := None; v_minLength := lo;
             v_maxLength := hi; v_pattern := None; v_email := None;
             v_url := None; v_uuid := None; v_custom := None |}).

(** [{ type: 'enum', enum: values }] *)
Definition enum_of (values : list string) : DataType :=
  MkDataType TEnum None None None (Some values) None None None None None.

(** [{ name, dataType }] *)
Definition simple_field (name : string) (dataType : DataType) : EntityField :=
  {| f_name := name; f_dataType := dataType; f_relationship := None;
     f_isPrimaryKey := None; f_isUnique := None; f_isIndexed := None;
     f_isGenerated := None; f_generationStrategy := None |}.

(** [{ name: 'id', dataType: { type: 'string', format: 'uuid' },
       isPrimaryKey: true, isGenerated: true, generationStrategy: 'uuid' }] *)
Definition id_field : EntityField :=
  {| f_name := "id"; f_dataType := formatted TString "uuid";
     f_relationship := None; f_isPrimaryKey := Some true; f_isUnique := None;
     f_isIndexed := None; f_isGenerated := Some true;
     f_generationStrategy := Some GenUuid |}.

(** [{ type, target, foreignKey }] *)
Definition relation (type : RelationshipType) (target : string)
  (foreignKey : option string) : Relationship :=
  {| r_type := type; r_target := target; r_foreignKey := foreignKey;
     r_joinTable := None; r_cascade := None; r_eager := None;
     r_onDelete := None |}.

(** [{ name, dataType, relationship }] *)
Definition relation_field (name : string) (dataType : DataType)
  (relationship : Relationship) : EntityField :=
  {| f_name := name; f_dataType := dataType;
     f_relationship := Some relationship; f_isPrimaryKey := None;
     f_isUnique := None; f_isIndexed := None; f_isGenerated := None;
     f_generationStrategy := None |}.

(** [{ name, fields }] *)
Definition entity_of (name : string) (fields : list EntityField) : Entity :=
  {| e_name := name; e_tableName := None; e_description := None;
     e_fields := fields; e_timestamps := None; e_softDelete := None |}.

(** [{ name: 'Model', version: '1.0.0', entities, enums }] *)
Definition model_of (entities : list Entity)
  (enums : option (list EnumDefinition)) : DataModel :=
  {| m_name := "Model"; m_version := "1.0.0"; m_description := None;
     m_entities := entities; m_enums := enums |}.

(** The model [DataModelParser.generateSample] returns. *)
Definition sample_user : Entity :=
  {| e_name := "User"; e_tableName := None;
     e_description := Some "User entity for authentication and authorization";
     e_fields := [
       id_field;
       {| f_name := "email";
          f_dataType :=
            MkDataType TString (Some "email") None None None None None None
              None
              (Some {| v_min := None; v_max := None; v_minLength := None;
                       v_maxLength := None; v_pattern := None;
                       v_email := Some true; v_url := None; v_uuid := None;
                       v_custom := None |});
          f_relationship := None; f_isPrimaryKey := None;
          f_isUnique := Some true; f_isIndexed := None; f_isGenerated := None;
          f_generationStrategy := None |};
       simple_field "name" (sized_string (Some 2%Z) (Some 100%Z));
       simple_field "role" (enum_of ["UserRole"]);
       relation_field "posts"
         (MkDataType TArray None (Some (plain TObject)) None None None None
            None None None)
         (relation OneToMany "Post" (Some "authorId"))];
     e_timestamps := Some true; e_softDelete := None |}.

(** The entity [Post] of the sample. *)
Definition sample_post : Entity :=
  {| e_name := "Post"; e_tableName := None;
     e_description := Some "Blog post entity";
     e_fields := [
       id_field;
       simple_field "title" (sized_string (Some 1%Z) (Some 200%Z));
       simple_field "content" (plain TString);
       simple_field "published"
         (MkDataType TBoolean None None None None None None
            (Some (JBool false)) None None);
       simple_field "authorId" (formatted TString "uuid");
       relation_field "author" (plain TObject)
         (relation ManyToOne "User" (Some "authorId"))];
     e_timestamps := Some true; e_softDelete := None |}.

(** The User/Post model with its enum [UserRole]. *)
Definition sample_model : DataModel :=
  {| m_name := "BlogAPI"; m_version := "1.0.0";
     m_description := Some "A simple blog API data model";
     m_entities := [sample_user; sample_post];
     m_enums := Some [
       {| en_name := "UserRole"; en_values := ["ADMIN"; "USER"; "MODERATOR"];
          en_description := Some "User roles for authorization" |}] |}.

(** [config.project] of the sample. *)
Definition sample_project : Project :=
  {| p_name := "BlogAPI"; p_description := None; p_version := "1.0.0";
     p_author := None |}.

(* ===================================================================== *)
(** ** The statements of the specification, as written *)
(* ===================================================================== *)

(** [dataType.validation?.maxLength] *)
Definition maxLength_of (dataType : DataType) : option Z :=
  dt_validation dataType ≫= v_maxLength.

(** The column-type table in the words of the specification: for a string,
    ['varchar'] when [maxLength] is set and at most 255. *)
Definition toColumnType_spec (dataType : DataType) : string :=
  match dt_type dataType with
  | TString =>
      if opt_string_is (dt_format dataType) "uuid" then "uuid"
      else
        match maxLength_of dataType with
        | Some n => if (n <=? 255)%Z then "varchar" else "text"
        | None => "text"
        end
  | TNumber =>
      if opt_string_is (dt_format dataType) "int32" then "int"
      else if opt_string_is (dt_format dataType) "int64" then "bigint"
      else "decimal"
  | TBoolean => "boolean"
  | TDate =>
      if opt_string_is (dt_format dataType) "date" then "date" else "timestamp"
  | TArray | TObject => "json"
  | TEnum => "enum"
  end.

(** The lifecycle events of an entity, as the generator spells them. *)
Definition lifecycle_events : list string := ["Created"; "Updated"; "Deleted"].

(** [`${entity.name.toLowerCase()}.created`] and its two siblings. *)
Definition channel_name (entity : Entity) (event : string) : string :=
  toLowerCase (e_name entity) +:+ "." +:+ toLowerCase event.

(** [`${entity.name}CreatedMessage`] and its two siblings. *)
Definition message_name (entity : Entity) (event : string) : string :=
  e_name entity +:+ event +:+ "Message".

(** The three channels of an entity, by name. *)
Definition entity_channels (entity : Entity) : list (string * JsVal) :=
  map (fun event => (channel_name entity event, channel entity event))
    lifecycle_events.

(** [channel.publish.message] *)
Definition bound_message (ch : JsVal) : option JsVal :=
  match ch with
  | JObj members =>
      match obj_get "publish" members with
      | Some (JObj publish) => obj_get "message" publish
      | _ => None
      end
  | _ => None
  end.

(** The channel set the specification names for the User/Post model. *)
Definition six_channels : list string :=
  ["user.created"; "user.updated"; "user.deleted";
   "post.created"; "post.updated"; "post.deleted"].

(* ===================================================================== *)
(** ** Definitions used by the statements *)
(* ===================================================================== *)

Import Validate.

(** The call returns whenever at most [bound] names of [U] are unvisited. *)
Definition returns (U : gset string)
  (call : string -> Dfs -> option (bool * Dfs)) (bound : nat) : Prop :=
  forall node st,
    node ∈ U -> node ∉ visited st -> size (U ∖ visited st) <= bound ->
    exists found st',
      call node st = Some (found, st') /\ visited st ⊆ visited st'.

(** An entity whose [status] names an enum that no model defines. *)
Definition dangling_enum_entity : Entity :=
  entity_of "Ticket" [id_field; simple_field "status" (enum_of ["Missing"])].

(** The model of that entity, without enum definitions. *)
Definition dangling_enum_model : DataModel :=
  model_of [dangling_enum_entity] None.

(** What a [generate] returns for the outcome of its [try] block. *)
Definition reported (body : Exc (list GeneratedFile)) : GenerationResult :=
  match body with
  | Ok files => success files
  | Throw error =>
      {| gr_success := false; gr_files := [];
         gr_errors := [error_text error]; gr_warnings := [] |}
  end.

(** [for (const [k, v] of kvs) o[k] = v] *)
Definition set_all {A : Type} (kvs o : list (string * A)) : list (string * A) :=
  fold_left (fun acc kv => obj_set kv.1 kv.2 acc) kvs o.

(** The three messages of an entity, by name. *)
Definition entity_messages (project : Project) (entity : Entity)
  : list (string * JsVal) :=
  [(message_name entity "Created",
    message (e_name entity) "Created"
      (Some (JArr [JObj [
         ("name", JStr (e_name entity +:+ "CreatedExample"));
         ("summary",
           JStr ("Example of " +:+ e_name entity +:+ " created event"));
         ("payload", generateExamplePayload project entity "created")]])));
   (message_name entity "Updated", message (e_name entity) "Updated" None);
   (message_name entity "Deleted", message (e_name entity) "Deleted" None)].

(** The channel suffixes of [generateChannels]. *)
Definition lifecycle_suffixes : list string :=
  [".created"; ".updated"; ".deleted"].

(** A configuration for the sample model, with authentication. *)
Definition sample_features : Features :=
  {| ft_authentication := Some true; ft_authorization := None;
     ft_swagger := Some true; ft_asyncapi := Some true; ft_docker := None;
     ft_testing := None; ft_logging := None; ft_monitoring := None |}.

(** [codeforge.config.json] of the sample. *)
Definition sample_config : ProjectConfig :=
  {| c_project := Some sample_project; c_features := Some sample_features |}.

(** A configuration file that holds only [{}]. *)
Definition empty_config : ProjectConfig :=
  {| c_project := None; c_features := None |}.

(** Stand-ins for the serializers and the template builders. *)
Definition render_braces (v : JsVal) : Exc string := Ok "{}".

(** A single empty source file at [path]. *)
Definition one_file (path : string) : list GeneratedFile :=
  [{| gf_path := path; gf_content := ""; gf_type := Source;
      gf_language := Some "typescript" |}].

(** The one file a stand-in entity builder renders. *)
Definition entity_file (entity : Entity) : list GeneratedFile :=
  one_file ("src/" +:+ toLowerCase (e_name entity) +:+ ".entity.ts").

(** [schema.properties] of a schema object. *)
Definition properties_of (schema : list (string * JsVal))
  : list (string * JsVal) :=
  match obj_get "properties" schema with
  | Some (JObj properties) => properties
  | _ => []
  end.

(** The entity with the fields a builder skips taken out. *)
Definition without (skip : EntityField -> bool) (entity : Entity) : Entity :=
  {| e_name := e_name entity; e_tableName := e_tableName entity;
     e_description := e_description entity;
     e_fields := List.filter (fun f => negb (skip f)) (e_fields entity);
     e_timestamps := e_timestamps entity;
     e_softDelete := e_softDelete entity |}.

(** The data type without its validation rules and its [nullable] flag, at
    every level of [items] and [properties]. *)
Fixpoint unconstrained (dataType : DataType) : DataType :=
  match dataType with
  | MkDataType type format items properties enum required _ default
      description _ =>
      MkDataType type format
        (match items with
         | Some it => Some (unconstrained it)
         | None => None
         end)
        (match properties with
         | Some ps =>
             Some (map (fun kv => match kv with
                                  | (key, value) => (key, unconstrained value)
                                  end) ps)
         | None => None
         end)
        enum required None default description None
  end.

(** [{ type: 'boolean', nullable: true }] *)
Definition nullable_boolean : DataType :=
  MkDataType TBoolean None None None None None (Some true) None None None.

(** A pass over an error list is additive when what it pushes does not
    depend on what the list already holds. *)
Definition Appends (step : list string -> list string) : Prop :=
  forall errors, step errors = errors ++ step [].

(** The messages of the duplicate-name rule, given the names seen so far. *)
Fixpoint duplicate_messages (seen : gset string) (entities : list Entity)
  : list string :=
  match entities with
  | [] => []
  | entity :: rest =>
      push_if (bool_decide (e_name entity ∈ seen))
        ("Duplicate entity name: " +:+ e_name entity) []
      ++ duplicate_messages ({[e_name entity]} ∪ seen) rest
  end.

(** The set [entityNames] after the first loop. *)
Definition entity_names (dataModel : DataModel) : gset string :=
  list_to_set (map e_name (m_entities dataModel)).

(** [result] with more errors and warnings pushed. *)
Definition pushed (result : Result) (es ws : list string) : Result :=
  {| valid := valid result;
     errors := errors result ++ es;
     warnings := warnings result ++ ws |}.

(** A pass over the result object is additive when what it pushes does not
    depend on what the object already holds. *)
Definition Additive (step : Result -> Result) : Prop :=
  forall result,
    step result = pushed result (errors (step fresh)) (warnings (step fresh)).

(** The four passes that follow the parser, as one additive pass. *)
Definition passes (dataModel : DataModel) (strict : bool) (result : Result)
  : Result :=
  Validate.validateBusinessRules dataModel
    (validateNamingConventions dataModel
       (validateEntityFields dataModel
          (validateEntityRelationships dataModel result) strict) strict).

(** An order without key whose customer does not exist: three violations. *)
Definition broken_model : DataModel :=
  model_of
    [entity_of "Order"
       [simple_field "total" (plain TNumber);
        relation_field "customer" (plain TObject)
          (relation ManyToOne "Customer" None)]]
    None.

(** [result.valid = result.errors.length === 0] *)
Definition settled (result : Result) : Result :=
  {| valid := (length (errors result) =? 0)%nat;
     errors := errors result;
     warnings := warnings result |}.

(** The message of the primary-key rule: pushed when no field of the entity
    is a primary key. *)
Definition primary_key_message (entity : Entity) : list string :=
  if forallb (fun f => negb (truthy_bool (f_isPrimaryKey f))) (e_fields entity)
  then ["Entity " +:+ e_name entity
        +:+ ": must have at least one primary key field"]
  else [].

(** The relationship lacks the key its type calls for. *)
Definition lacks_key (relationship : Relationship) : bool :=
  (needs_foreignKey (r_type relationship)
   && negb (truthy_string (r_foreignKey relationship)))
  || (is_manyToMany (r_type relationship)
      && negb (truthy_string (r_joinTable relationship))).

(** The warning of [ValidateCommand.validateEntityRelationships]. *)
Definition advisory (entity : Entity) (field : EntityField)
  (relationship : Relationship) : string :=
  if is_manyToMany (r_type relationship)
  then field_label entity field
       +:+ "manyToMany relationship should specify joinTable"
  else field_label entity field
       +:+ relationship_type_name (r_type relationship)
       +:+ " relationship should specify foreignKey".

(** The error of [DataModelParser.validateBusinessRules]. *)
Definition requirement (entity : Entity) (field : EntityField)
  (relationship : Relationship) : string :=
  if is_manyToMany (r_type relationship)
  then field_label entity field +:+ "manyToMany relationship requires joinTable"
  else field_label entity field
       +:+ relationship_type_name (r_type relationship)
       +:+ " relationship requires foreignKey".

(** Every relationship of the model names an entity of the model. *)
Definition targets_exist (dataModel : DataModel) : Prop :=
  forall entity field relationship,
    entity ∈ m_entities dataModel -> field ∈ e_fields entity ->
    f_relationship field = Some relationship ->
    r_target relationship ∈ entity_names dataModel.

(** The sample model with [Post.author] left without [foreignKey]. *)
Definition keyless_post : Entity :=
  {| e_name := "Post"; e_tableName := None;
     e_description := Some "Blog post entity";
     e_fields := [
       id_field;
       simple_field "title" (sized_string (Some 1%Z) (Some 200%Z));
       relation_field "author" (plain TObject)
         (relation ManyToOne "User" None)];
     e_timestamps := Some true; e_softDelete := None |}.

(** The sample model with that [Post]. *)
Definition keyless_model : DataModel :=
  {| m_name := "BlogAPI"; m_version := "1.0.0"; m_description := None;
     m_entities := [sample_user; keyless_post];
     m_enums := m_enums sample_model |}.

(** The last entity of the list that carries the name. *)
Fixpoint last_named (name : string) (entities : list Entity) : option Entity :=
  match entities with
  | [] => None
  | entity :: rest =>
      match last_named name rest with
      | Some later => Some later
      | None => if decide (e_name entity = name) then Some entity else None
      end
  end.

(** Every name the search can meet: the entities and the targets. *)
Definition node_list (dataModel : DataModel) : list string :=
  map e_name (m_entities dataModel)
  ++ concat (map edge_targets (m_entities dataModel)).

(** The same names as a set. *)
Definition nodes (dataModel : DataModel) : gset string :=
  list_to_set (node_list dataModel).

(** [A] and [B], each with a manyToOne relationship to the other. *)
Definition mutual_A : Entity :=
  entity_of "A"
    [id_field;
     simple_field "bId" (formatted TString "uuid");
     relation_field "b" (plain TObject) (relation ManyToOne "B" (Some "bId"))].

(** [B], with its manyToOne relationship to [A]. *)
Definition mutual_B : Entity :=
  entity_of "B"
    [id_field;
     simple_field "aId" (formatted TString "uuid");
     relation_field "a" (plain TObject) (relation ManyToOne "A" (Some "aId"))].

(** The model of the two. *)
Definition mutual_model : DataModel := model_of [mutual_A; mutual_B] None.

(** [A] with a oneToMany relationship to [B], and nothing else. *)
Definition one_sided_A : Entity :=
  entity_of "A"
    [id_field;
     relation_field "bs"
       (MkDataType TArray None (Some (plain TObject)) None None None None
          None None None)
       (relation OneToMany "B" (Some "aId"))].

(** [A] and a [B] without relationships. *)
Definition one_sided_model : DataModel :=
  model_of
    [one_sided_A;
     entity_of "B" [id_field; simple_field "aId" (formatted TString "uuid")]]
    None.

(** What a call that returns leaves behind: the node is visited, nothing
    visited is forgotten, and, when it returns [false], what was on the
    stack before the call still is. *)
Definition settles (call : string -> Dfs -> option (bool * Dfs)) : Prop :=
  forall node st found st',
    node ∉ visited st -> call node st = Some (found, st') ->
    node ∈ visited st' /\ visited st ⊆ visited st'
    /\ (found = false ->
        forall y, y ∈ visited st -> y ∈ recursionStack st ->
                  y ∈ recursionStack st').

(** Three entities, with [C] ahead of the pair and pointing into it. *)
Definition led_pair_model : DataModel :=
  model_of
    [entity_of "C"
       [id_field;
        relation_field "a" (plain TObject) (relation ManyToOne "A" (Some "aId"))];
     mutual_A; mutual_B]
    None.

(* ===================================================================== *)
(** ** Validity, stated on the model *)
(* ===================================================================== *)

(** Some field of the entity is marked [isPrimaryKey: true]. *)
Definition has_primary_key (entity : Entity) : Prop :=
  exists field, field ∈ e_fields entity /\ f_isPrimaryKey field = Some true.

(** What the parser's business rules ask of a model: entity names are
    unique, every entity has a primary key, and every relationship names an
    entity of the model and carries the key its type calls for. *)
Definition well_formed (dataModel : DataModel) : Prop :=
  NoDup (map e_name (m_entities dataModel))
  /\ forall entity,
       entity ∈ m_entities dataModel ->
       has_primary_key entity
       /\ forall field relationship,
            field ∈ e_fields entity ->
            f_relationship field = Some relationship ->
            r_target relationship ∈ map e_name (m_entities dataModel)
            /\ lacks_key relationship = false.

(** The bounds of a data type are in order, and an enum has a value. *)
Definition dataType_ok (dataType : DataType) : Prop :=
  match dt_type dataType with
  | TEnum => exists values, dt_enum dataType = Some values /\ values <> []
  | TString =>
      forall v lo hi,
        dt_validation dataType = Some v ->
        v_minLength v = Some lo -> v_maxLength v = Some hi -> (lo <= hi)%Z
  | TNumber =>
      forall v lo hi,
        dt_validation dataType = Some v ->
        v_min v = Some lo -> v_max v = Some hi -> (lo <= hi)%Z
  | _ => True
  end.

(** The primary-key fields of the entity that are generated. *)
Definition generated_keys (entity : Entity) : list EntityField :=
  List.filter
    (fun f => truthy_bool (f_isPrimaryKey f) && truthy_bool (f_isGenerated f))
    (e_fields entity).

(** What the field pass of the validate command asks of an entity. *)
Definition fields_ok (entity : Entity) : Prop :=
  NoDup (map f_name (e_fields entity))
  /\ has_primary_key entity
  /\ length (generated_keys entity) <= 1
  /\ forall field, field ∈ e_fields entity -> dataType_ok (f_dataType field).

(** One result reports what another does, and possibly more warnings. *)
Definition warns_more (lax strict : Result) : Prop :=
  valid lax = valid strict
  /\ errors lax = errors strict
  /\ warnings lax `sublist_of` warnings strict.

(* ===================================================================== *)
(** ** Cycles of relationships *)
(* ===================================================================== *)

(** An entity named [source] has a relationship, other than oneToMany, whose
    target is [target]. *)
Definition refers (dataModel : DataModel) (source target : string) : Prop :=
  exists entity,
    entity ∈ m_entities dataModel /\ e_name entity = source
    /\ target ∈ edge_targets entity.

(** Following such relationships from [name] leads into a cycle of them. *)
Definition reaches_cycle (dataModel : DataModel) (name : string) : Prop :=
  exists node,
    rtc (refers dataModel) name node /\ tc (refers dataModel) node node.

(** An edge of [entityGraph]. *)
Definition edge (entityGraph : gmap string (list string)) (node neighbor : string)
  : Prop :=
  neighbor ∈ default [] (entityGraph !! node).

(** The node leads into a cycle of the graph. *)
Definition bad (entityGraph : gmap string (list string)) (node : string) : Prop :=
  exists on_cycle,
    rtc (edge entityGraph) node on_cycle
    /\ tc (edge entityGraph) on_cycle on_cycle.

(** A call of the search is sound when, started on a stack whose members
    are bad or lead to [node], it answers [true] only for a bad [node],
    leaving only bad nodes on the stack, and restores the stack when it
    answers [false]. *)
Definition sound_call (entityGraph : gmap string (list string))
  (call : string -> Dfs -> option (bool * Dfs)) : Prop :=
  forall node st found st',
    call node st = Some (found, st') ->
    node ∉ visited st ->
    recursionStack st ⊆ visited st ->
    (forall y, y ∈ recursionStack st ->
               bad entityGraph y \/ rtc (edge entityGraph) y node) ->
    recursionStack st' ⊆ visited st'
    /\ (found = true ->
        bad entityGraph node
        /\ forall y, y ∈ recursionStack st' -> bad entityGraph y)
    /\ (found = false -> recursionStack st' = recursionStack st).

(** The nodes the search is done with are ranked: every edge from one of
    them goes to another one, of lower rank. *)
Definition ranked (entityGraph : gmap string (list string))
  (rank : string -> nat) (st : Dfs) : Prop :=
  forall node neighbor,
    node ∈ visited st -> node ∉ recursionStack st ->
    edge entityGraph node neighbor ->
    neighbor ∈ visited st /\ (neighbor ∉ recursionStack st)
    /\ rank neighbor < rank node.

(** A call that answers [false] extends the ranking to its node. *)
Definition ranks_call (entityGraph : gmap string (list string))
  (call : string -> Dfs -> option (bool * Dfs)) : Prop :=
  forall node st st' rank,
    call node st = Some (false, st') ->
    node ∉ visited st ->
    recursionStack st ⊆ visited st ->
    ranked entityGraph rank st ->
    (exists rank', ranked entityGraph rank' st')
    /\ visited st ⊆ visited st'
    /\ node ∈ visited st'
    /\ recursionStack st' = recursionStack st.

(* ===================================================================== *)
(** ** References inside the generated documents *)
(* ===================================================================== *)

(** Every string held by a [$ref] member, anywhere inside the value. *)
Fixpoint refs_of (v : JsVal) : list string :=
  match v with
  | JArr xs => flat_map refs_of xs
  | JObj kvs =>
      flat_map
        (fun kv =>
           match kv with
           | (k, JStr s) => if String.eqb k "$ref" then [s] else []
           | (_, inner) => refs_of inner
           end)
        kvs
  | _ => []
  end.

(** [document[k1][k2]...] *)
Fixpoint lookup_path (path : list string) (document : JsVal) : option JsVal :=
  match path with
  | [] => Some document
  | k :: rest =>
      match document with
      | JObj kvs => obj_get k kvs ≫= lookup_path rest
      | _ => None
      end
  end.

(** The reference is [#/components/<section>/<name>] and the document has
    a member [components.<section>.<name>]. *)
Definition resolves (document : JsVal) (reference : string) : Prop :=
  exists section name,
    reference = "#/components/" +:+ section +:+ "/" +:+ name
    /\ is_Some (lookup_path ["components"; section; name] document).

(** The two path items [generatePaths] writes for an entity. *)
Definition path_items (entity : Entity) : list (string * JsVal) :=
  [("/" +:+ toLowerCase (e_name entity) +:+ "s",
    JObj [("get", generateListOperation entity);
          ("post", generateCreateOperation entity)]);
   (("/" +:+ toLowerCase (e_name entity) +:+ "s") +:+ "/{id}",
    JObj [("get", generateGetOperation entity);
          ("put", generateUpdateOperation entity);
          ("delete", generateDeleteOperation entity)])].

(** [schema.required] of a schema object. *)
Definition required_of (schema : list (string * JsVal)) : list JsVal :=
  match obj_get "required" schema with
  | Some (JArr names) => names
  | _ => []
  end.

(** [o[k]] of a value, [undefined] when the value is no object. *)
Definition member (k : string) (v : JsVal) : JsVal :=
  match v with
  | JObj kvs => default JUndefined (obj_get k kvs)
  | _ => JUndefined
  end.

(** The JSON Schema type of a value; [undefined] has none. *)
Definition json_type (v : JsVal) : option string :=
  match v with
  | JUndefined => None
  | JNull => Some "null"
  | JBool _ => Some "boolean"
  | JNum _ => Some "integer"
  | JDec _ _ => Some "number"
  | JStr _ => Some "string"
  | JArr _ => Some "array"
  | JObj _ => Some "object"
  end.

(** The value is of the type the schema declares: the same type, or an
    integer where a number is asked for. A schema without [type] admits
    every value, and a member that is [undefined] is not serialised. *)
Definition conforms (value schema : JsVal) : Prop :=
  match json_type value, member "type" schema with
  | Some actual, JStr declared =>
      actual = declared \/ (actual = "integer" /\ declared = "number")
  | _, _ => True
  end.

(** [example.data] of an example payload. *)
Definition example_data (payload : JsVal) : list (string * JsVal) :=
  match member "data" payload with
  | JObj data => data
  | _ => []
  end.

(** Every entry of [schema.required] is the name of a property of the
    schema. *)
Definition names_its_properties (schema : list (string * JsVal)) : Prop :=
  forall required,
    required ∈ required_of schema ->
    exists name,
      required = JStr name /\ name ∈ obj_keys (properties_of schema).

(** The example has the keys of the properties, in their order, and at
    each key a value of the declared type. *)
Definition follows (example properties : list (string * JsVal)) : Prop :=
  Forall2 (fun value property =>
             fst value = fst property /\ conforms (snd value) (snd property))
    example properties.

(* ===================================================================== *)
(** ** generators/nestjs-generator.ts: the files of an entity *)
(* ===================================================================== *)

(** A template literal, line by line. *)
Definition lines (text : list string) : string := join newline text.

(** [s.endsWith(suffix)] *)
Fixpoint endsWith (suffix s : string) : bool :=
  String.eqb suffix s
  || match s with
     | EmptyString => false
     | String _ rest => endsWith suffix rest
     end.

(** [s.slice(0, -1)] *)
Fixpoint drop_last (s : string) : string :=
  match s with
  | EmptyString => EmptyString
  | String c EmptyString => EmptyString
  | String c rest => String c (drop_last rest)
  end.

(** [NestJSGenerator.pluralize], also the [pluralize] template helper. *)
Definition pluralize (str : string) : string :=
  if endsWith "y" str then drop_last str +:+ "ies"
  else if endsWith "s" str || endsWith "sh" str || endsWith "ch" str
  then str +:+ "es"
  else str +:+ "s".

(** [`${x}`] for an optional string member: [undefined] prints as such. *)
Definition interpolate (x : option string) : string := default "undefined" x.

(** [values.map(v => `'${v}'`).join(sep)] *)
Definition quoted (sep : string) (values : list string) : string :=
  join sep (map (fun v => "'" +:+ v +:+ "'") values).

(** [NestJSGenerator.dataTypeToTypeScript]; the recursive call on [items]
    passes no [relationshipTarget]. *)
Fixpoint dataTypeToTypeScript (dataType : DataType)
  (relationshipTarget : option string) : string :=
  match dataType with
  | MkDataType type _ items _ enum _ _ _ _ _ =>
      if truthy_string relationshipTarget then
        if is_array type then interpolate relationshipTarget +:+ "[]"
        else interpolate relationshipTarget
      else
        match type with
        | TString => "string"
        | TNumber => "number"
        | TBoolean => "boolean"
        | TDate => "Date"
        | TArray =>
            let itemType :=
              match items with
              | Some it => dataTypeToTypeScript it None
              | None => "any"
              end in
            itemType +:+ "[]"
        | TObject => "object"
        | TEnum =>
            match enum with
            | Some values =>
                if Array_isArray values then quoted " | " values else "string"
            | None => "string"
            end
        end
  end.

(** [NestJSGenerator.getRelationshipDecorator] *)
Definition getRelationshipDecorator (field : EntityField) : string :=
  match f_relationship field with
  | None => ""
  | Some relationship =>
      let target := r_target relationship in
      let options :=
        push_if (truthy_bool (r_eager relationship)) "eager: true"
          (push_if (truthy_bool (r_cascade relationship)) "cascade: true" []) in
      let optionsStr :=
        if (0 <? length options)%nat
        then ", { " +:+ join ", " options +:+ " }" else "" in
      match r_type relationship with
      | OneToOne => "@OneToOne(() => " +:+ target +:+ optionsStr +:+ ")"
      | OneToMany =>
          "@OneToMany(() => " +:+ target +:+ ", " +:+ toLowerCase target
          +:+ " => " +:+ toLowerCase target +:+ "."
          +:+ interpolate (r_foreignKey relationship) +:+ optionsStr +:+ ")"
      | ManyToOne => "@ManyToOne(() => " +:+ target +:+ optionsStr +:+ ")"
      | ManyToMany => "@ManyToMany(() => " +:+ target +:+ optionsStr +:+ ")"
      end
  end.

(** The [@ApiProperty(..)] line, the same text in [generateEntityField] and
    in [generateDtoField]. *)
Definition apiProperty_line (dataType : DataType) : string :=
  let apiPropertyOptions :=
    push_if (truthy_string (dt_description dataType))
      ("description: '" +:+ interpolate (dt_description dataType) +:+ "'") [] in
  let apiPropertyOptions :=
    match dt_enum dataType with
    | Some values =>
        push_if (is_enum (dt_type dataType))
          ("enum: [" +:+ quoted ", " values +:+ "]") apiPropertyOptions
    | None => apiPropertyOptions
    end in
  let apiPropertyStr :=
    if (0 <? length apiPropertyOptions)%nat
    then "{ " +:+ join ", " apiPropertyOptions +:+ " }" else "" in
  "  @ApiProperty(" +:+ apiPropertyStr +:+ ")".

Section EntityFiles.

(** [JSON.stringify(value)] on a value read from JSON. *)
Variable stringify : JsVal -> string.

(** [NestJSGenerator.generateEntityField] *)
Definition generateEntityField (field : EntityField) : string :=
  let dataType := f_dataType field in
  let lines_ :=
    match f_relationship field with
    | Some relationship =>
        let decorator := getRelationshipDecorator field in
        push_if (needs_foreignKey (r_type relationship))
          ("  @JoinColumn({ name: '"
           +:+ interpolate (r_foreignKey relationship) +:+ "' })")
          ["  " +:+ decorator]
    | None =>
        if truthy_bool (f_isPrimaryKey field) then
          if truthy_bool (f_isGenerated field) then
            ["  @PrimaryGeneratedColumn('"
             +:+ match f_generationStrategy field with
                 | Some GenIncrement => "increment"
                 | _ => "uuid"
                 end
             +:+ "')"]
          else ["  @PrimaryColumn()"]
        else
          let columnOptions :=
            push_if (truthy_bool (f_isUnique field)) "unique: true" [] in
          let columnOptions :=
            push_if (truthy_bool (dt_nullable dataType)) "nullable: true"
              columnOptions in
          let columnOptions :=
            match dt_default dataType with
            | Some value => columnOptions ++ ["default: " +:+ stringify value]
            | None => columnOptions
            end in
          let columnType := dataTypeToColumnType dataType in
          let optionsStr :=
            if (0 <? length columnOptions)%nat
            then "{ type: '" +:+ columnType +:+ "', "
                 +:+ join ", " columnOptions +:+ " }"
            else "'" +:+ columnType +:+ "'" in
          ["  @Column(" +:+ optionsStr +:+ ")"]
    end in
  let lines_ := lines_ ++ [apiProperty_line dataType] in
  let tsType :=
    dataTypeToTypeScript dataType (r_target <$> f_relationship field) in
  let optional :=
    if truthy_bool (dt_nullable dataType)
       || negb (truthy_bool (dt_required dataType))
    then "?" else "" in
  let lines_ :=
    lines_ ++ ["  " +:+ f_name field +:+ optional +:+ ": " +:+ tsType +:+ ";"] in
  join newline lines_.

(** [`import { ${target} } from '../${target.toLowerCase()}/..entity';`] for a
    field with a relationship. *)
Definition relationship_import (field : EntityField) : string :=
  let target := interpolate (r_target <$> f_relationship field) in
  "import { " +:+ target +:+ " } from '../" +:+ toLowerCase target +:+ "/"
  +:+ toLowerCase target +:+ ".entity';".

Definition timestamp_columns : string :=
  lines [
    "";
    "  @CreateDateColumn()";
    "  @ApiProperty({ description: 'Creation timestamp' })";
    "  createdAt: Date;";
    "";
    "  @UpdateDateColumn()";
    "  @ApiProperty({ description: 'Last update timestamp' })";
    "  updatedAt: Date;"].

Definition delete_column : string :=
  lines [
    "";
    "  @DeleteDateColumn()";
    "  deletedAt?: Date;"].

(** [xs.some(p)] *)
Definition array_some {A : Type} (p : A -> bool) (xs : list A) : bool := existsb p xs.

(** [NestJSGenerator.generateEntityClass] *)
Definition generateEntityClass (entity : Entity) : string :=
  let imports := ["Entity"; "Column"] in
  let hasPrimaryKey :=
    array_some (fun f => truthy_bool (f_isPrimaryKey f)) (e_fields entity) in
  let imports :=
    if hasPrimaryKey
    then imports ++ ["PrimaryGeneratedColumn"; "PrimaryColumn"] else imports in
  let hasRelationships :=
    array_some (fun f => truthy_opt (f_relationship f)) (e_fields entity) in
  let imports :=
    if hasRelationships
    then imports ++ ["OneToOne"; "OneToMany"; "ManyToOne"; "ManyToMany";
                     "JoinColumn"]
    else imports in
  let imports :=
    if truthy_bool (e_timestamps entity)
    then imports ++ ["CreateDateColumn"; "UpdateDateColumn"] else imports in
  let imports :=
    if truthy_bool (e_softDelete entity)
    then imports ++ ["DeleteDateColumn"] else imports in
  lines [
    "import { " +:+ join ", " imports +:+ " } from 'typeorm';";
    "import { ApiProperty } from '@nestjs/swagger';";
    join newline (map relationship_import (List.filter (fun f => truthy_opt (f_relationship f)) (e_fields entity)));
    "";
    "@Entity('" +:+ or_string (e_tableName entity) (toLowerCase (e_name entity)) +:+ "s')";
    "export class " +:+ e_name entity +:+ " {";
    join (newline +:+ newline) (map generateEntityField (e_fields entity));
    (if truthy_bool (e_timestamps entity) then timestamp_columns else "");
    (if truthy_bool (e_softDelete entity) then delete_column else "");
    "}";
    ""].

(** [NestJSGenerator.generateDtoField]; [usedValidators] is the set the
    caller shares between the fields. *)
Definition generateDtoField (field : EntityField) (usedValidators : gset string)
  : string * gset string :=
  let dataType := f_dataType field in
  let use (validators : list string * gset string) (decorator name : string) :=
    (validators.1 ++ [decorator], {[name]} ∪ validators.2) in
  let st := ([], usedValidators) in
  let st :=
    if truthy_bool (dt_required dataType) then
      match dt_type dataType with
      | TString => use st "@IsString()" "IsString"
      | TNumber => use st "@IsNumber()" "IsNumber"
      | TBoolean => use st "@IsBoolean()" "IsBoolean"
      | TDate => use st "@IsDate()" "IsDate"
      | _ => st
      end
    else use st "@IsOptional()" "IsOptional" in
  let st :=
    if opt_string_is (dt_format dataType) "uuid"
    then use st "@IsUUID()" "IsUUID" else st in
  let st :=
    match dt_enum dataType with
    | Some values =>
        if is_enum (dt_type dataType)
        then use st ("@IsEnum([" +:+ quoted ", " values +:+ "])") "IsEnum"
        else st
    | None => st
    end in
  let lines_ := [apiProperty_line dataType] in
  let lines_ := lines_ ++ map (fun validator => "  " +:+ validator) st.1 in
  let tsType := dataTypeToTypeScript dataType None in
  let optional := if negb (truthy_bool (dt_required dataType)) then "?" else "" in
  let lines_ :=
    lines_ ++ ["  " +:+ f_name field +:+ optional +:+ ": " +:+ tsType +:+ ";"] in
  (join newline lines_, st.2).

(** The fields a [Create..Dto] class declares:
    [!f.isPrimaryKey && !f.isGenerated && !f.relationship]. *)
Definition dto_fields (entity : Entity) : list EntityField :=
  List.filter
    (fun f => negb (truthy_bool (f_isPrimaryKey f))
              && negb (truthy_bool (f_isGenerated f))
              && negb (truthy_opt (f_relationship f)))
    (e_fields entity).

(** [fields.map(field => this.generateDtoField(field, usedValidators))] *)
Definition dto_members (fields : list EntityField) (usedValidators : gset string)
  : list string * gset string :=
  fold_left
    (fun st field =>
       let member := generateDtoField field st.2 in
       (st.1 ++ [member.1], member.2))
    fields ([], usedValidators).

(** [NestJSGenerator.generateCreateDto] *)
Definition generateCreateDto (entity : Entity) : string :=
  let imports := ["IsString"; "IsNumber"; "IsBoolean"; "IsDate"; "IsOptional";
                  "IsEnum"; "IsUUID"] in
  let usedValidators : gset string := ∅ in
  let members := (dto_members (dto_fields entity) usedValidators).1 in
  lines [
    "import { ApiProperty } from '@nestjs/swagger';";
    "import { " +:+ join ", " imports +:+ " } from 'class-validator';";
    "";
    "export class Create" +:+ e_name entity +:+ "Dto {";
    join (newline +:+ newline) members;
    "}";
    ""].

(** [NestJSGenerator.generateUpdateDto] *)
Definition generateUpdateDto (entity : Entity) : string :=
  lines [
    "import { PartialType } from '@nestjs/swagger';";
    "import { Create" +:+ e_name entity +:+ "Dto } from './create-" +:+ toLowerCase (e_name entity) +:+ ".dto';";
    "";
    "export class Update" +:+ e_name entity +:+ "Dto extends PartialType(Create" +:+ e_name entity +:+ "Dto) {}";
    ""].

(** [NestJSGenerator.generateModule] *)
Definition generateModule (entity : Entity) : string :=
  let entityName := e_name entity in
  let entityPath := toLowerCase entityName in
  lines [
    "import { Module } from '@nestjs/common';";
    "import { TypeOrmModule } from '@nestjs/typeorm';";
    "import { " +:+ entityName +:+ "Service } from './" +:+ entityPath +:+ ".service';";
    "import { " +:+ entityName +:+ "Controller } from './" +:+ entityPath +:+ ".controller';";
    "import { " +:+ entityName +:+ " } from './" +:+ entityPath +:+ ".entity';";
    "";
    "@Module({";
    "  imports: [TypeOrmModule.forFeature([" +:+ entityName +:+ "])],";
    "  controllers: [" +:+ entityName +:+ "Controller],";
    "  providers: [" +:+ entityName +:+ "Service],";
    "  exports: [" +:+ entityName +:+ "Service],";
    "})";
    "export class " +:+ entityName +:+ "Module {}";
    ""].

(** [NestJSGenerator.generateService] *)
Definition generateService (entity : Entity) : string :=
  let entityName := e_name entity in
  let entityPath := toLowerCase entityName in
  lines [
    "import { Injectable, NotFoundException } from '@nestjs/common';";
    "import { InjectRepository } from '@nestjs/typeorm';";
    "import { Repository } from 'typeorm';";
    "import { " +:+ entityName +:+ " } from './" +:+ entityPath +:+ ".entity';";
    "import { Create" +:+ entityName +:+ "Dto } from './dto/create-" +:+ entityPath +:+ ".dto';";
    "import { Update" +:+ entityName +:+ "Dto } from './dto/update-" +:+ entityPath +:+ ".dto';";
    "";
    "@Injectable()";
    "export class " +:+ entityName +:+ "Service {";
    "  constructor(";
    "    @InjectRepository(" +:+ entityName +:+ ")";
    "    private readonly " +:+ entityPath +:+ "Repository: Repository<" +:+ entityName +:+ ">,";
    "  ) {}";
    "";
    "  async create(create" +:+ entityName +:+ "Dto: Create" +:+ entityName +:+ "Dto): Promise<" +:+ entityName +:+ "> {";
    "    const " +:+ entityPath +:+ " = this." +:+ entityPath +:+ "Repository.create(create" +:+ entityName +:+ "Dto);";
    "    return await this." +:+ entityPath +:+ "Repository.save(" +:+ entityPath +:+ ");";
    "  }";
    "";
    "  async findAll(page: number = 1, limit: number = 10): Promise<{ data: " +:+ entityName +:+ "[]; total: number; page: number; limit: number }> {";
    "    const [data, total] = await this." +:+ entityPath +:+ "Repository.findAndCount({";
    "      skip: (page - 1) * limit,";
    "      take: limit,";
    "      order: { createdAt: 'DESC' },";
    "    });";
    "";
    "    return {";
    "      data,";
    "      total,";
    "      page,";
    "      limit,";
    "    };";
    "  }";
    "";
    "  async findOne(id: string): Promise<" +:+ entityName +:+ "> {";
    "    const " +:+ entityPath +:+ " = await this." +:+ entityPath +:+ "Repository.findOne({";
    "      where: { id },";
    "    });";
    "";
    "    if (!" +:+ entityPath +:+ ") {";
    "      throw new NotFoundException(`" +:+ entityName +:+ " with ID ${id} not found`);";
    "    }";
    "";
    "    return " +:+ entityPath +:+ ";";
    "  }";
    "";
    "  async update(id: string, update" +:+ entityName +:+ "Dto: Update" +:+ entityName +:+ "Dto): Promise<" +:+ entityName +:+ "> {";
    "    const " +:+ entityPath +:+ " = await this.findOne(id);";
    "";
    "    Object.assign(" +:+ entityPath +:+ ", update" +:+ entityName +:+ "Dto);";
    "";
    "    return await this." +:+ entityPath +:+ "Repository.save(" +:+ entityPath +:+ ");";
    "  }";
    "";
    "  async remove(id: string): Promise<void> {";
    "    const " +:+ entityPath +:+ " = await this.findOne(id);";
    "    await this." +:+ entityPath +:+ "Repository.remove(" +:+ entityPath +:+ ");";
    "  }";
    "}";
    ""].

(** [NestJSGenerator.generateController]; [this.config.features] is read
    for the [@ApiBearerAuth()] line. *)
Definition generateController (config : ProjectConfig) (entity : Entity)
  : Exc string :=
  let entityName := e_name entity in
  let entityPath := toLowerCase entityName in
  let pluralPath := pluralize entityPath in
  features ← read_member "authentication" (c_features config);
  mret (lines [
    "import {";
    "  Controller,";
    "  Get,";
    "  Post as HttpPost,";
    "  Body,";
    "  Patch,";
    "  Param,";
    "  Delete,";
    "  Query,";
    "  ParseIntPipe,";
    "  DefaultValuePipe,";
    "} from '@nestjs/common';";
    "import {";
    "  ApiTags,";
    "  ApiOperation,";
    "  ApiResponse,";
    "  ApiParam,";
    "  ApiQuery,";
    "  ApiBearerAuth,";
    "} from '@nestjs/swagger';";
    "import { " +:+ entityName +:+ "Service } from './" +:+ entityPath +:+ ".service';";
    "import { Create" +:+ entityName +:+ "Dto } from './dto/create-" +:+ entityPath +:+ ".dto';";
    "import { Update" +:+ entityName +:+ "Dto } from './dto/update-" +:+ entityPath +:+ ".dto';";
    "import { " +:+ entityName +:+ " } from './" +:+ entityPath +:+ ".entity';";
    "";
    "@ApiTags('" +:+ entityName +:+ "')";
    "@Controller('" +:+ pluralPath +:+ "')";
    (if truthy_bool (ft_authentication features) then "@ApiBearerAuth()" else "");
    "export class " +:+ entityName +:+ "Controller {";
    "  constructor(private readonly " +:+ entityPath +:+ "Service: " +:+ entityName +:+ "Service) {}";
    "";
    "  @HttpPost()";
    "  @ApiOperation({ summary: 'Create a new " +:+ toLowerCase entityName +:+ "' })";
    "  @ApiResponse({ status: 201, description: 'The " +:+ toLowerCase entityName +:+ " has been successfully created.', type: " +:+ entityName +:+ " })";
    "  @ApiResponse({ status: 400, description: 'Bad Request.' })";
    "  create(@Body() create" +:+ entityName +:+ "Dto: Create" +:+ entityName +:+ "Dto): Promise<" +:+ entityName +:+ "> {";
    "    return this." +:+ entityPath +:+ "Service.create(create" +:+ entityName +:+ "Dto);";
    "  }";
    "";
    "  @Get()";
    "  @ApiOperation({ summary: 'Get all " +:+ pluralPath +:+ "' })";
    "  @ApiQuery({ name: 'page', required: false, type: Number, description: 'Page number' })";
    "  @ApiQuery({ name: 'limit', required: false, type: Number, description: 'Items per page' })";
    "  @ApiResponse({ status: 200, description: 'List of " +:+ pluralPath +:+ "', type: [" +:+ entityName +:+ "] })";
    "  findAll(";
    "    @Query('page', new DefaultValuePipe(1), ParseIntPipe) page: number,";
    "    @Query('limit', new DefaultValuePipe(10), ParseIntPipe) limit: number,";
    "  ) {";
    "    return this." +:+ entityPath +:+ "Service.findAll(page, limit);";
    "  }";
    "";
    "  @Get(':id')";
    "  @ApiOperation({ summary: 'Get a " +:+ toLowerCase entityName +:+ " by ID' })";
    "  @ApiParam({ name: 'id', description: '" +:+ entityName +:+ " ID' })";
    "  @ApiResponse({ status: 200, description: 'The " +:+ toLowerCase entityName +:+ " has been found.', type: " +:+ entityName +:+ " })";
    "  @ApiResponse({ status: 404, description: '" +:+ entityName +:+ " not found.' })";
    "  findOne(@Param('id') id: string): Promise<" +:+ entityName +:+ "> {";
    "    return this." +:+ entityPath +:+ "Service.findOne(id);";
    "  }";
    "";
    "  @Patch(':id')";
    "  @ApiOperation({ summary: 'Update a " +:+ toLowerCase entityName +:+ "' })";
    "  @ApiParam({ name: 'id', description: '" +:+ entityName +:+ " ID' })";
    "  @ApiResponse({ status: 200, description: 'The " +:+ toLowerCase entityName +:+ " has been successfully updated.', type: " +:+ entityName +:+ " })";
    "  @ApiResponse({ status: 404, description: '" +:+ entityName +:+ " not found.' })";
    "  update(";
    "    @Param('id') id: string,";
    "    @Body() update" +:+ entityName +:+ "Dto: Update" +:+ entityName +:+ "Dto,";
    "  ): Promise<" +:+ entityName +:+ "> {";
    "    return this." +:+ entityPath +:+ "Service.update(id, update" +:+ entityName +:+ "Dto);";
    "  }";
    "";
    "  @Delete(':id')";
    "  @ApiOperation({ summary: 'Delete a " +:+ toLowerCase entityName +:+ "' })";
    "  @ApiParam({ name: 'id', description: '" +:+ entityName +:+ " ID' })";
    "  @ApiResponse({ status: 204, description: 'The " +:+ toLowerCase entityName +:+ " has been successfully deleted.' })";
    "  @ApiResponse({ status: 404, description: '" +:+ entityName +:+ " not found.' })";
    "  remove(@Param('id') id: string): Promise<void> {";
    "    return this." +:+ entityPath +:+ "Service.remove(id);";
    "  }";
    "}";
    ""]).

(** A TypeScript source file. *)
Definition source_file (path content : string) : GeneratedFile :=
  {| gf_path := path; gf_content := content; gf_type := Source;
     gf_language := Some "typescript" |}.

(** [NestJSGenerator.generateEntityFiles] *)
Definition generateEntityFiles (config : ProjectConfig) (entity : Entity)
  : Exc (list GeneratedFile) :=
  let entityName := e_name entity in
  let entityPath := toLowerCase entityName in
  let files :=
    [source_file ("src/" +:+ entityPath +:+ "/" +:+ entityPath +:+ ".entity.ts")
       (generateEntityClass entity);
     source_file ("src/" +:+ entityPath +:+ "/dto/create-" +:+ entityPath
                  +:+ ".dto.ts")
       (generateCreateDto entity);
     source_file ("src/" +:+ entityPath +:+ "/dto/update-" +:+ entityPath
                  +:+ ".dto.ts")
       (generateUpdateDto entity);
     source_file ("src/" +:+ entityPath +:+ "/" +:+ entityPath +:+ ".service.ts")
       (generateService entity)] in
  controller ← generateController config entity;
  mret (files
        ++ [source_file ("src/" +:+ entityPath +:+ "/" +:+ entityPath
                         +:+ ".controller.ts") controller;
            source_file ("src/" +:+ entityPath +:+ "/" +:+ entityPath
                         +:+ ".module.ts") (generateModule entity)]).

End EntityFiles.

(** An entity whose lower-cased name ends in [y], alone in a model. *)
Definition category : Entity := entity_of "Category" [id_field].

Definition category_model : DataModel := model_of [category] None.

(* ===================================================================== *)
(** ** cli/commands/validate.ts: the configuration check and the report *)
(* ===================================================================== *)

(** Regular expressions over the characters of a string, matched by
    derivatives. *)
Inductive Regex : Type :=
| RNone
| REmpty
| RChar (accepts : ascii -> bool)
| RSeq (r s : Regex)
| RAlt (r s : Regex)
| RStar (r : Regex).

(** The expression accepts the empty string. *)
Fixpoint nullable (r : Regex) : bool :=
  match r with
  | RNone => false
  | REmpty => true
  | RChar _ => false
  | RSeq r s => nullable r && nullable s
  | RAlt r s => nullable r || nullable s
  | RStar _ => true
  end.

(** What is left to match after the character [c]. *)
Fixpoint derivative (c : ascii) (r : Regex) : Regex :=
  match r with
  | RNone => RNone
  | REmpty => RNone
  | RChar accepts => if accepts c then REmpty else RNone
  | RSeq r s =>
      if nullable r
      then RAlt (RSeq (derivative c r) s) (derivative c s)
      else RSeq (derivative c r) s
  | RAlt r s => RAlt (derivative c r) (derivative c s)
  | RStar r => RSeq (derivative c r) (RStar r)
  end.

(** [/^r$/.test(s)] *)
Fixpoint regex_test (r : Regex) (s : string) : bool :=
  match s with
  | EmptyString => nullable r
  | String c rest => regex_test (derivative c r) rest
  end.

(** [r+] *)
Definition one_or_more (r : Regex) : Regex := RSeq r (RStar r).

(** [\.] *)
Definition dot : Regex := RChar (Ascii.eqb ".").

(** [/^\d+\.\d+\.\d+$/]; [\d] is [is_digit]. *)
Definition semver : Regex :=
  RSeq (one_or_more (RChar is_digit))
    (RSeq dot
       (RSeq (one_or_more (RChar is_digit))
          (RSeq dot (one_or_more (RChar is_digit))))).

(** The configuration file as [validateConfig] reads it: parsed JSON, no
    member of which is known to be there; a member that is there has the
    type [ProjectConfig] declares for it. Of each object only the members
    the check reads are kept. *)
Record ConfigProject : Type := {
  cp_name : option string;
  cp_version : option string
}.

Record ConfigDatabase : Type := {
  cd_type : option string
}.

Record ConfigGithub : Type := {
  cg_owner : option string
}.

Record ConfigDocument : Type := {
  cf_project : option ConfigProject;
  cf_database : option ConfigDatabase;
  cf_features : option Features;
  cf_github : option ConfigGithub
}.

(** What the configuration path holds: nothing, a file [fs.readJson] throws
    on, the JSON value [null], or any other JSON value (one that is no
    object has none of the members). *)
Inductive ConfigFile : Type :=
| ConfigMissing
| ConfigUnreadable (error : Thrown)
| ConfigNull
| ConfigRead (config : ConfigDocument).

(** [['postgresql', 'mysql', 'mongodb', 'sqlite']] *)
Definition database_types : list string :=
  ["postgresql"; "mysql"; "mongodb"; "sqlite"].

(** [xs.includes(x)] for strings. *)
Definition array_includes (xs : list string) (x : string) : bool :=
  existsb (String.eqb x) xs.

(** The checks of [validateConfig] on [config.project]. *)
Definition project_checks (config : ConfigDocument) (result : Result) : Result :=
  match cf_project config with
  | None => push_error true "Missing required field: project" result
  | Some project =>
      let result :=
        push_error (negb (truthy_string (cp_name project)))
          "Missing required field: project.name" result in
      if negb (truthy_string (cp_version project))
      then push_error true "Missing required field: project.version" result
      else
        push_error
          (negb (regex_test semver (interpolate (cp_version project))))
          "Invalid version format. Expected semver (x.y.z)" result
  end.

(** The checks of [validateConfig] on [config.database]. *)
Definition database_checks (config : ConfigDocument) (result : Result) : Result :=
  match cf_database config with
  | None => push_error true "Missing required field: database" result
  | Some database =>
      if negb (truthy_string (cd_type database))
      then push_error true "Missing required field: database.type" result
      else
        push_error
          (negb (array_includes database_types
                   (interpolate (cd_type database))))
          "Invalid database type. Supported: postgresql, mysql, mongodb, sqlite"
          result
  end.

(** The checks of [validateConfig] on [config.github]. *)
Definition github_checks (config : ConfigDocument) (result : Result) : Result :=
  match cf_github config with
  | None => result
  | Some github =>
      push_error (negb (truthy_string (cg_owner github)))
        "Missing required field: github.owner" result
  end.

(** [ValidateCommand.validateConfig]. [file] is what the path holds. The
    early [return] and the [catch] leave [result.valid] as it was. *)
Definition validateConfig (configPath : string) (file : ConfigFile)
  (result : Result) : Exc Result :=
  try_catch
    (match file with
     | ConfigMissing =>
         mret (push_error true
                 ("Configuration file not found: " +:+ configPath) result)
     | ConfigUnreadable error => Throw error
     | ConfigNull =>
         Throw (ErrorObj "Cannot read properties of null (reading 'project')")
     | ConfigRead config =>
         let result := project_checks config result in
         let result := database_checks config result in
         let result :=
           push_warning (negb (truthy_opt (cf_features config)))
             "No features configuration found. Using defaults." result in
         let result := github_checks config result in
         mret {| valid := (length (errors result) =? 0)%nat;
                 errors := errors result;
                 warnings := warnings result |}
     end)
    (fun error =>
       mret (push_error true
               ("Failed to parse configuration: " +:+ error_text error)
               result)).

(** A piece of text with the [chalk] styles applied to it, outermost
    first; no style for a plain string. *)
Record Styled : Type := {
  styles : list string;
  text : string
}.

Definition chalk (styles : list string) (text : string) : Styled :=
  {| styles := styles; text := text |}.

(** What the command does to the terminal: the spinner of [ora], and the
    lines of [console.log] and [console.error], each the concatenation of
    its pieces. *)
Inductive Event : Type :=
| SpinnerStart (text : string)
| SpinnerText (text : string)
| SpinnerStop
| SpinnerFail (line : list Styled)
| ConsoleLog (line : list Styled)
| ConsoleError (line : list Styled).

(** The lines of one section of [displayResults]; the source has the same
    statements once for [results.config] and once for [results.model]. *)
Definition result_lines (result : Result) : list Event :=
  (if valid result
   then [ConsoleLog [chalk ["green"] "  ✓ Valid"]]
   else
     ConsoleLog [chalk ["red"] "  ✗ Invalid"]
     :: map (fun error => ConsoleLog [chalk ["red"] ("    • " +:+ error)])
          (errors result))
  ++ (if (0 <? length (warnings result))%nat
      then
        map (fun warning =>
               ConsoleLog [chalk ["yellow"] ("    ⚠ " +:+ warning)])
          (warnings result)
      else []).

(** [ValidateCommand.displayResults] *)
Definition displayResults (config model : Result) : list Event :=
  let totalErrors := (length (errors config) + length (errors model))%nat in
  let totalWarnings :=
    (length (warnings config) + length (warnings model))%nat in
  [ConsoleLog [chalk [] newline; chalk ["cyan"; "bold"] "📋 Validation Results"];
   ConsoleLog [chalk [] newline; chalk ["blue"; "bold"] "⚙️  Configuration:"]]
  ++ result_lines config
  ++ [ConsoleLog [chalk [] newline; chalk ["blue"; "bold"] "📊 Data Model:"]]
  ++ result_lines model
  ++ [ConsoleLog [chalk [] newline; chalk ["cyan"; "bold"] "📈 Summary:"];
      ConsoleLog [chalk ["white"] ("  Errors: " +:+ pretty totalErrors)];
      ConsoleLog [chalk ["white"] ("  Warnings: " +:+ pretty totalWarnings)];
      if (totalErrors =? 0)%nat
      then ConsoleLog [chalk [] newline;
                       chalk ["green"; "bold"] "🎉 All validations passed!"]
      else ConsoleLog [chalk [] newline;
                       chalk ["red"; "bold"]
                         "❌ Validation failed. Please fix the errors above."]].

(** The options of [codeforge validate]: the two paths have defaults,
    [--strict] is absent unless given. *)
Record ValidateOptions : Type := {
  vo_config : string;
  vo_model : string;
  vo_strict : option bool
}.

(** How a command ends: it returns, it calls [process.exit(code)], or it
    throws. *)
Inductive Outcome : Type :=
| Returns
| Exits (code : Z)
| Throws (error : Thrown).

(** The [catch] block of [execute]. *)
Definition validation_failed (events : list Event) (error : Thrown)
  : list Event * Outcome :=
  (events ++ [SpinnerFail [chalk ["red"] "✗ Validation failed"];
              ConsoleError [chalk ["red"] (error_text error)]],
   Throws error).

(** [ValidateCommand.execute] *)
Definition execute (options : ValidateOptions) (configFile : ConfigFile)
  (modelFile : Parser.ModelFile) : list Event * Outcome :=
  let events :=
    [SpinnerStart "Starting validation...";
     SpinnerText "Validating configuration..."] in
  match validateConfig (vo_config options) configFile fresh with
  | Throw error => validation_failed events error
  | Ok config =>
      let events := events ++ [SpinnerText "Validating data model..."] in
      match
        validateDataModel (vo_model options) modelFile fresh
          (truthy_bool (vo_strict options))
      with
      | Throw error => validation_failed events error
      | Ok model =>
          let events := events ++ SpinnerStop :: displayResults config model in
          (events,
           if negb (valid config) || negb (valid model)
           then Exits 1 else Returns)
      end
  end.

(** The language of a regular expression. *)
Inductive language : Regex -> string -> Prop :=
| language_empty : language REmpty ""
| language_char (accepts : ascii -> bool) (c : ascii) :
    accepts c = true -> language (RChar accepts) (String c "")
| language_seq (r s : Regex) (x y : string) :
    language r x -> language s y -> language (RSeq r s) (x +:+ y)
| language_alt_l (r s : Regex) (x : string) :
    language r x -> language (RAlt r s) x
| language_alt_r (r s : Regex) (x : string) :
    language s x -> language (RAlt r s) x
| language_star_nil (r : Regex) : language (RStar r) ""
| language_star_more (r : Regex) (x y : string) :
    language r x -> language (RStar r) y -> language (RStar r) (x +:+ y).

(** Every character is a decimal digit. *)
Fixpoint all_digits (s : string) : bool :=
  match s with
  | EmptyString => true
  | String c rest => is_digit c && all_digits rest
  end.

(** A non-empty run of decimal digits. *)
Definition number (s : string) : Prop := s <> "" /\ all_digits s = true.

(** The configuration has a project with a name and a version [x.y.z] of
    numbers, a database of a supported type, and an owner if it has a
    [github] member. *)
Definition config_ok (config : ConfigDocument) : Prop :=
  (exists project name major minor patch,
     cf_project config = Some project
     /\ cp_name project = Some name /\ name <> ""
     /\ cp_version project = Some (major +:+ "." +:+ minor +:+ "." +:+ patch)
     /\ number major /\ number minor /\ number patch)
  /\ (exists database type,
        cf_database config = Some database
        /\ cd_type database = Some type /\ type ∈ database_types)
  /\ (forall github,
        cf_github config = Some github ->
        exists owner, cg_owner github = Some owner /\ owner <> "").

(* ===================================================================== *)
(** ** What the OpenAPI document says about each entity *)
(* ===================================================================== *)

(** No other entity of the model has the same lower-cased name. *)
Definition alone_in_lower_case (dataModel : DataModel) (entity : Entity)
  : Prop :=
  forall other,
    other ∈ m_entities dataModel ->
    toLowerCase (e_name other) = toLowerCase (e_name entity) ->
    other = entity.

(** The strings of an array of strings. *)
Definition strings_of (v : JsVal) : list string :=
  match v with
  | JArr xs =>
      flat_map (fun x => match x with JStr s => [s] | _ => [] end) xs
  | _ => []
  end.

(** The tags of the operations of a path item. *)
Definition operation_tags (item : JsVal) : list string :=
  match item with
  | JObj operations =>
      flat_map (fun operation => strings_of (member "tags" operation.2))
        operations
  | _ => []
  end.

(** [tag.name] of the declared tags. *)
Definition declared_tags (spec : OpenAPISpec) : list string :=
  flat_map (fun tag => match member "name" tag with
                       | JStr name => [name]
                       | _ => []
                       end)
    (oa_tags spec).

(** The scheme names of the security requirements of the document. *)
Definition required_schemes (spec : OpenAPISpec) : list string :=
  match oa_security spec with
  | Some (JArr requirements) =>
      flat_map (fun requirement =>
                  match requirement with
                  | JObj schemes => obj_keys schemes
                  | _ => []
                  end)
        requirements
  | _ => []
  end.

(** The scheme names [components.securitySchemes] declares. *)
Definition declared_schemes (spec : OpenAPISpec) : list string :=
  match oa_securitySchemes spec with
  | Some (JObj schemes) => obj_keys schemes
  | _ => []
  end.

(* ===================================================================== *)
(** ** generators/nestjs-generator.ts: the files of the backend *)
(* ===================================================================== *)

(** The texts of the project-level files. [package_text] is
    [JSON.stringify(packageJson, null, 2)]; the next five are rendered from
    [this.config] and [this.dataModel] and throw when a member they read
    is missing; the others are fixed texts. *)
Record Templates : Type := {
  package_text : ProjectConfig -> Exc string;
  generateMainFile : ProjectConfig -> DataModel -> Exc string;
  generateAppModule : ProjectConfig -> DataModel -> Exc string;
  generateAppService : ProjectConfig -> DataModel -> Exc string;
  generateDatabaseConfig : ProjectConfig -> DataModel -> Exc string;
  generateEnvExample : ProjectConfig -> DataModel -> Exc string;
  generateAppController : string;
  generateAuthModule : string;
  generateAuthService : string;
  generateAuthController : string;
  generateJwtStrategy : string;
  generateLoginDto : string;
  generateRegisterDto : string;
  generateTsConfig : string;
  generateNestCliConfig : string;
  generateEslintConfig : string;
  generatePrettierConfig : string;
  generateJestConfig : string;
  generateE2EJestConfig : string
}.

Section Backend.

(** [JSON.stringify] of a default value, as the entity class prints it. *)
Variable stringify : JsVal -> string.

Variable templates : Templates.

(** [NestJSGenerator.generatePackageJson] *)
Definition generatePackageJson (config : ProjectConfig) : Exc GeneratedFile :=
  content ← package_text templates config;
  mret (config_file "package.json" content "json").

(** [NestJSGenerator.generateAppFiles] *)
Definition generateAppFiles (config : ProjectConfig) (dataModel : DataModel)
  : Exc (list GeneratedFile) :=
  main ← generateMainFile templates config dataModel;
  module ← generateAppModule templates config dataModel;
  service ← generateAppService templates config dataModel;
  mret [source_file "src/main.ts" main;
        source_file "src/app.module.ts" module;
        source_file "src/app.controller.ts" (generateAppController templates);
        source_file "src/app.service.ts" service].

(** [NestJSGenerator.generateDatabaseFiles]; [.env.example] has no
    [language]. *)
Definition generateDatabaseFiles (config : ProjectConfig)
  (dataModel : DataModel) : Exc (list GeneratedFile) :=
  database ← generateDatabaseConfig templates config dataModel;
  env ← generateEnvExample templates config dataModel;
  mret [source_file "src/config/database.config.ts" database;
        {| gf_path := ".env.example"; gf_content := env; gf_type := Config;
           gf_language := None |}].

(** [NestJSGenerator.generateAuthFiles] *)
Definition generateAuthFiles : list GeneratedFile :=
  [source_file "src/auth/auth.module.ts" (generateAuthModule templates);
   source_file "src/auth/auth.service.ts" (generateAuthService templates);
   source_file "src/auth/auth.controller.ts" (generateAuthController templates);
   source_file "src/auth/strategies/jwt.strategy.ts"
     (generateJwtStrategy templates);
   source_file "src/auth/dto/login.dto.ts" (generateLoginDto templates);
   source_file "src/auth/dto/register.dto.ts" (generateRegisterDto templates)].

(** [NestJSGenerator.generateConfigFiles] *)
Definition generateConfigFiles : list GeneratedFile :=
  [config_file "tsconfig.json" (generateTsConfig templates) "json";
   config_file "nest-cli.json" (generateNestCliConfig templates) "json";
   config_file ".eslintrc.js" (generateEslintConfig templates) "javascript";
   config_file ".prettierrc" (generatePrettierConfig templates) "json"].

(** [NestJSGenerator.generateTestFiles] *)
Definition generateTestFiles : list GeneratedFile :=
  [config_file "jest.config.js" (generateJestConfig templates) "javascript";
   config_file "test/jest-e2e.json" (generateE2EJestConfig templates) "json"].

(** [NestJSGenerator.generate] with its builders. *)
Definition backend_generate (config : ProjectConfig) (dataModel : DataModel)
  : Exc GenerationResult :=
  nestjs_generate generatePackageJson generateAppFiles
    (fun config _ entity => generateEntityFiles stringify config entity)
    (fun config => generateDatabaseFiles config dataModel)
    (fun _ => mret generateAuthFiles)
    (fun _ => mret generateConfigFiles)
    (fun _ => mret generateTestFiles)
    config dataModel.

End Backend.

(** The paths of the six files of an entity whose lower-cased name is
    [entityPath]. *)
Definition entity_paths (entityPath : string) : list string :=
  ["src/" +:+ entityPath +:+ "/" +:+ entityPath +:+ ".entity.ts";
   "src/" +:+ entityPath +:+ "/dto/create-" +:+ entityPath +:+ ".dto.ts";
   "src/" +:+ entityPath +:+ "/dto/update-" +:+ entityPath +:+ ".dto.ts";
   "src/" +:+ entityPath +:+ "/" +:+ entityPath +:+ ".service.ts";
   "src/" +:+ entityPath +:+ "/" +:+ entityPath +:+ ".controller.ts";
   "src/" +:+ entityPath +:+ "/" +:+ entityPath +:+ ".module.ts"].

(** The paths of the files that do not depend on the entities: those
    pushed before the entity files, and those pushed after them. *)
Definition leading_paths : list string :=
  ["package.json"; "src/main.ts"; "src/app.module.ts";
   "src/app.controller.ts"; "src/app.service.ts"].

Definition auth_paths : list string :=
  ["src/auth/auth.module.ts"; "src/auth/auth.service.ts";
   "src/auth/auth.controller.ts"; "src/auth/strategies/jwt.strategy.ts";
   "src/auth/dto/login.dto.ts"; "src/auth/dto/register.dto.ts"].

Definition trailing_paths (features : Features) : list string :=
  ["src/config/database.config.ts"; ".env.example"]
  ++ (if truthy_bool (ft_authentication features) then auth_paths else [])
  ++ ["tsconfig.json"; "nest-cli.json"; ".eslintrc.js"; ".prettierrc"]
  ++ (if truthy_bool (ft_testing features)
      then ["jest.config.js"; "test/jest-e2e.json"] else []).

(** The lower-cased entity names, in model order. *)
Definition entity_directories (dataModel : DataModel) : list string :=
  map (fun entity => toLowerCase (e_name entity)) (m_entities dataModel).

(** Every entity name is one the schema admits: the [pattern] of an entity
    name in [schemas/data-model.schema.json] is [^[A-Z][a-zA-Z0-9]*$]. *)
Definition names_match_schema (dataModel : DataModel) : Prop :=
  forall entity,
    entity ∈ m_entities dataModel -> PascalCase (e_name entity) = true.

(** The text up to the first [/]. *)
Fixpoint before_slash (s : string) : string :=
  match s with
  | EmptyString => EmptyString
  | String c rest =>
      if Ascii.eqb c "/" then EmptyString else String c (before_slash rest)
  end.

(** The directory under [src/] a path lies in: what follows the first four
    characters, up to the next [/]. *)
Definition directory_of (path : string) : string :=
  match path with
  | String _ (String _ (String _ (String _ rest))) => before_slash rest
  | _ => EmptyString
  end.

(** A model with an entity named [Auth], and a configuration that asks for
    authentication. *)
Definition auth_model : DataModel :=
  model_of [entity_of "Auth" [id_field]] None.

Definition auth_config : ProjectConfig :=
  {| c_project := Some sample_project;
     c_features :=
       Some {| ft_authentication := Some true; ft_authorization := None;
               ft_swagger := None; ft_asyncapi := None; ft_docker := None;
               ft_testing := None; ft_logging := None;
               ft_monitoring := None |} |}.

(** Templates that render nothing, for examples. *)
Definition blank_templates : Templates :=
  {| package_text := fun _ => Ok "";
     generateMainFile := fun _ _ => Ok "";
     generateAppModule := fun _ _ => Ok "";
     generateAppService := fun _ _ => Ok "";
     generateDatabaseConfig := fun _ _ => Ok "";
     generateEnvExample := fun _ _ => Ok "";
     generateAppController := "";
     generateAuthModule := "";
     generateAuthService := "";
     generateAuthController := "";
     generateJwtStrategy := "";
     generateLoginDto := "";
     generateRegisterDto := "";
     generateTsConfig := "";
     generateNestCliConfig := "";
     generateEslintConfig := "";
     generatePrettierConfig := "";
     generateJestConfig := "";
     generateE2EJestConfig := "" |}.

(* ===================================================================== *)
(** ** cli/commands/generate.ts: the dry run *)
(* ===================================================================== *)

(** What a step of a command leaves on the terminal, and how it ended. *)
Definition Printed : Type := (list Event * Exc unit)%type.

(** [first; second]: the second step runs if the first returned. *)
Definition and_then (first second : Printed) : Printed :=
  match first.2 with
  | Ok _ => (first.1 ++ second.1, second.2)
  | Throw _ => first
  end.

(** [console.log(text)] of a plain string. *)
Definition log_plain (text : string) : Event := ConsoleLog [chalk [] text].

(** The [specs] block of [showDryRun]. *)
Definition dry_run_specs (type : string) (config : ProjectConfig) : Printed :=
  if String.eqb type "specs" || String.eqb type "all" then
    let events :=
      [ConsoleLog [chalk ["green"] "  üìÑ API Specifications:"];
       log_plain "    - specs/openapi.json";
       log_plain "    - specs/openapi.yaml"] in
    match read_member "asyncapi" (c_features config) with
    | Throw error => (events, Throw error)
    | Ok features =>
        (events
         ++ (if truthy_bool (ft_asyncapi features)
             then [log_plain "    - specs/asyncapi.json";
                   log_plain "    - specs/asyncapi.yaml"]
             else []),
         Ok tt)
    end
  else ([], Ok tt).

(** The four lines [showDryRun] prints for an entity. *)
Definition dry_run_entity (entity : Entity) : list Event :=
  let entityPath := toLowerCase (e_name entity) in
  [log_plain ("    - backend/src/" +:+ entityPath +:+ "/" +:+ entityPath
              +:+ ".entity.ts");
   log_plain ("    - backend/src/" +:+ entityPath +:+ "/" +:+ entityPath
              +:+ ".service.ts");
   log_plain ("    - backend/src/" +:+ entityPath +:+ "/" +:+ entityPath
              +:+ ".controller.ts");
   log_plain ("    - backend/src/" +:+ entityPath +:+ "/" +:+ entityPath
              +:+ ".module.ts")].

(** The [backend] block of [showDryRun]. *)
Definition dry_run_backend (type : string) (dataModel : DataModel) : Printed :=
  if String.eqb type "backend" || String.eqb type "all" then
    ([ConsoleLog [chalk ["green"] "  üèóÔ∏è  NestJS Backend:"];
      log_plain "    - backend/package.json";
      log_plain "    - backend/src/main.ts";
      log_plain "    - backend/src/app.module.ts"]
     ++ flat_map dry_run_entity (m_entities dataModel),
     Ok tt)
  else ([], Ok tt).

(** The [docker] block of [showDryRun]; [config.features] is read only
    for the types [docker] and [all]. *)
Definition dry_run_docker (type : string) (config : ProjectConfig) : Printed :=
  if String.eqb type "docker" || String.eqb type "all" then
    match read_member "docker" (c_features config) with
    | Throw error => ([], Throw error)
    | Ok features =>
        (if truthy_bool (ft_docker features)
         then [ConsoleLog [chalk ["green"] "  üê≥ Docker Configuration:"];
               log_plain "    - Dockerfile";
               log_plain "    - docker-compose.yml";
               log_plain "    - .dockerignore"]
         else [],
         Ok tt)
    end
  else ([], Ok tt).

(** [GenerateCommand.showDryRun] *)
Definition showDryRun (type : string) (config : ProjectConfig)
  (dataModel : DataModel) (outputDir : string) : Printed :=
  and_then
    ([ConsoleLog [chalk ["cyan"; "bold"] (newline +:+ "üìã Generation Plan:")];
      ConsoleLog [chalk ["white"] ("Type: " +:+ type)];
      ConsoleLog [chalk ["white"] ("Output Directory: " +:+ outputDir)];
      ConsoleLog [chalk ["white"]
                    ("Entities: " +:+ pretty (length (m_entities dataModel)))];
      ConsoleLog [chalk ["cyan"; "bold"] (newline +:+ "üìÅ Files that would be generated:")]],
     Ok tt)
    (and_then (dry_run_specs type config)
       (and_then (dry_run_backend type dataModel)
          (dry_run_docker type config))).

(** The backend paths a dry run lists. *)
Definition dry_run_paths (dataModel : DataModel) : list string :=
  ["package.json"; "src/main.ts"; "src/app.module.ts"]
  ++ flat_map (fun entityPath =>
                 ["src/" +:+ entityPath +:+ "/" +:+ entityPath +:+ ".entity.ts";
                  "src/" +:+ entityPath +:+ "/" +:+ entityPath +:+ ".service.ts";
                  "src/" +:+ entityPath +:+ "/" +:+ entityPath
                  +:+ ".controller.ts";
                  "src/" +:+ entityPath +:+ "/" +:+ entityPath +:+ ".module.ts"])
       (entity_directories dataModel).

(** [text.slice(prefix.length)] when the text starts with the prefix. *)
Fixpoint strip_prefix (prefix text : string) : option string :=
  match prefix with
  | EmptyString => Some text
  | String c prefix =>
      match text with
      | EmptyString => None
      | String d text =>
          if Ascii.eqb c d then strip_prefix prefix text else None
      end
  end.

(** The backend path a plain line of the dry run names, if it names one. *)
Definition listed_path (event : Event) : option string :=
  match event with
  | ConsoleLog [{| styles := []; text := text |}] =>
      strip_prefix "    - backend/" text
  | _ => None
  end.

(* ===================================================================== *)
(** ** The create DTO: the class and the documented schema *)
(* ===================================================================== *)

(** The declaration of the member of a field in the [Create..Dto] class. *)
Definition dto_declaration (field : EntityField) : string :=
  "  " +:+ f_name field
  +:+ (if negb (truthy_bool (dt_required (f_dataType field))) then "?" else "")
  +:+ ": " +:+ dataTypeToTypeScript (f_dataType field) None +:+ ";".

(* ===================================================================== *)
(** ** Relationships in the generated entity classes *)
(* ===================================================================== *)

(** A user with a oneToMany relationship that names no [foreignKey]. *)
Definition posts_field : EntityField :=
  relation_field "posts" (plain TArray) (relation OneToMany "Post" None).

Definition blogger : Entity := entity_of "User" [id_field; posts_field].

(* ===================================================================== *)
(** ** The schemas of the OpenAPI document, by name *)
(* ===================================================================== *)

(** No shared schema and no DTO schema of an entity has this name. *)
Definition schema_name_free (dataModel : DataModel) (name : string) : Prop :=
  (name ∉ ["PaginationMeta"; "ErrorResponse"])
  /\ forall other,
       other ∈ m_entities dataModel ->
       name <> "Create" +:+ e_name other +:+ "Dto"
       /\ name <> "Update" +:+ e_name other +:+ "Dto".

(** The names of the enums of the model. *)
Definition enum_list (dataModel : DataModel) : list EnumDefinition :=
  default [] (m_enums dataModel).

(** A model whose enum has the name of an entity. *)
Definition status_enum : EnumDefinition :=
  {| en_name := "Status"; en_values := ["OPEN"; "DONE"];
     en_description := None |}.

Definition status_entity : Entity := entity_of "Status" [id_field].

Definition status_model : DataModel :=
  model_of [status_entity] (Some [status_enum]).

(* ===================================================================== *)
(** ** Naming conventions after the schema *)
(* ===================================================================== *)

(** The names have the form the schema asks of them: entity and enum names
    match [^[A-Z][a-zA-Z0-9]*$], field names match [^[a-z][a-zA-Z0-9]*$]. *)
Definition names_follow_schema (dataModel : DataModel) : Prop :=
  (forall entity,
     entity ∈ m_entities dataModel ->
     PascalCase (e_name entity) = true
     /\ forall field,
          field ∈ e_fields entity -> camelCase (f_name field) = true)
  /\ forall enumDef,
       enumDef ∈ default [] (m_enums dataModel) ->
       PascalCase (en_name enumDef) = true.

(** The warnings of the naming pass about the values of an enum. *)
Definition value_warnings (enumDef : EnumDefinition) : list string :=
  map (fun value =>
         "Enum " +:+ en_name enumDef +:+ "." +:+ value
         +:+ ": value should be in UPPER_CASE")
    (List.filter (fun value => negb (UPPER_CASE value)) (en_values enumDef)).

(* ===================================================================== *)
(** * Properties *)
(* ===================================================================== *)

(** ** Basic facts about the JavaScript layer *)

Lemma opt_string_is_true (o : option string) (s : string) :
  opt_string_is o s = true <-> o = Some s.
Proof.
  destruct o as [t|]; simpl.
  - rewrite String.eqb_eq. split; congruence.
  - split; discriminate.
Qed.

Lemma opt_string_is_false (o : option string) (s : string) :
  opt_string_is o s = false <-> o <> Some s.
Proof.
  rewrite <- opt_string_is_true. destruct (opt_string_is o s); split; congruence.
Qed.

Lemma truthy_num_true (o : option Z) :
  truthy_num o = true <-> exists n, o = Some n /\ n <> 0%Z.
Proof.
  destruct o as [n|]; simpl.
  - rewrite negb_true_iff, Z.eqb_neq. split.
    + intros H. exists n. auto.
    + intros (k & [= ->] & H). exact H.
  - split; [discriminate | intros (n & H & _); discriminate].
Qed.

(** ** The column-type mapper *)

Section ColumnType.

Variable dataType : DataType.

Lemma column_uuid :
  dt_type dataType = TString -> dt_format dataType = Some "uuid" ->
  dataTypeToColumnType dataType = "uuid".
Proof.
  intros Ht Hf. unfold dataTypeToColumnType. rewrite Ht, Hf. reflexivity.
Qed.

Lemma column_varchar (n : Z) :
  dt_type dataType = TString -> dt_format dataType <> Some "uuid" ->
  maxLength_of dataType = Some n -> n <> 0%Z -> (n <= 255)%Z ->
  dataTypeToColumnType dataType = "varchar".
Proof.
  intros Ht Hf Hm Hn Hle. unfold dataTypeToColumnType. rewrite Ht.
  apply opt_string_is_false in Hf. rewrite Hf.
  unfold maxLength_of in Hm. rewrite Hm. simpl.
  apply Z.eqb_neq in Hn. apply Z.leb_le in Hle. rewrite Hn, Hle. reflexivity.
Qed.

Lemma column_text :
  dt_type dataType = TString -> dt_format dataType <> Some "uuid" ->
  (maxLength_of dataType = None \/ maxLength_of dataType = Some 0%Z
   \/ exists n, maxLength_of dataType = Some n /\ (255 < n)%Z) ->
  dataTypeToColumnType dataType = "text".
Proof.
  intros Ht Hf Hm. unfold dataTypeToColumnType. rewrite Ht.
  apply opt_string_is_false in Hf. rewrite Hf.
  unfold maxLength_of in Hm.
  destruct Hm as [-> | [-> | (n & -> & Hn)]]; simpl; try reflexivity.
  apply Z.leb_gt in Hn. rewrite Hn, andb_false_r. reflexivity.
Qed.

Lemma column_number :
  dt_type dataType = TNumber ->
  dataTypeToColumnType dataType =
    match dt_format dataType with
    | Some "int32" => "int"
    | Some "int64" => "bigint"
    | _ => "decimal"
    end.
Proof.
  intros Ht. unfold dataTypeToColumnType. rewrite Ht.
  destruct (opt_string_is (dt_format dataType) "int32") eqn:H32.
  { apply opt_string_is_true in H32. rewrite H32. reflexivity. }
  destruct (opt_string_is (dt_format dataType) "int64") eqn:H64.
  { apply opt_string_is_true in H64. rewrite H64. reflexivity. }
  apply opt_string_is_false in H32, H64.
  destruct (dt_format dataType) as [f|]; [|reflexivity].
  repeat lazymatch goal with
    | |- context [match ?x with _ => _ end] =>
        destruct x; try reflexivity; try congruence
    end.
Qed.

End ColumnType.

(** C8 (amended). The column-type mapper is this table: a string maps to
    ['uuid'] when its format is [uuid], else to ['varchar'] when
    [validation.maxLength] is set, is not 0 and is at most 255, else to
    ['text'] (no [maxLength], [maxLength] 0, or [maxLength] above 255); a
    number maps to ['int'] for [int32], ['bigint'] for [int64], else
    ['decimal']; boolean maps to ['boolean']; date to ['date'] when its
    format is [date], else ['timestamp']; array and object to ['json'];
    enum to ['enum']. *)
Theorem column_type_table (dataType : DataType) :
  (dt_type dataType = TString -> dt_format dataType = Some "uuid" ->
   dataTypeToColumnType dataType = "uuid")
  /\ (forall n, dt_type dataType = TString ->
        dt_format dataType <> Some "uuid" ->
        maxLength_of dataType = Some n -> n <> 0%Z -> (n <= 255)%Z ->
        dataTypeToColumnType dataType = "varchar")
  /\ (dt_type dataType = TString -> dt_format dataType <> Some "uuid" ->
      (maxLength_of dataType = None \/ maxLength_of dataType = Some 0%Z
       \/ exists n, maxLength_of dataType = Some n /\ (255 < n)%Z) ->
      dataTypeToColumnType dataType = "text")
  /\ (dt_type dataType = TNumber ->
      dataTypeToColumnType dataType =
        match dt_format dataType with
        | Some "int32" => "int"
        | Some "int64" => "bigint"
        | _ => "decimal"
        end)
  /\ (dt_type dataType = TBoolean -> dataTypeToColumnType dataType = "boolean")
  /\ (dt_type dataType = TDate ->
      dataTypeToColumnType dataType =
        if opt_string_is (dt_format dataType) "date" then "date"
        else "timestamp")
  /\ (dt_type dataType = TArray \/ dt_type dataType = TObject ->
      dataTypeToColumnType dataType = "json")
  /\ (dt_type dataType = TEnum -> dataTypeToColumnType dataType = "enum").
Proof.
  split; [apply column_uuid|].
  split; [intros n; apply column_varchar|].
  split; [apply column_text|].
  split; [apply column_number|].
  unfold dataTypeToColumnType.
  repeat split; try (intros ->; reflexivity).
  intros [-> | ->]; reflexivity.
Qed.

(** The table on one data type of each kind. *)
Lemma column_type_table_witness :
  dataTypeToColumnType (formatted TString "uuid") = "uuid"
  /\ dataTypeToColumnType (sized_string None (Some 255%Z)) = "varchar"
  /\ dataTypeToColumnType (plain TString) = "text"
  /\ dataTypeToColumnType (formatted TNumber "int64") = "bigint"
  /\ dataTypeToColumnType (plain TBoolean) = "boolean"
  /\ dataTypeToColumnType (formatted TDate "date") = "date"
  /\ dataTypeToColumnType (plain TObject) = "json"
  /\ dataTypeToColumnType (enum_of ["A"]) = "enum".
Proof.
  split.
  { apply (proj1 (column_type_table (formatted TString "uuid"))); reflexivity. }
  split.
  { apply (proj1 (proj2 (column_type_table (sized_string None (Some 255%Z))))
             255%Z); try reflexivity; try discriminate. }
  split.
  { apply (proj1 (proj2 (proj2 (column_type_table (plain TString)))));
      [reflexivity | discriminate | left; reflexivity]. }
  split.
  { apply (proj1 (proj2 (proj2 (proj2
             (column_type_table (formatted TNumber "int64")))))).
    reflexivity. }
  split.
  { apply (proj1 (proj2 (proj2 (proj2 (proj2
             (column_type_table (plain TBoolean))))))).
    reflexivity. }
  split.
  { apply (proj1 (proj2 (proj2 (proj2 (proj2 (proj2
             (column_type_table (formatted TDate "date")))))))).
    reflexivity. }
  split.
  { apply (proj1 (proj2 (proj2 (proj2 (proj2 (proj2 (proj2
             (column_type_table (plain TObject))))))))).
    right; reflexivity. }
  apply (proj2 (proj2 (proj2 (proj2 (proj2 (proj2 (proj2
           (column_type_table (enum_of ["A"]))))))))).
  reflexivity.
Defined.

(** C8, as stated, fails for [{type:'string', validation:{maxLength:0}}]:
    [maxLength] is set and at most 255, so the table of the specification
    says ['varchar'], while the code, which tests [maxLength] for
    truthiness, answers ['text']. *)
Lemma column_type_maxLength_zero :
  maxLength_of (sized_string None (Some 0%Z)) = Some 0%Z
  /\ toColumnType_spec (sized_string None (Some 0%Z)) = "varchar"
  /\ dataTypeToColumnType (sized_string None (Some 0%Z)) = "text"
  /\ dataTypeToColumnType (sized_string None (Some 0%Z))
     <> toColumnType_spec (sized_string None (Some 0%Z)).
Proof. repeat split. discriminate. Qed.

(** ** Enum members: the reference form *)

(** Whatever array [enum] holds, the [enum] arm writes [type] and [enum];
    its [$ref] branch is behind [Array.isArray] and is never taken. *)
Lemma enum_arm_inline (values : list string) (property : list (string * JsVal)) :
  enum_arm (Some values) property =
    obj_set "enum" (JArr (map JStr values))
      (obj_set "type" (JStr "string") property).
Proof. reflexivity. Qed.

Lemma openapi_enum_inline (dataType : DataType) (values : list string) :
  dt_type dataType = TEnum -> dt_enum dataType = Some values ->
  dataTypeToOpenAPIProperty dataType =
    JObj (openapi_tail (dt_default dataType) (dt_nullable dataType)
            [("description", of_opt_string (dt_description dataType));
             ("type", JStr "string");
             ("enum", JArr (map JStr values))]).
Proof.
  destruct dataType; simpl. intros -> ->. reflexivity.
Qed.

(** C5, at the failing input. The field [role] of the sample model has
    [enum: ['UserRole']], the single-element form naming the enum
    [UserRole] that the model defines. The mapper answers with the inline
    form [{type: 'string', enum: ['UserRole']}], not with
    [{$ref: '#/components/schemas/UserRole'}]. *)
Theorem openapi_enum_reference_inline :
  In "UserRole" (map en_name (default [] (m_enums sample_model)))
  /\ dataTypeToOpenAPIProperty (enum_of ["UserRole"]) =
       JObj [("description", JUndefined); ("type", JStr "string");
             ("enum", JArr [JStr "UserRole"])]
  /\ dataTypeToOpenAPIProperty (enum_of ["UserRole"])
     <> JObj [("$ref", JStr "#/components/schemas/UserRole")]
  /\ obj_get "role" (schema_fields_loop dataTypeToOpenAPIProperty
                       skip_relationship (e_fields sample_user) ([], [])).1
     = Some (JObj [("description", JUndefined); ("type", JStr "string");
                   ("enum", JArr [JStr "UserRole"])]).
Proof.
  split; [left; reflexivity|].
  split; [reflexivity|].
  split; [discriminate|].
  reflexivity.
Qed.

(** The enum-reference rule of the parser never pushes: its condition ends
    in [!Array.isArray(field.dataType.enum)]. *)
Lemma enum_rule_silent (enumNames : gset string) (entity : Entity)
  (field : EntityField) (errors : list string) :
  Parser.enum_rule enumNames entity field errors = errors.
Proof.
  unfold Parser.enum_rule.
  destruct (is_enum _); [|reflexivity].
  destruct (dt_enum _); [|reflexivity].
  unfold Array_isArray. simpl. rewrite andb_false_r. reflexivity.
Qed.

(** C2, at the failing input. The model has one entity whose field
    [status] has [enum: ['Missing']] and no enum definitions at all. The
    parser accepts it, and the whole of [validateDataModel] reports it valid,
    with no error and no warning. *)
Theorem dangling_enum_reference_accepted :
  dt_enum (enum_of ["Missing"]) = Some ["Missing"]
  /\ m_enums dangling_enum_model = None
  /\ Parser.business_rule_errors dangling_enum_model = []
  /\ Parser.validateBusinessRules dangling_enum_model = Ok tt
  /\ forall strict,
       Validate.validateDataModel "model.json"
         (Parser.JsonFile (Ok (Parser.SchemaValid dangling_enum_model)))
         Validate.fresh strict
       = Ok {| Validate.valid := true; Validate.errors := [];
               Validate.warnings :=
                 if strict then
                   ["Entity Ticket.id: missing field description";
                    "Entity Ticket.id: string field should have maxLength constraint";
                    "Entity Ticket.status: missing field description"]
                 else [] |}.
Proof.
  split; [reflexivity|]. split; [reflexivity|].
  split; [vm_compute; reflexivity|]. split; [vm_compute; reflexivity|].
  intros [|]; vm_compute; reflexivity.
Qed.

(** ** The [generate] entry points *)

Lemma try_generate (body : Exc (list GeneratedFile)) :
  try_catch (files ← body; mret (success files)) failure = Ok (reported body).
Proof. destruct body; reflexivity. Qed.

Lemma entity_files_loop_ok
  (generateEntityFiles :
     ProjectConfig -> DataModel -> Entity -> Exc (list GeneratedFile))
  (render : Entity -> list GeneratedFile)
  (config : ProjectConfig) (dataModel : DataModel) (entities : list Entity) :
  (forall entity, generateEntityFiles config dataModel entity = Ok (render entity)) ->
  forall files,
    entity_files_loop generateEntityFiles config dataModel entities files
    = Ok (files ++ concat (map render entities)).
Proof.
  intros Hrender. induction entities as [|entity rest IH]; intros files; simpl.
  - rewrite app_nil_r. reflexivity.
  - rewrite Hrender. simpl. rewrite IH, <- app_assoc. reflexivity.
Qed.

Lemma entity_files_loop_app
  (generateEntityFiles :
     ProjectConfig -> DataModel -> Entity -> Exc (list GeneratedFile))
  (render : Entity -> list GeneratedFile)
  (config : ProjectConfig) (dataModel : DataModel)
  (before rest : list Entity) :
  (forall entity,
     entity ∈ before ->
     generateEntityFiles config dataModel entity = Ok (render entity)) ->
  forall files,
    entity_files_loop generateEntityFiles config dataModel (before ++ rest)
      files
    = entity_files_loop generateEntityFiles config dataModel rest
        (files ++ concat (map render before)).
Proof.
  induction before as [|entity before IH]; intros Hrender files; simpl.
  - rewrite app_nil_r. reflexivity.
  - rewrite Hrender by left. simpl.
    rewrite IH by (intros e He; apply Hrender; right; exact He).
    rewrite <- app_assoc. reflexivity.
Qed.

(** C7. No [generate] throws: each returns a result object. When the [try]
    block throws, the result is [success: false] with no files and the one
    error string [error.message] (or [String(error)]); when it returns, the
    result is [success: true] with no errors and the files of the block.
    For the specification generators these are the [.json] and the [.yaml]
    rendering of the document, in this order, whenever the document builder
    and both serializers return; whichever of the three throws first is the
    error reported. For the backend generator, when every builder returns,
    they are the package file, the application files, the files of each
    entity in model order, the database files, the authentication files
    when [features.authentication] is set, the configuration files, and the
    test files when [features.testing] is set; the first builder that
    throws is the error reported. A configuration without [project] (or,
    for the backend, without [features]) makes the block throw, and is
    reported. *)
Theorem generate_never_throws
  (JSON_stringify yaml_stringify : JsVal -> Exc string)
  (generatePackageJson : ProjectConfig -> Exc GeneratedFile)
  (generateAppFiles : ProjectConfig -> DataModel -> Exc (list GeneratedFile))
  (generateEntityFiles :
     ProjectConfig -> DataModel -> Entity -> Exc (list GeneratedFile))
  (generateDatabaseFiles generateAuthFiles generateConfigFiles
     generateTestFiles : ProjectConfig -> Exc (list GeneratedFile))
  (config : ProjectConfig) (dataModel : DataModel) :
  let reports :=
    fun (body : Exc (list GeneratedFile)) (returned : Exc GenerationResult) =>
      match body with
      | Ok files =>
          returned = Ok {| gr_success := true; gr_files := files;
                           gr_errors := []; gr_warnings := [] |}
      | Throw (ErrorObj message) =>
          returned = Ok {| gr_success := false; gr_files := [];
                           gr_errors := [message]; gr_warnings := [] |}
      | Throw (NonError text) =>
          returned = Ok {| gr_success := false; gr_files := [];
                           gr_errors := [text]; gr_warnings := [] |}
      end in
  let caught :=
    fun (error : Thrown) =>
      {| gr_success := false; gr_files := [];
         gr_errors := [match error with
                       | ErrorObj message => message
                       | NonError text => text
                       end];
         gr_warnings := [] |} in
  let openapi :=
    openapi_generate JSON_stringify yaml_stringify config dataModel in
  let asyncapi :=
    asyncapi_generate JSON_stringify yaml_stringify config dataModel in
  let nestjs :=
    nestjs_generate generatePackageJson generateAppFiles generateEntityFiles
      generateDatabaseFiles generateAuthFiles generateConfigFiles
      generateTestFiles config dataModel in
  reports (openapi_generate_body JSON_stringify yaml_stringify config dataModel)
    openapi
  /\ reports (asyncapi_generate_body JSON_stringify yaml_stringify config
                dataModel)
       asyncapi
  /\ reports (nestjs_generate_body generatePackageJson generateAppFiles
                generateEntityFiles generateDatabaseFiles generateAuthFiles
                generateConfigFiles generateTestFiles config dataModel)
       nestjs
  /\ (forall spec json yamlText,
        generateOpenAPISpec config dataModel = Ok spec ->
        JSON_stringify (openapi_document spec) = Ok json ->
        yaml_stringify (openapi_document spec) = Ok yamlText ->
        openapi
        = Ok {| gr_success := true;
                gr_files :=
                  [{| gf_path := "openapi.json"; gf_content := json;
                      gf_type := Config; gf_language := Some "json" |};
                   {| gf_path := "openapi.yaml"; gf_content := yamlText;
                      gf_type := Config; gf_language := Some "yaml" |}];
                gr_errors := []; gr_warnings := [] |})
  /\ (forall spec json yamlText,
        generateAsyncAPISpec config dataModel = Ok spec ->
        JSON_stringify (asyncapi_document spec) = Ok json ->
        yaml_stringify (asyncapi_document spec) = Ok yamlText ->
        asyncapi
        = Ok {| gr_success := true;
                gr_files :=
                  [{| gf_path := "asyncapi.json"; gf_content := json;
                      gf_type := Config; gf_language := Some "json" |};
                   {| gf_path := "asyncapi.yaml"; gf_content := yamlText;
                      gf_type := Config; gf_language := Some "yaml" |}];
                gr_errors := []; gr_warnings := [] |})
  /\ (forall package app render database auth conf tests features,
        generatePackageJson config = Ok package ->
        generateAppFiles config dataModel = Ok app ->
        (forall entity,
           generateEntityFiles config dataModel entity = Ok (render entity)) ->
        generateDatabaseFiles config = Ok database ->
        generateAuthFiles config = Ok auth ->
        generateConfigFiles config = Ok conf ->
        generateTestFiles config = Ok tests ->
        c_features config = Some features ->
        nestjs
        = Ok {| gr_success := true;
                gr_files :=
                  [package] ++ app
                  ++ concat (map render (m_entities dataModel))
                  ++ database
                  ++ (if truthy_bool (ft_authentication features)
                      then auth else [])
                  ++ conf
                  ++ (if truthy_bool (ft_testing features) then tests else []);
                gr_errors := []; gr_warnings := [] |})
  /\ (forall error,
        generateOpenAPISpec config dataModel = Throw error
        \/ (exists spec,
              generateOpenAPISpec config dataModel = Ok spec
              /\ (JSON_stringify (openapi_document spec) = Throw error
                  \/ (exists json,
                        JSON_stringify (openapi_document spec) = Ok json
                        /\ yaml_stringify (openapi_document spec)
                           = Throw error))) ->
        openapi = Ok (caught error))
  /\ (forall error,
        generateAsyncAPISpec config dataModel = Throw error
        \/ (exists spec,
              generateAsyncAPISpec config dataModel = Ok spec
              /\ (JSON_stringify (asyncapi_document spec) = Throw error
                  \/ (exists json,
                        JSON_stringify (asyncapi_document spec) = Ok json
                        /\ yaml_stringify (asyncapi_document spec)
                           = Throw error))) ->
        asyncapi = Ok (caught error))
  /\ (forall error,
        generatePackageJson config = Throw error
        \/ (exists package,
              generatePackageJson config = Ok package
              /\ generateAppFiles config dataModel = Throw error) ->
        nestjs = Ok (caught error))
  /\ (forall error package app render before entity after,
        generatePackageJson config = Ok package ->
        generateAppFiles config dataModel = Ok app ->
        m_entities dataModel = before ++ entity :: after ->
        (forall earlier,
           earlier ∈ before ->
           generateEntityFiles config dataModel earlier = Ok (render earlier)) ->
        generateEntityFiles config dataModel entity = Throw error ->
        nestjs = Ok (caught error))
  /\ (forall error package app render database auth conf features,
        generatePackageJson config = Ok package ->
        generateAppFiles config dataModel = Ok app ->
        (forall entity,
           generateEntityFiles config dataModel entity = Ok (render entity)) ->
        c_features config = Some features ->
        generateDatabaseFiles config = Throw error
        \/ (generateDatabaseFiles config = Ok database
            /\ ((truthy_bool (ft_authentication features) = true
                 /\ generateAuthFiles config = Throw error)
                \/ ((truthy_bool (ft_authentication features) = true ->
                     generateAuthFiles config = Ok auth)
                    /\ (generateConfigFiles config = Throw error
                        \/ (generateConfigFiles config = Ok conf
                            /\ truthy_bool (ft_testing features) = true
                            /\ generateTestFiles config = Throw error))))) ->
        nestjs = Ok (caught error))
  /\ (forall package app render database,
        generatePackageJson config = Ok package ->
        generateAppFiles config dataModel = Ok app ->
        (forall entity,
           generateEntityFiles config dataModel entity = Ok (render entity)) ->
        generateDatabaseFiles config = Ok database ->
        c_features config = None ->
        nestjs
        = Ok {| gr_success := false; gr_files := [];
                gr_errors :=
                  ["Cannot read properties of undefined (reading 'authentication')"];
                gr_warnings := [] |})
  /\ (c_project config = None ->
      openapi
      = Ok {| gr_success := false; gr_files := [];
              gr_errors :=
                ["Cannot read properties of undefined (reading 'name')"];
              gr_warnings := [] |}
      /\ asyncapi
         = Ok {| gr_success := false; gr_files := [];
                 gr_errors :=
                   ["Cannot read properties of undefined (reading 'name')"];
                 gr_warnings := [] |}).
Proof.
  intros reports caught openapi asyncapi nestjs.
  assert (Hreports : forall body,
            reports body
              (try_catch (files ← body; mret (success files)) failure)).
  { intros [files | [message | text]]; reflexivity. }
  split; [apply Hreports|].
  split; [apply Hreports|].
  split; [apply Hreports|].
  split.
  { intros spec json yamlText Hspec Hjson Hyaml.
    subst openapi. unfold openapi_generate, openapi_generate_body.
    rewrite Hspec. simpl. rewrite Hjson. simpl. rewrite Hyaml. reflexivity. }
  split.
  { intros spec json yamlText Hspec Hjson Hyaml.
    subst asyncapi. unfold asyncapi_generate, asyncapi_generate_body.
    rewrite Hspec. simpl. rewrite Hjson. simpl. rewrite Hyaml. reflexivity. }
  split.
  { intros package app render database auth conf tests features
      Hp Ha He Hd Hau Hc Ht Hf.
    subst nestjs. unfold nestjs_generate, nestjs_generate_body.
    rewrite Hp. simpl. rewrite Ha. simpl.
    rewrite (entity_files_loop_ok generateEntityFiles render) by exact He.
    simpl. rewrite Hd. simpl. rewrite Hf. simpl.
    unfold push_files_if.
    destruct (truthy_bool (ft_authentication features));
      destruct (truthy_bool (ft_testing features));
      simpl; rewrite ?Hau, ?Hc, ?Ht; simpl; rewrite ?Hc, ?Ht; simpl;
      rewrite ?Ht; simpl;
      repeat rewrite <- app_assoc; rewrite ?app_nil_r; reflexivity. }
  split.
  { intros error [Hspec | (spec & Hspec & [Hjson | (json & Hjson & Hyaml)])];
      subst openapi; unfold openapi_generate, openapi_generate_body;
      rewrite Hspec; simpl; [destruct error; reflexivity| |];
      rewrite Hjson; simpl; [destruct error; reflexivity|];
      rewrite Hyaml; destruct error; reflexivity. }
  split.
  { intros error [Hspec | (spec & Hspec & [Hjson | (json & Hjson & Hyaml)])];
      subst asyncapi; unfold asyncapi_generate, asyncapi_generate_body;
      rewrite Hspec; simpl; [destruct error; reflexivity| |];
      rewrite Hjson; simpl; [destruct error; reflexivity|];
      rewrite Hyaml; destruct error; reflexivity. }
  split.
  { intros error [Hp | (package & Hp & Ha)];
      subst nestjs; unfold nestjs_generate, nestjs_generate_body;
      rewrite Hp; simpl; [destruct error; reflexivity|].
    rewrite Ha. destruct error; reflexivity. }
  split.
  { intros error package app render before entity after Hp Ha Hentities He
      Hthrow.
    subst nestjs. unfold nestjs_generate, nestjs_generate_body.
    rewrite Hp. simpl. rewrite Ha. simpl. rewrite Hentities.
    rewrite (entity_files_loop_app generateEntityFiles render) by exact He.
    simpl. rewrite Hthrow. destruct error; reflexivity. }
  split.
  { intros error package app render database auth conf features Hp Ha He Hf
      Hcases.
    subst nestjs. unfold nestjs_generate, nestjs_generate_body.
    rewrite Hp. simpl. rewrite Ha. simpl.
    rewrite (entity_files_loop_ok generateEntityFiles render) by exact He.
    simpl. rewrite Hf.
    destruct Hcases as [Hd | (Hd & Hrest)]; rewrite Hd; simpl;
      [destruct error; reflexivity|].
    unfold push_files_if.
    destruct Hrest as [(Hflag & Hau) | (Hau & Hrest)].
    { rewrite Hflag, Hau. destruct error; reflexivity. }
    destruct (truthy_bool (ft_authentication features));
      [rewrite (Hau eq_refl)|]; simpl;
      (destruct Hrest as [Hc | (Hc & Hflag & Ht)]; rewrite Hc; simpl;
       [destruct error; reflexivity|];
       rewrite Hflag, Ht; destruct error; reflexivity). }
  split.
  { intros package app render database Hp Ha He Hd Hf.
    subst nestjs. unfold nestjs_generate, nestjs_generate_body.
    rewrite Hp. simpl. rewrite Ha. simpl.
    rewrite (entity_files_loop_ok generateEntityFiles render) by exact He.
    simpl. rewrite Hd. simpl. rewrite Hf. reflexivity. }
  intros Hproject. split.
  - subst openapi. unfold openapi_generate, openapi_generate_body,
      generateOpenAPISpec. rewrite Hproject. reflexivity.
  - subst asyncapi. unfold asyncapi_generate, asyncapi_generate_body,
      generateAsyncAPISpec. rewrite Hproject. reflexivity.
Qed.

(** ** Objects as ordered dictionaries *)

Section Objects.

Context {A : Type}.
Implicit Types (o : list (string * A)) (k : string) (v : A).

Lemma obj_get_set_eq k v o : obj_get k (obj_set k v o) = Some v.
Proof.
  induction o as [|[k' v'] o IH]; simpl.
  - destruct (decide (k = k)); congruence.
  - destruct (decide (k = k')) as [->|Hne]; simpl.
    + destruct (decide (k' = k')); congruence.
    + destruct (decide (k = k')); [congruence | exact IH].
Qed.

Lemma obj_get_set_ne k k' v o :
  k <> k' -> obj_get k' (obj_set k v o) = obj_get k' o.
Proof.
  intros Hne. induction o as [|[k0 v0] o IH]; simpl.
  - destruct (decide (k' = k)); congruence.
  - destruct (decide (k = k0)) as [->|Hk]; simpl.
    + destruct (decide (k' = k0)); congruence.
    + destruct (decide (k' = k0)); [reflexivity | exact IH].
Qed.

Lemma obj_keys_set k v o :
  obj_keys (obj_set k v o) =
    if bool_decide (k ∈ obj_keys o) then obj_keys o else obj_keys o ++ [k].
Proof.
  unfold obj_keys. induction o as [|[k' v'] o IH].
  - cbn [obj_set map fst app].
    rewrite (bool_decide_eq_false_2 (k ∈ [])) by apply not_elem_of_nil.
    reflexivity.
  - cbn [obj_set map fst app].
    destruct (decide (k = k')) as [Heq|Hne]; cbn [map fst].
    + subst k'. rewrite (bool_decide_eq_true_2 (k ∈ k :: map fst o)) by left.
      reflexivity.
    + rewrite IH. destruct (decide (k ∈ map fst o)) as [Hin|Hin].
      * rewrite (bool_decide_eq_true_2 _ Hin).
        rewrite (bool_decide_eq_true_2 (k ∈ k' :: map fst o))
          by (right; exact Hin).
        reflexivity.
      * rewrite (bool_decide_eq_false_2 _ Hin).
        rewrite (bool_decide_eq_false_2 (k ∈ k' :: map fst o)).
        { reflexivity. }
        intros Hin'. apply elem_of_cons in Hin'. tauto.
Qed.

Lemma elem_of_obj_keys_set k k' v o :
  k' ∈ obj_keys (obj_set k v o) <-> k' = k \/ k' ∈ obj_keys o.
Proof.
  rewrite obj_keys_set. case_bool_decide as Hin.
  - split; [tauto | intros [-> | H]; assumption].
  - rewrite elem_of_app, list_elem_of_singleton. tauto.
Qed.

Lemma obj_get_is_Some k o : is_Some (obj_get k o) <-> k ∈ obj_keys o.
Proof.
  unfold obj_keys. induction o as [|[k' v'] o IH]; simpl.
  - split; [intros [x Hx]; discriminate | intros H; inversion H].
  - destruct (decide (k = k')) as [->|Hne].
    + split; [intros _; left | intros _; eexists; reflexivity].
    + rewrite IH, elem_of_cons. tauto.
Qed.

(** Writing fresh, pairwise distinct keys appends them in order. *)
Lemma obj_set_fresh k v o : k ∉ obj_keys o -> obj_set k v o = o ++ [(k, v)].
Proof.
  unfold obj_keys. induction o as [|[k' v'] o IH]; simpl; intros Hk.
  - reflexivity.
  - apply not_elem_of_cons in Hk as [Hne Hk].
    destruct (decide (k = k')); [congruence|]. rewrite IH by exact Hk.
    reflexivity.
Qed.

Lemma obj_set_all_fresh (kvs o : list (string * A)) :
  NoDup (obj_keys kvs) -> (forall k, k ∈ obj_keys kvs -> k ∉ obj_keys o) ->
  fold_left (fun acc kv => obj_set kv.1 kv.2 acc) kvs o = o ++ kvs.
Proof.
  revert o. induction kvs as [|[k v] kvs IH]; intros o Hnd Hfresh; simpl.
  - rewrite app_nil_r. reflexivity.
  - unfold obj_keys in Hnd. simpl in Hnd. apply NoDup_cons in Hnd as [Hk Hnd].
    rewrite obj_set_fresh by (apply Hfresh; left).
    rewrite IH.
    + rewrite <- app_assoc. reflexivity.
    + exact Hnd.
    + intros k' Hk'. unfold obj_keys. rewrite map_app, elem_of_app. simpl.
      rewrite list_elem_of_singleton. intros [Ho | ->].
      * apply (Hfresh k'); [right; exact Hk' | exact Ho].
      * apply Hk. exact Hk'.
Qed.

End Objects.

(** ** Strings *)

Lemma length_append (a b : string) :
  String.length (a +:+ b) = String.length a + String.length b.
Proof. induction a as [|c a IH]; simpl; [reflexivity | rewrite IH; reflexivity]. Qed.

(** Two concatenations with suffixes of equal length agree part by part. *)
Lemma append_suffix_inj (a b s t : string) :
  String.length s = String.length t -> a +:+ s = b +:+ t -> a = b /\ s = t.
Proof.
  intros Hlen. revert b. induction a as [|c a IH]; intros [|c' b] H.
  - split; [reflexivity | exact H].
  - change (s = String c' (b +:+ t)) in H.
    apply (f_equal String.length) in H.
    change (String.length s = S (String.length (b +:+ t))) in H.
    rewrite (length_append b t) in H. lia.
  - change (String c (a +:+ s) = t) in H.
    apply (f_equal String.length) in H.
    change (S (String.length (a +:+ s)) = String.length t) in H.
    rewrite (length_append a s) in H. lia.
  - change (String c (a +:+ s) = String c' (b +:+ t)) in H.
    injection H as -> H. destruct (IH _ H) as [-> ->]. split; reflexivity.
Qed.

(** ** AsyncAPI channels *)

Lemma set_all_app {A : Type} (xs ys o : list (string * A)) :
  set_all (xs ++ ys) o = set_all ys (set_all xs o).
Proof. apply fold_left_app. Qed.

Lemma elem_of_keys_set_all {A : Type} (kvs o : list (string * A)) (k : string) :
  k ∈ obj_keys (set_all kvs o) <-> k ∈ obj_keys o \/ k ∈ obj_keys kvs.
Proof.
  revert o. induction kvs as [|[k' v] kvs IH]; intros o; simpl.
  - split; [tauto | intros [H | H]; [exact H | inversion H]].
  - unfold set_all in *. simpl. rewrite IH, elem_of_obj_keys_set.
    unfold obj_keys at 4. simpl. rewrite elem_of_cons. tauto.
Qed.

Lemma entity_step_set_all (project : Project) (entities : list Entity)
  (st : list (string * JsVal) * list (string * JsVal)) :
  fold_left (entity_step project) entities st
  = (set_all (concat (map entity_channels entities)) st.1,
     set_all (concat (map (entity_messages project) entities)) st.2).
Proof.
  revert st. induction entities as [|entity rest IH]; intros [channels messages].
  - reflexivity.
  - cbn [fold_left map concat]. rewrite IH, !set_all_app. reflexivity.
Qed.

Lemma channel_keys (entity : Entity) :
  obj_keys (entity_channels entity)
  = map (fun suffix => toLowerCase (e_name entity) +:+ suffix)
      lifecycle_suffixes.
Proof. reflexivity. Qed.

Lemma suffix_length (s : string) :
  s ∈ lifecycle_suffixes -> String.length s = 8.
Proof.
  unfold lifecycle_suffixes. rewrite !elem_of_cons.
  intros [-> | [-> | [-> | H]]]; [reflexivity.. | inversion H].
Qed.

Lemma elem_of_suffixed (names : list string) (k : string) :
  k ∈ concat (map (fun n => map (fun suffix => n +:+ suffix)
                             lifecycle_suffixes) names)
  -> exists n s, n ∈ names /\ s ∈ lifecycle_suffixes /\ k = n +:+ s.
Proof.
  rewrite list_elem_of_In, in_concat. intros (ks & Hks & Hk).
  apply in_map_iff in Hks as (n & <- & Hn).
  apply in_map_iff in Hk as (s & <- & Hs).
  exists n, s. rewrite !list_elem_of_In. auto.
Qed.

Lemma NoDup_suffixed (names : list string) :
  NoDup names ->
  NoDup (concat (map (fun n => map (fun suffix => n +:+ suffix)
                                lifecycle_suffixes) names)).
Proof.
  induction 1 as [|n names Hn Hnd IH]; [constructor|].
  cbn [map concat]. apply NoDup_app. split; [|split].
  - unfold lifecycle_suffixes. cbn [map].
    repeat (apply NoDup_cons; split;
            [rewrite ?elem_of_cons, ?elem_of_nil;
             intros H; repeat destruct H as [H|H];
             try (apply (inj (String.app n)) in H; discriminate);
             try exact H|]).
    constructor.
  - intros k Hk Hk'.
    apply elem_of_suffixed in Hk' as (n' & s' & Hn' & Hs' & ->).
    apply list_elem_of_In, in_map_iff in Hk as (s & Heq & Hs).
    apply list_elem_of_In in Hs.
    apply append_suffix_inj in Heq as [-> _].
    + apply Hn. exact Hn'.
    + rewrite (suffix_length s), (suffix_length s'); auto.
  - exact IH.
Qed.

Lemma channel_keys_concat (entities : list Entity) :
  obj_keys (concat (map entity_channels entities))
  = concat (map (fun n => map (fun suffix => n +:+ suffix) lifecycle_suffixes)
              (map (fun e => toLowerCase (e_name e)) entities)).
Proof.
  unfold obj_keys. induction entities as [|e rest IH]; [reflexivity|].
  cbn [map concat]. rewrite map_app, IH. reflexivity.
Qed.

Lemma system_health_fresh (entities : list Entity) :
  "system.health" ∉ obj_keys (concat (map entity_channels entities)).
Proof.
  rewrite channel_keys_concat. intros Hin.
  apply elem_of_suffixed in Hin as (n & s & _ & Hs & Heq).
  change "system.health" with ("syste" +:+ "m.health") in Heq.
  apply append_suffix_inj in Heq as [_ Heq].
  - subst s. unfold lifecycle_suffixes in Hs.
    rewrite !elem_of_cons, elem_of_nil in Hs. intuition discriminate.
  - rewrite (suffix_length s Hs). reflexivity.
Qed.

(** C9 (amended). AsyncAPI generation writes, for each entity, the three
    channels [{name lowercased}.created], [.updated] and [.deleted], each
    bound by [$ref] to a message that [components.messages] defines, and it
    writes one more channel, [system.health]. When the entity names are
    pairwise distinct after lowercasing, the channels are exactly the three
    per entity, in model order, followed by [system.health]; for the
    User/Post model these are the six entity channels and [system.health]. *)
Theorem asyncapi_channels (project : Project) (dataModel : DataModel) :
  let st := generateChannels project dataModel ([], []) in
  (forall entity event,
     entity ∈ m_entities dataModel -> event ∈ lifecycle_events ->
     channel_name entity event ∈ obj_keys st.1
     /\ bound_message (channel entity event)
        = Some (message_ref (message_name entity event))
     /\ is_Some (obj_get (message_name entity event) st.2))
  /\ "system.health" ∈ obj_keys st.1
  /\ (NoDup (map (fun e => toLowerCase (e_name e)) (m_entities dataModel)) ->
      st.1 = concat (map entity_channels (m_entities dataModel))
             ++ [("system.health", system_health)])
  /\ obj_keys (generateChannels project sample_model ([], [])).1
     = six_channels ++ ["system.health"].
Proof.
  intros st. subst st. unfold generateChannels.
  rewrite entity_step_set_all. cbn [fst snd].
  split; [|split; [|split]].
  - intros entity event Hentity Hevent. split; [|split].
    + apply elem_of_obj_keys_set. right.
      apply elem_of_keys_set_all. right.
      unfold obj_keys. rewrite list_elem_of_In, in_map_iff.
      exists (channel_name entity event, channel entity event).
      split; [reflexivity|]. rewrite in_concat.
      exists (entity_channels entity). split.
      * apply in_map. apply list_elem_of_In. exact Hentity.
      * unfold entity_channels.
        apply (in_map (fun ev => (channel_name entity ev, channel entity ev))).
        apply list_elem_of_In. exact Hevent.
    + reflexivity.
    + apply obj_get_is_Some, elem_of_obj_keys_set. right.
      apply elem_of_keys_set_all. right.
      unfold obj_keys. rewrite list_elem_of_In, in_map_iff.
      unfold lifecycle_events in Hevent.
      rewrite !elem_of_cons, elem_of_nil in Hevent.
      assert (exists v, In (message_name entity event, v)
                          (entity_messages project entity)) as [v Hv].
      { destruct Hevent as [-> | [-> | [-> | []]]]; eexists;
          [left | right; left | right; right; left]; reflexivity. }
      exists (message_name entity event, v). split; [reflexivity|].
      rewrite in_concat. exists (entity_messages project entity).
      split; [|exact Hv]. apply in_map, list_elem_of_In. exact Hentity.
  - apply elem_of_obj_keys_set. left. reflexivity.
  - intros Hnd. unfold set_all. rewrite obj_set_all_fresh.
    + cbn [app]. apply obj_set_fresh. apply system_health_fresh.
    + rewrite channel_keys_concat. apply NoDup_suffixed. exact Hnd.
    + intros k _. apply not_elem_of_nil.
  - vm_compute. reflexivity.
Qed.

(** The channels of the User/Post model: [post.updated] and its message. *)
Lemma asyncapi_channels_witness :
  obj_get "post.updated" (generateChannels sample_project sample_model ([], [])).1
  = Some (channel sample_post "Updated")
  /\ bound_message (channel sample_post "Updated")
     = Some (message_ref "PostUpdatedMessage")
  /\ is_Some (obj_get "PostUpdatedMessage"
                (generateChannels sample_project sample_model ([], [])).2)
  /\ length (generateChannels sample_project sample_model ([], [])).1 = 7.
Proof.
  pose proof (asyncapi_channels sample_project sample_model)
    as (Hentity & _ & Hexact & _).
  destruct (Hentity sample_post "Updated") as (_ & Hbound & Hmessage).
  { right; left. }
  { right; left. }
  rewrite Hexact.
  - split; [reflexivity|]. split; [exact Hbound|].
    split; [exact Hmessage | reflexivity].
  - apply (bool_decide_unpack _). vm_compute. exact I.
Defined.

(** C9, as stated, fails on the User/Post model: the channel set is not the
    six entity channels, it also holds [system.health]. *)
Lemma asyncapi_channels_not_six :
  obj_keys (generateChannels sample_project sample_model ([], [])).1
  <> six_channels
  /\ ("system.health" ∈
       obj_keys (generateChannels sample_project sample_model ([], [])).1)
  /\ ("system.health" ∉ six_channels)
  /\ length (obj_keys (generateChannels sample_project sample_model ([], [])).1)
     = 7.
Proof.
  split; [vm_compute; discriminate|].
  split; [apply (bool_decide_unpack _); vm_compute; exact I|].
  split; [apply (bool_decide_unpack _); vm_compute; exact I|].
  reflexivity.
Qed.

(** The three generators on the User/Post model, with stand-in serializers
    and builders; the backend generator when the builder of [Post] throws;
    and the OpenAPI generator on an empty configuration. *)
Lemma generate_never_throws_witness :
  openapi_generate render_braces render_braces sample_config sample_model
  = Ok {| gr_success := true;
          gr_files :=
            [{| gf_path := "openapi.json"; gf_content := "{}";
                gf_type := Config; gf_language := Some "json" |};
             {| gf_path := "openapi.yaml"; gf_content := "{}";
                gf_type := Config; gf_language := Some "yaml" |}];
          gr_errors := []; gr_warnings := [] |}
  /\ asyncapi_generate render_braces render_braces sample_config sample_model
     = Ok {| gr_success := true;
             gr_files :=
               [{| gf_path := "asyncapi.json"; gf_content := "{}";
                   gf_type := Config; gf_language := Some "json" |};
                {| gf_path := "asyncapi.yaml"; gf_content := "{}";
                   gf_type := Config; gf_language := Some "yaml" |}];
             gr_errors := []; gr_warnings := [] |}
  /\ nestjs_generate
       (fun _ => Ok {| gf_path := "package.json"; gf_content := "{}";
                       gf_type := Config; gf_language := Some "json" |})
       (fun _ _ => Ok (one_file "src/main.ts"))
       (fun _ _ entity => Ok (entity_file entity))
       (fun _ => Ok (one_file "src/config/database.config.ts"))
       (fun _ => Ok (one_file "src/auth/auth.module.ts"))
       (fun _ => Ok (one_file "tsconfig.json"))
       (fun _ => Ok (one_file "test/app.e2e-spec.ts"))
       sample_config sample_model
     = Ok {| gr_success := true;
             gr_files :=
               [{| gf_path := "package.json"; gf_content := "{}";
                   gf_type := Config; gf_language := Some "json" |};
                {| gf_path := "src/main.ts"; gf_content := "";
                   gf_type := Source; gf_language := Some "typescript" |};
                {| gf_path := "src/user.entity.ts"; gf_content := "";
                   gf_type := Source; gf_language := Some "typescript" |};
                {| gf_path := "src/post.entity.ts"; gf_content := "";
                   gf_type := Source; gf_language := Some "typescript" |};
                {| gf_path := "src/config/database.config.ts";
                   gf_content := ""; gf_type := Source;
                   gf_language := Some "typescript" |};
                {| gf_path := "src/auth/auth.module.ts"; gf_content := "";
                   gf_type := Source; gf_language := Some "typescript" |};
                {| gf_path := "tsconfig.json"; gf_content := "";
                   gf_type := Source; gf_language := Some "typescript" |}];
             gr_errors := []; gr_warnings := [] |}
  /\ nestjs_generate
       (fun _ => Ok {| gf_path := "package.json"; gf_content := "{}";
                       gf_type := Config; gf_language := Some "json" |})
       (fun _ _ => Ok (one_file "src/main.ts"))
       (fun _ _ entity =>
          if String.eqb (e_name entity) "Post"
          then Throw (ErrorObj "Template not found: entity")
          else Ok (entity_file entity))
       (fun _ => Ok (one_file "src/config/database.config.ts"))
       (fun _ => Ok (one_file "src/auth/auth.module.ts"))
       (fun _ => Ok (one_file "tsconfig.json"))
       (fun _ => Ok (one_file "test/app.e2e-spec.ts"))
       sample_config sample_model
     = Ok {| gr_success := false; gr_files := [];
             gr_errors := ["Template not found: entity"];
             gr_warnings := [] |}
  /\ openapi_generate render_braces render_braces empty_config sample_model
     = Ok {| gr_success := false; gr_files := [];
             gr_errors :=
               ["Cannot read properties of undefined (reading 'name')"];
             gr_warnings := [] |}.
Proof.
  pose proof (generate_never_throws render_braces render_braces
                (fun _ => Ok {| gf_path := "package.json"; gf_content := "{}";
                                gf_type := Config;
                                gf_language := Some "json" |})
                (fun _ _ => Ok (one_file "src/main.ts"))
                (fun _ _ entity => Ok (entity_file entity))
                (fun _ => Ok (one_file "src/config/database.config.ts"))
                (fun _ => Ok (one_file "src/auth/auth.module.ts"))
                (fun _ => Ok (one_file "tsconfig.json"))
                (fun _ => Ok (one_file "test/app.e2e-spec.ts"))
                sample_config sample_model)
    as (_ & _ & _ & Hopen & Hasync & Hnest & _).
  pose proof (generate_never_throws render_braces render_braces
                (fun _ => Ok {| gf_path := "package.json"; gf_content := "{}";
                                gf_type := Config;
                                gf_language := Some "json" |})
                (fun _ _ => Ok (one_file "src/main.ts"))
                (fun _ _ entity =>
                   if String.eqb (e_name entity) "Post"
                   then Throw (ErrorObj "Template not found: entity")
                   else Ok (entity_file entity))
                (fun _ => Ok (one_file "src/config/database.config.ts"))
                (fun _ => Ok (one_file "src/auth/auth.module.ts"))
                (fun _ => Ok (one_file "tsconfig.json"))
                (fun _ => Ok (one_file "test/app.e2e-spec.ts"))
                sample_config sample_model)
    as (_ & _ & _ & _ & _ & _ & _ & _ & _ & Hentity & _).
  pose proof (generate_never_throws render_braces render_braces
                (fun _ => Ok {| gf_path := "package.json"; gf_content := "{}";
                                gf_type := Config;
                                gf_language := Some "json" |})
                (fun _ _ => Ok (one_file "src/main.ts"))
                (fun _ _ entity => Ok (entity_file entity))
                (fun _ => Ok (one_file "src/config/database.config.ts"))
                (fun _ => Ok (one_file "src/auth/auth.module.ts"))
                (fun _ => Ok (one_file "tsconfig.json"))
                (fun _ => Ok (one_file "test/app.e2e-spec.ts"))
                empty_config sample_model)
    as (_ & _ & _ & _ & _ & _ & _ & _ & _ & _ & _ & _ & Hempty).
  split; [exact (Hopen _ "{}" "{}" eq_refl eq_refl eq_refl)|].
  split; [exact (Hasync _ "{}" "{}" eq_refl eq_refl eq_refl)|].
  split.
  { exact (Hnest _ _ entity_file _ _ _ _ sample_features
             eq_refl eq_refl (fun _ => eq_refl) eq_refl eq_refl eq_refl
             eq_refl eq_refl). }
  split.
  { apply (Hentity (ErrorObj "Template not found: entity") _ _ entity_file
             [sample_user] sample_post [] eq_refl eq_refl eq_refl);
      [|reflexivity].
    intros earlier Hin. apply list_elem_of_singleton in Hin as ->.
    reflexivity. }
  exact (proj1 (Hempty eq_refl)).
Defined.

(** ** Fields left out of the schemas *)

Section FieldsLoop.

Variable mapper : DataType -> JsVal.
Variable skip : EntityField -> bool.

Lemma loop_skips (fields : list EntityField)
  (st : list (string * JsVal) * list string) :
  schema_fields_loop mapper skip fields st
  = schema_fields_loop mapper skip
      (List.filter (fun f => negb (skip f)) fields) st.
Proof.
  revert st. induction fields as [|field rest IH]; intros st; [reflexivity|].
  cbn [schema_fields_loop List.filter].
  destruct (skip field) eqn:Hskip; cbn [negb].
  - apply IH.
  - cbn [schema_fields_loop]. rewrite Hskip. apply IH.
Qed.

(** Every key of the properties was there before the loop or is the name of
    a field the loop did not skip. *)
Lemma loop_keys (fields : list EntityField)
  (st : list (string * JsVal) * list string) (k : string) :
  k ∈ obj_keys (schema_fields_loop mapper skip fields st).1 ->
  k ∈ obj_keys st.1
  \/ exists field, field ∈ fields /\ skip field = false /\ f_name field = k.
Proof.
  revert st. induction fields as [|field rest IH]; intros st Hk.
  - left. exact Hk.
  - cbn [schema_fields_loop] in Hk. destruct (skip field) eqn:Hskip.
    + destruct (IH _ Hk) as [H | (f & Hf & Hs & Hn)]; [left; exact H|].
      right. exists f. split; [right; exact Hf | auto].
    + destruct (IH _ Hk) as [H | (f & Hf & Hs & Hn)].
      * cbn [fst] in H. apply elem_of_obj_keys_set in H as [-> | H].
        -- right. exists field. split; [left | auto].
        -- left. exact H.
      * right. exists f. split; [right; exact Hf | auto].
Qed.

(** Conversely the name of every field the loop did not skip is a key. *)
Lemma loop_keeps (fields : list EntityField)
  (st : list (string * JsVal) * list string) (field : EntityField) :
  field ∈ fields -> skip field = false ->
  f_name field ∈ obj_keys (schema_fields_loop mapper skip fields st).1.
Proof.
  assert (Hmono : forall fs st' k,
             k ∈ obj_keys st'.1 ->
             k ∈ obj_keys (schema_fields_loop mapper skip fs st').1).
  { induction fs as [|f fs IH]; intros st' k Hk; [exact Hk|].
    cbn [schema_fields_loop]. destruct (skip f); apply IH; [exact Hk|].
    cbn [fst]. apply elem_of_obj_keys_set. right. exact Hk. }
  revert st. induction fields as [|f rest IH]; intros st Hin Hskip.
  - inversion Hin.
  - apply elem_of_cons in Hin as [<- | Hin].
    + cbn [schema_fields_loop]. rewrite Hskip. apply Hmono. cbn [fst].
      apply elem_of_obj_keys_set. left. reflexivity.
    + cbn [schema_fields_loop]. destruct (skip f); apply IH; assumption.
Qed.

End FieldsLoop.

Lemma skip_relationship_false (field : EntityField) :
  skip_relationship field = false <-> f_relationship field = None.
Proof.
  unfold skip_relationship. destruct (f_relationship field); simpl;
    split; congruence.
Qed.

Lemma skip_create_false (field : EntityField) :
  skip_create field = false <->
  f_relationship field = None
  /\ truthy_bool (f_isPrimaryKey field) = false
  /\ truthy_bool (f_isGenerated field) = false.
Proof.
  unfold skip_create. rewrite !orb_false_iff.
  destruct (f_relationship field); simpl; intuition congruence.
Qed.

Lemma elem_of_timestamps (entity : Entity)
  (properties : list (string * JsVal)) (k : string) :
  k ∈ obj_keys (add_timestamps entity properties) ->
  k ∈ obj_keys properties
  \/ (truthy_bool (e_timestamps entity) = true
      /\ (k = "createdAt" \/ k = "updatedAt")).
Proof.
  unfold add_timestamps. destruct (truthy_bool (e_timestamps entity)).
  - rewrite !elem_of_obj_keys_set. intuition.
  - auto.
Qed.

Lemma keys_with_timestamps (entity : Entity)
  (properties : list (string * JsVal)) (k : string) :
  k ∈ obj_keys properties -> k ∈ obj_keys (add_timestamps entity properties).
Proof.
  unfold add_timestamps. destruct (truthy_bool (e_timestamps entity));
    rewrite ?elem_of_obj_keys_set; auto.
Qed.

Lemma properties_of_schema_object (description : JsVal)
  (properties : list (string * JsVal)) (required : list string) :
  properties_of (schema_object description properties required) = properties.
Proof. reflexivity. Qed.

(** C10. In the OpenAPI entity schema and in the AsyncAPI state schema every
    property is a field without relationship (or one of the two timestamp
    properties), and the schema is the one of the entity with its
    relationship fields taken out; in the [Create..Dto] schema every
    property is a field that has no relationship and is neither a primary
    key nor generated, and the schema is the one of the entity with all
    other fields taken out. Each field that is not left out is a property. *)
Theorem schemas_omit_fields (entity : Entity) :
  (* the OpenAPI entity schema *)
  (entityToSchema entity = entityToSchema (without skip_relationship entity)
   /\ forall k, k ∈ obj_keys (properties_of (entityToSchema entity)) ->
        (exists field, field ∈ e_fields entity
                       /\ f_relationship field = None /\ f_name field = k)
        \/ (truthy_bool (e_timestamps entity) = true
            /\ (k = "createdAt" \/ k = "updatedAt")))
  (* the AsyncAPI state schema *)
  /\ (entityToAsyncAPISchema entity
      = entityToAsyncAPISchema (without skip_relationship entity)
      /\ forall k, k ∈ obj_keys (properties_of (entityToAsyncAPISchema entity)) ->
           (exists field, field ∈ e_fields entity
                          /\ f_relationship field = None /\ f_name field = k)
           \/ (truthy_bool (e_timestamps entity) = true
               /\ (k = "createdAt" \/ k = "updatedAt")))
  (* the Create DTO *)
  /\ (entityToCreateDto entity = entityToCreateDto (without skip_create entity)
      /\ forall k, k ∈ obj_keys (properties_of (entityToCreateDto entity)) ->
           exists field, field ∈ e_fields entity
                         /\ f_relationship field = None
                         /\ truthy_bool (f_isPrimaryKey field) = false
                         /\ truthy_bool (f_isGenerated field) = false
                         /\ f_name field = k)
  (* nothing else is left out *)
  /\ (forall field, field ∈ e_fields entity ->
        (f_relationship field = None ->
         f_name field ∈ obj_keys (properties_of (entityToSchema entity))
         /\ f_name field ∈ obj_keys (properties_of (entityToAsyncAPISchema entity)))
        /\ (f_relationship field = None ->
            truthy_bool (f_isPrimaryKey field) = false ->
            truthy_bool (f_isGenerated field) = false ->
            f_name field ∈ obj_keys (properties_of (entityToCreateDto entity)))).
Proof.
  unfold entityToSchema, entityToAsyncAPISchema, entityToCreateDto.
  rewrite !properties_of_schema_object.
  cbn [without e_fields e_timestamps e_description e_name].
  unfold add_timestamps at 2 4. cbn [e_timestamps].
  fold (add_timestamps entity).
  split; [|split; [|split]].
  - split; [rewrite <- loop_skips; reflexivity|].
    intros k Hk.
    apply elem_of_timestamps in Hk as [Hk | Hk]; [|right; exact Hk].
    apply loop_keys in Hk as [Hk | (f & Hf & Hs & Hn)]; [inversion Hk|].
    left. exists f. rewrite <- skip_relationship_false. auto.
  - split; [rewrite <- loop_skips; reflexivity|].
    intros k Hk.
    apply elem_of_timestamps in Hk as [Hk | Hk]; [|right; exact Hk].
    apply loop_keys in Hk as [Hk | (f & Hf & Hs & Hn)]; [inversion Hk|].
    left. exists f. rewrite <- skip_relationship_false. auto.
  - split; [rewrite <- loop_skips; reflexivity|].
    intros k Hk.
    apply loop_keys in Hk as [Hk | (f & Hf & Hs & Hn)]; [inversion Hk|].
    exists f. apply skip_create_false in Hs. intuition.
  - intros field Hfield. split.
    + intros Hrel. apply skip_relationship_false in Hrel.
      split; apply keys_with_timestamps; apply loop_keeps; assumption.
    + intros Hrel Hpk Hgen.
      apply loop_keeps; [exact Hfield|].
      apply skip_create_false. auto.
Qed.

(** The schemas of [User]: [posts] is left out everywhere, [id] is left out
    of the Create DTO. *)
Lemma schemas_omit_fields_witness :
  (exists field, field ∈ e_fields sample_user
                 /\ f_relationship field = None
                 /\ truthy_bool (f_isPrimaryKey field) = false
                 /\ truthy_bool (f_isGenerated field) = false
                 /\ f_name field = "email")
  /\ ("id" ∈ obj_keys (properties_of (entityToSchema sample_user)))
  /\ ("name" ∈ obj_keys (properties_of (entityToCreateDto sample_user)))
  /\ obj_keys (properties_of (entityToCreateDto sample_user))
     = ["email"; "name"; "role"]
  /\ obj_keys (properties_of (entityToSchema sample_user))
     = ["id"; "email"; "name"; "role"; "createdAt"; "updatedAt"].
Proof.
  pose proof (schemas_omit_fields sample_user)
    as (_ & _ & (_ & Hcreate) & Hkept).
  split.
  { apply Hcreate. apply (bool_decide_unpack _). vm_compute. exact I. }
  split.
  { apply (Hkept id_field); [left | reflexivity]. }
  split.
  { apply (Hkept (simple_field "name" (sized_string (Some 2%Z) (Some 100%Z))));
      [right; right; left | reflexivity..]. }
  split; reflexivity.
Defined.

(** ** The two property mappers side by side *)

(** Induction over a data type, its [items] and the values of its
    [properties]. *)
Lemma DataType_nested_ind (P : DataType -> Prop) :
  (forall type format items properties enum required nullable default
          description validation,
     match items with Some it => P it | None => True end ->
     match properties with
     | Some ps => Forall (fun kv => P kv.2) ps
     | None => True
     end ->
     P (MkDataType type format items properties enum required nullable default
          description validation)) ->
  forall dataType, P dataType.
Proof.
  intros step. fix IH 1.
  intros [type format items properties enum required nullable default
            description validation].
  apply step.
  - destruct items as [it|]; [apply IH | exact I].
  - destruct properties as [ps|]; [|exact I].
    induction ps as [|[key value] rest IHrest]; constructor;
      [apply IH | exact IHrest].
Qed.

Lemma entries_loop_unconstrained (ps : list (string * DataType))
  (acc : list (string * JsVal)) :
  Forall (fun kv => dataTypeToAsyncAPIProperty kv.2
                    = dataTypeToOpenAPIProperty (unconstrained kv.2)) ps ->
  entries_loop dataTypeToAsyncAPIProperty ps acc
  = entries_loop dataTypeToOpenAPIProperty
      (map (fun kv => match kv with
                      | (key, value) => (key, unconstrained value)
                      end) ps) acc.
Proof.
  intros Hall. revert acc.
  induction Hall as [|[key value] rest Hhead _ IH]; intros acc; [reflexivity|].
  cbn [entries_loop map]. cbn [snd] in Hhead. rewrite Hhead. apply IH.
Qed.

Lemma asyncapi_is_openapi_unconstrained (dataType : DataType) :
  dataTypeToAsyncAPIProperty dataType
  = dataTypeToOpenAPIProperty (unconstrained dataType).
Proof.
  induction dataType as
    [type format items properties enum required nullable default description
       validation Hitems Hproperties] using DataType_nested_ind.
  destruct type; cbn [dataTypeToAsyncAPIProperty dataTypeToOpenAPIProperty
                       unconstrained]; unfold openapi_tail;
    cbn [truthy_bool set_if]; try reflexivity.
  - destruct items as [it|]; [rewrite Hitems|]; reflexivity.
  - destruct properties as [ps|]; [|reflexivity].
    rewrite (entries_loop_unconstrained ps [] Hproperties). reflexivity.
Qed.

Lemma unconstrained_idempotent (dataType : DataType) :
  unconstrained (unconstrained dataType) = unconstrained dataType.
Proof.
  induction dataType as
    [type format items properties enum required nullable default description
       validation Hitems Hproperties] using DataType_nested_ind.
  cbn [unconstrained]. f_equal.
  - destruct items as [it|]; [rewrite Hitems|]; reflexivity.
  - destruct properties as [ps|]; [|reflexivity]. f_equal.
    induction Hproperties as [|[key value] rest Hhead _ IH]; [reflexivity|].
    cbn [map]. cbn [snd] in Hhead. rewrite Hhead, IH. reflexivity.
Qed.

(** C6 (amended). For every data type the AsyncAPI mapper returns what the
    OpenAPI mapper returns for the same data type without its validation
    rules and its [nullable] flag, at every level: [description], [type],
    [format], [items], [properties], [enum] and [default] are mapped alike,
    while [minLength], [maxLength], [pattern], [minimum], [maximum] and
    [nullable] are written by the OpenAPI mapper only. The two mappers agree
    on every data type that carries neither. *)
Theorem asyncapi_mirrors_openapi (dataType : DataType) :
  dataTypeToAsyncAPIProperty dataType
  = dataTypeToOpenAPIProperty (unconstrained dataType)
  /\ dataTypeToAsyncAPIProperty (unconstrained dataType)
     = dataTypeToOpenAPIProperty (unconstrained dataType).
Proof.
  split; [apply asyncapi_is_openapi_unconstrained|].
  rewrite asyncapi_is_openapi_unconstrained, unconstrained_idempotent.
  reflexivity.
Qed.

(** C6, as stated, fails: on [{type:'string', validation:{maxLength:255}}]
    the OpenAPI property has [maxLength: 255] and the AsyncAPI property has
    not; on [{type:'boolean', nullable:true}] the OpenAPI property has
    [nullable: true] and the AsyncAPI property has not. *)
Lemma asyncapi_drops_constraints :
  dataTypeToOpenAPIProperty (sized_string None (Some 255%Z))
  = JObj [("description", JUndefined); ("type", JStr "string");
          ("maxLength", JNum 255)]
  /\ dataTypeToAsyncAPIProperty (sized_string None (Some 255%Z))
     = JObj [("description", JUndefined); ("type", JStr "string")]
  /\ dataTypeToAsyncAPIProperty (sized_string None (Some 255%Z))
     <> dataTypeToOpenAPIProperty (sized_string None (Some 255%Z))
  /\ dataTypeToOpenAPIProperty nullable_boolean
     = JObj [("description", JUndefined); ("type", JStr "boolean");
             ("nullable", JBool true)]
  /\ dataTypeToAsyncAPIProperty nullable_boolean
     = JObj [("description", JUndefined); ("type", JStr "boolean")]
  /\ dataTypeToAsyncAPIProperty nullable_boolean
     <> dataTypeToOpenAPIProperty nullable_boolean.
Proof. repeat split; discriminate. Qed.

(** ** Rules that push: independence and additivity *)

Lemma appends_push_if (c : bool) (message : string) :
  Appends (push_if c message).
Proof. intros errors. unfold push_if. destruct c; [reflexivity|]. rewrite app_nil_r. reflexivity. Qed.

Lemma appends_id : Appends (fun errors => errors).
Proof. intros errors. rewrite app_nil_r. reflexivity. Qed.

Lemma appends_compose (f g : list string -> list string) :
  Appends f -> Appends g -> Appends (fun errors => g (f errors)).
Proof.
  intros Hf Hg errors. rewrite (Hg (f errors)), (Hf errors), (Hg (f [])).
  rewrite app_assoc. reflexivity.
Qed.

Lemma appends_fold {A : Type} (f : list string -> A -> list string)
  (xs : list A) :
  (forall x, Appends (fun errors => f errors x)) ->
  forall errors,
    fold_left f xs errors = errors ++ concat (map (fun x => f [] x) xs).
Proof.
  intros Hf. induction xs as [|x xs IH]; intros errors; cbn [fold_left map concat].
  - rewrite app_nil_r. reflexivity.
  - rewrite IH, (Hf x errors), <- app_assoc. reflexivity.
Qed.

Lemma duplicate_names_spec (entities : list Entity) (seen : gset string)
  (errors : list string) :
  Parser.duplicate_names entities (seen, errors)
  = (list_to_set (map e_name entities) ∪ seen,
     errors ++ duplicate_messages seen entities).
Proof.
  unfold Parser.duplicate_names.
  revert seen errors. induction entities as [|entity rest IH]; intros seen errors.
  - cbn. rewrite app_nil_r, (left_id_L ∅ (∪)). reflexivity.
  - cbn [fold_left fst snd duplicate_messages map list_to_set]. rewrite IH.
    f_equal.
    + rewrite (assoc_L (∪)), (comm_L (∪) _ {[e_name entity]}). reflexivity.
    + rewrite (appends_push_if _ _ errors), <- app_assoc. reflexivity.
Qed.

Lemma relationship_rules_appends (names : gset string) (entity : Entity)
  (field : EntityField) :
  Appends (Parser.relationship_rules names entity field).
Proof.
  unfold Parser.relationship_rules. destruct (f_relationship field) as [r|].
  - apply (appends_compose
             (fun errors => push_if _ _ (push_if _ _ errors)) (push_if _ _)).
    + apply (appends_compose (push_if _ _) (push_if _ _));
        apply appends_push_if.
    + apply appends_push_if.
  - apply appends_id.
Qed.

Lemma entity_rules_appends (names : gset string) (entity : Entity) :
  Appends (Parser.entity_rules names entity).
Proof.
  unfold Parser.entity_rules.
  apply (appends_compose (fun errors => fold_left _ _ errors) (push_if _ _)).
  - intros errors.
    rewrite (appends_fold
               (fun errors field =>
                  Parser.relationship_rules names entity field errors)).
    + rewrite (appends_fold
                 (fun errors field =>
                    Parser.relationship_rules names entity field errors)
                 _ (fun x => relationship_rules_appends names entity x) []).
      reflexivity.
    + intros x. apply relationship_rules_appends.
  - apply appends_push_if.
Qed.

(** What the parser has collected when it decides whether to throw: the
    messages of the duplicate-name rule, then for each entity in turn the
    messages of its own rules. Each part is computed from the model alone. *)
Lemma business_rule_errors_additive (dataModel : DataModel) :
  Parser.business_rule_errors dataModel
  = duplicate_messages ∅ (m_entities dataModel)
    ++ concat (map (fun entity =>
                      Parser.entity_rules (entity_names dataModel) entity [])
                 (m_entities dataModel)).
Proof.
  unfold Parser.business_rule_errors.
  rewrite duplicate_names_spec. cbn [fst snd].
  rewrite (right_id_L ∅ (∪)). fold (entity_names dataModel).
  rewrite (appends_fold
             (fun errors entity =>
                Parser.entity_rules (entity_names dataModel) entity errors) _
             (entity_rules_appends (entity_names dataModel))).
  cbn [app].
  generalize (duplicate_messages ∅ (m_entities dataModel)
              ++ concat (map (fun x => Parser.entity_rules
                                         (entity_names dataModel) x [])
                           (m_entities dataModel))).
  intros errors. induction (m_entities dataModel) as [|entity rest IH];
    [reflexivity|].
  cbn [fold_left]. rewrite <- IH at 2. f_equal.
  induction (e_fields entity) as [|field fields IHf]; [reflexivity|].
  cbn [fold_left]. rewrite enum_rule_silent. exact IHf.
Qed.

Lemma pushed_pushed (result : Result) (es ws es' ws' : list string) :
  pushed (pushed result es ws) es' ws' = pushed result (es ++ es') (ws ++ ws').
Proof. unfold pushed. cbn. rewrite !app_assoc. reflexivity. Qed.

Lemma additive_id : Additive (fun result => result).
Proof.
  intros [v es ws]. unfold pushed. cbn. rewrite !app_nil_r. reflexivity.
Qed.

Lemma additive_push_error (c : bool) (message : string) :
  Additive (push_error c message).
Proof.
  intros [v es ws]. unfold push_error, pushed, push_if.
  destruct c; cbn; rewrite ?app_nil_r; reflexivity.
Qed.

Lemma additive_push_warning (c : bool) (message : string) :
  Additive (push_warning c message).
Proof.
  intros [v es ws]. unfold push_warning, pushed, push_if.
  destruct c; cbn; rewrite ?app_nil_r; reflexivity.
Qed.

Lemma additive_compose (f g : Result -> Result) :
  Additive f -> Additive g -> Additive (fun result => g (f result)).
Proof.
  intros Hf Hg result.
  rewrite (Hg (f result)), (Hf result), pushed_pushed.
  rewrite (Hg (f fresh)). reflexivity.
Qed.

Lemma additive_fold {A : Type} (f : Result -> A -> Result) (xs : list A) :
  (forall x, Additive (fun result => f result x)) ->
  Additive (fun result => fold_left f xs result).
Proof.
  intros Hf. induction xs as [|x xs IH]; cbn [fold_left].
  - apply additive_id.
  - apply (additive_compose (fun result => f result x)
             (fun result => fold_left f xs result)); [apply Hf | exact IH].
Qed.

(** What an additive fold pushes is the concatenation of what its steps
    push. *)
Lemma additive_fold_pushes {A : Type} (f : Result -> A -> Result)
  (xs : list A) :
  (forall x, Additive (fun result => f result x)) ->
  errors (fold_left f xs fresh) = concat (map (fun x => errors (f fresh x)) xs)
  /\ warnings (fold_left f xs fresh)
     = concat (map (fun x => warnings (f fresh x)) xs).
Proof.
  intros Hf. induction xs as [|x xs [IHe IHw]]; cbn [fold_left map concat].
  - split; reflexivity.
  - rewrite (additive_fold f xs Hf (f fresh x)). cbn [pushed errors warnings].
    rewrite IHe, IHw. split; reflexivity.
Qed.

Create HintDb additive.
#[local] Hint Resolve additive_id additive_push_error additive_push_warning
  : additive.

Lemma additive_relationship_checks (names : gset string) (entity : Entity)
  (field : EntityField) :
  Additive (relationship_checks names entity field).
Proof.
  unfold relationship_checks. destruct (f_relationship field) as [r|];
    [|apply additive_id].
  apply (additive_compose
           (fun result => push_warning _ _ (push_error _ _ result))
           (push_warning _ _)); [|auto with additive].
  apply (additive_compose (push_error _ _) (push_warning _ _));
    auto with additive.
Qed.

Lemma additive_entity_relationships (names : gset string) (entity : Entity) :
  Additive (fun result =>
              fold_left (fun result field =>
                           relationship_checks names entity field result)
                (e_fields entity) result).
Proof.
  apply (additive_fold
           (fun result field => relationship_checks names entity field result)).
  intros field. apply additive_relationship_checks.
Qed.

Lemma additive_validateEntityRelationships (dataModel : DataModel) :
  Additive (validateEntityRelationships dataModel).
Proof.
  unfold validateEntityRelationships.
  apply (additive_fold
           (fun result entity =>
              fold_left (fun result field =>
                           relationship_checks _ entity field result)
                (e_fields entity) result)).
  intros entity. apply additive_entity_relationships.
Qed.

Lemma additive_validateFieldDataType (entityName : string)
  (field : EntityField) (strict : bool) :
  Additive (fun result => validateFieldDataType entityName field result strict).
Proof.
  unfold validateFieldDataType. destruct strict.
  - repeat (first
      [ apply additive_push_warning
      | apply additive_push_error
      | apply (additive_compose _ (push_warning _ _))
      | apply (additive_compose _ (push_error _ _)) ]).
  - repeat (first
      [ apply additive_push_warning
      | apply additive_push_error
      | apply (additive_compose _ (push_warning _ _))
      | apply (additive_compose _ (push_error _ _)) ]).
Qed.

Lemma additive_field_loop (entity : Entity) (strict : bool)
  (fields : list EntityField) (names : gset string) :
  Additive (fun result => (field_loop entity strict fields (names, result)).2).
Proof.
  unfold field_loop. revert names.
  induction fields as [|field rest IH]; intros names; cbn [fold_left fst snd].
  - apply additive_id.
  - apply (additive_compose
             (fun result =>
                validateFieldDataType (e_name entity) field
                  (push_error _ _ result) strict)
             (fun result => (fold_left _ rest (_, result)).2)).
    + apply (additive_compose (push_error _ _)
               (fun result => validateFieldDataType _ field result strict)).
      * apply additive_push_error.
      * apply additive_validateFieldDataType.
    + apply IH.
Qed.

Lemma additive_validateEntityFields (dataModel : DataModel) (strict : bool) :
  Additive (fun result => validateEntityFields dataModel result strict).
Proof.
  unfold validateEntityFields.
  apply (additive_fold
           (fun result entity =>
              push_error _ _
                (push_error _ _
                   (field_loop entity strict (e_fields entity) (∅, result)).2))).
  intros entity.
  apply (additive_compose
           (fun result =>
              push_error _ _
                (field_loop entity strict (e_fields entity) (∅, result)).2)
           (push_error _ _)); [|apply additive_push_error].
  apply (additive_compose
           (fun result =>
              (field_loop entity strict (e_fields entity) (∅, result)).2)
           (push_error _ _)); [|apply additive_push_error].
  apply additive_field_loop.
Qed.

Lemma additive_validateNamingConventions (dataModel : DataModel)
  (strict : bool) :
  Additive (fun result => validateNamingConventions dataModel result strict).
Proof.
  unfold validateNamingConventions.
  apply (additive_compose (fun result => fold_left _ _ result)
           (fun result => match m_enums dataModel with
                          | Some enums => fold_left _ enums result
                          | None => result
                          end)).
  - apply (additive_fold
             (fun result entity =>
                fold_left _ (e_fields entity) (push_warning _ _ result))).
    intros entity.
    apply (additive_compose (push_warning _ _)
             (fun result => fold_left _ (e_fields entity) result)).
    + apply additive_push_warning.
    + apply (additive_fold (fun result field => push_warning _ _ result)).
      intros field. apply additive_push_warning.
  - destruct (m_enums dataModel) as [enums|]; [|apply additive_id].
    apply (additive_fold
             (fun result enumDef =>
                fold_left _ (en_values enumDef) (push_warning _ _ result))).
    intros enumDef.
    apply (additive_compose (push_warning _ _)
             (fun result => fold_left _ (en_values enumDef) result)).
    + apply additive_push_warning.
    + apply (additive_fold (fun result value => push_warning _ _ result)).
      intros value. apply additive_push_warning.
Qed.

Lemma additive_validateBusinessRules (dataModel : DataModel) :
  Additive (Validate.validateBusinessRules dataModel).
Proof.
  unfold Validate.validateBusinessRules, validateRelationshipLogic,
    checkCircularRelationships.
  destruct (circular_warnings dataModel) as [ws|]; [|apply additive_id].
  intros [v es ws']. unfold pushed. cbn. rewrite app_nil_r. reflexivity.
Qed.

Lemma additive_passes (dataModel : DataModel) (strict : bool) :
  Additive (passes dataModel strict).
Proof.
  unfold passes.
  apply (additive_compose
           (fun result =>
              validateNamingConventions dataModel
                (validateEntityFields dataModel
                   (validateEntityRelationships dataModel result) strict)
                strict)
           (Validate.validateBusinessRules dataModel));
    [|apply additive_validateBusinessRules].
  apply (additive_compose
           (fun result =>
              validateEntityFields dataModel
                (validateEntityRelationships dataModel result) strict)
           (fun result => validateNamingConventions dataModel result strict));
    [|apply additive_validateNamingConventions].
  apply (additive_compose (validateEntityRelationships dataModel)
           (fun result => validateEntityFields dataModel result strict)).
  - apply additive_validateEntityRelationships.
  - apply additive_validateEntityFields.
Qed.

(** ** Business rules: accumulate, then throw *)

Lemma no_primary_key (fields : list EntityField) :
  (length (filter (fun f => truthy_bool (f_isPrimaryKey f) = true) fields)
   =? 0)%nat
  = forallb (fun f => negb (truthy_bool (f_isPrimaryKey f))) fields.
Proof.
  induction fields as [|field rest IH]; [reflexivity|].
  rewrite filter_cons. cbn [forallb].
  destruct (truthy_bool (f_isPrimaryKey field)) eqn:Hpk.
  - rewrite decide_True by reflexivity. reflexivity.
  - rewrite decide_False by discriminate. exact IH.
Qed.

Lemma entity_rules_parts (names : gset string) (entity : Entity)
  (errors : list string) :
  Parser.entity_rules names entity errors
  = errors
    ++ concat (map (fun field =>
                      Parser.relationship_rules names entity field [])
                 (e_fields entity))
    ++ primary_key_message entity.
Proof.
  unfold Parser.entity_rules, primary_key_message.
  rewrite (appends_fold
             (fun errors field =>
                Parser.relationship_rules names entity field errors) _
             (relationship_rules_appends names entity)).
  rewrite no_primary_key. unfold push_if.
  destruct (forallb _ _); rewrite <- ?app_assoc, ?app_nil_r; reflexivity.
Qed.

Lemma validateBusinessRules_throws (dataModel : DataModel) :
  Parser.validateBusinessRules dataModel
  = match Parser.business_rule_errors dataModel with
    | [] => Ok tt
    | messages =>
        Throw (ErrorObj ("Business rule validation failed:" +:+ newline
                         +:+ join newline messages))
    end.
Proof.
  unfold Parser.validateBusinessRules.
  destruct (Parser.business_rule_errors dataModel); reflexivity.
Qed.

Lemma additional_checks_pushes (dataModel : DataModel) (result : Result)
  (strict : bool) :
  additional_checks dataModel result strict
  = settled (pushed result
               (errors (passes dataModel strict fresh))
               (warnings (passes dataModel strict fresh))).
Proof.
  unfold additional_checks. fold (passes dataModel strict result).
  rewrite (additive_passes dataModel strict result). reflexivity.
Qed.

Lemma enum_rule_appends (enumNames : gset string) (entity : Entity)
  (field : EntityField) :
  Appends (Parser.enum_rule enumNames entity field).
Proof.
  unfold Parser.enum_rule.
  destruct (is_enum _); [|apply appends_id].
  destruct (dt_enum _); [apply appends_push_if | apply appends_id].
Qed.

Lemma enum_rules_appends (enumNames : gset string) (entity : Entity) :
  Appends (fun errors =>
             fold_left (fun errors field =>
                          Parser.enum_rule enumNames entity field errors)
               (e_fields entity) errors).
Proof.
  intros errors.
  rewrite (appends_fold
             (fun errors field => Parser.enum_rule enumNames entity field errors)
             _ (enum_rule_appends enumNames entity) errors).
  rewrite (appends_fold
             (fun errors field => Parser.enum_rule enumNames entity field errors)
             _ (enum_rule_appends enumNames entity) []).
  reflexivity.
Qed.

Lemma business_rule_errors_parts (dataModel : DataModel) :
  Parser.business_rule_errors dataModel
  = duplicate_messages ∅ (m_entities dataModel)
    ++ concat (map (fun entity =>
                      concat (map (fun field =>
                                     Parser.relationship_rules
                                       (entity_names dataModel) entity field [])
                                (e_fields entity))
                      ++ primary_key_message entity)
                 (m_entities dataModel))
    ++ concat (map (fun entity =>
                      concat (map (fun field =>
                                     Parser.enum_rule
                                       (Parser.enum_names dataModel) entity
                                       field [])
                                (e_fields entity)))
                 (m_entities dataModel)).
Proof.
  unfold Parser.business_rule_errors.
  rewrite duplicate_names_spec. cbn [fst snd app].
  rewrite (right_id_L ∅ (∪)). fold (entity_names dataModel).
  rewrite (appends_fold
             (fun errors entity =>
                fold_left
                  (fun errors field =>
                     Parser.enum_rule (Parser.enum_names dataModel) entity
                       field errors)
                  (e_fields entity) errors)
             _ (enum_rules_appends (Parser.enum_names dataModel))).
  rewrite (appends_fold
             (fun errors entity =>
                Parser.entity_rules (entity_names dataModel) entity errors) _
             (entity_rules_appends (entity_names dataModel))).
  rewrite <- app_assoc. f_equal. f_equal.
  - f_equal. apply map_ext. intros entity.
    rewrite (entity_rules_parts _ entity []). reflexivity.
  - f_equal. apply map_ext. intros entity.
    rewrite (appends_fold
               (fun errors field =>
                  Parser.enum_rule (Parser.enum_names dataModel) entity field
                    errors)
               _ (enum_rule_appends (Parser.enum_names dataModel) entity) []).
    reflexivity.
Qed.

(** C4 (amended). The parser's business-rule validation evaluates every rule
    and accumulates every message, independently of the messages already
    collected: what it holds at the end is the messages of the
    duplicate-name rule followed, entity by entity, by the messages of the
    relationship rules of each field and of the primary-key rule, and then,
    entity by entity, by what the enum-reference rule pushes for each field.
    It returns normally only when nothing was accumulated; otherwise it
    throws one error whose text lists every accumulated message, one per
    line. The passes of the validate command push into [errors] and
    [warnings] additively and do not throw, and [validateDataModel] never
    throws: it catches what the parser throws and records it as one entry of
    [errors]; [valid] is set from [errors.length] only when the parser
    returned. *)
Theorem business_rules_accumulate (dataModel : DataModel) :
  Parser.business_rule_errors dataModel
  = duplicate_messages ∅ (m_entities dataModel)
    ++ concat (map (fun entity =>
                      concat (map (fun field =>
                                     Parser.relationship_rules
                                       (entity_names dataModel) entity field [])
                                (e_fields entity))
                      ++ primary_key_message entity)
                 (m_entities dataModel))
    ++ concat (map (fun entity =>
                      concat (map (fun field =>
                                     Parser.enum_rule
                                       (Parser.enum_names dataModel) entity
                                       field [])
                                (e_fields entity)))
                 (m_entities dataModel))
  /\ Parser.validateBusinessRules dataModel
     = match Parser.business_rule_errors dataModel with
       | [] => Ok tt
       | messages =>
           Throw (ErrorObj ("Business rule validation failed:" +:+ newline
                            +:+ join newline messages))
       end
  /\ (forall result strict,
        additional_checks dataModel result strict
        = settled (pushed result
                     (errors (passes dataModel strict fresh))
                     (warnings (passes dataModel strict fresh))))
  /\ (forall modelPath file result strict,
        validateDataModel modelPath file result strict
        = Ok match file with
             | Parser.Missing =>
                 pushed result ["Data model file not found: " +:+ modelPath] []
             | _ =>
                 match Parser.parseFromFile modelPath file with
                 | Ok parsed => additional_checks parsed result strict
                 | Throw error =>
                     pushed result
                       ["Data model validation failed: " +:+ error_text error]
                       []
                 end
             end).
Proof.
  split; [apply business_rule_errors_parts|].
  split; [apply validateBusinessRules_throws|].
  split; [intros result strict; apply additional_checks_pushes|].
  intros modelPath file [v es ws] strict. unfold validateDataModel.
  destruct file as [|parsed|parsed|ext]; cbn [try_catch mret Exc_ret mbind Exc_bind bind].
  - unfold pushed, push_error, push_if. cbn. rewrite app_nil_r. reflexivity.
  - destruct (Parser.parseFromFile modelPath (Parser.JsonFile parsed));
      cbn; [reflexivity|].
    unfold pushed. cbn. rewrite app_nil_r. reflexivity.
  - destruct (Parser.parseFromFile modelPath (Parser.YamlFile parsed));
      cbn; [reflexivity|].
    unfold pushed. cbn. rewrite app_nil_r. reflexivity.
  - cbn. unfold pushed. cbn. rewrite app_nil_r. reflexivity.
Qed.

(** C4, as stated, fails: on a model that violates three rules the parser's
    [validateBusinessRules] does not return lists, it throws; the thrown
    text carries the three messages. *)
Lemma business_rules_throw :
  Parser.business_rule_errors broken_model
  = ["Entity Order.customer: relationship target 'Customer' does not exist";
     "Entity Order.customer: manyToOne relationship requires foreignKey";
     "Entity Order: must have at least one primary key field"]
  /\ Parser.validateBusinessRules broken_model
     = Throw (ErrorObj
                ("Business rule validation failed:" +:+ newline
                 +:+ "Entity Order.customer: relationship target 'Customer' does not exist"
                 +:+ newline
                 +:+ "Entity Order.customer: manyToOne relationship requires foreignKey"
                 +:+ newline
                 +:+ "Entity Order: must have at least one primary key field"))
  /\ Parser.validateBusinessRules broken_model <> Ok tt.
Proof.
  split; [vm_compute; reflexivity|].
  split; [vm_compute; reflexivity|].
  vm_compute. discriminate.
Qed.

(** ** Relationships without [foreignKey] or [joinTable] *)

Lemma elem_of_concat_map {A : Type} (f : A -> list string) (xs : list A)
  (x : A) (message : string) :
  x ∈ xs -> message ∈ f x -> message ∈ concat (map f xs).
Proof.
  rewrite !list_elem_of_In, in_concat. intros Hx Hm.
  exists (f x). split; [apply in_map; exact Hx | exact Hm].
Qed.

Lemma concat_map_nil {A : Type} (f : A -> list string) (xs : list A) :
  (forall x, x ∈ xs -> f x = []) -> concat (map f xs) = [].
Proof.
  induction xs as [|x xs IH]; intros Hnil; [reflexivity|].
  cbn [map concat]. rewrite (Hnil x) by left.
  apply IH. intros y Hy. apply Hnil. right. exact Hy.
Qed.

Lemma checks_warn (names : gset string) (entity : Entity) (field : EntityField)
  (relationship : Relationship) :
  f_relationship field = Some relationship -> lacks_key relationship = true ->
  advisory entity field relationship
    ∈ warnings (relationship_checks names entity field fresh).
Proof.
  intros Hrel Hlacks. unfold relationship_checks, advisory. rewrite Hrel.
  unfold lacks_key in Hlacks.
  destruct (r_type relationship); cbn in Hlacks |- *;
    try discriminate;
    destruct (truthy_string _); cbn in Hlacks |- *; try discriminate;
    unfold push_if; repeat destruct (bool_decide _); cbn;
    rewrite ?elem_of_cons; auto.
Qed.

Lemma checks_no_error (names : gset string) (entity : Entity)
  (field : EntityField) :
  (forall relationship,
     f_relationship field = Some relationship -> r_target relationship ∈ names) ->
  errors (relationship_checks names entity field fresh) = [].
Proof.
  intros Htarget. unfold relationship_checks.
  destruct (f_relationship field) as [r|]; [|reflexivity].
  cbn. rewrite bool_decide_eq_true_2 by (apply Htarget; reflexivity).
  reflexivity.
Qed.

Lemma rules_require (names : gset string) (entity : Entity)
  (field : EntityField) (relationship : Relationship) :
  f_relationship field = Some relationship -> lacks_key relationship = true ->
  requirement entity field relationship
    ∈ Parser.relationship_rules names entity field [].
Proof.
  intros Hrel Hlacks. unfold Parser.relationship_rules, requirement.
  rewrite Hrel. unfold lacks_key in Hlacks.
  destruct (r_type relationship); cbn in Hlacks |- *;
    try discriminate;
    destruct (truthy_string _); cbn in Hlacks |- *; try discriminate;
    unfold push_if; repeat destruct (bool_decide _); cbn;
    rewrite ?elem_of_cons; auto.
Qed.

Lemma checks_errors (names : gset string) (entity : Entity)
  (field : EntityField) :
  errors (relationship_checks names entity field fresh)
  = match f_relationship field with
    | Some relationship =>
        if bool_decide (r_target relationship ∈ names) then []
        else [field_label entity field +:+ "relationship target '"
              +:+ r_target relationship +:+ "' does not exist"]
    | None => []
    end.
Proof.
  unfold relationship_checks.
  destruct (f_relationship field) as [r|]; [|reflexivity].
  cbn. destruct (bool_decide _); reflexivity.
Qed.

Lemma relationship_pass_errors (dataModel : DataModel) (result : Result) :
  errors (validateEntityRelationships dataModel result)
  = errors result
    ++ concat (map (fun entity =>
                      concat (map (fun field =>
                                     errors (relationship_checks
                                               (entity_names dataModel) entity
                                               field fresh))
                                (e_fields entity)))
                 (m_entities dataModel)).
Proof.
  rewrite (additive_validateEntityRelationships dataModel result).
  cbn [pushed errors]. f_equal.
  unfold validateEntityRelationships. fold (entity_names dataModel).
  destruct (additive_fold_pushes
              (fun result entity =>
                 fold_left (fun result field =>
                              relationship_checks (entity_names dataModel)
                                entity field result)
                   (e_fields entity) result)
              (m_entities dataModel)
              (additive_entity_relationships (entity_names dataModel)))
    as [Herrors _].
  rewrite Herrors. f_equal. apply map_ext. intros entity.
  destruct (additive_fold_pushes
              (fun result field =>
                 relationship_checks (entity_names dataModel) entity field
                   result)
              (e_fields entity)
              (additive_relationship_checks (entity_names dataModel) entity))
    as [He _].
  exact He.
Qed.

(** C3 (amended). For a field whose manyToMany relationship lacks
    [joinTable], or whose oneToOne or manyToOne relationship lacks
    [foreignKey], the relationship pass of the validate command pushes a
    warning that names the field. The only errors that pass pushes are the
    ["relationship target ... does not exist"] messages, one for each
    relationship whose target is no entity of the model, so it pushes none
    when every target exists. The model loader, which [validateDataModel]
    runs first, reports the missing key as an error (["requires
    foreignKey"], ["requires joinTable"]) and throws: validating such a model
    from its file yields [valid: false], exactly one entry in [errors] (the
    loader's text, which names the field) and no warning at all. *)
Theorem missing_relationship_key (dataModel : DataModel) (entity : Entity)
  (field : EntityField) (relationship : Relationship) :
  entity ∈ m_entities dataModel -> field ∈ e_fields entity ->
  f_relationship field = Some relationship ->
  lacks_key relationship = true ->
  (forall result,
     advisory entity field relationship
       ∈ warnings (validateEntityRelationships dataModel result)
     /\ errors (validateEntityRelationships dataModel result)
        = errors result
          ++ concat
               (map (fun entity =>
                       concat
                         (map (fun field =>
                                 match f_relationship field with
                                 | Some relationship =>
                                     if bool_decide
                                          (r_target relationship
                                             ∈ entity_names dataModel)
                                     then []
                                     else [field_label entity field
                                           +:+ "relationship target '"
                                           +:+ r_target relationship
                                           +:+ "' does not exist"]
                                 | None => []
                                 end)
                            (e_fields entity)))
                  (m_entities dataModel))
     /\ (targets_exist dataModel ->
         errors (validateEntityRelationships dataModel result)
         = errors result))
  /\ requirement entity field relationship
       ∈ Parser.business_rule_errors dataModel
  /\ Parser.validateBusinessRules dataModel
     = Throw (ErrorObj ("Business rule validation failed:" +:+ newline
                        +:+ join newline
                              (Parser.business_rule_errors dataModel)))
  /\ (forall modelPath strict,
        validateDataModel modelPath
          (Parser.JsonFile (Ok (Parser.SchemaValid dataModel))) fresh strict
        = Ok {| valid := false;
                errors :=
                  ["Data model validation failed: "
                   +:+ "Business rule validation failed:" +:+ newline
                   +:+ join newline (Parser.business_rule_errors dataModel)];
                warnings := [] |})
  /\ (forall modelPath strict,
        validateDataModel modelPath
          (Parser.YamlFile (Ok (Parser.SchemaValid dataModel))) fresh strict
        = Ok {| valid := false;
                errors :=
                  ["Data model validation failed: "
                   +:+ "Invalid YAML: "
                   +:+ "Business rule validation failed:" +:+ newline
                   +:+ join newline (Parser.business_rule_errors dataModel)];
                warnings := [] |}).
Proof.
  intros Hentity Hfield Hrel Hlacks.
  assert (Hrequired :
            requirement entity field relationship
              ∈ Parser.business_rule_errors dataModel).
  { rewrite business_rule_errors_additive. apply elem_of_app. right.
    apply (elem_of_concat_map _ _ entity); [exact Hentity|].
    rewrite entity_rules_parts. cbn [app]. apply elem_of_app. left.
    apply (elem_of_concat_map _ _ field); [exact Hfield|].
    apply rules_require; assumption. }
  assert (Hthrow :
            Parser.validateBusinessRules dataModel
            = Throw (ErrorObj ("Business rule validation failed:" +:+ newline
                               +:+ join newline
                                     (Parser.business_rule_errors dataModel)))).
  { rewrite validateBusinessRules_throws.
    destruct (Parser.business_rule_errors dataModel); [|reflexivity].
    inversion Hrequired. }
  split; [|split; [exact Hrequired | split; [exact Hthrow | split]]].
  - intros result. split; [|split].
    + rewrite (additive_validateEntityRelationships dataModel result).
      cbn [pushed warnings].
      unfold validateEntityRelationships.
      fold (entity_names dataModel).
      destruct (additive_fold_pushes
                  (fun result entity =>
                     fold_left (fun result field =>
                                  relationship_checks (entity_names dataModel)
                                    entity field result)
                       (e_fields entity) result)
                  (m_entities dataModel)
                  (additive_entity_relationships (entity_names dataModel)))
        as [_ Hwarnings].
      rewrite Hwarnings.
      apply elem_of_app. right.
      apply (elem_of_concat_map _ _ entity); [exact Hentity|].
      destruct (additive_fold_pushes
                  (fun result field =>
                     relationship_checks (entity_names dataModel) entity field
                       result)
                  (e_fields entity)
                  (additive_relationship_checks (entity_names dataModel) entity))
        as [_ Hw].
      rewrite Hw.
      apply (elem_of_concat_map _ _ field); [exact Hfield|].
      apply checks_warn; assumption.
    + rewrite relationship_pass_errors. do 2 f_equal.
      apply map_ext. intros e. f_equal. apply map_ext. intros f.
      apply checks_errors.
    + intros Htargets. rewrite relationship_pass_errors.
      rewrite concat_map_nil; [apply app_nil_r|].
      intros e He. apply concat_map_nil. intros f Hf.
      apply checks_no_error. intros r Hr. apply (Htargets e f r); assumption.
  - intros modelPath strict. unfold validateDataModel.
    cbn [Parser.parseFromFile Parser.parseFromJson try_catch mbind Exc_bind
           bind Parser.validateAndParse].
    rewrite Hthrow. reflexivity.
  - intros modelPath strict.
    unfold validateDataModel, Parser.parseFromFile, Parser.parseFromYaml,
      Parser.validateAndParse, mbind, Exc_bind.
    cbn [bind]. rewrite Hthrow. reflexivity.
Qed.

(** [Post.author] without [foreignKey]: a warning in the relationship pass
    and no error, an error from the loader. [Order.customer] without
    [foreignKey] and with a target that does not exist: the same warning,
    and the error for the target. *)
Lemma missing_relationship_key_witness :
  "Entity Post.author: manyToOne relationship should specify foreignKey"
    ∈ warnings (validateEntityRelationships keyless_model fresh)
  /\ errors (validateEntityRelationships keyless_model fresh) = []
  /\ "Entity Post.author: manyToOne relationship requires foreignKey"
       ∈ Parser.business_rule_errors keyless_model
  /\ validateDataModel "models/data-model.json"
       (Parser.JsonFile (Ok (Parser.SchemaValid keyless_model))) fresh false
     = Ok {| valid := false;
             errors :=
               ["Data model validation failed: "
                +:+ "Business rule validation failed:" +:+ newline
                +:+ "Entity Post.author: manyToOne relationship requires foreignKey"];
             warnings := [] |}
  /\ "Entity Order.customer: manyToOne relationship should specify foreignKey"
       ∈ warnings (validateEntityRelationships broken_model fresh)
  /\ errors (validateEntityRelationships broken_model fresh)
     = ["Entity Order.customer: relationship target 'Customer' does not exist"].
Proof.
  pose proof (missing_relationship_key keyless_model keyless_post
                (relation_field "author" (plain TObject)
                   (relation ManyToOne "User" None))
                (relation ManyToOne "User" None))
    as H.
  pose proof (missing_relationship_key broken_model
                (entity_of "Order"
                   [simple_field "total" (plain TNumber);
                    relation_field "customer" (plain TObject)
                      (relation ManyToOne "Customer" None)])
                (relation_field "customer" (plain TObject)
                   (relation ManyToOne "Customer" None))
                (relation ManyToOne "Customer" None))
    as H'.
  destruct H as (Hpass & Hrequired & _ & Hfile & _).
  - right; left.
  - right; right; left.
  - reflexivity.
  - reflexivity.
  - destruct H' as (Hpass' & _).
    + left.
    + right; left.
    + reflexivity.
    + reflexivity.
    + destruct (Hpass fresh) as (Hwarning & Herrors & _).
      destruct (Hpass' fresh) as (Hwarning' & Herrors' & _).
      split; [exact Hwarning|].
      split; [rewrite Herrors; vm_compute; reflexivity|].
      split; [exact Hrequired|].
      split; [rewrite (Hfile "models/data-model.json" false); reflexivity|].
      split; [exact Hwarning'|].
      rewrite Herrors'. vm_compute. reflexivity.
Defined.

(** C3, as stated, fails on the sample model with [Post.author] left without
    [foreignKey]: every other rule passes, yet validating the model gives a
    non-empty [errors] and an empty [warnings]. *)
Lemma missing_foreignKey_blocks :
  lacks_key (relation ManyToOne "User" None) = true
  /\ Parser.business_rule_errors keyless_model
     = ["Entity Post.author: manyToOne relationship requires foreignKey"]
  /\ exists result,
       validateDataModel "models/data-model.json"
         (Parser.JsonFile (Ok (Parser.SchemaValid keyless_model))) fresh false
       = Ok result
       /\ errors result <> [] /\ warnings result = []
       /\ valid result = false.
Proof.
  split; [reflexivity|].
  split; [vm_compute; reflexivity|].
  eexists. split; [vm_compute; reflexivity|].
  split; [discriminate|]. split; reflexivity.
Qed.

(** ** The relationship graph *)

Lemma add_edges_lookup (entity : Entity) (fields : list EntityField)
  (g : gmap string (list string)) (name : string) :
  add_edges entity fields g !! name
  = if decide (e_name entity = name)
    then (fun targets =>
            targets ++ edge_targets (entity_of (e_name entity) fields))
         <$> g !! name
    else g !! name.
Proof.
  unfold add_edges, edge_targets. cbn [e_fields entity_of].
  revert g. induction fields as [|field rest IH]; intros g.
  - cbn. destruct (decide (e_name entity = name)); [|reflexivity].
    destruct (g !! name); cbn; [rewrite app_nil_r|]; reflexivity.
  - cbn [fold_left]. rewrite IH. clear IH. cbn [omap list_omap].
    destruct (f_relationship field) as [r|]; [|reflexivity].
    destruct (is_oneToMany (r_type r)); cbn [negb]; [reflexivity|].
    rewrite lookup_alter.
    destruct (decide (e_name entity = name)) as [Heq|Hne]; [|reflexivity].
    rewrite Heq. destruct (g !! name); cbn; [|reflexivity].
    rewrite <- app_assoc. reflexivity.
Qed.

Lemma edge_targets_fields (entity : Entity) :
  edge_targets (entity_of (e_name entity) (e_fields entity))
  = edge_targets entity.
Proof. reflexivity. Qed.

Lemma graph_lookup_from (entities : list Entity)
  (g : gmap string (list string)) (name : string) :
  fold_left (fun g entity =>
               add_edges entity (e_fields entity) (<[e_name entity := []]> g))
    entities g !! name
  = match last_named name entities with
    | Some entity => Some (edge_targets entity)
    | None => g !! name
    end.
Proof.
  revert g. induction entities as [|entity rest IH]; intros g;
    cbn [fold_left last_named]; [reflexivity|].
  rewrite IH. destruct (last_named name rest); [reflexivity|].
  rewrite add_edges_lookup, edge_targets_fields.
  destruct (decide (e_name entity = name)) as [Heq|Hne].
  - rewrite <- Heq, lookup_insert_eq. reflexivity.
  - rewrite lookup_insert_ne by exact Hne. reflexivity.
Qed.

Lemma build_graph_lookup (dataModel : DataModel) (name : string) :
  build_graph dataModel !! name
  = edge_targets <$> last_named name (m_entities dataModel).
Proof.
  unfold build_graph. rewrite graph_lookup_from.
  destruct (last_named name (m_entities dataModel)); [reflexivity|].
  apply lookup_empty.
Qed.

Lemma last_named_Some (name : string) (entities : list Entity)
  (entity : Entity) :
  last_named name entities = Some entity ->
  entity ∈ entities /\ e_name entity = name.
Proof.
  induction entities as [|e rest IH]; cbn [last_named]; [discriminate|].
  destruct (last_named name rest) as [later|].
  - intros [= <-]. destruct (IH eq_refl) as [Hin Hname].
    split; [right; exact Hin | exact Hname].
  - destruct (decide (e_name e = name)); [|discriminate].
    intros [= <-]. split; [left | assumption].
Qed.

Lemma last_named_None (name : string) (entities : list Entity) :
  last_named name entities = None <-> name ∉ map e_name entities.
Proof.
  induction entities as [|e rest IH]; cbn [last_named map].
  - split; [intros _; apply not_elem_of_nil | reflexivity].
  - rewrite not_elem_of_cons, <- IH.
    destruct (last_named name rest).
    + split; [discriminate | intros [_ H]; discriminate].
    + destruct (decide (e_name e = name)); split; try discriminate;
        intuition congruence.
Qed.

Lemma last_named_unique (entities : list Entity) (entity : Entity) :
  NoDup (map e_name entities) -> entity ∈ entities ->
  last_named (e_name entity) entities = Some entity.
Proof.
  induction entities as [|e rest IH]; cbn [map last_named]; intros Hnd Hin.
  - inversion Hin.
  - apply NoDup_cons in Hnd as [Hfresh Hnd].
    apply elem_of_cons in Hin as [-> | Hin].
    + apply last_named_None in Hfresh. rewrite Hfresh.
      rewrite decide_True by reflexivity. reflexivity.
    + rewrite (IH Hnd Hin). reflexivity.
Qed.

(** The graph has exactly the entity names as nodes, and the node of an
    entity holds the targets of its relationships other than [oneToMany]. *)
Lemma build_graph_nodes (dataModel : DataModel) (name : string) :
  name ∈ dom (build_graph dataModel) <-> name ∈ map e_name (m_entities dataModel).
Proof.
  rewrite elem_of_dom, build_graph_lookup.
  destruct (last_named name (m_entities dataModel)) as [entity|] eqn:Hlast.
  - apply last_named_Some in Hlast as [Hin <-].
    split; [intros _ | intros _; eexists; reflexivity].
    apply list_elem_of_In, in_map, list_elem_of_In. exact Hin.
  - apply last_named_None in Hlast.
    split; [intros [x Hx]; discriminate | intros H; contradiction].
Qed.

Lemma build_graph_edges (dataModel : DataModel) (entity : Entity) :
  NoDup (map e_name (m_entities dataModel)) ->
  entity ∈ m_entities dataModel ->
  build_graph dataModel !! e_name entity = Some (edge_targets entity).
Proof.
  intros Hnd Hin. rewrite build_graph_lookup, (last_named_unique _ _ Hnd Hin).
  reflexivity.
Qed.

(** ** The cycle search returns *)

(** Membership in the sets of a state that was just entered. *)
Ltac in_entered :=
  first
    [ apply elem_of_union; left; apply elem_of_singleton; reflexivity
    | apply elem_of_union; right; assumption ].

Lemma size_list_to_set_le (names : list string) :
  size (list_to_set names : gset string) <= length names.
Proof.
  induction names as [|name rest IH]; cbn [list_to_set length].
  - rewrite size_empty. lia.
  - rewrite size_union_alt, size_singleton.
    pose proof (subseteq_size (list_to_set rest ∖ {[name]} : gset string)
                  (list_to_set rest)) as Hle.
    assert (list_to_set rest ∖ {[name]} ⊆ (list_to_set rest : gset string))
      as Hsub by (intros x Hx; apply elem_of_difference in Hx; tauto).
    specialize (Hle Hsub). lia.
Qed.

Lemma size_unvisited_enter (U : gset string) (node : string) (st : Dfs) :
  node ∈ U -> node ∉ visited st ->
  size (U ∖ visited (enter node st)) < size (U ∖ visited st).
Proof.
  intros HU Hfresh. apply subset_size. split.
  - intros x. cbn [enter visited].
    rewrite !elem_of_difference, elem_of_union. tauto.
  - intros Hsub. specialize (Hsub node). cbn [enter visited] in Hsub.
    rewrite !elem_of_difference, elem_of_union, elem_of_singleton in Hsub.
    tauto.
Qed.

Lemma size_unvisited_mono (U : gset string) (st st' : Dfs) :
  visited st ⊆ visited st' ->
  size (U ∖ visited st') <= size (U ∖ visited st).
Proof.
  intros Hsub. apply subseteq_size. intros x.
  rewrite !elem_of_difference. intros [HU Hx]. split; [exact HU|].
  intros Hv. apply Hx, Hsub, Hv.
Qed.

Section SearchReturns.

Variable entityGraph : gmap string (list string).
Variable U : gset string.

(** Every neighbor is one of the names of [U]. *)
Hypothesis closed :
  forall node neighbors neighbor,
    entityGraph !! node = Some neighbors -> neighbor ∈ neighbors ->
    neighbor ∈ U.

Lemma neighbors_loop_returns (call : string -> Dfs -> option (bool * Dfs))
  (bound : nat) (node : string) :
  returns U call bound ->
  forall neighbors st,
    (forall neighbor, neighbor ∈ neighbors -> neighbor ∈ U) ->
    size (U ∖ visited st) <= bound ->
    exists found st',
      neighbors_loop call node neighbors st = Some (found, st')
      /\ visited st ⊆ visited st'.
Proof.
  intros Hcall. induction neighbors as [|neighbor rest IH]; intros st HU Hsize.
  - cbn [neighbors_loop]. eexists _, _. split; [reflexivity|]. reflexivity.
  - cbn [neighbors_loop].
    assert (HUrest : forall x, x ∈ rest -> x ∈ U)
      by (intros x Hx; apply HU; right; exact Hx).
    destruct (bool_decide (neighbor ∈ visited st)) eqn:Hvisited.
    + destruct (bool_decide (neighbor ∈ recursionStack st)).
      * eexists _, _. split; reflexivity.
      * apply IH; assumption.
    + apply bool_decide_eq_false in Hvisited.
      destruct (Hcall neighbor st) as (found & st1 & Heq & Hsub);
        [apply HU; left | exact Hvisited | exact Hsize |].
      rewrite Heq. destruct found.
      * eexists _, _. split; [reflexivity | exact Hsub].
      * destruct (IH st1 HUrest) as (found & st2 & Heq2 & Hsub2).
        { pose proof (size_unvisited_mono U st st1 Hsub). lia. }
        exists found, st2. split; [exact Heq2|].
        etrans; eassumption.
Qed.

Lemma hasCycle_returns (fuel : nat) :
  returns U (hasCycle fuel entityGraph) fuel.
Proof.
  induction fuel as [|fuel IH]; intros node st HU Hfresh Hsize.
  - exfalso.
    assert (node ∈ U ∖ visited st) as Hin
      by (apply elem_of_difference; split; assumption).
    assert (size (U ∖ visited st) = 0) as Hzero by lia.
    apply size_empty_inv in Hzero. apply (Hzero node) in Hin.
    apply elem_of_empty in Hin. exact Hin.
  - cbn [hasCycle].
    pose proof (size_unvisited_enter U node st HU Hfresh) as Hless.
    destruct (neighbors_loop_returns (hasCycle fuel entityGraph) fuel node IH
                (default [] (entityGraph !! node)) (enter node st))
      as (found & st' & Heq & Hsub).
    + intros neighbor Hin.
      destruct (entityGraph !! node) as [neighbors|] eqn:Hnode;
        [|inversion Hin].
      apply (closed node neighbors); assumption.
    + lia.
    + exists found, st'. split; [exact Heq|].
      intros x Hx. apply Hsub. cbn [enter visited].
      in_entered.
Qed.

Lemma entities_loop_returns (fuel : nat) (entities : list Entity) :
  (forall entity, entity ∈ entities -> e_name entity ∈ U) ->
  forall st pushed,
    size (U ∖ visited st) <= fuel ->
    exists more,
      entities_loop fuel entityGraph entities st pushed = Some (pushed ++ more).
Proof.
  induction entities as [|entity rest IH]; intros HU st pushed Hsize.
  - exists []. cbn. rewrite app_nil_r. reflexivity.
  - cbn [entities_loop].
    assert (HUrest : forall e, e ∈ rest -> e_name e ∈ U)
      by (intros e He; apply HU; right; exact He).
    destruct (bool_decide (e_name entity ∈ visited st)) eqn:Hvisited.
    + apply IH; assumption.
    + apply bool_decide_eq_false in Hvisited.
      destruct (hasCycle_returns fuel (e_name entity) st)
        as (found & st' & Heq & Hsub);
        [apply HU; left | exact Hvisited | exact Hsize |].
      rewrite Heq.
      destruct (IH HUrest st'
                  (push_if found (cycle_warning (e_name entity)) pushed))
        as (more & Hmore).
      { pose proof (size_unvisited_mono U st st' Hsub). lia. }
      rewrite Hmore. unfold push_if. destruct found.
      * exists (cycle_warning (e_name entity) :: more).
        rewrite <- app_assoc. reflexivity.
      * exists more. reflexivity.
Qed.

End SearchReturns.

Lemma graph_closed (dataModel : DataModel) (node : string)
  (neighbors : list string) (neighbor : string) :
  build_graph dataModel !! node = Some neighbors -> neighbor ∈ neighbors ->
  neighbor ∈ nodes dataModel.
Proof.
  rewrite build_graph_lookup. intros Hnode Hin.
  destruct (last_named node (m_entities dataModel)) as [entity|] eqn:Hlast;
    [|discriminate].
  injection Hnode as <-. apply last_named_Some in Hlast as [Hentity _].
  unfold nodes, node_list. apply elem_of_list_to_set, elem_of_app. right.
  apply (elem_of_concat_map edge_targets _ entity); assumption.
Qed.

Lemma fuel_covers (dataModel : DataModel) (st : Dfs) :
  size (nodes dataModel ∖ visited st) <= search_fuel dataModel.
Proof.
  pose proof (size_list_to_set_le (node_list dataModel)) as Hle.
  fold (nodes dataModel) in Hle.
  assert (size (nodes dataModel ∖ visited st) <= size (nodes dataModel))
    as Hdiff.
  { apply subseteq_size. intros x Hx. apply elem_of_difference in Hx. tauto. }
  unfold node_list in Hle. rewrite length_app, length_map in Hle.
  unfold search_fuel. lia.
Qed.

(** The search is total: with the fuel [search_fuel] gives it, the loop over
    the entities always returns its list of warnings. *)
Lemma circular_warnings_total (dataModel : DataModel) :
  exists pushed, circular_warnings dataModel = Some pushed.
Proof.
  unfold circular_warnings.
  destruct (entities_loop_returns (build_graph dataModel) (nodes dataModel)
              (graph_closed dataModel) (search_fuel dataModel)
              (m_entities dataModel))
    with (st := {| visited := ∅; recursionStack := ∅ |}) (pushed := @nil string)
    as (more & Hmore).
  - intros entity Hentity. unfold nodes, node_list.
    apply elem_of_list_to_set, elem_of_app. left.
    apply list_elem_of_In, in_map, list_elem_of_In. exact Hentity.
  - apply fuel_covers.
  - exists more. exact Hmore.
Qed.

(** ** What the search finds *)

Section Search.

Variable entityGraph : gmap string (list string).

(** A name without outgoing edges is entered and left. *)
Lemma hasCycle_leaf (fuel : nat) (node : string) (st : Dfs) :
  default [] (entityGraph !! node) = [] ->
  hasCycle (S fuel) entityGraph node st
  = Some (false, leave node (enter node st)).
Proof. intros Hnone. cbn [hasCycle]. rewrite Hnone. reflexivity. Qed.

(** A neighbor that is on the recursion stack ends the loop with [true],
    provided the neighbors not yet visited have no edges of their own. *)
Lemma loop_finds_back_edge (fuel : nat) (node back : string) :
  forall neighbors st,
    back ∈ neighbors -> back ∈ visited st -> back ∈ recursionStack st ->
    (forall n, n ∈ neighbors -> n ∉ visited st ->
               default [] (entityGraph !! n) = []) ->
    exists st',
      neighbors_loop (hasCycle (S fuel) entityGraph) node neighbors st
      = Some (true, st').
Proof.
  induction neighbors as [|n rest IH]; intros st Hin Hvisited Hstack Hleaves.
  - inversion Hin.
  - cbn [neighbors_loop].
    destruct (bool_decide (n ∈ visited st)) eqn:Hn.
    + destruct (bool_decide (n ∈ recursionStack st)) eqn:Hs;
        [eexists; reflexivity|].
      apply bool_decide_eq_false in Hs.
      apply elem_of_cons in Hin as [-> | Hin]; [contradiction|].
      apply IH; try assumption.
      intros m Hm. apply Hleaves. right. exact Hm.
    + apply bool_decide_eq_false in Hn.
      assert (back <> n) as Hne by (intros ->; contradiction).
      apply elem_of_cons in Hin as [-> | Hin]; [contradiction|].
      rewrite hasCycle_leaf by (apply Hleaves; [left | exact Hn]).
      apply IH; cbn [leave enter visited recursionStack].
      * exact Hin.
      * in_entered.
      * apply elem_of_difference. split.
        -- in_entered.
        -- rewrite elem_of_singleton. exact Hne.
      * intros m Hm Hfresh. apply Hleaves; [right; exact Hm|].
        intros Hv. apply Hfresh. in_entered.
Qed.

Variables a b : string.
Variables toA toB : list string.

(** Only [a] and [b] have edges; [a] points to [b] and [b] to [a]. *)
Hypothesis edges_a : entityGraph !! a = Some toB.
Hypothesis edges_b : entityGraph !! b = Some toA.
Hypothesis a_to_b : b ∈ toB.
Hypothesis b_to_a : a ∈ toA.
Hypothesis others :
  forall n, n <> a -> n <> b -> default [] (entityGraph !! n) = [].

Lemma hasCycle_closes (fuel : nat) (st : Dfs) :
  a ∈ visited st -> a ∈ recursionStack st ->
  exists st', hasCycle (S (S fuel)) entityGraph b st = Some (true, st').
Proof.
  intros Hvisited Hstack. cbn [hasCycle]. rewrite edges_b. cbn [default].
  apply (loop_finds_back_edge fuel b a); cbn [enter visited recursionStack].
  - exact b_to_a.
  - in_entered.
  - in_entered.
  - intros n _ Hfresh. apply others.
    + intros ->. apply Hfresh. in_entered.
    + intros ->. apply Hfresh. in_entered.
Qed.

Lemma loop_reaches_b (fuel : nat) :
  forall neighbors st,
    b ∈ neighbors -> a ∈ visited st -> a ∈ recursionStack st ->
    b ∉ visited st ->
    exists st',
      neighbors_loop (hasCycle (S (S fuel)) entityGraph) a neighbors st
      = Some (true, st').
Proof.
  induction neighbors as [|n rest IH]; intros st Hin Hvisited Hstack Hfresh.
  - inversion Hin.
  - cbn [neighbors_loop].
    destruct (bool_decide (n ∈ visited st)) eqn:Hn.
    + apply bool_decide_eq_true in Hn.
      destruct (bool_decide (n ∈ recursionStack st));
        [eexists; reflexivity|].
      apply elem_of_cons in Hin as [-> | Hin]; [contradiction|].
      apply IH; assumption.
    + apply bool_decide_eq_false in Hn.
      destruct (decide (n = b)) as [-> | Hnb].
      * destruct (hasCycle_closes fuel st Hvisited Hstack) as [st' Heq].
        rewrite Heq. eexists; reflexivity.
      * apply elem_of_cons in Hin as [-> | Hin]; [contradiction|].
        assert (n <> a) as Hna by (intros ->; contradiction).
        rewrite hasCycle_leaf by (apply others; assumption).
        apply IH; cbn [leave enter visited recursionStack].
        -- exact Hin.
        -- in_entered.
        -- apply elem_of_difference. split.
           ++ in_entered.
           ++ rewrite elem_of_singleton. congruence.
        -- rewrite elem_of_union, elem_of_singleton. intros [-> | H];
             [congruence | contradiction].
Qed.

(** Started at [a] before either name was visited, the search finds the
    cycle; when [a] and [b] are one name the edge is a loop on [a]. *)
Lemma hasCycle_two_cycle (fuel : nat) (st : Dfs) :
  a ∉ visited st -> b ∉ visited st ->
  exists st',
    hasCycle (S (S (S fuel))) entityGraph a st = Some (true, st').
Proof.
  intros Ha Hb. cbn [hasCycle]. rewrite edges_a. cbn [default].
  destruct (decide (a = b)) as [Heq | Hne].
  - apply (loop_finds_back_edge (S fuel) a a); cbn [enter visited recursionStack].
    + rewrite Heq at 1. exact a_to_b.
    + in_entered.
    + in_entered.
    + intros n _ Hfresh. apply others.
      * intros ->. apply Hfresh. in_entered.
      * intros ->. apply Hfresh, elem_of_union. left.
        apply elem_of_singleton. symmetry. exact Heq.
  - apply (loop_reaches_b fuel); cbn [enter visited recursionStack].
    + exact a_to_b.
    + in_entered.
    + in_entered.
    + rewrite elem_of_union, elem_of_singleton. intros [-> | H];
        [congruence | contradiction].
Qed.

End Search.

Lemma elem_of_edge_targets (entity : Entity) (target : string) :
  target ∈ edge_targets entity <->
  exists field relationship,
    field ∈ e_fields entity /\ f_relationship field = Some relationship
    /\ r_type relationship <> OneToMany /\ r_target relationship = target.
Proof.
  unfold edge_targets. rewrite list_elem_of_omap. split.
  - intros (field & Hfield & Hsome).
    destruct (f_relationship field) as [r|] eqn:Hrel; [|discriminate].
    destruct (r_type r) eqn:Htype; cbn in Hsome; try discriminate;
      injection Hsome as <-; exists field, r; rewrite Htype;
      repeat split; auto; discriminate.
  - intros (field & r & Hfield & Hrel & Htype & <-).
    exists field. split; [exact Hfield|]. rewrite Hrel.
    destruct (r_type r); cbn; congruence.
Qed.

Lemma no_edges (entity : Entity) :
  (forall field relationship,
     field ∈ e_fields entity -> f_relationship field = Some relationship ->
     r_type relationship = OneToMany) ->
  edge_targets entity = [].
Proof.
  intros Hall. destruct (edge_targets entity) as [|target rest] eqn:Htargets;
    [reflexivity|].
  assert (target ∈ edge_targets entity) as Hin by (rewrite Htargets; left).
  apply elem_of_edge_targets in Hin as (field & r & Hfield & Hrel & Htype & _).
  exfalso. apply Htype. apply (Hall field r); assumption.
Qed.

Lemma entities_loop_no_edges (entityGraph : gmap string (list string))
  (fuel : nat) (entities : list Entity) :
  (forall name, default [] (entityGraph !! name) = []) ->
  forall st pushed,
    entities_loop (S fuel) entityGraph entities st pushed = Some pushed.
Proof.
  intros Hleaves. induction entities as [|entity rest IH]; intros st pushed;
    cbn [entities_loop]; [reflexivity|].
  destruct (bool_decide (e_name entity ∈ visited st)); [apply IH|].
  rewrite hasCycle_leaf by apply Hleaves. apply IH.
Qed.

(** A model in which every relationship is [oneToMany] gets no warning. *)
Lemma only_oneToMany_no_warning (dataModel : DataModel) :
  (forall entity field relationship,
     entity ∈ m_entities dataModel -> field ∈ e_fields entity ->
     f_relationship field = Some relationship ->
     r_type relationship = OneToMany) ->
  circular_warnings dataModel = Some [].
Proof.
  intros Hall. unfold circular_warnings, search_fuel.
  apply entities_loop_no_edges. intros name.
  rewrite build_graph_lookup.
  destruct (last_named name (m_entities dataModel)) as [entity|] eqn:Hlast;
    [|reflexivity].
  apply last_named_Some in Hlast as [Hin _]. cbn.
  apply no_edges. intros field r. apply Hall. exact Hin.
Qed.

Lemma entities_loop_cons (fuel : nat) (entityGraph : gmap string (list string))
  (entity : Entity) (rest : list Entity) (st : Dfs) (pushed : list string) :
  entities_loop fuel entityGraph (entity :: rest) st pushed
  = if bool_decide (e_name entity ∈ visited st) then
      entities_loop fuel entityGraph rest st pushed
    else
      match hasCycle fuel entityGraph (e_name entity) st with
      | Some (found, st') =>
          entities_loop fuel entityGraph rest st'
            (push_if found (cycle_warning (e_name entity)) pushed)
      | None => None
      end.
Proof. reflexivity. Qed.

(** Two entities that point at each other: the first is reported. *)
Lemma mutual_pair_warned (dataModel : DataModel) (A B : Entity) :
  m_entities dataModel = [A; B] ->
  e_name B ∈ edge_targets A -> e_name A ∈ edge_targets B ->
  exists more,
    circular_warnings dataModel = Some (cycle_warning (e_name A) :: more).
Proof.
  intros Hentities HAB HBA.
  pose proof (build_graph_lookup dataModel) as Hlookup.
  rewrite Hentities in Hlookup. cbn [last_named] in Hlookup.
  assert (Hb : build_graph dataModel !! e_name B = Some (edge_targets B)).
  { rewrite Hlookup, decide_True by reflexivity. reflexivity. }
  assert (Hothers : forall n, n <> e_name A -> n <> e_name B ->
                              default [] (build_graph dataModel !! n) = []).
  { intros n Hna Hnb. rewrite Hlookup.
    rewrite decide_False by congruence. rewrite decide_False by congruence.
    reflexivity. }
  assert (Ha : exists toB, build_graph dataModel !! e_name A = Some toB
                           /\ e_name B ∈ toB).
  { rewrite Hlookup. destruct (decide (e_name B = e_name A)) as [Heq|Hne].
    - exists (edge_targets B). split; [reflexivity|]. rewrite Heq. exact HBA.
    - rewrite decide_True by reflexivity.
      exists (edge_targets A). split; [reflexivity | exact HAB]. }
  destruct Ha as (toB & Ha & HtoB).
  assert (Hfuel : exists k, search_fuel dataModel = S (S (S k))).
  { unfold search_fuel. rewrite Hentities. eexists. reflexivity. }
  destruct Hfuel as [k Hk].
  assert (Hnames : forall entity, entity ∈ [A; B] ->
                                  e_name entity ∈ nodes dataModel).
  { intros entity Hentity. unfold nodes, node_list. rewrite Hentities.
    apply elem_of_list_to_set, elem_of_app. left.
    apply list_elem_of_In, in_map, list_elem_of_In. exact Hentity. }
  unfold circular_warnings. rewrite Hentities.
  set (st0 := {| visited := ∅; recursionStack := ∅ |}).
  destruct (hasCycle_two_cycle (build_graph dataModel) (e_name A) (e_name B)
              (edge_targets B) toB Ha Hb HtoB HBA Hothers k st0)
    as (st' & Hfound); [apply not_elem_of_empty..|].
  rewrite <- Hk in Hfound.
  rewrite entities_loop_cons.
  rewrite bool_decide_eq_false_2 by apply not_elem_of_empty.
  rewrite Hfound. cbn [push_if app].
  destruct (entities_loop_returns (build_graph dataModel) (nodes dataModel)
              (graph_closed dataModel) (search_fuel dataModel) [B])
    with (st := st') (pushed := [cycle_warning (e_name A)])
    as (more & Hmore).
  - intros entity Hentity. apply Hnames. right. exact Hentity.
  - apply fuel_covers.
  - exists more. exact Hmore.
Qed.


(** ** A cycle of two entities is found from anywhere *)

Section Monotone.

Variable entityGraph : gmap string (list string).

Lemma neighbors_loop_settles (call : string -> Dfs -> option (bool * Dfs))
  (node : string) :
  settles call ->
  forall neighbors st found st',
    neighbors_loop call node neighbors st = Some (found, st') ->
    visited st ⊆ visited st'
    /\ (found = false ->
        forall y, y <> node -> y ∈ visited st -> y ∈ recursionStack st ->
                  y ∈ recursionStack st').
Proof.
  intros Hcall. induction neighbors as [|n rest IH]; intros st found st' Hrun;
    cbn [neighbors_loop] in Hrun.
  - injection Hrun as <- <-. split; [reflexivity|].
    intros _ y Hy _ Hstack. cbn [leave recursionStack].
    apply elem_of_difference. split; [exact Hstack|].
    rewrite elem_of_singleton. exact Hy.
  - destruct (bool_decide (n ∈ visited st)) eqn:Hn.
    + destruct (bool_decide (n ∈ recursionStack st)).
      * injection Hrun as <- <-. split; [reflexivity | discriminate].
      * apply IH. exact Hrun.
    + apply bool_decide_eq_false in Hn.
      destruct (call n st) as [[[|] st1]|] eqn:Hcalled; [| |discriminate].
      * injection Hrun as <- <-.
        destruct (Hcall n st true st1 Hn Hcalled) as (_ & Hsub & _).
        split; [exact Hsub | discriminate].
      * destruct (Hcall n st false st1 Hn Hcalled) as (_ & Hsub & Hstack).
        destruct (IH st1 found st' Hrun) as (Hsub' & Hstack').
        split; [etrans; eassumption|].
        intros Hfalse y Hy Hv Hs. apply (Hstack' Hfalse y Hy).
        -- apply Hsub. exact Hv.
        -- apply (Hstack eq_refl); assumption.
Qed.

Lemma hasCycle_settles (fuel : nat) : settles (hasCycle fuel entityGraph).
Proof.
  induction fuel as [|fuel IH]; intros node st found st' Hfresh Hrun;
    [discriminate|].
  cbn [hasCycle] in Hrun.
  destruct (neighbors_loop_settles (hasCycle fuel entityGraph) node IH
              _ _ _ _ Hrun) as (Hsub & Hstack).
  cbn [enter visited recursionStack] in Hsub, Hstack.
  split; [|split].
  - apply Hsub. in_entered.
  - intros y Hy. apply Hsub. in_entered.
  - intros Hfalse y Hv Hs. apply (Hstack Hfalse).
    + intros ->. contradiction.
    + in_entered.
    + in_entered.
Qed.

(** A loop that meets a neighbor on the stack does not return [false]. *)
Lemma loop_not_false (call : string -> Dfs -> option (bool * Dfs))
  (node back : string) :
  settles call ->
  forall neighbors st st',
    back ∈ neighbors -> back ∈ visited st -> back ∈ recursionStack st ->
    neighbors_loop call node neighbors st <> Some (false, st').
Proof.
  intros Hcall. induction neighbors as [|n rest IH];
    intros st st' Hin Hv Hs Hrun; [inversion Hin|].
  cbn [neighbors_loop] in Hrun.
  destruct (bool_decide (n ∈ visited st)) eqn:Hn.
  - destruct (bool_decide (n ∈ recursionStack st)) eqn:Hstack;
      [discriminate|].
    apply bool_decide_eq_false in Hstack.
    apply elem_of_cons in Hin as [-> | Hin]; [contradiction|].
    exact (IH st st' Hin Hv Hs Hrun).
  - apply bool_decide_eq_false in Hn.
    apply elem_of_cons in Hin as [-> | Hin]; [contradiction|].
    destruct (call n st) as [[[|] st1]|] eqn:Hcalled; [discriminate| |discriminate].
    destruct (Hcall n st false st1 Hn Hcalled) as (_ & Hsub & Hstack).
    apply (IH st1 st' Hin); [apply Hsub; exact Hv| |exact Hrun].
    apply (Hstack eq_refl); assumption.
Qed.

Section Pair.

(** [x] points to [y] and [y] points to [x]. *)
Variables x y : string.
Variables toY toX : list string.
Hypothesis edges_x : entityGraph !! x = Some toY.
Hypothesis edges_y : entityGraph !! y = Some toX.
Hypothesis x_to_y : y ∈ toY.
Hypothesis y_to_x : x ∈ toX.

(** While [x] is on the stack and [y] is not visited, a call that returns
    [false] has not visited [y]. *)
Lemma keeps_unvisited (fuel : nat) :
  forall node st st',
    node ∉ visited st -> x ∈ visited st -> x ∈ recursionStack st ->
    y ∉ visited st ->
    hasCycle fuel entityGraph node st = Some (false, st') ->
    y ∉ visited st'.
Proof.
  induction fuel as [|fuel IH]; intros node st st' Hnode Hv Hs Hy Hrun;
    [discriminate|].
  cbn [hasCycle] in Hrun.
  destruct (decide (node = y)) as [-> | Hne].
  - exfalso. rewrite edges_y in Hrun. cbn [default] in Hrun.
    apply (loop_not_false (hasCycle fuel entityGraph) y x
             (hasCycle_settles fuel) toX (enter y st) st');
      cbn [enter visited recursionStack];
      [exact y_to_x | | | exact Hrun];
      in_entered.
  - assert (Hloop :
              forall neighbors st1,
                x ∈ visited st1 -> x ∈ recursionStack st1 ->
                y ∉ visited st1 ->
                neighbors_loop (hasCycle fuel entityGraph) node neighbors st1
                = Some (false, st') ->
                y ∉ visited st').
    { induction neighbors as [|n rest IHn]; intros st1 Hv1 Hs1 Hy1 Hrun1;
        cbn [neighbors_loop] in Hrun1.
      - injection Hrun1 as <-. exact Hy1.
      - destruct (bool_decide (n ∈ visited st1)) eqn:Hn.
        + destruct (bool_decide (n ∈ recursionStack st1)); [discriminate|].
          exact (IHn st1 Hv1 Hs1 Hy1 Hrun1).
        + apply bool_decide_eq_false in Hn.
          destruct (hasCycle fuel entityGraph n st1) as [[[|] st2]|] eqn:Hcalled;
            [discriminate| |discriminate].
          destruct (hasCycle_settles fuel n st1 false st2 Hn Hcalled)
            as (_ & Hsub & Hstack).
          apply (IHn st2); [apply Hsub; exact Hv1 | | | exact Hrun1].
          * apply (Hstack eq_refl); assumption.
          * exact (IH n st1 st2 Hn Hv1 Hs1 Hy1 Hcalled). }
    apply (Hloop (default [] (entityGraph !! node)) (enter node st));
      cbn [enter visited recursionStack]; [| | |exact Hrun].
    + in_entered.
    + in_entered.
    + rewrite elem_of_union, elem_of_singleton. intros [Heq | H];
        [congruence | contradiction].
Qed.

(** Started at [x] while [y] is not visited, the search does not return
    [false]. *)
Lemma first_of_pair (fuel : nat) (st st' : Dfs) :
  x ∉ visited st -> y ∉ visited st ->
  hasCycle fuel entityGraph x st <> Some (false, st').
Proof.
  intros Hx Hy Hrun. destruct fuel as [|fuel]; [discriminate|].
  cbn [hasCycle] in Hrun. rewrite edges_x in Hrun. cbn [default] in Hrun.
  destruct (decide (x = y)) as [Heq | Hne].
  - apply (loop_not_false (hasCycle fuel entityGraph) x x
             (hasCycle_settles fuel) toY (enter x st) st');
      cbn [enter visited recursionStack];
      [rewrite Heq at 1; exact x_to_y | | | exact Hrun];
      in_entered.
  - assert (Hloop :
              forall neighbors st1,
                y ∈ neighbors ->
                x ∈ visited st1 -> x ∈ recursionStack st1 ->
                y ∉ visited st1 ->
                neighbors_loop (hasCycle fuel entityGraph) x neighbors st1
                <> Some (false, st')).
    { induction neighbors as [|n rest IHn];
        intros st1 Hin Hv1 Hs1 Hy1 Hrun1; [inversion Hin|].
      cbn [neighbors_loop] in Hrun1.
      destruct (bool_decide (n ∈ visited st1)) eqn:Hn.
      - apply bool_decide_eq_true in Hn.
        destruct (bool_decide (n ∈ recursionStack st1)); [discriminate|].
        apply elem_of_cons in Hin as [-> | Hin]; [contradiction|].
        exact (IHn st1 Hin Hv1 Hs1 Hy1 Hrun1).
      - apply bool_decide_eq_false in Hn.
        destruct (hasCycle fuel entityGraph n st1) as [[[|] st2]|] eqn:Hcalled;
          [discriminate| |discriminate].
        destruct (hasCycle_settles fuel n st1 false st2 Hn Hcalled)
          as (Hvisited & Hsub & Hstack).
        pose proof (keeps_unvisited fuel n st1 st2 Hn Hv1 Hs1 Hy1 Hcalled)
          as Hy2.
        apply elem_of_cons in Hin as [-> | Hin]; [contradiction|].
        apply (IHn st2 Hin); [apply Hsub; exact Hv1 | | exact Hy2 | exact Hrun1].
        apply (Hstack eq_refl); assumption. }
    apply (Hloop toY (enter x st)); cbn [enter visited recursionStack];
      [exact x_to_y | | | | exact Hrun].
    + in_entered.
    + in_entered.
    + rewrite elem_of_union, elem_of_singleton. intros [Heq | H];
        [congruence | contradiction].
Qed.

End Pair.

End Monotone.

Section TwoCycle.

Variable entityGraph : gmap string (list string).
Variables a b : string.
Variables toB toA : list string.
Hypothesis edges_a : entityGraph !! a = Some toB.
Hypothesis edges_b : entityGraph !! b = Some toA.
Hypothesis a_to_b : b ∈ toB.
Hypothesis b_to_a : a ∈ toA.

(** A call that returns [false] before [a] or [b] was visited has visited
    neither. *)
Lemma stays_clear (fuel : nat) :
  forall node st st',
    node ∉ visited st -> a ∉ visited st -> b ∉ visited st ->
    hasCycle fuel entityGraph node st = Some (false, st') ->
    (a ∉ visited st') /\ (b ∉ visited st').
Proof.
  induction fuel as [|fuel IH]; intros node st st' Hnode Ha Hb Hrun;
    [discriminate|].
  destruct (decide (node = a)) as [-> | Hna].
  { exfalso.
    exact (first_of_pair entityGraph a b toB toA edges_a edges_b a_to_b b_to_a
             (S fuel) st st' Ha Hb Hrun). }
  destruct (decide (node = b)) as [-> | Hnb].
  { exfalso.
    exact (first_of_pair entityGraph b a toA toB edges_b edges_a b_to_a a_to_b
             (S fuel) st st' Hb Ha Hrun). }
  cbn [hasCycle] in Hrun.
  assert (Hloop :
            forall neighbors st1,
              a ∉ visited st1 -> b ∉ visited st1 ->
              neighbors_loop (hasCycle fuel entityGraph) node neighbors st1
              = Some (false, st') ->
              (a ∉ visited st') /\ (b ∉ visited st')).
  { induction neighbors as [|n rest IHn]; intros st1 Ha1 Hb1 Hrun1;
      cbn [neighbors_loop] in Hrun1.
    - injection Hrun1 as <-. split; assumption.
    - destruct (bool_decide (n ∈ visited st1)) eqn:Hn.
      + destruct (bool_decide (n ∈ recursionStack st1)); [discriminate|].
        exact (IHn st1 Ha1 Hb1 Hrun1).
      + apply bool_decide_eq_false in Hn.
        destruct (hasCycle fuel entityGraph n st1) as [[[|] st2]|] eqn:Hcalled;
          [discriminate| |discriminate].
        destruct (IH n st1 st2 Hn Ha1 Hb1 Hcalled) as [Ha2 Hb2].
        exact (IHn st2 Ha2 Hb2 Hrun1). }
  apply (Hloop (default [] (entityGraph !! node)) (enter node st));
    cbn [enter visited]; [| |exact Hrun].
  - rewrite elem_of_union, elem_of_singleton. intros [Heq | H];
      [congruence | contradiction].
  - rewrite elem_of_union, elem_of_singleton. intros [Heq | H];
      [congruence | contradiction].
Qed.

Lemma entities_loop_extends (fuel : nat) (entities : list Entity) :
  forall st pushed result,
    entities_loop fuel entityGraph entities st pushed = Some result ->
    exists more, result = pushed ++ more.
Proof.
  induction entities as [|entity rest IH]; intros st pushed result Hrun;
    cbn [entities_loop] in Hrun.
  - injection Hrun as <-. exists []. rewrite app_nil_r. reflexivity.
  - destruct (bool_decide (e_name entity ∈ visited st)); [exact (IH _ _ _ Hrun)|].
    destruct (hasCycle fuel entityGraph (e_name entity) st) as [[found st1]|];
      [|discriminate].
    destruct (IH _ _ _ Hrun) as [more ->].
    unfold push_if. destruct found; [|exists more; reflexivity].
    exists (cycle_warning (e_name entity) :: more).
    rewrite <- app_assoc. reflexivity.
Qed.

(** As long as [a] is among the entities still to come and neither [a] nor
    [b] was visited, the loop over the entities pushes a warning. *)
Lemma entities_loop_warns (fuel : nat) (entities : list Entity) :
  forall st pushed result,
    a ∈ map e_name entities -> a ∉ visited st -> b ∉ visited st ->
    entities_loop fuel entityGraph entities st pushed = Some result ->
    length pushed < length result.
Proof.
  induction entities as [|entity rest IH]; intros st pushed result Hin Ha Hb Hrun.
  - inversion Hin.
  - rewrite entities_loop_cons in Hrun. cbn [map] in Hin.
    destruct (bool_decide (e_name entity ∈ visited st)) eqn:Hvisited.
    + apply bool_decide_eq_true in Hvisited.
      apply elem_of_cons in Hin as [-> | Hin]; [contradiction|].
      exact (IH st pushed result Hin Ha Hb Hrun).
    + apply bool_decide_eq_false in Hvisited.
      destruct (hasCycle fuel entityGraph (e_name entity) st)
        as [[[|] st1]|] eqn:Hcalled; [| |discriminate].
      * apply entities_loop_extends in Hrun as [more ->].
        cbn [push_if]. rewrite !length_app. cbn [length]. lia.
      * destruct (stays_clear fuel _ st st1 Hvisited Ha Hb Hcalled)
          as [Ha1 Hb1].
        destruct (hasCycle_settles entityGraph fuel _ st false st1 Hvisited
                    Hcalled) as (Hentered & _ & _).
        apply elem_of_cons in Hin as [-> | Hin]; [contradiction|].
        exact (IH st1 _ result Hin Ha1 Hb1 Hrun).
Qed.

End TwoCycle.

(** Wherever two entities that point at each other stand in a model with
    unique entity names, the check pushes at least one warning. *)
Lemma mutual_entities_warned (dataModel : DataModel) (A B : Entity) :
  NoDup (map e_name (m_entities dataModel)) ->
  A ∈ m_entities dataModel -> B ∈ m_entities dataModel ->
  e_name B ∈ edge_targets A -> e_name A ∈ edge_targets B ->
  exists first more, circular_warnings dataModel = Some (first :: more).
Proof.
  intros Hnd HA HB HAB HBA.
  destruct (circular_warnings_total dataModel) as [pushed Hpushed].
  pose proof Hpushed as Hrun. unfold circular_warnings in Hrun.
  apply (entities_loop_warns (build_graph dataModel) (e_name A) (e_name B)
           (edge_targets A) (edge_targets B)) in Hrun.
  - rewrite Hpushed. destruct pushed as [|first more]; [cbn in Hrun; lia|].
    exists first, more. reflexivity.
  - apply build_graph_edges; assumption.
  - apply build_graph_edges; assumption.
  - exact HAB.
  - exact HBA.
  - apply list_elem_of_In, in_map, list_elem_of_In. exact HA.
  - apply not_elem_of_empty.
  - apply not_elem_of_empty.
Qed.

(** The warning names the entity the search started from: with [C] ahead of
    the pair, the one warning is about [C]. *)
Remark warning_names_the_root :
  circular_warnings led_pair_model
  = Some ["Potential circular relationship detected involving entity C"].
Proof. vm_compute. reflexivity. Qed.

(** C1. Cycle detection builds a graph whose nodes are the entity names and
    in which the node of an entity holds the target of each of its fields
    that has a relationship of a type other than [oneToMany]; the search
    over it always returns. For a model of two entities [A] and [B], where
    [A] has a manyToOne relationship to [B] and [B] one to [A], a
    circular-relationship warning is pushed for [A]; for a model in which
    every relationship is [oneToMany] no warning is pushed. Wherever such a
    pair stands in a model with unique entity names, at least one warning is
    pushed. *)
Theorem circular_relationships (dataModel : DataModel) :
  (forall name,
     name ∈ dom (build_graph dataModel)
     <-> name ∈ map e_name (m_entities dataModel))
  /\ (forall entity target,
        target ∈ edge_targets entity
        <-> exists field relationship,
              field ∈ e_fields entity
              /\ f_relationship field = Some relationship
              /\ r_type relationship <> OneToMany
              /\ r_target relationship = target)
  /\ (NoDup (map e_name (m_entities dataModel)) ->
      forall entity,
        entity ∈ m_entities dataModel ->
        build_graph dataModel !! e_name entity = Some (edge_targets entity))
  /\ (exists pushed, circular_warnings dataModel = Some pushed)
  /\ (forall A B fieldA fieldB toB toA,
        m_entities dataModel = [A; B] ->
        fieldA ∈ e_fields A -> f_relationship fieldA = Some toB ->
        r_type toB = ManyToOne -> r_target toB = e_name B ->
        fieldB ∈ e_fields B -> f_relationship fieldB = Some toA ->
        r_type toA = ManyToOne -> r_target toA = e_name A ->
        (exists more,
           circular_warnings dataModel
           = Some (cycle_warning (e_name A) :: more))
        /\ forall result,
             cycle_warning (e_name A)
               ∈ warnings (checkCircularRelationships dataModel result))
  /\ ((forall entity field relationship,
         entity ∈ m_entities dataModel -> field ∈ e_fields entity ->
         f_relationship field = Some relationship ->
         r_type relationship = OneToMany) ->
      circular_warnings dataModel = Some []
      /\ forall result,
           warnings (checkCircularRelationships dataModel result)
           = warnings result)
  /\ (NoDup (map e_name (m_entities dataModel)) ->
      forall A B fieldA fieldB toB toA,
        A ∈ m_entities dataModel -> B ∈ m_entities dataModel ->
        fieldA ∈ e_fields A -> f_relationship fieldA = Some toB ->
        r_type toB = ManyToOne -> r_target toB = e_name B ->
        fieldB ∈ e_fields B -> f_relationship fieldB = Some toA ->
        r_type toA = ManyToOne -> r_target toA = e_name A ->
        exists first more, circular_warnings dataModel = Some (first :: more)).
Proof.
  split; [apply build_graph_nodes|].
  split; [apply elem_of_edge_targets|].
  split; [intros Hnd entity Hin; apply build_graph_edges; assumption|].
  split; [apply circular_warnings_total|].
  split.
  { intros A B fieldA fieldB toB toA Hentities HfA HrA HtA HB HfB HrB HtB HA.
    destruct (mutual_pair_warned dataModel A B Hentities) as (more & Hmore).
    + apply elem_of_edge_targets. exists fieldA, toB.
      rewrite HtA. repeat split; auto; discriminate.
    + apply elem_of_edge_targets. exists fieldB, toA.
      rewrite HtB. repeat split; auto; discriminate.
    + split; [exists more; exact Hmore|].
      intros result. unfold checkCircularRelationships. rewrite Hmore.
      cbn [warnings]. apply elem_of_app. right. left. }
  split.
  - intros Hall. pose proof (only_oneToMany_no_warning dataModel Hall) as Hnone.
    split; [exact Hnone|].
    intros result. unfold checkCircularRelationships. rewrite Hnone.
    cbn [warnings]. apply app_nil_r.
  - intros Hnd A B fieldA fieldB toB toA HinA HinB HfA HrA HtA HB HfB HrB HtB HA.
    apply (mutual_entities_warned dataModel A B Hnd HinA HinB).
    + apply elem_of_edge_targets. exists fieldA, toB.
      rewrite HtA. repeat split; auto; discriminate.
    + apply elem_of_edge_targets. exists fieldB, toA.
      rewrite HtB. repeat split; auto; discriminate.
Qed.

(** The graph and the warnings of the mutual pair, of the one-sided model
    and of the pair behind a third entity. *)
Lemma circular_relationships_witness :
  build_graph mutual_model !! "A" = Some ["B"]
  /\ build_graph mutual_model !! "B" = Some ["A"]
  /\ build_graph one_sided_model !! "A" = Some []
  /\ (exists more,
        circular_warnings mutual_model
        = Some ("Potential circular relationship detected involving entity A"
                :: more))
  /\ circular_warnings one_sided_model = Some []
  /\ (exists first more,
        circular_warnings led_pair_model = Some (first :: more))
  /\ validateDataModel "models/data-model.json"
       (Parser.JsonFile (Ok (Parser.SchemaValid mutual_model))) fresh false
     = Ok {| valid := true; errors := [];
             warnings :=
               ["Potential circular relationship detected involving entity A"] |}.
Proof.
  pose proof (circular_relationships led_pair_model)
    as (_ & _ & _ & _ & _ & _ & Hanywhere).
  pose proof (circular_relationships mutual_model)
    as (_ & _ & Hedges & _ & Hpair & _).
  pose proof (circular_relationships one_sided_model)
    as (_ & _ & Hedges' & _ & _ & Hnone & _).
  assert (Hnd : NoDup (map e_name (m_entities mutual_model)))
    by (apply (bool_decide_unpack _); vm_compute; exact I).
  assert (Hnd' : NoDup (map e_name (m_entities one_sided_model)))
    by (apply (bool_decide_unpack _); vm_compute; exact I).
  split.
  { apply (Hedges Hnd mutual_A). left. }
  split.
  { apply (Hedges Hnd mutual_B). right; left. }
  split.
  { apply (Hedges' Hnd' one_sided_A). left. }
  split.
  { refine (proj1 (Hpair mutual_A mutual_B
                     (relation_field "b" (plain TObject)
                        (relation ManyToOne "B" (Some "bId")))
                     (relation_field "a" (plain TObject)
                        (relation ManyToOne "A" (Some "aId")))
                     (relation ManyToOne "B" (Some "bId"))
                     (relation ManyToOne "A" (Some "aId"))
                     eq_refl _ eq_refl eq_refl eq_refl
                     _ eq_refl eq_refl eq_refl)).
    - right; right; left.
    - right; right; left. }
  split.
  { apply Hnone. intros entity field r Hentity Hfield Hr.
    apply elem_of_cons in Hentity as [-> | Hentity];
      [|apply elem_of_cons in Hentity as [-> | Hentity]; [|inversion Hentity]];
      repeat (apply elem_of_cons in Hfield as [-> | Hfield];
              [try discriminate Hr; try (injection Hr as <-; reflexivity)|]);
      inversion Hfield. }
  split.
  { refine (Hanywhere _ mutual_A mutual_B
              (relation_field "b" (plain TObject)
                 (relation ManyToOne "B" (Some "bId")))
              (relation_field "a" (plain TObject)
                 (relation ManyToOne "A" (Some "aId")))
              (relation ManyToOne "B" (Some "bId"))
              (relation ManyToOne "A" (Some "aId"))
              _ _ _ eq_refl eq_refl eq_refl _ eq_refl eq_refl eq_refl).
    - apply (bool_decide_unpack _). vm_compute. exact I.
    - right; left.
    - right; right; left.
    - right; right; left.
    - right; right; left. }
  vm_compute. reflexivity.
Defined.

(* ===================================================================== *)
(** * Further properties of the code *)
(* ===================================================================== *)

(** ** Validity, stated on the model *)

Lemma truthy_bool_true (o : option bool) : truthy_bool o = true <-> o = Some true.
Proof. destruct o as [[|]|]; cbn; split; congruence. Qed.

Lemma concat_map_nil_iff {A : Type} (f : A -> list string) (xs : list A) :
  concat (map f xs) = [] <-> forall x, x ∈ xs -> f x = [].
Proof.
  split; [|apply concat_map_nil].
  induction xs as [|x xs IH]; cbn [map concat]; intros Hnil y Hy.
  - inversion Hy.
  - apply app_eq_nil in Hnil as [Hx Hxs].
    apply elem_of_cons in Hy as [-> | Hy]; [exact Hx | apply IH; assumption].
Qed.

Lemma push_if_nil (c : bool) (message : string) :
  push_if c message [] = [] <-> c = false.
Proof. destruct c; cbn; split; congruence. Qed.

Lemma duplicate_messages_nil (seen : gset string) (entities : list Entity) :
  duplicate_messages seen entities = []
  <-> NoDup (map e_name entities)
      /\ forall name, name ∈ map e_name entities -> name ∉ seen.
Proof.
  revert seen. induction entities as [|entity rest IH]; intros seen;
    cbn [duplicate_messages map].
  - split; [intros _|reflexivity].
    split; [constructor | intros name Hname; inversion Hname].
  - split.
    + intros Hnil. apply app_eq_nil in Hnil as [Hhead Hrest].
      apply push_if_nil, bool_decide_eq_false in Hhead.
      apply IH in Hrest as [Hnd Hfresh].
      split.
      * apply NoDup_cons. split; [|exact Hnd].
        intros Hin. apply (Hfresh _ Hin).
        apply elem_of_union. left. apply elem_of_singleton. reflexivity.
      * intros name Hname. apply elem_of_cons in Hname as [-> | Hname];
          [exact Hhead|].
        intros Hseen. apply (Hfresh _ Hname).
        apply elem_of_union. right. exact Hseen.
    + intros [Hnd Hfresh]. apply NoDup_cons in Hnd as [Hhead Hnd].
      rewrite (proj2 (push_if_nil _ _)); cbn [app].
      * apply IH. split; [exact Hnd|].
        intros name Hname Hin. apply elem_of_union in Hin as [Hin | Hin].
        -- apply elem_of_singleton in Hin. subst name. contradiction.
        -- apply (Hfresh name); [right; exact Hname | exact Hin].
      * apply bool_decide_eq_false. apply Hfresh. left.
Qed.

Lemma relationship_rules_nil (names : gset string) (entity : Entity)
  (field : EntityField) :
  Parser.relationship_rules names entity field [] = []
  <-> forall relationship,
        f_relationship field = Some relationship ->
        r_target relationship ∈ names /\ lacks_key relationship = false.
Proof.
  unfold Parser.relationship_rules, lacks_key.
  destruct (f_relationship field) as [r|].
  - split.
    + intros Hnil relationship [= <-].
      destruct (bool_decide (r_target r ∈ names)) eqn:Htarget;
        destruct (needs_foreignKey (r_type r) && negb (truthy_string (r_foreignKey r)));
        destruct (is_manyToMany (r_type r) && negb (truthy_string (r_joinTable r)));
        cbn in Hnil; try discriminate.
      split; [exact (bool_decide_eq_true_1 _ Htarget) | reflexivity].
    + intros Hok. destruct (Hok r eq_refl) as [Htarget Hkeys].
      apply orb_false_iff in Hkeys as [-> ->].
      rewrite bool_decide_eq_true_2 by exact Htarget. reflexivity.
  - split; [intros _ relationship; discriminate | reflexivity].
Qed.

Lemma primary_key_message_nil (entity : Entity) :
  primary_key_message entity = [] <-> has_primary_key entity.
Proof.
  unfold primary_key_message, has_primary_key.
  destruct (forallb _ _) eqn:Hall.
  - split; [discriminate|]. intros (field & Hin & Hpk).
    rewrite forallb_forall in Hall.
    specialize (Hall field (proj1 (list_elem_of_In _ _) Hin)).
    rewrite Hpk in Hall. discriminate.
  - split; [intros _ | reflexivity].
    apply not_true_iff_false in Hall.
    induction (e_fields entity) as [|field rest IH].
    + exfalso. apply Hall. reflexivity.
    + destruct (truthy_bool (f_isPrimaryKey field)) eqn:Hpk.
      * exists field. split; [left | apply truthy_bool_true; exact Hpk].
      * destruct IH as (f & Hin & Hf).
        -- intros Hrest. apply Hall. cbn [forallb]. rewrite Hpk. exact Hrest.
        -- exists f. split; [right; exact Hin | exact Hf].
Qed.

Lemma elem_of_entity_names (dataModel : DataModel) (name : string) :
  name ∈ entity_names dataModel <-> name ∈ map e_name (m_entities dataModel).
Proof. unfold entity_names. apply elem_of_list_to_set. Qed.

(** The parser has nothing to report exactly on the well-formed models. *)
Lemma no_business_rule_errors (dataModel : DataModel) :
  Parser.business_rule_errors dataModel = [] <-> well_formed dataModel.
Proof.
  rewrite business_rule_errors_additive. unfold well_formed.
  split.
  - intros Hnil. apply app_eq_nil in Hnil as [Hdup Hrules].
    apply duplicate_messages_nil in Hdup as [Hnd _].
    split; [exact Hnd|]. intros entity Hentity.
    rewrite concat_map_nil_iff in Hrules. specialize (Hrules entity Hentity).
    rewrite entity_rules_parts in Hrules. cbn [app] in Hrules.
    apply app_eq_nil in Hrules as [Hrel Hpk].
    split; [apply primary_key_message_nil; exact Hpk|].
    intros field relationship Hfield Hrelationship.
    rewrite concat_map_nil_iff in Hrel. specialize (Hrel field Hfield).
    apply relationship_rules_nil with (relationship := relationship) in Hrel;
      [|exact Hrelationship].
    destruct Hrel as [Htarget Hkeys].
    split; [apply elem_of_entity_names; exact Htarget | exact Hkeys].
  - intros [Hnd Hentities].
    rewrite (proj2 (duplicate_messages_nil _ _)); cbn [app].
    + apply concat_map_nil. intros entity Hentity.
      destruct (Hentities entity Hentity) as [Hpk Hrel].
      rewrite entity_rules_parts. cbn [app].
      rewrite (proj2 (primary_key_message_nil entity) Hpk), app_nil_r.
      apply concat_map_nil. intros field Hfield.
      apply relationship_rules_nil. intros relationship Hrelationship.
      destruct (Hrel field relationship Hfield Hrelationship) as [Htarget Hkeys].
      split; [apply elem_of_entity_names; exact Htarget | exact Hkeys].
    + split; [exact Hnd | intros name _; apply not_elem_of_empty].
Qed.

(** X1. [DataModelParser.validateBusinessRules] returns normally exactly
    when entity names are unique, every entity has a primary-key field,
    and every relationship names an entity of the model and carries the
    key its type calls for ([foreignKey] for manyToOne and oneToOne,
    [joinTable] for manyToMany); on every other model it throws. *)
Theorem parser_accepts_well_formed (dataModel : DataModel) :
  Parser.validateBusinessRules dataModel = Ok tt <-> well_formed dataModel.
Proof.
  rewrite <- no_business_rule_errors, validateBusinessRules_throws.
  destruct (Parser.business_rule_errors dataModel); split;
    congruence.
Qed.

Lemma additive_errors (f : Result -> Result) (result : Result) :
  Additive f -> errors (f result) = errors result ++ errors (f fresh).
Proof. intros Hf. rewrite (Hf result). reflexivity. Qed.

Lemma errors_push_error (c : bool) (message : string) (result : Result) :
  errors (push_error c message result)
  = errors result ++ (if c then [message] else []).
Proof. unfold push_error, push_if. destruct c; cbn; rewrite ?app_nil_r; reflexivity. Qed.

Lemma errors_push_warning (c : bool) (message : string) (result : Result) :
  errors (push_warning c message result) = errors result.
Proof. reflexivity. Qed.

Lemma push_error_false (message : string) (result : Result) :
  push_error false message result = result.
Proof. destruct result. reflexivity. Qed.

Lemma push_warning_false (message : string) (result : Result) :
  push_warning false message result = result.
Proof. destruct result. reflexivity. Qed.

Lemma fold_left_id {A B : Type} (f : A -> B -> A) (xs : list B) (a : A) :
  (forall a x, x ∈ xs -> f a x = a) -> fold_left f xs a = a.
Proof.
  revert a. induction xs as [|x xs IH]; intros a Hid; [reflexivity|].
  cbn [fold_left]. rewrite Hid by left. apply IH.
  intros b y Hy. apply Hid. right. exact Hy.
Qed.

Lemma fold_left_keeps {A B C : Type} (g : A -> C) (f : A -> B -> A)
  (xs : list B) (a : A) :
  (forall a x, g (f a x) = g a) -> g (fold_left f xs a) = g a.
Proof.
  intros Hkeep. revert a. induction xs as [|x xs IH]; intros a; [reflexivity|].
  cbn [fold_left]. rewrite IH. apply Hkeep.
Qed.

(** The naming pass pushes warnings only. *)
Lemma naming_keeps_errors (dataModel : DataModel) (result : Result)
  (strict : bool) :
  errors (validateNamingConventions dataModel result strict) = errors result.
Proof.
  unfold validateNamingConventions.
  assert (Hentities :
            forall result,
              errors
                (fold_left
                   (fun result entity =>
                      fold_left
                        (fun result field =>
                           push_warning (negb (camelCase (f_name field)))
                             (field_label entity field
                              +:+ "field name should be in camelCase") result)
                        (e_fields entity)
                        (push_warning (negb (PascalCase (e_name entity)))
                           ("Entity " +:+ e_name entity
                            +:+ ": name should be in PascalCase") result))
                   (m_entities dataModel) result)
              = errors result).
  { intros r. apply (fold_left_keeps errors). intros a entity.
    rewrite (fold_left_keeps errors); [reflexivity|]. reflexivity. }
  destruct (m_enums dataModel) as [enums|]; [|apply Hentities].
  rewrite (fold_left_keeps errors); [apply Hentities|].
  intros a enumDef. rewrite (fold_left_keeps errors); reflexivity.
Qed.

(** The cycle check pushes warnings only. *)
Lemma business_keeps_errors (dataModel : DataModel) (result : Result) :
  errors (Validate.validateBusinessRules dataModel result) = errors result.
Proof.
  unfold Validate.validateBusinessRules, validateRelationshipLogic,
    checkCircularRelationships.
  destruct (circular_warnings dataModel); reflexivity.
Qed.

Lemma relationship_checks_id (names : gset string) (entity : Entity)
  (field : EntityField) (result : Result) :
  (forall relationship,
     f_relationship field = Some relationship ->
     r_target relationship ∈ names /\ lacks_key relationship = false) ->
  relationship_checks names entity field result = result.
Proof.
  intros Hok. unfold relationship_checks.
  destruct (f_relationship field) as [r|]; [|reflexivity].
  destruct (Hok r eq_refl) as [Htarget Hkeys].
  apply orb_false_iff in Hkeys as [Hfk Hjt].
  rewrite Hfk, Hjt, bool_decide_eq_true_2 by exact Htarget.
  cbn [negb]. rewrite !push_warning_false, push_error_false. reflexivity.
Qed.

(** On a well-formed model the relationship pass has nothing to push. *)
Lemma relationships_id (dataModel : DataModel) (result : Result) :
  well_formed dataModel -> validateEntityRelationships dataModel result = result.
Proof.
  intros [_ Hentities]. unfold validateEntityRelationships.
  apply fold_left_id. intros r entity Hentity.
  apply fold_left_id. intros r' field Hfield.
  apply relationship_checks_id. intros relationship Hrelationship.
  destruct (Hentities entity Hentity) as [_ Hrel].
  destruct (Hrel field relationship Hfield Hrelationship) as [Htarget Hkeys].
  split; [apply elem_of_list_to_set; exact Htarget | exact Hkeys].
Qed.

(** Strict mode does not change the errors of the data-type check. *)
Lemma fieldDataType_strict (entityName : string) (field : EntityField)
  (result : Result) (strict : bool) :
  errors (validateFieldDataType entityName field result strict)
  = errors (validateFieldDataType entityName field result false).
Proof. unfold validateFieldDataType. destruct strict; reflexivity. Qed.

Lemma both_and_gt_false (a b : option Z) :
  both_and_gt a b = false
  <-> forall lo hi, a = Some lo -> b = Some hi -> (lo <= hi)%Z.
Proof.
  unfold both_and_gt. destruct a as [x|], b as [y|];
    try (split; [intros _ lo hi; congruence | reflexivity]).
  rewrite Z.ltb_ge. split.
  - intros Hle lo hi [= <-] [= <-]. exact Hle.
  - intros Hle. apply Hle; reflexivity.
Qed.

Lemma fieldDataType_errors (entityName : string) (field : EntityField)
  (strict : bool) :
  errors (validateFieldDataType entityName field fresh strict) = []
  <-> dataType_ok (f_dataType field).
Proof.
  rewrite (fieldDataType_strict entityName field fresh strict).
  unfold validateFieldDataType, dataType_ok.
  rewrite !errors_push_error, errors_push_warning, errors_push_error.
  cbn [errors fresh app].
  destruct (dt_type (f_dataType field)); cbn [is_enum is_string is_number andb app].
  - (* string *)
    destruct (dt_validation (f_dataType field)) as [v|].
    + destruct (both_and_gt (v_minLength v) (v_maxLength v)) eqn:Hcmp.
      * split; [discriminate|]. intros Hok. exfalso.
        apply not_false_iff_true in Hcmp. apply Hcmp, both_and_gt_false.
        intros lo hi. apply Hok. reflexivity.
      * split; [|reflexivity]. intros _ v' lo hi [= <-].
        apply both_and_gt_false. exact Hcmp.
    + split; [intros _ v lo hi; discriminate | reflexivity].
  - (* number *)
    destruct (dt_validation (f_dataType field)) as [v|].
    + destruct (both_and_gt (v_min v) (v_max v)) eqn:Hcmp.
      * split; [discriminate|]. intros Hok. exfalso.
        apply not_false_iff_true in Hcmp. apply Hcmp, both_and_gt_false.
        intros lo hi. apply Hok. reflexivity.
      * split; [|reflexivity]. intros _ v' lo hi [= <-].
        apply both_and_gt_false. exact Hcmp.
    + split; [intros _ v lo hi; discriminate | reflexivity].
  - tauto.
  - tauto.
  - tauto.
  - tauto.
  - (* enum *)
    destruct (dt_enum (f_dataType field)) as [values|].
    + unfold Array_isArray. cbn [negb orb].
      destruct values as [|value values]; cbn.
      * split; [discriminate|]. intros (values & [= <-] & Hne). contradiction.
      * split; [|reflexivity]. intros _. eexists. split; [reflexivity|discriminate].
    + cbn. split; [discriminate|]. intros (values & Hsome & _). discriminate.
Qed.

Lemma field_loop_cons (entity : Entity) (strict : bool) (field : EntityField)
  (rest : list EntityField) (seen : gset string) (result : Result) :
  field_loop entity strict (field :: rest) (seen, result)
  = field_loop entity strict rest
      ({[f_name field]} ∪ seen,
       validateFieldDataType (e_name entity) field
         (push_error (bool_decide (f_name field ∈ seen))
            ("Entity " +:+ e_name entity +:+ ": duplicate field name '"
             +:+ f_name field +:+ "'") result) strict).
Proof. reflexivity. Qed.

Lemma field_loop_errors (entity : Entity) (strict : bool)
  (fields : list EntityField) (seen : gset string) :
  errors (field_loop entity strict fields (seen, fresh)).2 = []
  <-> NoDup (map f_name fields)
      /\ (forall name, name ∈ map f_name fields -> name ∉ seen)
      /\ forall field, field ∈ fields -> dataType_ok (f_dataType field).
Proof.
  revert seen. induction fields as [|field rest IH]; intros seen.
  - cbn. split; [intros _|reflexivity].
    split; [constructor|]. split; intros x Hx; inversion Hx.
  - rewrite field_loop_cons. cbn [map].
    rewrite (additive_errors
               (fun result => (field_loop entity strict rest (_, result)).2) _
               (additive_field_loop entity strict rest _)).
    rewrite (additive_errors
               (fun result =>
                  validateFieldDataType (e_name entity) field result strict) _
               (additive_validateFieldDataType (e_name entity) field strict)).
    rewrite errors_push_error. cbn [errors fresh app].
    split.
    + intros Hnil. apply app_eq_nil in Hnil as [Hhead Hrest].
      apply app_eq_nil in Hhead as [Hdup Htype].
      apply IH in Hrest as (Hnd & Hfresh & Hok).
      apply fieldDataType_errors in Htype.
      destruct (bool_decide (f_name field ∈ seen)) eqn:Hseen; [discriminate|].
      apply bool_decide_eq_false in Hseen.
      split; [|split].
      * apply NoDup_cons. split; [|exact Hnd]. intros Hin.
        apply (Hfresh _ Hin). apply elem_of_union. left.
        apply elem_of_singleton. reflexivity.
      * intros name Hname. apply elem_of_cons in Hname as [-> | Hname];
          [exact Hseen|].
        intros Hin. apply (Hfresh _ Hname). apply elem_of_union. right.
        exact Hin.
      * intros f Hf. apply elem_of_cons in Hf as [-> | Hf];
          [exact Htype | apply Hok; exact Hf].
    + intros (Hnd & Hfresh & Hok). apply NoDup_cons in Hnd as [Hhead Hnd].
      rewrite bool_decide_eq_false_2 by (apply Hfresh; left).
      rewrite (proj2 (fieldDataType_errors _ _ _)) by (apply Hok; left).
      cbn [app]. apply IH. split; [exact Hnd|]. split.
      * intros name Hname Hin. apply elem_of_union in Hin as [Hin | Hin].
        -- apply elem_of_singleton in Hin. subst name. contradiction.
        -- apply (Hfresh name); [right; exact Hname | exact Hin].
      * intros f Hf. apply Hok. right. exact Hf.
Qed.

Lemma generated_keys_length (entity : Entity) :
  length
    (filter (fun f => truthy_bool (f_isGenerated f) = true)
       (filter (fun f => truthy_bool (f_isPrimaryKey f) = true)
          (e_fields entity)))
  = length (generated_keys entity).
Proof.
  unfold generated_keys. induction (e_fields entity) as [|field rest IH];
    [reflexivity|].
  rewrite filter_cons. cbn [List.filter].
  destruct (truthy_bool (f_isPrimaryKey field)) eqn:Hpk.
  - rewrite decide_True by reflexivity. rewrite filter_cons. cbn [andb].
    destruct (truthy_bool (f_isGenerated field)) eqn:Hgen.
    + rewrite decide_True by reflexivity. cbn [length]. rewrite IH. reflexivity.
    + rewrite decide_False by discriminate. exact IH.
  - rewrite decide_False by discriminate. exact IH.
Qed.

(** The field pass reports no error exactly when every entity has unique
    field names, a primary key, at most one generated primary key, and data
    types in order. *)
Lemma no_field_errors (dataModel : DataModel) (strict : bool) :
  errors (validateEntityFields dataModel fresh strict) = []
  <-> forall entity, entity ∈ m_entities dataModel -> fields_ok entity.
Proof.
  unfold validateEntityFields.
  destruct (additive_fold_pushes
              (fun result entity =>
                 push_error
                   (1 <? length
                           (filter (fun f => truthy_bool (f_isGenerated f) = true)
                              (filter
                                 (fun f => truthy_bool (f_isPrimaryKey f) = true)
                                 (e_fields entity))))%nat
                   ("Entity " +:+ e_name entity
                    +:+ ": cannot have multiple generated primary keys")
                   (push_error
                      (length
                         (filter (fun f => truthy_bool (f_isPrimaryKey f) = true)
                            (e_fields entity)) =? 0)%nat
                      ("Entity " +:+ e_name entity
                       +:+ ": must have at least one primary key field")
                      (field_loop entity strict (e_fields entity) (∅, result)).2))
              (m_entities dataModel)) as [Herrors _].
  { intros entity.
    apply (additive_compose
             (fun result =>
                push_error _ _
                  (field_loop entity strict (e_fields entity) (∅, result)).2)
             (push_error _ _)); [|apply additive_push_error].
    apply (additive_compose
             (fun result =>
                (field_loop entity strict (e_fields entity) (∅, result)).2)
             (push_error _ _)); [|apply additive_push_error].
    apply additive_field_loop. }
  rewrite Herrors, concat_map_nil_iff.
  apply forall_proper. intros entity.
  apply forall_proper. intros Hentity.
  rewrite !errors_push_error, generated_keys_length, no_primary_key.
  unfold fields_ok. split.
  - intros Hnil. apply app_eq_nil in Hnil as [Hnil Hgen].
    apply app_eq_nil in Hnil as [Hloop Hpk].
    apply field_loop_errors in Hloop as (Hnd & _ & Hok).
    split; [exact Hnd|]. split; [|split; [|exact Hok]].
    + apply primary_key_message_nil. unfold primary_key_message.
      destruct (forallb _ _); [discriminate | reflexivity].
    + destruct (1 <? length (generated_keys entity))%nat eqn:Hcmp;
        [discriminate|]. apply Nat.ltb_ge in Hcmp. exact Hcmp.
  - intros (Hnd & Hpk & Hgen & Hok).
    rewrite (proj2 (field_loop_errors entity strict (e_fields entity) ∅)).
    + apply primary_key_message_nil in Hpk. unfold primary_key_message in Hpk.
      destruct (forallb _ _); [discriminate|].
      rewrite (proj2 (Nat.ltb_ge _ _) Hgen). reflexivity.
    + split; [exact Hnd|]. split; [|exact Hok].
      intros name _. apply not_elem_of_empty.
Qed.

(** What the four passes report as errors is what the relationship pass
    and the field pass report. *)
Lemma passes_errors (dataModel : DataModel) (strict : bool) (result : Result) :
  errors (passes dataModel strict result)
  = errors (validateEntityFields dataModel
              (validateEntityRelationships dataModel result) strict).
Proof.
  unfold passes. rewrite business_keeps_errors, naming_keeps_errors.
  reflexivity.
Qed.

Lemma additional_checks_errors (dataModel : DataModel) (strict : bool)
  (result : Result) :
  errors (additional_checks dataModel result strict)
  = errors (passes dataModel strict result)
  /\ valid (additional_checks dataModel result strict)
     = (length (errors (passes dataModel strict result)) =? 0)%nat.
Proof. unfold additional_checks. fold (passes dataModel strict result). split; reflexivity. Qed.

Lemma length_zero {A : Type} (xs : list A) :
  (length xs =? 0)%nat = true <-> xs = [].
Proof. destruct xs; cbn; split; congruence. Qed.

(** X2. For a document that passed the schema, the validate command
    returns a result that is valid exactly when it carries no error, and
    that is exactly when the model is well formed (unique entity names, a
    primary key in every entity, relationship targets that exist and carry
    the key their kind requires) and every entity has unique field names,
    at most one generated primary key, and data types whose enum has values
    and whose bounds are ordered. Warnings and the strict flag never change
    the verdict. *)
Theorem validity_of_a_model (dataModel : DataModel) (modelPath : string)
  (file : Parser.ModelFile) (strict : bool) :
  file = Parser.JsonFile (Ok (Parser.SchemaValid dataModel))
  \/ file = Parser.YamlFile (Ok (Parser.SchemaValid dataModel)) ->
  exists result,
    validateDataModel modelPath file fresh strict = Ok result
    /\ (valid result = true <-> errors result = [])
    /\ (valid result = true
        <-> well_formed dataModel
            /\ forall entity, entity ∈ m_entities dataModel -> fields_ok entity).
Proof.
  intros Hfile.
  assert (Hload :
            Parser.parseFromFile modelPath file
            = match Parser.validateBusinessRules dataModel with
              | Ok _ => Ok dataModel
              | Throw e =>
                  match file with
                  | Parser.YamlFile _ =>
                      Throw (ErrorObj ("Invalid YAML: " +:+ error_text e))
                  | _ => Throw e
                  end
              end).
  { destruct Hfile as [-> | ->]; cbn;
      unfold Parser.parseFromJson, Parser.parseFromYaml, Parser.validateAndParse,
        mbind, Exc_bind, mret, Exc_ret; cbn;
      destruct (Parser.validateBusinessRules dataModel); reflexivity. }
  assert (Hrun :
            validateDataModel modelPath file fresh strict
            = match Parser.parseFromFile modelPath file with
              | Ok parsed => Ok (additional_checks parsed fresh strict)
              | Throw error =>
                  Ok (push_error true
                        ("Data model validation failed: " +:+ error_text error)
                        fresh)
              end).
  { unfold validateDataModel. destruct Hfile as [-> | ->];
      cbn [try_catch mbind Exc_bind bind mret Exc_ret];
      match goal with
      | |- context [Parser.parseFromFile ?p ?f] =>
          destruct (Parser.parseFromFile p f)
      end; reflexivity. }
  rewrite Hrun, Hload. clear Hrun Hload.
  destruct (Parser.validateBusinessRules dataModel) as [[]|e] eqn:Hrules.
  - assert (Hwf : well_formed dataModel).
    { apply no_business_rule_errors.
      rewrite validateBusinessRules_throws in Hrules.
      destruct (Parser.business_rule_errors dataModel);
        [reflexivity | discriminate]. }
    exists (additional_checks dataModel fresh strict).
    split; [reflexivity|].
    destruct (additional_checks_errors dataModel strict fresh) as [-> ->].
    split; [apply length_zero|].
    rewrite length_zero, passes_errors, (relationships_id _ _ Hwf).
    rewrite no_field_errors. tauto.
  - assert (Hnot : ~ well_formed dataModel).
    { intros Hwf. apply no_business_rule_errors in Hwf.
      rewrite validateBusinessRules_throws, Hwf in Hrules. discriminate. }
    destruct Hfile as [-> | ->];
      (eexists; split; [reflexivity|]; cbn;
       split; split; try discriminate; tauto).
Qed.

Lemma validity_of_a_model_witness :
  exists result,
    validateDataModel "model.json"
      (Parser.JsonFile (Ok (Parser.SchemaValid sample_model))) fresh false
    = Ok result
    /\ (valid result = true <-> errors result = [])
    /\ (valid result = true
        <-> well_formed sample_model
            /\ forall entity,
                 entity ∈ m_entities sample_model -> fields_ok entity).
Proof.
  apply (validity_of_a_model sample_model "model.json" _ false).
  left. reflexivity.
Defined.

(** ** Strict mode *)

Lemma warns_more_refl (result : Result) : warns_more result result.
Proof. unfold warns_more. split; [reflexivity|]. split; reflexivity. Qed.

Lemma warns_more_push_error (c : bool) (message : string) (lax strict : Result) :
  warns_more lax strict ->
  warns_more (push_error c message lax) (push_error c message strict).
Proof.
  intros (Hv & He & Hw). unfold warns_more, push_error. cbn.
  rewrite He. auto.
Qed.

Lemma warns_more_push_warning (c c' : bool) (message : string)
  (lax strict : Result) :
  (c = true -> c' = true) ->
  warns_more lax strict ->
  warns_more (push_warning c message lax) (push_warning c' message strict).
Proof.
  intros Himp (Hv & He & Hw). unfold warns_more, push_warning, push_if. cbn.
  repeat split; try assumption.
  destruct c.
  - rewrite (Himp eq_refl). apply sublist_app; [exact Hw | reflexivity].
  - destruct c'; [|exact Hw]. apply sublist_inserts_r. exact Hw.
Qed.

Lemma warns_more_fold {A : Type} (f g : Result -> A -> Result) (xs : list A) :
  (forall lax strict x,
     warns_more lax strict -> warns_more (f lax x) (g strict x)) ->
  forall lax strict,
    warns_more lax strict ->
    warns_more (fold_left f xs lax) (fold_left g xs strict).
Proof.
  intros Hstep. induction xs as [|x xs IH]; intros lax strict Hmore;
    [exact Hmore|].
  cbn [fold_left]. apply IH, Hstep, Hmore.
Qed.

Lemma warns_more_fieldDataType (entityName : string) (field : EntityField)
  (lax strict : Result) :
  warns_more lax strict ->
  warns_more (validateFieldDataType entityName field lax false)
    (validateFieldDataType entityName field strict true).
Proof.
  intros Hmore. unfold validateFieldDataType.
  rewrite <- (push_warning_false
                (("Entity " +:+ entityName +:+ "." +:+ f_name field +:+ ": ")
                 +:+ "string field should have maxLength constraint")
                (push_error _ _ (push_error _ _ (push_warning _ _
                   (push_error _ _ lax))))).
  apply warns_more_push_warning; [discriminate|].
  rewrite <- (push_warning_false
                (("Entity " +:+ entityName +:+ "." +:+ f_name field +:+ ": ")
                 +:+ "missing field description")
                (push_error _ _ (push_error _ _ (push_warning _ _
                   (push_error _ _ lax))))).
  apply warns_more_push_warning; [discriminate|].
  repeat first
    [ apply warns_more_push_error
    | apply warns_more_push_warning; [tauto|] ].
  exact Hmore.
Qed.

Lemma warns_more_field_loop (entity : Entity) (fields : list EntityField)
  (seen : gset string) (lax strict : Result) :
  warns_more lax strict ->
  warns_more (field_loop entity false fields (seen, lax)).2
    (field_loop entity true fields (seen, strict)).2.
Proof.
  revert seen lax strict.
  induction fields as [|field rest IH]; intros seen lax strict Hmore;
    [exact Hmore|].
  rewrite !field_loop_cons. apply IH, warns_more_fieldDataType,
    warns_more_push_error, Hmore.
Qed.

Lemma warns_more_fields (dataModel : DataModel) (lax strict : Result) :
  warns_more lax strict ->
  warns_more (validateEntityFields dataModel lax false)
    (validateEntityFields dataModel strict true).
Proof.
  unfold validateEntityFields. apply warns_more_fold.
  intros r r' entity Hmore.
  do 2 apply warns_more_push_error.
  apply warns_more_field_loop, Hmore.
Qed.

Lemma warns_more_naming (dataModel : DataModel) (lax strict : Result) :
  warns_more lax strict ->
  warns_more (validateNamingConventions dataModel lax false)
    (validateNamingConventions dataModel strict true).
Proof.
  intros Hmore. unfold validateNamingConventions.
  assert (Hentities :
            warns_more
              (fold_left
                 (fun result entity =>
                    fold_left
                      (fun result field =>
                         push_warning (negb (camelCase (f_name field)))
                           (field_label entity field
                            +:+ "field name should be in camelCase") result)
                      (e_fields entity)
                      (push_warning (negb (PascalCase (e_name entity)))
                         ("Entity " +:+ e_name entity
                          +:+ ": name should be in PascalCase") result))
                 (m_entities dataModel) lax)
              (fold_left
                 (fun result entity =>
                    fold_left
                      (fun result field =>
                         push_warning (negb (camelCase (f_name field)))
                           (field_label entity field
                            +:+ "field name should be in camelCase") result)
                      (e_fields entity)
                      (push_warning (negb (PascalCase (e_name entity)))
                         ("Entity " +:+ e_name entity
                          +:+ ": name should be in PascalCase") result))
                 (m_entities dataModel) strict)).
  { apply warns_more_fold; [|exact Hmore]. intros r r' entity Hr.
    apply warns_more_fold.
    - intros a b field Hab. apply warns_more_push_warning; [tauto | exact Hab].
    - apply warns_more_push_warning; [tauto | exact Hr]. }
  destruct (m_enums dataModel) as [enums|]; [|exact Hentities].
  apply warns_more_fold; [|exact Hentities]. intros r r' enumDef Hr.
  apply warns_more_fold.
  - intros a b value Hab. apply warns_more_push_warning; [|exact Hab].
    cbn. discriminate.
  - apply warns_more_push_warning; [tauto | exact Hr].
Qed.

Lemma warns_more_business (dataModel : DataModel) (lax strict : Result) :
  warns_more lax strict ->
  warns_more (Validate.validateBusinessRules dataModel lax)
    (Validate.validateBusinessRules dataModel strict).
Proof.
  intros (Hv & He & Hw).
  unfold Validate.validateBusinessRules, validateRelationshipLogic,
    checkCircularRelationships.
  destruct (circular_warnings dataModel) as [ws|]; [|repeat split; assumption].
  repeat split; cbn; try assumption.
  apply sublist_app; [exact Hw | reflexivity].
Qed.

(** X4. Strict mode only adds warnings: the errors of the validate command's
    passes, and with them the verdict, are the same with and without
    [--strict], and every warning of the lax run is a warning of the strict
    run, in the same order. *)
Theorem strict_mode_only_warns (dataModel : DataModel) (result : Result) :
  warns_more (additional_checks dataModel result false)
    (additional_checks dataModel result true).
Proof.
  assert (Hpasses :
            warns_more (passes dataModel false result)
              (passes dataModel true result)).
  { unfold passes.
    apply warns_more_business, warns_more_naming, warns_more_fields,
      warns_more_refl. }
  destruct Hpasses as (_ & He & Hw).
  unfold additional_checks. fold (passes dataModel false result).
  fold (passes dataModel true result).
  unfold warns_more. cbn. rewrite He. repeat split. exact Hw.
Qed.

(** X3. Once the parser has accepted a model, the relationship pass of the
    validate command has nothing left to report: it returns the result it
    was given. Every error the command reports for such a model comes from
    the field pass. *)
Theorem loaded_model_checks (dataModel : DataModel) :
  Parser.validateBusinessRules dataModel = Ok tt ->
  forall result strict,
    validateEntityRelationships dataModel result = result
    /\ errors (additional_checks dataModel result strict)
       = errors (validateEntityFields dataModel result strict).
Proof.
  intros Hrules result strict.
  assert (Hwf : well_formed dataModel).
  { apply no_business_rule_errors.
    rewrite validateBusinessRules_throws in Hrules.
    destruct (Parser.business_rule_errors dataModel);
      [reflexivity | discriminate]. }
  split; [apply relationships_id, Hwf|].
  destruct (additional_checks_errors dataModel strict result) as [-> _].
  rewrite passes_errors, (relationships_id _ _ Hwf). reflexivity.
Qed.

Lemma loaded_model_checks_witness :
  Parser.validateBusinessRules sample_model = Ok tt
  /\ forall result strict,
       validateEntityRelationships sample_model result = result
       /\ errors (additional_checks sample_model result strict)
          = errors (validateEntityFields sample_model result strict).
Proof.
  split; [vm_compute; reflexivity|].
  apply (loaded_model_checks sample_model). vm_compute. reflexivity.
Defined.

(** ** The cycle search is sound *)

Section Sound.

Variable entityGraph : gmap string (list string).

Lemma bad_step (node neighbor : string) :
  edge entityGraph node neighbor -> bad entityGraph neighbor ->
  bad entityGraph node.
Proof.
  intros Hedge (c & Hreach & Hcycle). exists c.
  split; [eapply rtc_l; eassumption | exact Hcycle].
Qed.

Lemma bad_rtc (node later : string) :
  rtc (edge entityGraph) node later -> bad entityGraph later ->
  bad entityGraph node.
Proof.
  intros Hpath (c & Hreach & Hcycle). exists c.
  split; [eapply rtc_trans; eassumption | exact Hcycle].
Qed.

Lemma bad_back (node ancestor : string) :
  rtc (edge entityGraph) ancestor node -> edge entityGraph node ancestor ->
  bad entityGraph node.
Proof.
  intros Hpath Hedge. exists ancestor. split.
  - apply rtc_once. exact Hedge.
  - eapply tc_rtc_l; [exact Hpath | apply tc_once; exact Hedge].
Qed.

Lemma sound_loop (call : string -> Dfs -> option (bool * Dfs)) (node : string) :
  sound_call entityGraph call ->
  forall neighbors st found st',
    neighbors_loop call node neighbors st = Some (found, st') ->
    (forall neighbor, neighbor ∈ neighbors -> edge entityGraph node neighbor) ->
    node ∈ recursionStack st ->
    recursionStack st ⊆ visited st ->
    (forall y, y ∈ recursionStack st ->
               bad entityGraph y \/ rtc (edge entityGraph) y node) ->
    recursionStack st' ⊆ visited st'
    /\ (found = true ->
        bad entityGraph node
        /\ forall y, y ∈ recursionStack st' -> bad entityGraph y)
    /\ (found = false -> recursionStack st' = recursionStack st ∖ {[node]}).
Proof.
  intros Hcall. induction neighbors as [|neighbor rest IH];
    intros st found st' Hrun Hedges Hnode Hsub Hstack; cbn in Hrun.
  - injection Hrun as <- <-. cbn. split; [|split].
    + intros y Hy. apply elem_of_difference in Hy as [Hy _]. apply Hsub, Hy.
    + discriminate.
    + reflexivity.
  - assert (Hedge : edge entityGraph node neighbor) by (apply Hedges; left).
    assert (Hrest : forall n, n ∈ rest -> edge entityGraph node n).
    { intros n Hn. apply Hedges. right. exact Hn. }
    destruct (bool_decide (neighbor ∈ visited st)) eqn:Hvisited.
    + destruct (bool_decide (neighbor ∈ recursionStack st)) eqn:Hon.
      * injection Hrun as <- <-.
        apply bool_decide_eq_true_1 in Hon.
        assert (Hbad : bad entityGraph node).
        { destruct (Hstack _ Hon) as [Hb | Hpath].
          - eapply bad_step; eassumption.
          - eapply bad_back; eassumption. }
        split; [exact Hsub|]. split; [|discriminate].
        intros _. split; [exact Hbad|].
        intros y Hy. destruct (Hstack _ Hy) as [Hb | Hpath]; [exact Hb|].
        eapply bad_rtc; eassumption.
      * apply (IH st found st' Hrun Hrest Hnode Hsub Hstack).
    + apply bool_decide_eq_false_1 in Hvisited.
      destruct (call neighbor st) as [[[|] st1]|] eqn:Hinner;
        [| |discriminate].
      * injection Hrun as <- <-.
        destruct (Hcall neighbor st true st1 Hinner Hvisited Hsub)
          as (Hsub1 & Htrue & _).
        { intros y Hy. destruct (Hstack _ Hy) as [Hb | Hpath];
            [left; exact Hb | right; eapply rtc_r; eassumption]. }
        destruct (Htrue eq_refl) as [Hbad Hall].
        split; [exact Hsub1|]. split; [|discriminate].
        intros _. split; [eapply bad_step; eassumption | exact Hall].
      * destruct (Hcall neighbor st false st1 Hinner Hvisited Hsub)
          as (Hsub1 & _ & Hfalse).
        { intros y Hy. destruct (Hstack _ Hy) as [Hb | Hpath];
            [left; exact Hb | right; eapply rtc_r; eassumption]. }
        specialize (Hfalse eq_refl).
        destruct (IH st1 found st' Hrun Hrest) as (Hsub' & Htrue' & Hfalse').
        -- rewrite Hfalse. exact Hnode.
        -- exact Hsub1.
        -- rewrite Hfalse. exact Hstack.
        -- split; [exact Hsub'|]. split; [exact Htrue'|].
           intros Hf. rewrite (Hfalse' Hf), Hfalse. reflexivity.
Qed.

Lemma hasCycle_sound (fuel : nat) :
  sound_call entityGraph (hasCycle fuel entityGraph).
Proof.
  induction fuel as [|fuel IH]; intros node st found st' Hrun Hfresh Hsub Hstack;
    [discriminate|].
  cbn [hasCycle] in Hrun.
  destruct (sound_loop _ node IH _ _ _ _ Hrun) as (Hsub' & Htrue & Hfalse).
  - intros neighbor Hin. exact Hin.
  - cbn. apply elem_of_union. left. apply elem_of_singleton. reflexivity.
  - cbn. intros y Hy. apply elem_of_union in Hy as [Hy | Hy];
      apply elem_of_union; [left; exact Hy | right; apply Hsub, Hy].
  - cbn. intros y Hy. apply elem_of_union in Hy as [Hy | Hy].
    + apply elem_of_singleton in Hy. subst y. right. reflexivity.
    + apply Hstack, Hy.
  - split; [exact Hsub'|]. split; [exact Htrue|].
    intros Hf. rewrite (Hfalse Hf). cbn.
    apply set_eq. intros y. rewrite elem_of_difference, elem_of_union,
      elem_of_singleton.
    split; [intros [[-> | Hy] Hne]; [contradiction | exact Hy]|].
    intros Hy. split; [right; exact Hy|].
    intros ->. apply Hfresh, Hsub, Hy.
Qed.

(** The warnings of the last loop, as the names they carry. *)
Lemma entities_loop_sound (fuel : nat) (entities : list Entity) :
  forall st pushed result,
    entities_loop fuel entityGraph entities st pushed = Some result ->
    recursionStack st ⊆ visited st ->
    (forall y, y ∈ recursionStack st -> bad entityGraph y) ->
    exists names,
      result = pushed ++ map cycle_warning names
      /\ NoDup names
      /\ forall name,
           name ∈ names ->
           (name ∉ visited st) /\ name ∈ map e_name entities
           /\ bad entityGraph name.
Proof.
  induction entities as [|entity rest IH]; intros st pushed result Hrun Hsub Hbad;
    cbn [entities_loop] in Hrun.
  - injection Hrun as <-. exists []. cbn. rewrite app_nil_r.
    split; [reflexivity|]. split; [constructor|].
    intros name Hname. inversion Hname.
  - destruct (bool_decide (e_name entity ∈ visited st)) eqn:Hvisited.
    + destruct (IH st pushed result Hrun Hsub Hbad) as (names & -> & Hnd & Hnames).
      exists names. split; [reflexivity|]. split; [exact Hnd|].
      intros name Hname. destruct (Hnames name Hname) as (H1 & H2 & H3).
      split; [exact H1|]. split; [right; exact H2 | exact H3].
    + apply bool_decide_eq_false_1 in Hvisited.
      destruct (hasCycle fuel entityGraph (e_name entity) st)
        as [[found st1]|] eqn:Hcall; [|discriminate].
      destruct (hasCycle_sound fuel _ _ _ _ Hcall Hvisited Hsub)
        as (Hsub1 & Htrue & Hfalse).
      { intros y Hy. left. apply Hbad, Hy. }
      destruct (hasCycle_settles entityGraph fuel _ _ _ _ Hvisited Hcall)
        as (Hin1 & Hmono & _).
      assert (Hbad1 : forall y, y ∈ recursionStack st1 -> bad entityGraph y).
      { destruct found.
        - apply Htrue. reflexivity.
        - rewrite (Hfalse eq_refl). exact Hbad. }
      destruct (IH st1 _ result Hrun Hsub1 Hbad1) as (names & -> & Hnd & Hnames).
      assert (Hlater :
                forall name, name ∈ names ->
                  (name ∉ visited st) /\ name ∈ map e_name (entity :: rest)
                  /\ bad entityGraph name).
      { intros name Hname. destruct (Hnames name Hname) as (H1 & H2 & H3).
        split; [intros Hin; apply H1, Hmono, Hin|].
        split; [right; exact H2 | exact H3]. }
      destruct found; cbn [push_if].
      * exists (e_name entity :: names). cbn [map].
        rewrite <- app_assoc. split; [reflexivity|]. split.
        -- apply NoDup_cons. split; [|exact Hnd].
           intros Hin. destruct (Hnames _ Hin) as [Hnot _]. apply Hnot, Hin1.
        -- intros name Hname. apply elem_of_cons in Hname as [-> | Hname];
             [|apply Hlater, Hname].
           destruct (Htrue eq_refl) as [Hroot _].
           split; [exact Hvisited|]. split; [left | exact Hroot].
      * exists names. split; [reflexivity|]. split; [exact Hnd | exact Hlater].
Qed.

End Sound.

Lemma edge_refers (dataModel : DataModel) (node neighbor : string) :
  edge (build_graph dataModel) node neighbor -> refers dataModel node neighbor.
Proof.
  unfold edge, refers. rewrite build_graph_lookup.
  destruct (last_named node (m_entities dataModel)) as [entity|] eqn:Hlast;
    cbn; [|intros Hin; inversion Hin].
  apply last_named_Some in Hlast as [Hin Hname].
  intros Htarget. exists entity. auto.
Qed.

Lemma refers_edge (dataModel : DataModel) (node neighbor : string) :
  NoDup (map e_name (m_entities dataModel)) ->
  refers dataModel node neighbor -> edge (build_graph dataModel) node neighbor.
Proof.
  intros Hnd (entity & Hin & <- & Htarget). unfold edge.
  rewrite (build_graph_edges _ _ Hnd Hin). exact Htarget.
Qed.

Lemma tc_mono {A : Type} (R S : A -> A -> Prop) (x y : A) :
  (forall a b, R a b -> S a b) -> tc R x y -> tc S x y.
Proof.
  intros Hsub Htc. induction Htc as [a b Hab | a b c Hab _ IH].
  - apply tc_once, Hsub, Hab.
  - eapply tc_l; [apply Hsub, Hab | exact IH].
Qed.

Lemma bad_reaches_cycle (dataModel : DataModel) (name : string) :
  bad (build_graph dataModel) name -> reaches_cycle dataModel name.
Proof.
  intros (c & Hreach & Hcycle). exists c. split.
  - eapply rtc_subrel; [|exact Hreach]. apply edge_refers.
  - eapply tc_mono; [|exact Hcycle]. apply edge_refers.
Qed.

(** X5. The cycle check never warns without cause. The warnings it pushes
    name pairwise distinct entities of the model, one warning each, and
    each entity named has a chain of relationships (other than oneToMany)
    that leads into a cycle of such relationships. *)
Theorem cycle_warnings_sound (dataModel : DataModel) :
  exists names,
    circular_warnings dataModel = Some (map cycle_warning names)
    /\ NoDup names
    /\ forall name,
         name ∈ names ->
         name ∈ map e_name (m_entities dataModel)
         /\ reaches_cycle dataModel name.
Proof.
  destruct (circular_warnings_total dataModel) as [pushed Hrun].
  unfold circular_warnings in Hrun |- *.
  destruct (entities_loop_sound _ _ _ _ _ _ Hrun) as (names & -> & Hnd & Hnames).
  - cbn. reflexivity.
  - cbn. intros y Hy. exfalso. revert Hy. apply not_elem_of_empty.
  - exists names. split; [exact Hrun|]. split; [exact Hnd|].
    intros name Hname. destruct (Hnames name Hname) as (_ & Hin & Hbad).
    split; [exact Hin | apply bad_reaches_cycle, Hbad].
Qed.

(** ** The cycle search is complete *)

Section Complete.

Variable entityGraph : gmap string (list string).

(** The highest rank among the given nodes. *)
Lemma rank_bound (rank : string -> nat) (neighbors : list string) :
  exists bound, forall neighbor, neighbor ∈ neighbors -> rank neighbor < bound.
Proof.
  induction neighbors as [|n rest [bound Hbound]].
  - exists 0. intros neighbor Hin. inversion Hin.
  - exists (S (Nat.max (rank n) bound)). intros neighbor Hin.
    apply elem_of_cons in Hin as [-> | Hin]; [lia|].
    specialize (Hbound _ Hin). lia.
Qed.

Lemma ranks_loop (call : string -> Dfs -> option (bool * Dfs)) (node : string) :
  ranks_call entityGraph call ->
  forall neighbors st st' rank,
    neighbors_loop call node neighbors st = Some (false, st') ->
    recursionStack st ⊆ visited st ->
    ranked entityGraph rank st ->
    exists st_end rank',
      st' = leave node st_end
      /\ ranked entityGraph rank' st_end
      /\ visited st ⊆ visited st_end
      /\ recursionStack st_end = recursionStack st
      /\ forall neighbor,
           neighbor ∈ neighbors ->
           neighbor ∈ visited st_end /\ (neighbor ∉ recursionStack st_end).
Proof.
  intros Hcall. induction neighbors as [|neighbor rest IH];
    intros st st' rank Hrun Hsub Hranked; cbn in Hrun.
  - injection Hrun as <-. exists st, rank.
    split; [reflexivity|]. split; [exact Hranked|]. split; [reflexivity|].
    split; [reflexivity|]. intros neighbor Hin. inversion Hin.
  - destruct (bool_decide (neighbor ∈ visited st)) eqn:Hvisited.
    + destruct (bool_decide (neighbor ∈ recursionStack st)) eqn:Hon;
        [discriminate|].
      apply bool_decide_eq_true_1 in Hvisited.
      apply bool_decide_eq_false_1 in Hon.
      destruct (IH st st' rank Hrun Hsub Hranked)
        as (st_end & rank' & -> & Hranked' & Hmono & Hstack & Hdone).
      exists st_end, rank'. split; [reflexivity|]. split; [exact Hranked'|].
      split; [exact Hmono|]. split; [exact Hstack|].
      intros n Hn. apply elem_of_cons in Hn as [-> | Hn]; [|apply Hdone, Hn].
      split; [apply Hmono, Hvisited | rewrite Hstack; exact Hon].
    + apply bool_decide_eq_false_1 in Hvisited.
      destruct (call neighbor st) as [[[|] st1]|] eqn:Hinner;
        [discriminate| |discriminate].
      destruct (Hcall neighbor st st1 rank Hinner Hvisited Hsub Hranked)
        as ([rank1 Hranked1] & Hmono1 & Hin1 & Hstack1).
      destruct (IH st1 st' rank1 Hrun) as
        (st_end & rank' & -> & Hranked' & Hmono & Hstack & Hdone).
      * rewrite Hstack1. intros y Hy. apply Hmono1, Hsub, Hy.
      * exact Hranked1.
      * exists st_end, rank'. split; [reflexivity|]. split; [exact Hranked'|].
        split; [intros y Hy; apply Hmono, Hmono1, Hy|].
        split; [rewrite Hstack; exact Hstack1|].
        intros n Hn. apply elem_of_cons in Hn as [-> | Hn]; [|apply Hdone, Hn].
        split; [apply Hmono, Hin1|].
        rewrite Hstack, Hstack1. intros Hon. apply Hvisited, Hsub, Hon.
Qed.

Lemma hasCycle_ranks (fuel : nat) :
  ranks_call entityGraph (hasCycle fuel entityGraph).
Proof.
  induction fuel as [|fuel IH]; intros node st st' rank Hrun Hfresh Hsub Hranked;
    [discriminate|].
  cbn [hasCycle] in Hrun.
  destruct (ranks_loop _ node IH _ _ _ rank Hrun)
    as (st_end & rank' & -> & Hranked' & Hmono & Hstack & Hdone).
  - cbn. intros y Hy. apply elem_of_union in Hy as [Hy | Hy];
      apply elem_of_union; [left; exact Hy | right; apply Hsub, Hy].
  - intros u v Hu Hnot Hedge. cbn in Hu, Hnot.
    assert (Hne : u <> node).
    { intros ->. apply Hnot, elem_of_union. left.
      apply elem_of_singleton. reflexivity. }
    apply elem_of_union in Hu as [Hu | Hu];
      [apply elem_of_singleton in Hu; contradiction|].
    destruct (Hranked u v Hu) as (Hv & Hvs & Hlt); [|exact Hedge|].
    { intros Hon. apply Hnot, elem_of_union. right. exact Hon. }
    cbn. split; [apply elem_of_union; right; exact Hv|].
    split; [|exact Hlt].
    intros Hon. apply elem_of_union in Hon as [Hon | Hon]; [|contradiction].
    apply elem_of_singleton in Hon. subst v. contradiction.
  - cbn in Hmono, Hstack.
    assert (Hnode : node ∈ recursionStack st_end).
    { rewrite Hstack. apply elem_of_union. left.
      apply elem_of_singleton. reflexivity. }
    destruct (rank_bound rank' (default [] (entityGraph !! node)))
      as [bound Hbound].
    split; [|split; [|split]].
    + exists (fun x => if decide (x = node) then bound else rank' x).
      intros u v Hu Hnot Hedge. cbn in Hu, Hnot |- *.
      assert (Hdone_v :
                forall w, w ∈ visited st_end -> w ∉ recursionStack st_end ->
                  (w ∈ visited st_end)
                  /\ (w ∉ recursionStack st_end ∖ {[node]})
                  /\ w <> node).
      { intros w Hw Hws. split; [exact Hw|]. split.
        - intros Hon. apply elem_of_difference in Hon as [Hon _]. contradiction.
        - intros ->. contradiction. }
      destruct (decide (u = node)) as [-> | Hne].
      * destruct (Hdone v Hedge) as [Hv Hvs].
        destruct (Hdone_v v Hv Hvs) as (H1 & H2 & H3).
        split; [exact H1|]. split; [exact H2|].
        rewrite decide_False by exact H3. apply Hbound, Hedge.
      * assert (Hus : u ∉ recursionStack st_end).
        { intros Hon. apply Hnot, elem_of_difference. split; [exact Hon|].
          intros Heq. apply elem_of_singleton in Heq. contradiction. }
        destruct (Hranked' u v Hu Hus Hedge) as (Hv & Hvs & Hlt).
        destruct (Hdone_v v Hv Hvs) as (H1 & H2 & H3).
        split; [exact H1|]. split; [exact H2|].
        rewrite decide_False by exact H3. exact Hlt.
    + cbn. intros y Hy. apply Hmono, elem_of_union. right. exact Hy.
    + cbn. apply Hmono, elem_of_union. left. apply elem_of_singleton.
      reflexivity.
    + cbn. rewrite Hstack. apply set_eq. intros y.
      rewrite elem_of_difference, elem_of_union, elem_of_singleton.
      split; [intros [[-> | Hy] Hne]; [contradiction | exact Hy]|].
      intros Hy. split; [right; exact Hy|].
      intros ->. apply Hfresh, Hsub, Hy.
Qed.

Lemma entities_loop_grows (fuel : nat) (entities : list Entity) :
  forall st pushed result,
    entities_loop fuel entityGraph entities st pushed = Some result ->
    exists more, result = pushed ++ more.
Proof.
  induction entities as [|entity rest IH]; intros st pushed result Hrun;
    cbn [entities_loop] in Hrun.
  - injection Hrun as <-. exists []. rewrite app_nil_r. reflexivity.
  - destruct (bool_decide (e_name entity ∈ visited st)); [eapply IH, Hrun|].
    destruct (hasCycle fuel entityGraph (e_name entity) st)
      as [[found st1]|]; [|discriminate].
    destruct (IH _ _ _ Hrun) as [more ->].
    unfold push_if. destruct found; [|exists more; reflexivity].
    exists (cycle_warning (e_name entity) :: more).
    rewrite <- app_assoc. reflexivity.
Qed.

(** A run of the last loop that pushes nothing ranks every entity. *)
Lemma entities_loop_ranks (fuel : nat) (entities : list Entity) :
  forall st pushed rank,
    entities_loop fuel entityGraph entities st pushed = Some pushed ->
    recursionStack st = ∅ ->
    ranked entityGraph rank st ->
    exists st_end rank',
      ranked entityGraph rank' st_end
      /\ recursionStack st_end = ∅
      /\ visited st ⊆ visited st_end
      /\ forall entity, entity ∈ entities -> e_name entity ∈ visited st_end.
Proof.
  induction entities as [|entity rest IH]; intros st pushed rank Hrun Hempty Hranked;
    cbn [entities_loop] in Hrun.
  - exists st, rank. split; [exact Hranked|]. split; [exact Hempty|].
    split; [reflexivity|]. intros entity Hin. inversion Hin.
  - destruct (bool_decide (e_name entity ∈ visited st)) eqn:Hvisited.
    + apply bool_decide_eq_true_1 in Hvisited.
      destruct (IH st pushed rank Hrun Hempty Hranked)
        as (st_end & rank' & Hranked' & Hempty' & Hmono & Hall).
      exists st_end, rank'. split; [exact Hranked'|]. split; [exact Hempty'|].
      split; [exact Hmono|].
      intros e He. apply elem_of_cons in He as [-> | He];
        [apply Hmono, Hvisited | apply Hall, He].
    + apply bool_decide_eq_false_1 in Hvisited.
      destruct (hasCycle fuel entityGraph (e_name entity) st)
        as [[found st1]|] eqn:Hcall; [|discriminate].
      destruct found.
      { exfalso. destruct (entities_loop_grows _ _ _ _ _ Hrun) as [more Hmore].
        cbn [push_if] in Hmore. rewrite <- app_assoc in Hmore.
        apply (f_equal (@length string)) in Hmore.
        rewrite length_app in Hmore. cbn in Hmore. lia. }
      cbn [push_if] in Hrun.
      destruct (hasCycle_ranks fuel _ _ _ rank Hcall Hvisited)
        as ([rank1 Hranked1] & Hmono1 & Hin1 & Hstack1).
      { rewrite Hempty. intros y Hy. exfalso. revert Hy. apply not_elem_of_empty. }
      { exact Hranked. }
      destruct (IH st1 pushed rank1 Hrun)
        as (st_end & rank' & Hranked' & Hempty' & Hmono & Hall).
      { rewrite Hstack1. exact Hempty. }
      { exact Hranked1. }
      exists st_end, rank'. split; [exact Hranked'|]. split; [exact Hempty'|].
      split; [intros y Hy; apply Hmono, Hmono1, Hy|].
      intros e He. apply elem_of_cons in He as [-> | He];
        [apply Hmono, Hin1 | apply Hall, He].
Qed.

(** Ranks fall along every path between nodes the search is done with. *)
Lemma ranked_path (rank : string -> nat) (st : Dfs) (node later : string) :
  ranked entityGraph rank st -> recursionStack st = ∅ ->
  tc (edge entityGraph) node later -> node ∈ visited st ->
  later ∈ visited st /\ rank later < rank node.
Proof.
  intros Hranked Hempty Hpath. induction Hpath as [a b Hab | a b c Hab _ IH];
    intros Ha.
  - destruct (Hranked a b Ha) as (Hb & _ & Hlt); [|exact Hab|auto].
    rewrite Hempty. apply not_elem_of_empty.
  - destruct (Hranked a b Ha) as (Hb & _ & Hlt); [|exact Hab|].
    { rewrite Hempty. apply not_elem_of_empty. }
    destruct (IH Hb) as [Hc Hlt']. split; [exact Hc | lia].
Qed.

End Complete.

Lemma tc_first {A : Type} (R : A -> A -> Prop) (x y : A) :
  tc R x y -> exists z, R x z.
Proof. intros [a b Hab | a b c Hab _]; exists b; exact Hab. Qed.

(** X6. The cycle check misses no cycle. In a model with unique entity
    names, whenever the relationships other than oneToMany form a cycle,
    however long and wherever it sits among the entities, at least one
    warning is pushed. *)
Theorem cycle_warnings_complete (dataModel : DataModel) (node : string) :
  NoDup (map e_name (m_entities dataModel)) ->
  tc (refers dataModel) node node ->
  exists pushed,
    circular_warnings dataModel = Some pushed /\ pushed <> [].
Proof.
  intros Hnd Hcycle.
  destruct (circular_warnings_total dataModel) as [pushed Hrun].
  exists pushed. split; [exact Hrun|]. intros ->.
  unfold circular_warnings in Hrun.
  destruct (entities_loop_ranks _ _ _ _ _ (fun _ => 0) Hrun)
    as (st_end & rank & Hranked & Hempty & _ & Hall).
  - reflexivity.
  - intros u v Hu. cbn in Hu. exfalso. revert Hu. apply not_elem_of_empty.
  - assert (Hgraph : tc (edge (build_graph dataModel)) node node).
    { eapply tc_mono; [|exact Hcycle]. intros a b. apply refers_edge, Hnd. }
    assert (Hvisited : node ∈ visited st_end).
    { destruct (tc_first _ _ _ Hcycle) as (z & entity & Hin & <- & _).
      apply Hall, Hin. }
    destruct (ranked_path _ rank st_end node node Hranked Hempty Hgraph Hvisited)
      as [_ Hlt].
    lia.
Qed.

Lemma cycle_warnings_complete_witness :
  NoDup (map e_name (m_entities led_pair_model))
  /\ tc (refers led_pair_model) "A" "A"
  /\ exists pushed,
       circular_warnings led_pair_model = Some pushed /\ pushed <> [].
Proof.
  assert (Hnd : NoDup (map e_name (m_entities led_pair_model))).
  { apply (bool_decide_unpack _). vm_compute. exact I. }
  assert (Hcycle : tc (refers led_pair_model) "A" "A").
  { apply tc_l with "B"; [|apply tc_once].
    - exists mutual_A. split; [right; left|]. split; [reflexivity|]. left.
    - exists mutual_B. split; [right; right; left|]. split; [reflexivity|].
      left. }
  split; [exact Hnd|]. split; [exact Hcycle|].
  apply (cycle_warnings_complete led_pair_model "A" Hnd Hcycle).
Defined.

(** ** References inside the generated documents *)

Lemma refs_of_obj (kvs : list (string * JsVal)) :
  refs_of (JObj kvs)
  = flat_map (fun kv => refs_of (JObj [kv])) kvs.
Proof.
  cbn [refs_of]. induction kvs as [|[k v] rest IH]; [reflexivity|].
  cbn [flat_map]. rewrite IH, app_nil_r. reflexivity.
Qed.

Lemma refs_of_cons (k : string) (v : JsVal) (rest : list (string * JsVal)) :
  refs_of (JObj ((k, v) :: rest)) = refs_of (JObj [(k, v)]) ++ refs_of (JObj rest).
Proof. cbn [refs_of flat_map]. rewrite app_nil_r. reflexivity. Qed.

Lemma refs_of_set (k : string) (v : JsVal) (o : list (string * JsVal))
  (reference : string) :
  reference ∈ refs_of (JObj (obj_set k v o)) ->
  reference ∈ refs_of (JObj [(k, v)]) \/ reference ∈ refs_of (JObj o).
Proof.
  induction o as [|[k' v'] rest IH]; cbn [obj_set].
  - intros Hin. left. exact Hin.
  - destruct (decide (k = k')) as [-> | Hne].
    + rewrite refs_of_cons, (refs_of_cons k' v' rest), !elem_of_app.
      intros [Hin | Hin]; [left; exact Hin | right; right; exact Hin].
    + rewrite refs_of_cons, (refs_of_cons k' v' rest), !elem_of_app.
      intros [Hin | Hin]; [right; left; exact Hin|].
      destruct (IH Hin) as [H | H]; [left; exact H | right; right; exact H].
Qed.

Lemma refs_of_set_all (kvs o : list (string * JsVal)) (reference : string) :
  reference ∈ refs_of (JObj (set_all kvs o)) ->
  reference ∈ refs_of (JObj kvs) \/ reference ∈ refs_of (JObj o).
Proof.
  unfold set_all. revert o. induction kvs as [|[k v] rest IH]; intros o;
    cbn [fold_left fst snd].
  - intros Hin. right. exact Hin.
  - intros Hin. rewrite refs_of_cons, elem_of_app.
    destruct (IH _ Hin) as [H | H]; [left; right; exact H|].
    destruct (refs_of_set _ _ _ _ H) as [H' | H'];
      [left; left; exact H' | right; exact H'].
Qed.

Lemma generatePaths_items (dataModel : DataModel) (paths : list (string * JsVal)) :
  generatePaths dataModel paths
  = fold_left (fun acc entity => set_all (path_items entity) acc)
      (m_entities dataModel) paths.
Proof. reflexivity. Qed.

Lemma refs_of_fold {A : Type} (items : A -> list (string * JsVal))
  (xs : list A) (o : list (string * JsVal)) (reference : string) :
  reference ∈ refs_of (JObj (fold_left (fun acc x => set_all (items x) acc) xs o)) ->
  (exists x, x ∈ xs /\ reference ∈ refs_of (JObj (items x)))
  \/ reference ∈ refs_of (JObj o).
Proof.
  revert o. induction xs as [|x rest IH]; intros o; cbn [fold_left].
  - intros Hin. right. exact Hin.
  - intros Hin. destruct (IH _ Hin) as [(y & Hy & Hr) | H].
    + left. exists y. split; [right; exact Hy | exact Hr].
    + destruct (refs_of_set_all _ _ _ H) as [H' | H']; [|right; exact H'].
      left. exists x. split; [left | exact H'].
Qed.

(** The references of the path items of one entity. *)
Lemma path_items_refs (entity : Entity) (reference : string) :
  reference ∈ refs_of (JObj (path_items entity)) ->
  reference ∈ ["#/components/schemas/" +:+ e_name entity;
               "#/components/schemas/" +:+ ("Create" +:+ e_name entity +:+ "Dto");
               "#/components/schemas/" +:+ ("Update" +:+ e_name entity +:+ "Dto");
               "#/components/schemas/" +:+ "PaginationMeta";
               "#/components/responses/BadRequest";
               "#/components/responses/NotFound";
               "#/components/responses/InternalServerError"].
Proof.
  cbn. rewrite !list_elem_of_In. unfold In. intuition auto.
Qed.

Lemma keys_grow {A : Type} (f : list (string * JsVal) -> A -> list (string * JsVal))
  (xs : list A) (o : list (string * JsVal)) (k : string) :
  (forall acc x k, k ∈ obj_keys acc -> k ∈ obj_keys (f acc x)) ->
  k ∈ obj_keys o -> k ∈ obj_keys (fold_left f xs o).
Proof.
  intros Hgrow. revert o. induction xs as [|x rest IH]; intros o Hk;
    [exact Hk|].
  cbn [fold_left]. apply IH, Hgrow, Hk.
Qed.

Lemma keys_added {A : Type} (f : list (string * JsVal) -> A -> list (string * JsVal))
  (key : A -> string) (xs : list A) (o : list (string * JsVal)) (x : A) :
  (forall acc x k, k ∈ obj_keys acc -> k ∈ obj_keys (f acc x)) ->
  (forall acc x, key x ∈ obj_keys (f acc x)) ->
  x ∈ xs -> key x ∈ obj_keys (fold_left f xs o).
Proof.
  intros Hgrow Hadd. revert o. induction xs as [|y rest IH]; intros o Hx;
    [inversion Hx|].
  cbn [fold_left]. apply elem_of_cons in Hx as [-> | Hx].
  - apply keys_grow; [exact Hgrow | apply Hadd].
  - apply IH, Hx.
Qed.

Lemma key_set (k : string) (v : JsVal) (o : list (string * JsVal)) :
  k ∈ obj_keys (obj_set k v o).
Proof. apply elem_of_obj_keys_set. left. reflexivity. Qed.

Lemma key_kept (k k' : string) (v : JsVal) (o : list (string * JsVal)) :
  k' ∈ obj_keys o -> k' ∈ obj_keys (obj_set k v o).
Proof. intros Hin. apply elem_of_obj_keys_set. right. exact Hin. Qed.

Lemma enum_schemas_keep (enums : option (list EnumDefinition))
  (schemas : list (string * JsVal)) (k : string) :
  k ∈ obj_keys schemas -> k ∈ obj_keys (add_enum_schemas enums schemas).
Proof.
  unfold add_enum_schemas. destruct enums as [defs|]; [|auto].
  apply keys_grow. intros acc x k'. apply key_kept.
Qed.

(** The schemas an OpenAPI document always has. *)
Lemma openapi_schema_keys (dataModel : DataModel) (k : string) :
  k ∈ ["PaginationMeta"; "ErrorResponse"]
  \/ (exists entity,
        entity ∈ m_entities dataModel
        /\ k ∈ [e_name entity; "Create" +:+ e_name entity +:+ "Dto";
                "Update" +:+ e_name entity +:+ "Dto"]) ->
  k ∈ obj_keys (openapi_generateSchemas dataModel []).
Proof.
  unfold openapi_generateSchemas. intros [Hcommon | (entity & Hin & Hk)].
  - rewrite !elem_of_cons, elem_of_nil in Hcommon.
    destruct Hcommon as [-> | [-> | []]].
    + apply key_kept, key_set.
    + apply key_set.
  - do 2 apply key_kept. apply enum_schemas_keep.
    set (step := fun acc entity =>
                   obj_set ("Update" +:+ e_name entity +:+ "Dto")
                     (JObj (entityToUpdateDto entity))
                     (obj_set ("Create" +:+ e_name entity +:+ "Dto")
                        (JObj (entityToCreateDto entity))
                        (obj_set (e_name entity) (JObj (entityToSchema entity))
                           acc))).
    assert (Hgrow : forall acc x k, k ∈ obj_keys acc -> k ∈ obj_keys (step acc x)).
    { intros acc x k' Hk'. unfold step. do 3 apply key_kept. exact Hk'. }
    rewrite !elem_of_cons, elem_of_nil in Hk.
    destruct Hk as [-> | [-> | [-> | []]]].
    + apply (keys_added step e_name); [exact Hgrow| |exact Hin].
      intros acc x. unfold step. do 2 apply key_kept. apply key_set.
    + apply (keys_added step (fun e => "Create" +:+ e_name e +:+ "Dto"));
        [exact Hgrow| |exact Hin].
      intros acc x. unfold step. apply key_kept, key_set.
    + apply (keys_added step (fun e => "Update" +:+ e_name e +:+ "Dto"));
        [exact Hgrow| |exact Hin].
      intros acc x. unfold step. apply key_set.
Qed.

Lemma openapi_lookup (spec : OpenAPISpec) (name : string) :
  lookup_path ["components"; "schemas"; name] (openapi_document spec)
  = obj_get name (oa_schemas spec)
  /\ lookup_path ["components"; "responses"; name] (openapi_document spec)
     = obj_get name (oa_responses spec).
Proof.
  destruct spec as [info paths schemas responses security tags sec].
  unfold openapi_document.
  cbn [lookup_path oa_schemas oa_responses oa_securitySchemes oa_paths
       oa_info oa_tags oa_security].
  change (obj_get "components" _) with
    (Some (JObj ([("schemas", JObj schemas); ("responses", JObj responses)]
                 ++ opt_member "securitySchemes" security))).
  cbn [mbind option_bind lookup_path app obj_get].
  rewrite (decide_True (P := "schemas" = "schemas")) by reflexivity.
  rewrite (decide_False (P := "responses" = "schemas")) by discriminate.
  rewrite (decide_True (P := "responses" = "responses")) by reflexivity.
  cbn [mbind option_bind].
  split.
  - destruct (obj_get name schemas); reflexivity.
  - destruct (obj_get name responses); reflexivity.
Qed.

(** X7. An OpenAPI document has no dangling reference in its paths: every
    [$ref] of an operation, and every [$ref] of the shared responses, names
    a member of [components.schemas] or [components.responses] that the
    document has. *)
Theorem openapi_references_resolve (config : ProjectConfig)
  (dataModel : DataModel) (spec : OpenAPISpec) (reference : string) :
  generateOpenAPISpec config dataModel = Ok spec ->
  reference ∈ refs_of (JObj (oa_paths spec))
               ++ refs_of (JObj (oa_responses spec)) ->
  resolves (openapi_document spec) reference.
Proof.
  intros Hspec Hin.
  assert (Hparts :
            oa_paths spec = generatePaths dataModel []
            /\ oa_schemas spec = openapi_generateSchemas dataModel []
            /\ oa_responses spec = generateCommonResponses).
  { unfold generateOpenAPISpec in Hspec.
    destruct (c_project config) as [project|]; [|discriminate].
    destruct (c_features config) as [features|]; [|discriminate].
    cbn in Hspec. injection Hspec as <-. repeat split. }
  destruct Hparts as (Hpaths & Hschemas & Hresponses).
  assert (Hschema :
            forall name,
              name ∈ obj_keys (oa_schemas spec) ->
              resolves (openapi_document spec)
                ("#/components/schemas/" +:+ name)).
  { intros name Hname. exists "schemas", name. split; [reflexivity|].
    rewrite (proj1 (openapi_lookup spec name)). apply obj_get_is_Some, Hname. }
  assert (Hresponse :
            forall name,
              name ∈ ["BadRequest"; "NotFound"; "InternalServerError"] ->
              resolves (openapi_document spec)
                ("#/components/responses/" +:+ name)).
  { intros name Hname. exists "responses", name. split; [reflexivity|].
    rewrite (proj2 (openapi_lookup spec name)), Hresponses.
    apply obj_get_is_Some. exact Hname. }
  assert (Hcommon :
            resolves (openapi_document spec)
              ("#/components/schemas/" +:+ "ErrorResponse")
            /\ resolves (openapi_document spec)
                 ("#/components/schemas/" +:+ "PaginationMeta")).
  { split; apply Hschema; rewrite Hschemas; apply openapi_schema_keys; left;
      rewrite !elem_of_cons; auto. }
  apply elem_of_app in Hin as [Hin | Hin].
  - rewrite Hpaths, generatePaths_items in Hin.
    apply refs_of_fold in Hin as [(entity & Hentity & Hin) | Hin];
      [|inversion Hin].
    apply path_items_refs in Hin.
    rewrite !elem_of_cons, elem_of_nil in Hin.
    assert (Hown :
              forall k,
                k ∈ [e_name entity; "Create" +:+ e_name entity +:+ "Dto";
                     "Update" +:+ e_name entity +:+ "Dto"] ->
                resolves (openapi_document spec)
                  ("#/components/schemas/" +:+ k)).
    { intros k Hk. apply Hschema. rewrite Hschemas.
      apply openapi_schema_keys. right. exists entity. auto. }
    destruct Hin as [-> | [-> | [-> | [-> | [-> | [-> | [-> | []]]]]]]].
    + apply Hown. rewrite !elem_of_cons. auto.
    + apply Hown. rewrite !elem_of_cons. auto.
    + apply Hown. rewrite !elem_of_cons. auto.
    + apply Hcommon.
    + apply (Hresponse "BadRequest"). rewrite !elem_of_cons. auto.
    + apply (Hresponse "NotFound"). rewrite !elem_of_cons. auto.
    + apply (Hresponse "InternalServerError"). rewrite !elem_of_cons. auto.
  - rewrite Hresponses in Hin. cbn in Hin.
    rewrite !elem_of_cons, elem_of_nil in Hin.
    destruct Hin as [-> | [-> | [-> | []]]]; apply Hcommon.
Qed.

Lemma openapi_references_resolve_witness :
  exists spec,
    generateOpenAPISpec sample_config sample_model = Ok spec
    /\ "#/components/schemas/User"
         ∈ refs_of (JObj (oa_paths spec)) ++ refs_of (JObj (oa_responses spec))
    /\ resolves (openapi_document spec) "#/components/schemas/User".
Proof.
  eexists. split; [reflexivity|].
  match goal with
  | |- ?P /\ _ => assert (Hin : P)
  end.
  { apply list_elem_of_In. vm_compute. left. reflexivity. }
  split; [exact Hin|].
  exact (openapi_references_resolve sample_config sample_model _ _
           eq_refl Hin).
Defined.

Lemma obj_get_set_inv {A : Type} (k k' : string) (v v' : A)
  (o : list (string * A)) :
  obj_get k' (obj_set k v o) = Some v' ->
  (k' = k /\ v' = v) \/ obj_get k' o = Some v'.
Proof.
  destruct (decide (k = k')) as [<- | Hne].
  - rewrite obj_get_set_eq. intros [= <-]. left. auto.
  - rewrite obj_get_set_ne by exact Hne. auto.
Qed.

Lemma obj_get_set_all {A : Type} (kvs o : list (string * A)) (k : string)
  (v : A) :
  obj_get k (set_all kvs o) = Some v -> (k, v) ∈ kvs \/ obj_get k o = Some v.
Proof.
  unfold set_all. revert o. induction kvs as [|[k' v'] rest IH]; intros o;
    cbn [fold_left fst snd]; [auto|].
  intros Hget. destruct (IH _ Hget) as [Hin | Hget'].
  - left. right. exact Hin.
  - apply obj_get_set_inv in Hget' as [[-> ->] | Hget']; [left; left | auto].
Qed.

Lemma refs_of_app (xs ys : list (string * JsVal)) :
  refs_of (JObj (xs ++ ys)) = refs_of (JObj xs) ++ refs_of (JObj ys).
Proof. cbn [refs_of]. apply flat_map_app. Qed.

Lemma refs_of_concat {A : Type} (items : A -> list (string * JsVal))
  (xs : list A) (reference : string) :
  reference ∈ refs_of (JObj (concat (map items xs))) ->
  exists x, x ∈ xs /\ reference ∈ refs_of (JObj (items x)).
Proof.
  induction xs as [|x rest IH]; cbn [map concat].
  - intros Hin. inversion Hin.
  - rewrite refs_of_app, elem_of_app. intros [Hin | Hin].
    + exists x. split; [left | exact Hin].
    + destruct (IH Hin) as (y & Hy & Hr). exists y. split; [right|]; assumption.
Qed.

Lemma elem_of_concat_items {A B : Type} (items : A -> list B) (xs : list A)
  (b : B) :
  b ∈ concat (map items xs) -> exists x, x ∈ xs /\ b ∈ items x.
Proof.
  rewrite list_elem_of_In, in_concat. intros (bs & Hbs & Hb).
  apply in_map_iff in Hbs as (x & <- & Hx).
  exists x. rewrite !list_elem_of_In. auto.
Qed.

(** The schemas an AsyncAPI document always has. *)
Lemma asyncapi_schema_keys (dataModel : DataModel) (k : string) :
  k = "EventMetadata"
  \/ (exists entity,
        entity ∈ m_entities dataModel
        /\ k ∈ [e_name entity; e_name entity +:+ "Event"]) ->
  k ∈ obj_keys (asyncapi_generateSchemas dataModel []).
Proof.
  unfold asyncapi_generateSchemas. intros [-> | (entity & Hin & Hk)].
  - apply key_set.
  - apply key_kept, enum_schemas_keep.
    set (step := fun acc entity =>
                   obj_set (e_name entity +:+ "Event")
                     (generateEventSchema entity)
                     (obj_set (e_name entity)
                        (JObj (entityToAsyncAPISchema entity)) acc)).
    assert (Hgrow : forall acc x k, k ∈ obj_keys acc -> k ∈ obj_keys (step acc x)).
    { intros acc x k' Hk'. unfold step. do 2 apply key_kept. exact Hk'. }
    rewrite !elem_of_cons, elem_of_nil in Hk.
    destruct Hk as [-> | [-> | []]].
    + apply (keys_added step e_name); [exact Hgrow| |exact Hin].
      intros acc x. unfold step. apply key_kept, key_set.
    + apply (keys_added step (fun e => e_name e +:+ "Event"));
        [exact Hgrow| |exact Hin].
      intros acc x. unfold step. apply key_set.
Qed.

Lemma asyncapi_lookup (spec : AsyncAPISpec) (name : string) :
  lookup_path ["components"; "schemas"; name] (asyncapi_document spec)
  = obj_get name (aa_schemas spec)
  /\ lookup_path ["components"; "messages"; name] (asyncapi_document spec)
     = obj_get name (aa_messages spec)
  /\ lookup_path ["components"; "messageTraits"; name] (asyncapi_document spec)
     = match aa_messageTraits spec with
       | Some (JObj traits) => obj_get name traits
       | _ => None
       end.
Proof.
  destruct spec as [info servers channels messages schemas traits].
  unfold asyncapi_document.
  cbn [lookup_path aa_info aa_servers aa_channels aa_messages aa_schemas
       aa_messageTraits].
  change (obj_get "components" _) with
    (Some (JObj ([("messages", JObj messages); ("schemas", JObj schemas)]
                 ++ opt_member "messageTraits" traits))).
  cbn [mbind option_bind lookup_path app obj_get].
  rewrite (decide_True (P := "messages" = "messages")) by reflexivity.
  rewrite (decide_False (P := "schemas" = "messages")) by discriminate.
  rewrite (decide_True (P := "schemas" = "schemas")) by reflexivity.
  rewrite (decide_False (P := "messageTraits" = "messages")) by discriminate.
  rewrite (decide_False (P := "messageTraits" = "schemas")) by discriminate.
  cbn [mbind option_bind].
  split; [|split].
  - destruct (obj_get name schemas); reflexivity.
  - destruct (obj_get name messages); reflexivity.
  - destruct traits as [[]|]; cbn; try reflexivity.
    rewrite (decide_True (P := "messageTraits" = "messageTraits"))
      by reflexivity.
    cbn. destruct (obj_get name kvs); reflexivity.
Qed.

Lemma message_refs (entityName event : string) (examples : option JsVal) :
  refs_of (member "payload" (message entityName event examples))
  ++ refs_of (member "traits" (message entityName event examples))
  = ["#/components/schemas/" +:+ (entityName +:+ "Event");
     "#/components/messageTraits/commonHeaders"].
Proof. reflexivity. Qed.

Lemma health_check_refs :
  refs_of (member "payload" HealthCheckMessage)
  ++ refs_of (member "traits" HealthCheckMessage) = [].
Proof. reflexivity. Qed.

(** The references a message of an entity carries. *)
Lemma entity_message_refs (project : Project) (entity : Entity)
  (name : string) (message : JsVal) (reference : string) :
  (name, message) ∈ entity_messages project entity ->
  reference ∈ refs_of (member "payload" message)
               ++ refs_of (member "traits" message) ->
  reference ∈ ["#/components/schemas/" +:+ (e_name entity +:+ "Event");
               "#/components/messageTraits/commonHeaders"].
Proof.
  unfold entity_messages. intros Hmem Hin.
  rewrite !elem_of_cons, elem_of_nil in Hmem.
  destruct Hmem as [[= -> ->] | [[= -> ->] | [[= -> ->] | []]]];
    rewrite message_refs in Hin; exact Hin.
Qed.

(** X8. An AsyncAPI document has no dangling reference between its parts:
    every channel refers to a message the document defines, every message
    refers to a payload schema and to header traits the document defines,
    and every event schema refers to schemas the document defines. *)
Theorem asyncapi_references_resolve (config : ProjectConfig)
  (dataModel : DataModel) (spec : AsyncAPISpec) :
  generateAsyncAPISpec config dataModel = Ok spec ->
  (forall reference,
     reference ∈ refs_of (JObj (aa_channels spec)) ->
     resolves (asyncapi_document spec) reference)
  /\ (forall name message reference,
        obj_get name (aa_messages spec) = Some message ->
        reference ∈ refs_of (member "payload" message)
                     ++ refs_of (member "traits" message) ->
        resolves (asyncapi_document spec) reference)
  /\ (forall entity reference,
        entity ∈ m_entities dataModel ->
        reference ∈ refs_of (generateEventSchema entity) ->
        resolves (asyncapi_document spec) reference).
Proof.
  intros Hspec.
  unfold generateAsyncAPISpec in Hspec.
  destruct (c_project config) as [project|]; [|discriminate].
  cbn in Hspec.
  set (doc := asyncapi_document spec).
  assert (Hchannels :
            aa_channels spec
            = obj_set "system.health" system_health
                (set_all (concat (map entity_channels (m_entities dataModel)))
                   [])).
  { injection Hspec as <-. cbn. unfold generateChannels.
    rewrite entity_step_set_all. reflexivity. }
  assert (Hmessages :
            aa_messages spec
            = obj_set "HealthCheckMessage" HealthCheckMessage
                (set_all (concat (map (entity_messages project)
                                    (m_entities dataModel))) [])).
  { injection Hspec as <-. cbn. unfold generateChannels.
    rewrite entity_step_set_all. reflexivity. }
  assert (Hschemas : aa_schemas spec = asyncapi_generateSchemas dataModel []).
  { injection Hspec as <-. reflexivity. }
  assert (Htraits : aa_messageTraits spec = Some messageTraits).
  { injection Hspec as <-. reflexivity. }
  clear Hspec.
  assert (Hschema :
            forall name,
              name ∈ obj_keys (aa_schemas spec) ->
              resolves doc ("#/components/schemas/" +:+ name)).
  { intros name Hname. exists "schemas", name. split; [reflexivity|].
    unfold doc. rewrite (proj1 (asyncapi_lookup spec name)).
    apply obj_get_is_Some, Hname. }
  assert (Hmessage :
            forall name,
              name ∈ obj_keys (aa_messages spec) ->
              resolves doc ("#/components/messages/" +:+ name)).
  { intros name Hname. exists "messages", name. split; [reflexivity|].
    unfold doc. rewrite (proj1 (proj2 (asyncapi_lookup spec name))).
    apply obj_get_is_Some, Hname. }
  assert (Hheaders :
            resolves doc "#/components/messageTraits/commonHeaders").
  { exists "messageTraits", "commonHeaders". split; [reflexivity|].
    unfold doc. rewrite (proj2 (proj2 (asyncapi_lookup spec _))), Htraits.
    eexists. reflexivity. }
  assert (Hevent :
            forall entity,
              entity ∈ m_entities dataModel ->
              resolves doc
                ("#/components/schemas/" +:+ (e_name entity +:+ "Event"))
              /\ resolves doc ("#/components/schemas/" +:+ e_name entity)).
  { intros entity Hin. split; apply Hschema; rewrite Hschemas;
      apply asyncapi_schema_keys; right; exists entity;
      (split; [exact Hin|]); rewrite !elem_of_cons; auto. }
  split; [|split].
  - intros reference Hin. rewrite Hchannels in Hin.
    apply refs_of_set in Hin as [Hin | Hin].
    + cbn in Hin. rewrite !elem_of_cons, elem_of_nil in Hin.
      destruct Hin as [-> | []].
      apply (Hmessage "HealthCheckMessage"). rewrite Hmessages. apply key_set.
    + apply refs_of_set_all in Hin as [Hin | Hin]; [|inversion Hin].
      apply refs_of_concat in Hin as (entity & Hentity & Hin).
      assert (Hkeys :
                forall event,
                  event ∈ lifecycle_events ->
                  resolves doc
                    ("#/components/messages/" +:+ message_name entity event)).
      { intros event Hevent'. apply Hmessage. rewrite Hmessages.
        apply key_kept, elem_of_keys_set_all. right.
        apply list_elem_of_In, in_map_iff.
        unfold lifecycle_events in Hevent'.
        rewrite !elem_of_cons, elem_of_nil in Hevent'.
        assert (Hin' :
                  exists message,
                    (message_name entity event, message)
                      ∈ entity_messages project entity).
        { unfold entity_messages.
          destruct Hevent' as [-> | [-> | [-> | []]]]; eexists;
            rewrite !elem_of_cons; eauto. }
        destruct Hin' as [message Hin'].
        exists (message_name entity event, message). split; [reflexivity|].
        apply in_concat. exists (entity_messages project entity).
        split; [apply in_map, list_elem_of_In, Hentity|].
        apply list_elem_of_In, Hin'. }
      cbn in Hin. rewrite !elem_of_cons, elem_of_nil in Hin.
      destruct Hin as [-> | [-> | [-> | []]]].
      * apply (Hkeys "Created"). unfold lifecycle_events.
        rewrite !elem_of_cons. auto.
      * apply (Hkeys "Updated"). unfold lifecycle_events.
        rewrite !elem_of_cons. auto.
      * apply (Hkeys "Deleted"). unfold lifecycle_events.
        rewrite !elem_of_cons. auto.
  - intros name message reference Hget Hin. rewrite Hmessages in Hget.
    apply obj_get_set_inv in Hget as [[_ ->] | Hget].
    + rewrite health_check_refs in Hin. inversion Hin.
    + apply obj_get_set_all in Hget as [Hget | Hget]; [|discriminate].
      apply elem_of_concat_items in Hget as (entity & Hentity & Hget).
      apply (entity_message_refs _ _ _ _ _ Hget) in Hin.
      rewrite !elem_of_cons, elem_of_nil in Hin.
      destruct Hin as [-> | [-> | []]];
        [apply (Hevent entity Hentity) | exact Hheaders].
  - intros entity reference Hentity Hin. cbn in Hin.
    rewrite !elem_of_cons, elem_of_nil in Hin.
    destruct (Hevent entity Hentity) as [Hev Hen].
    destruct Hin as [-> | [-> | [-> | []]]].
    + apply (Hschema "EventMetadata"). rewrite Hschemas.
      apply asyncapi_schema_keys. left. reflexivity.
    + exact Hen.
    + exact Hen.
Qed.

Lemma asyncapi_references_resolve_witness :
  exists spec,
    generateAsyncAPISpec sample_config sample_model = Ok spec
    /\ (forall reference,
          reference ∈ refs_of (JObj (aa_channels spec)) ->
          resolves (asyncapi_document spec) reference)
    /\ (forall name message reference,
          obj_get name (aa_messages spec) = Some message ->
          reference ∈ refs_of (member "payload" message)
                       ++ refs_of (member "traits" message) ->
          resolves (asyncapi_document spec) reference)
    /\ (forall entity reference,
          entity ∈ m_entities sample_model ->
          reference ∈ refs_of (generateEventSchema entity) ->
          resolves (asyncapi_document spec) reference).
Proof.
  eexists. split; [reflexivity|].
  exact (asyncapi_references_resolve sample_config sample_model _ eq_refl).
Defined.

(** ** Schemas: required names and examples *)

Lemma loop_required (mapper : DataType -> JsVal) (skip : EntityField -> bool)
  (fields : list EntityField) (st : list (string * JsVal) * list string) :
  (forall name, name ∈ st.2 -> name ∈ obj_keys st.1) ->
  forall name,
    name ∈ (schema_fields_loop mapper skip fields st).2 ->
    name ∈ obj_keys (schema_fields_loop mapper skip fields st).1.
Proof.
  revert st. induction fields as [|field rest IH]; intros st Hst; [exact Hst|].
  cbn [schema_fields_loop]. destruct (skip field); [apply IH, Hst|].
  apply IH. cbn [fst snd]. intros name Hname.
  apply elem_of_obj_keys_set.
  destruct (truthy_bool (dt_required (f_dataType field))).
  - apply elem_of_app in Hname as [Hname | Hname]; [right; apply Hst, Hname|].
    rewrite !elem_of_cons, elem_of_nil in Hname. destruct Hname as [-> | []].
    left. reflexivity.
  - right. apply Hst, Hname.
Qed.

Lemma required_of_schema_object (description : JsVal)
  (properties : list (string * JsVal)) (required : list string) :
  required_of (schema_object description properties required)
  = map JStr required.
Proof. reflexivity. Qed.

Lemma schema_object_names (description : JsVal)
  (properties : list (string * JsVal)) (required : list string) :
  (forall name, name ∈ required -> name ∈ obj_keys properties) ->
  names_its_properties (schema_object description properties required).
Proof.
  intros Hsub required' Hin.
  rewrite required_of_schema_object in Hin.
  apply list_elem_of_In, in_map_iff in Hin as (name & <- & Hin).
  exists name. split; [reflexivity|].
  rewrite properties_of_schema_object. apply Hsub, list_elem_of_In, Hin.
Qed.

(** X9. In every schema object the generators build for an entity (the
    OpenAPI entity, create and update schemas and the AsyncAPI entity
    schema) each entry of [required] is the name of one of the schema's
    [properties]; the update schema requires nothing. *)
Theorem required_names_are_properties (entity : Entity) :
  names_its_properties (entityToSchema entity)
  /\ names_its_properties (entityToCreateDto entity)
  /\ names_its_properties (entityToUpdateDto entity)
  /\ names_its_properties (entityToAsyncAPISchema entity)
  /\ required_of (entityToUpdateDto entity) = [].
Proof.
  assert (Hloop :
            forall mapper skip name,
              name ∈ (schema_fields_loop mapper skip (e_fields entity) ([], [])).2 ->
              name ∈ obj_keys
                       (schema_fields_loop mapper skip (e_fields entity)
                          ([], [])).1).
  { intros mapper skip. apply loop_required. intros name Hname.
    inversion Hname. }
  assert (Hupdate : required_of (entityToUpdateDto entity) = []).
  { unfold entityToUpdateDto, required_of. rewrite obj_get_set_eq.
    reflexivity. }
  split; [|split; [|split; [|split]]].
  - apply schema_object_names. intros name Hname.
    apply keys_with_timestamps, Hloop, Hname.
  - apply schema_object_names, Hloop.
  - intros required Hin. rewrite Hupdate in Hin. inversion Hin.
  - apply schema_object_names. intros name Hname.
    apply keys_with_timestamps, Hloop, Hname.
  - exact Hupdate.
Qed.

Lemma follows_set (k : string) (value property : JsVal)
  (example properties : list (string * JsVal)) :
  conforms value property -> follows example properties ->
  follows (obj_set k value example) (obj_set k property properties).
Proof.
  intros Hconforms Hfollows. induction Hfollows as [|[k1 v1] [k2 v2] e p [Hk Hv] Hrest IH].
  - constructor; [split; [reflexivity | exact Hconforms] | constructor].
  - cbn in Hk. subst k2. cbn [obj_set].
    destruct (decide (k = k1)) as [-> | Hne].
    + constructor; [split; [reflexivity | exact Hconforms] | exact Hrest].
    + constructor; [split; [reflexivity | exact Hv] | exact IH].
Qed.

Lemma type_of_property (dataType : DataType) :
  member "type" (dataTypeToAsyncAPIProperty dataType)
  = match dt_type dataType with
    | TString | TDate => JStr "string"
    | TNumber => JStr (number_type (dt_format dataType))
    | TBoolean => JStr "boolean"
    | TArray => JStr "array"
    | TObject => JStr "object"
    | TEnum => match dt_enum dataType with
               | Some _ => JStr "string"
               | None => JUndefined
               end
    end.
Proof.
  destruct dataType as [type format items properties enum required nullable
                          default description validation].
  cbn [dataTypeToAsyncAPIProperty dt_type dt_format dt_enum member].
  assert (Hdefault :
            forall property : list (string * JsVal),
              obj_get "type" (match default with
                              | Some d => obj_set "default" d property
                              | None => property
                              end)
              = obj_get "type" property).
  { intros property. destruct default; [|reflexivity].
    apply obj_get_set_ne. discriminate. }
  rewrite Hdefault. unfold set_string, set_if, enum_arm, Array_isArray.
  destruct type.
  - destruct (truthy_string format);
      rewrite ?(obj_get_set_ne "format") by discriminate;
      rewrite obj_get_set_eq; reflexivity.
  - destruct (truthy_string format);
      rewrite ?(obj_get_set_ne "format") by discriminate;
      rewrite obj_get_set_eq; reflexivity.
  - rewrite obj_get_set_eq. reflexivity.
  - rewrite (obj_get_set_ne "format") by discriminate.
    rewrite obj_get_set_eq. reflexivity.
  - destruct items;
      rewrite ?(obj_get_set_ne "items") by discriminate;
      rewrite obj_get_set_eq; reflexivity.
  - destruct properties;
      rewrite ?(obj_get_set_ne "properties") by discriminate;
      rewrite obj_get_set_eq; reflexivity.
  - destruct enum; [|reflexivity].
    rewrite (obj_get_set_ne "enum") by discriminate.
    rewrite obj_get_set_eq. reflexivity.
Qed.

(** The example value of a field is of the type its schema declares. *)
Lemma example_conforms (field : EntityField) :
  conforms (generateExampleValue field)
    (dataTypeToAsyncAPIProperty (f_dataType field)).
Proof.
  unfold conforms. rewrite type_of_property. unfold generateExampleValue.
  destruct (dt_type (f_dataType field)).
  - repeat destruct (opt_string_is _ _); cbn; auto.
  - unfold number_type.
    destruct (opt_string_is (dt_format (f_dataType field)) "int32") eqn:H32.
    { apply opt_string_is_true in H32. rewrite H32. cbn. auto. }
    destruct (opt_string_is (dt_format (f_dataType field)) "int64") eqn:H64.
    { apply opt_string_is_true in H64. rewrite H64. cbn. auto. }
    cbn [orb]. destruct (dt_format (f_dataType field)) as [format|];
      [destruct (includes "int" format)|]; cbn; auto.
  - cbn. auto.
  - cbn. auto.
  - cbn. auto.
  - cbn. auto.
  - destruct (dt_enum (f_dataType field)) as [[|first rest]|]; cbn; auto.
Qed.

Lemma timestamp_conforms (text description : string) :
  conforms (JStr text) (timestamp_property description).
Proof. left. reflexivity. Qed.

Lemma example_data_payload (metadata : JsVal) (data : list (string * JsVal)) :
  example_data (JObj [("metadata", metadata); ("data", JObj data)]) = data.
Proof. reflexivity. Qed.

(** X10. The example payload of an event illustrates the entity schema it
    is published with: [data] has exactly the properties of the AsyncAPI
    entity schema, in the same order, and each value is of the JSON type
    its property declares. *)
Theorem example_follows_schema (project : Project) (entity : Entity)
  (eventType : string) :
  follows (example_data (generateExamplePayload project entity eventType))
    (properties_of (entityToAsyncAPISchema entity)).
Proof.
  unfold generateExamplePayload, entityToAsyncAPISchema.
  rewrite example_data_payload, properties_of_schema_object.
  assert (Hfields :
            forall fields data st,
              follows data st.1 ->
              follows
                (fold_left
                   (fun acc field =>
                      if truthy_opt (f_relationship field) then acc
                      else obj_set (f_name field) (generateExampleValue field)
                             acc)
                   fields data)
                (schema_fields_loop dataTypeToAsyncAPIProperty
                   skip_relationship fields st).1).
  { induction fields as [|field rest IH]; intros data st Hfollows;
      [exact Hfollows|].
    cbn [fold_left schema_fields_loop]. unfold skip_relationship at 1.
    destruct (truthy_opt (f_relationship field)); [apply IH, Hfollows|].
    apply IH. cbn [fst]. apply follows_set; [apply example_conforms|].
    exact Hfollows. }
  unfold add_timestamps. destruct (truthy_bool (e_timestamps entity)).
  - do 2 (apply follows_set; [apply timestamp_conforms|]).
    apply Hfields. constructor.
  - apply Hfields. constructor.
Qed.

(** ** Text that contains text *)

Lemma prefix_app (sub s t : string) :
  String.prefix sub s = true -> String.prefix sub (s +:+ t) = true.
Proof.
  revert s. induction sub as [|c sub IH]; intros s.
  { intros _. destruct (s +:+ t); reflexivity. }
  destruct s as [|d s]; [discriminate|].
  change (String d s +:+ t) with (String d (s +:+ t)). cbn [String.prefix].
  destruct (Ascii.ascii_dec c d); [apply IH | discriminate].
Qed.

Lemma prefix_refl (s : string) : String.prefix s s = true.
Proof.
  induction s as [|c s IH]; [reflexivity|]. cbn.
  destruct (Ascii.ascii_dec c c); [exact IH | contradiction].
Qed.

Lemma includes_prefix (sub s : string) :
  String.prefix sub s = true -> includes sub s = true.
Proof. intros Hp. destruct s; cbn [includes]; rewrite Hp; reflexivity. Qed.

Lemma includes_app_r (sub a s : string) :
  includes sub s = true -> includes sub (a +:+ s) = true.
Proof.
  intros Hin. induction a as [|c a IH]; [exact Hin|].
  change (String c a +:+ s) with (String c (a +:+ s)).
  cbn [includes]. rewrite IH. apply orb_true_r.
Qed.

Lemma includes_app_l (sub s b : string) :
  includes sub s = true -> includes sub (s +:+ b) = true.
Proof.
  induction s as [|c s IH]; cbn [includes].
  - rewrite orb_false_r. intros Hp. apply includes_prefix.
    apply (prefix_app sub "" b Hp).
  - intros Hin. apply orb_true_iff in Hin as [Hp | Hin].
    + apply includes_prefix. apply (prefix_app sub (String c s) b Hp).
    + change (String c s +:+ b) with (String c (s +:+ b)).
      cbn [includes]. rewrite (IH Hin). apply orb_true_r.
Qed.

Lemma includes_refl (s : string) : includes s s = true.
Proof. apply includes_prefix, prefix_refl. Qed.

(** A line of a text is contained in the text. *)
Lemma includes_join (sep x : string) (xs : list string) :
  x ∈ xs -> includes x (join sep xs) = true.
Proof.
  induction xs as [|y rest IH]; intros Hin; [inversion Hin|].
  destruct rest as [|z rest].
  - apply elem_of_cons in Hin as [-> | Hin]; [|inversion Hin].
    apply includes_refl.
  - change (join sep (y :: z :: rest))
      with (y +:+ sep +:+ join sep (z :: rest)).
    apply elem_of_cons in Hin as [-> | Hin].
    + apply includes_app_l, includes_refl.
    + do 2 apply includes_app_r. apply IH, Hin.
Qed.

(** ** Routes of the generated controllers *)

Lemma length_drop_last (s : string) :
  String.length (drop_last s) = pred (String.length s).
Proof.
  induction s as [|c [|d s] IH]; [reflexivity..|].
  change (drop_last (String c (String d s)))
    with (String c (drop_last (String d s))).
  cbn [String.length]. rewrite IH. reflexivity.
Qed.

Lemma endsWith_length (suffix s : string) :
  endsWith suffix s = true -> String.length suffix <= String.length s.
Proof.
  induction s as [|c s IH]; cbn [endsWith].
  - rewrite orb_false_r. intros Heq. apply String.eqb_eq in Heq. subst.
    reflexivity.
  - intros Hin. apply orb_true_iff in Hin as [Heq | Hin].
    + apply String.eqb_eq in Heq. subst. reflexivity.
    + cbn [String.length]. specialize (IH Hin). lia.
Qed.

(** Appending [s] is the plural exactly for the names that end in none of
    [y], [s], [sh] and [ch]. *)
Lemma pluralize_plain (str : string) :
  pluralize str = str +:+ "s"
  <-> endsWith "y" str = false
      /\ endsWith "s" str = false
      /\ endsWith "sh" str = false
      /\ endsWith "ch" str = false.
Proof.
  unfold pluralize.
  destruct (endsWith "y" str) eqn:Hy.
  - split; [|intros [? _]; discriminate].
    intros Heq. apply (f_equal String.length) in Heq.
    rewrite !length_append, length_drop_last in Heq.
    apply endsWith_length in Hy. cbn in Hy, Heq. lia.
  - destruct (endsWith "s" str) eqn:Hs; cbn [orb].
    { split; [|intros (_ & ? & _); discriminate].
      intros Heq. apply (f_equal String.length) in Heq.
      rewrite !length_append in Heq. cbn in Heq. lia. }
    destruct (endsWith "sh" str) eqn:Hsh; cbn [orb].
    { split; [|intros (_ & _ & ? & _); discriminate].
      intros Heq. apply (f_equal String.length) in Heq.
      rewrite !length_append in Heq. cbn in Heq. lia. }
    destruct (endsWith "ch" str) eqn:Hch.
    { split; [|intros (_ & _ & _ & ?); discriminate].
      intros Heq. apply (f_equal String.length) in Heq.
      rewrite !length_append in Heq. cbn in Heq. lia. }
    split; [auto | reflexivity].
Qed.

Lemma path_keys (dataModel : DataModel) (entity : Entity) :
  entity ∈ m_entities dataModel ->
  ("/" +:+ toLowerCase (e_name entity) +:+ "s")
    ∈ obj_keys (generatePaths dataModel []).
Proof.
  intros Hin. unfold generatePaths.
  apply (keys_added
           (fun acc entity =>
              obj_set (("/" +:+ toLowerCase (e_name entity) +:+ "s") +:+ "/{id}")
                (JObj [("get", generateGetOperation entity);
                       ("put", generateUpdateOperation entity);
                       ("delete", generateDeleteOperation entity)])
                (obj_set ("/" +:+ toLowerCase (e_name entity) +:+ "s")
                   (JObj [("get", generateListOperation entity);
                          ("post", generateCreateOperation entity)])
                   acc))
           (fun entity => "/" +:+ toLowerCase (e_name entity) +:+ "s"));
    [| |exact Hin].
  - intros acc x k Hk. do 2 apply key_kept. exact Hk.
  - intros acc x. apply key_kept, key_set.
Qed.

(** X11. The controller generated for an entity is mounted on the plural of
    the lower-cased entity name, while the OpenAPI document lists the
    entity under the lower-cased name followed by [s]. The two agree
    exactly for the names that end in none of [y], [s], [sh] and [ch]: for
    every other entity the documented path is not the controller's
    route. *)
Theorem controller_route_and_documented_path (config : ProjectConfig)
  (dataModel : DataModel) (entity : Entity) (text : string) :
  entity ∈ m_entities dataModel ->
  generateController config entity = Ok text ->
  includes ("@Controller('" +:+ pluralize (toLowerCase (e_name entity)) +:+ "')")
    text = true
  /\ ("/" +:+ toLowerCase (e_name entity) +:+ "s")
       ∈ obj_keys (generatePaths dataModel [])
  /\ (pluralize (toLowerCase (e_name entity))
      = toLowerCase (e_name entity) +:+ "s"
      <-> endsWith "y" (toLowerCase (e_name entity)) = false
          /\ endsWith "s" (toLowerCase (e_name entity)) = false
          /\ endsWith "sh" (toLowerCase (e_name entity)) = false
          /\ endsWith "ch" (toLowerCase (e_name entity)) = false).
Proof.
  intros Hin Htext. split; [|split].
  - unfold generateController in Htext.
    destruct (c_features config) as [features|]; [|discriminate].
    cbn [mbind Exc_bind bind read_member mret Exc_ret] in Htext.
    injection Htext as <-. unfold lines.
    apply includes_join, (list_elem_of_lookup_2 _ 26). reflexivity.
  - apply path_keys, Hin.
  - apply pluralize_plain.
Qed.

Lemma controller_route_and_documented_path_witness :
  exists text,
    category ∈ m_entities category_model
    /\ generateController sample_config category = Ok text
    /\ includes
         ("@Controller('" +:+ pluralize (toLowerCase (e_name category)) +:+ "')")
         text = true
    /\ ("/" +:+ toLowerCase (e_name category) +:+ "s")
         ∈ obj_keys (generatePaths category_model [])
    /\ (pluralize (toLowerCase (e_name category))
        = toLowerCase (e_name category) +:+ "s"
        <-> endsWith "y" (toLowerCase (e_name category)) = false
            /\ endsWith "s" (toLowerCase (e_name category)) = false
            /\ endsWith "sh" (toLowerCase (e_name category)) = false
            /\ endsWith "ch" (toLowerCase (e_name category)) = false).
Proof.
  assert (Hin : category ∈ m_entities category_model) by left.
  eexists. split; [exact Hin|]. split; [reflexivity|].
  exact (controller_route_and_documented_path sample_config category_model
           category _ Hin eq_refl).
Defined.

(** ** The configuration check *)

Lemma append_nil_nil (x y : string) : x +:+ y = "" -> x = "" /\ y = "".
Proof. destruct x; [cbn; auto | discriminate]. Qed.

Lemma append_nil_l (y : string) : "" +:+ y = y.
Proof. reflexivity. Qed.

Lemma append_cons (c : ascii) (x y : string) :
  String c x +:+ y = String c (x +:+ y).
Proof. reflexivity. Qed.

Lemma nullable_language (r : Regex) : nullable r = true <-> language r "".
Proof.
  split.
  - induction r as [| |accepts|r IHr s IHs|r IHr s IHs|r IHr]; cbn;
      intros Hnull; try discriminate.
    + constructor.
    + apply andb_true_iff in Hnull as [Hr Hs].
      apply (language_seq r s "" ""); auto.
    + apply orb_true_iff in Hnull as [Hr | Hs];
        [apply language_alt_l | apply language_alt_r]; auto.
    + constructor.
  - intros Hm. remember "" as e eqn:He.
    induction Hm as [|accepts c Hc|r s x y Hx IHx Hy IHy|r s x Hx IHx
                    |r s x Hx IHx| |r x y Hx IHx Hy IHy];
      cbn; try reflexivity; try discriminate.
    + apply append_nil_nil in He as [-> ->].
      rewrite IHx, IHy; reflexivity.
    + rewrite IHx by exact He. reflexivity.
    + rewrite IHx by exact He. apply orb_true_r.
Qed.

Lemma language_star_cons (r : Regex) (c : ascii) (s : string) :
  language (RStar r) (String c s) ->
  exists x y, s = x +:+ y /\ language r (String c x) /\ language (RStar r) y.
Proof.
  intros Hm. remember (RStar r) as star eqn:Hstar.
  remember (String c s) as text eqn:Htext.
  induction Hm as [|accepts d Hd|r1 r2 x y Hx IHx Hy IHy|r1 r2 x Hx IHx
                  |r1 r2 x Hx IHx|r1|r1 x y Hx IHx Hy IHy];
    try discriminate.
  injection Hstar as ->.
  destruct x as [|d x].
  - rewrite append_nil_l in Htext. apply IHy; [reflexivity | exact Htext].
  - rewrite append_cons in Htext. injection Htext as -> <-.
    exists x, y. auto.
Qed.

Lemma derivative_language (r : Regex) (c : ascii) (s : string) :
  language (derivative c r) s <-> language r (String c s).
Proof.
  revert s.
  induction r as [| |accepts|r IHr r' IHr'|r IHr r' IHr'|r IHr]; intros s; cbn.
  - split; intros Hm; inversion Hm.
  - split; intros Hm; inversion Hm.
  - destruct (accepts c) eqn:Hc; split; intros Hm; inversion Hm; subst.
    + constructor. exact Hc.
    + constructor.
    + congruence.
  - assert (Hfront :
              forall x y, language (derivative c r) x -> language r' y ->
                          language (RSeq r r') (String c (x +:+ y))).
    { intros x y Hx Hy.
      apply (language_seq r r' (String c x) y); [apply IHr, Hx | exact Hy]. }
    assert (Hsplit :
              language (RSeq r r') (String c s) ->
              (exists x y, s = x +:+ y /\ language (derivative c r) x
                           /\ language r' y)
              \/ (language r "" /\ language (derivative c r') s)).
    { intros Hm. inversion Hm as [| |r1 r2 x y Hx Hy [Hr1 Hr2] Htext| | | |];
        subst.
      destruct x as [|d x].
      - rewrite append_nil_l in Htext. subst y. right. split; [exact Hx | apply IHr', Hy].
      - rewrite append_cons in Htext. injection Htext as -> <-.
        left. exists x, y. split; [reflexivity|].
        split; [apply IHr, Hx | exact Hy]. }
    destruct (nullable r) eqn:Hnull.
    + split.
      * intros Hm. inversion Hm as [| | |r1 r2 x Hx|r1 r2 x Hx| |]; subst.
        -- inversion Hx as [| |r1 r2 x y Hx' Hy' | | | |]; subst.
           apply Hfront; assumption.
        -- apply (language_seq r r' "" (String c s));
             [apply nullable_language, Hnull | apply IHr', Hx].
      * intros Hm. destruct (Hsplit Hm) as [(x & y & -> & Hx & Hy) | [_ Hs]].
        -- apply language_alt_l, language_seq; assumption.
        -- apply language_alt_r, Hs.
    + split.
      * intros Hm. inversion Hm as [| |r1 r2 x y Hx' Hy' | | | |]; subst.
        apply Hfront; assumption.
      * intros Hm. destruct (Hsplit Hm) as [(x & y & -> & Hx & Hy) | [He _]].
        -- apply language_seq; assumption.
        -- apply nullable_language in He. congruence.
  - split; intros Hm; inversion Hm; subst.
    + apply language_alt_l, IHr. assumption.
    + apply language_alt_r, IHr'. assumption.
    + apply language_alt_l, IHr. assumption.
    + apply language_alt_r, IHr'. assumption.
  - split.
    + intros Hm. inversion Hm as [| |r1 r2 x y Hx Hy | | | |]; subst.
      apply (language_star_more r (String c x) y); [apply IHr, Hx | exact Hy].
    + intros Hm. apply language_star_cons in Hm as (x & y & -> & Hx & Hy).
      apply language_seq; [apply IHr, Hx | exact Hy].
Qed.

Lemma regex_test_language (r : Regex) (s : string) :
  regex_test r s = true <-> language r s.
Proof.
  revert r. induction s as [|c s IH]; intros r; cbn.
  - apply nullable_language.
  - rewrite IH. apply derivative_language.
Qed.

Lemma language_char_inv (accepts : ascii -> bool) (s : string) :
  language (RChar accepts) s <-> exists c, s = String c "" /\ accepts c = true.
Proof.
  split.
  - intros Hm. inversion Hm; subst. eauto.
  - intros (c & -> & Hc). constructor. exact Hc.
Qed.

Lemma language_seq_inv (r s : Regex) (text : string) :
  language (RSeq r s) text
  <-> exists x y, text = x +:+ y /\ language r x /\ language s y.
Proof.
  split.
  - intros Hm. inversion Hm; subst. eauto.
  - intros (x & y & -> & Hx & Hy). constructor; assumption.
Qed.

Lemma language_digits (s : string) :
  language (RStar (RChar is_digit)) s <-> all_digits s = true.
Proof.
  split.
  - intros Hm. remember (RStar (RChar is_digit)) as star eqn:Hstar.
    induction Hm as [|accepts d Hd|r1 r2 x y Hx IHx Hy IHy|r1 r2 x Hx IHx
                    |r1 r2 x Hx IHx|r1|r1 x y Hx IHx Hy IHy];
      try discriminate; [reflexivity|].
    injection Hstar as ->.
    apply language_char_inv in Hx as (c & -> & Hc).
    rewrite append_cons, append_nil_l. cbn [all_digits].
    rewrite Hc, IHy; reflexivity.
  - induction s as [|c s IH]; cbn; intros Hall; [constructor|].
    apply andb_true_iff in Hall as [Hc Hs].
    apply (language_star_more (RChar is_digit) (String c "") s);
      [constructor; exact Hc | apply IH, Hs].
Qed.

Lemma language_number (s : string) :
  language (one_or_more (RChar is_digit)) s <-> number s.
Proof.
  unfold one_or_more, number. rewrite language_seq_inv. split.
  - intros (x & y & -> & Hx & Hy).
    apply language_char_inv in Hx as (c & -> & Hc).
    apply language_digits in Hy. rewrite append_cons, append_nil_l.
    cbn [all_digits]. rewrite Hc, Hy. split; [discriminate | reflexivity].
  - intros [Hne Hall]. destruct s as [|c s]; [congruence|].
    cbn in Hall. apply andb_true_iff in Hall as [Hc Hs].
    exists (String c ""), s. split; [reflexivity|].
    split; [constructor; exact Hc | apply language_digits, Hs].
Qed.

Lemma language_dot (s : string) : language dot s <-> s = ".".
Proof.
  unfold dot. rewrite language_char_inv. split.
  - intros (c & -> & Hc). apply Ascii.eqb_eq in Hc as <-. reflexivity.
  - intros ->. exists "."%char. split; reflexivity.
Qed.

(** The versions the check accepts. *)
Lemma semver_accepts (version : string) :
  regex_test semver version = true
  <-> exists major minor patch,
        version = major +:+ "." +:+ minor +:+ "." +:+ patch
        /\ number major /\ number minor /\ number patch.
Proof.
  rewrite regex_test_language. unfold semver. split.
  - intros Hm.
    apply language_seq_inv in Hm as (major & rest & -> & Hmajor & Hm).
    apply language_seq_inv in Hm as (d1 & rest' & -> & Hd1 & Hm).
    apply language_seq_inv in Hm as (minor & rest & -> & Hminor & Hm).
    apply language_seq_inv in Hm as (d2 & patch & -> & Hd2 & Hpatch).
    apply language_dot in Hd1 as ->. apply language_dot in Hd2 as ->.
    exists major, minor, patch. split; [reflexivity|].
    split; [apply language_number, Hmajor|].
    split; [apply language_number, Hminor | apply language_number, Hpatch].
  - intros (major & minor & patch & -> & Hmajor & Hminor & Hpatch).
    apply language_seq; [apply language_number, Hmajor|].
    apply language_seq; [apply language_dot; reflexivity|].
    apply language_seq; [apply language_number, Hminor|].
    apply language_seq; [apply language_dot; reflexivity|].
    apply language_number, Hpatch.
Qed.

Lemma truthy_string_true (o : option string) :
  truthy_string o = true <-> exists s, o = Some s /\ s <> "".
Proof.
  destruct o as [s|]; cbn.
  - rewrite negb_true_iff, String.eqb_neq. split.
    + intros Hne. exists s. auto.
    + intros (t & [= <-] & Hne). exact Hne.
  - split; [discriminate | intros (s & Hs & _); discriminate].
Qed.

Lemma array_includes_elem_of (xs : list string) (x : string) :
  array_includes xs x = true <-> x ∈ xs.
Proof.
  unfold array_includes. rewrite existsb_exists, list_elem_of_In. split.
  - intros (y & Hin & Heq). apply String.eqb_eq in Heq as ->. exact Hin.
  - intros Hin. exists x. split; [exact Hin | apply String.eqb_refl].
Qed.

Lemma errors_push_error_nil (c : bool) (message : string) (result : Result) :
  errors (push_error c message result) = []
  <-> errors result = [] /\ c = false.
Proof.
  unfold push_error, push_if. destruct c; cbn.
  - split; [|intros [_ [=]]].
    intros Hnil. apply app_eq_nil in Hnil as [_ [=]].
  - tauto.
Qed.

Lemma project_checks_errors (config : ConfigDocument) (result : Result) :
  errors (project_checks config result) = []
  <-> errors result = []
      /\ exists project name major minor patch,
           cf_project config = Some project
           /\ cp_name project = Some name /\ name <> ""
           /\ cp_version project
              = Some (major +:+ "." +:+ minor +:+ "." +:+ patch)
           /\ number major /\ number minor /\ number patch.
Proof.
  unfold project_checks. destruct (cf_project config) as [project|].
  - destruct (truthy_string (cp_version project)) eqn:Hversion; cbn [negb].
    + apply truthy_string_true in Hversion as (version & Hsome & _).
      rewrite Hsome. cbn [interpolate default from_option id].
      rewrite !errors_push_error_nil, !negb_false_iff.
      rewrite (semver_accepts version), (truthy_string_true (cp_name project)).
      split.
      * intros [[Hnil (name & Hname & Hne)]
                  (major & minor & patch & -> & Hnumbers)].
        split; [exact Hnil|].
        exists project, name, major, minor, patch. auto.
      * intros [Hnil (p & name & major & minor & patch & [= <-] & Hname & Hne
                        & Hv & Hnumbers)].
        rewrite Hsome in Hv. injection Hv as ->.
        split; [split; [exact Hnil | eauto]|].
        exists major, minor, patch. auto.
    + rewrite errors_push_error_nil. split; [intros [_ [=]]|].
      intros [_ (p & name & major & minor & patch & [= <-] & _ & _ & Hv
                   & Hmajor & _)].
      rewrite Hv in Hversion. cbn in Hversion.
      apply negb_false_iff, String.eqb_eq in Hversion.
      destruct Hmajor as [Hne _]. destruct major; [congruence | discriminate].
  - rewrite errors_push_error_nil. split; [intros [_ [=]]|].
    intros [_ (p & name & major & minor & patch & [=] & _)].
Qed.

Lemma database_checks_errors (config : ConfigDocument) (result : Result) :
  errors (database_checks config result) = []
  <-> errors result = []
      /\ exists database type,
           cf_database config = Some database
           /\ cd_type database = Some type /\ type ∈ database_types.
Proof.
  unfold database_checks. destruct (cf_database config) as [database|].
  - destruct (truthy_string (cd_type database)) eqn:Htype; cbn [negb].
    + apply truthy_string_true in Htype as (type & Hsome & _).
      rewrite Hsome. cbn [interpolate default from_option id].
      rewrite errors_push_error_nil, negb_false_iff.
      rewrite (array_includes_elem_of database_types type). split.
      * intros [Hnil Hin]. split; [exact Hnil|]. eauto.
      * intros [Hnil (d & t & [= <-] & Ht & Hin)].
        rewrite Hsome in Ht. injection Ht as <-. auto.
    + rewrite errors_push_error_nil. split; [intros [_ [=]]|].
      intros [_ (d & type & [= <-] & Ht & Hin)].
      rewrite Ht in Htype. cbn in Htype.
      apply negb_false_iff, String.eqb_eq in Htype as ->.
      vm_compute in Hin. apply list_elem_of_In in Hin. cbn in Hin.
      intuition discriminate.
  - rewrite errors_push_error_nil. split; [intros [_ [=]]|].
    intros [_ (d & t & [=] & _)].
Qed.

Lemma github_checks_errors (config : ConfigDocument) (result : Result) :
  errors (github_checks config result) = []
  <-> errors result = []
      /\ forall github,
           cf_github config = Some github ->
           exists owner, cg_owner github = Some owner /\ owner <> "".
Proof.
  unfold github_checks. destruct (cf_github config) as [github|].
  - rewrite errors_push_error_nil, negb_false_iff, truthy_string_true. split.
    + intros [Hnil Howner]. split; [exact Hnil|]. intros g [= <-]. exact Howner.
    + intros [Hnil Howner]. split; [exact Hnil | apply Howner; reflexivity].
  - split; [intros Hnil; split; [exact Hnil | discriminate] | tauto].
Qed.

Lemma validateConfig_returns (configPath : string) (file : ConfigFile) :
  exists result,
    validateConfig configPath file fresh = Ok result
    /\ (valid result = true <-> errors result = [])
    /\ (valid result = true
        <-> exists config, file = ConfigRead config /\ config_ok config).
Proof.
  destruct file as [|error| |config].
  - eexists. split; [reflexivity|]. cbn.
    split; split; try discriminate. intros (config & [=] & _).
  - eexists. split; [reflexivity|]. cbn.
    split; split; try discriminate. intros (config & [=] & _).
  - eexists. split; [reflexivity|]. cbn.
    split; split; try discriminate. intros (config & [=] & _).
  - eexists. split; [reflexivity|]. cbn [valid errors].
    rewrite length_zero. split; [reflexivity|].
    rewrite github_checks_errors, errors_push_warning,
      database_checks_errors, project_checks_errors.
    unfold config_ok. split.
    + intros [[[_ Hproject] Hdatabase] Hgithub]. exists config. auto.
    + intros (c & [= <-] & Hproject & Hdatabase & Hgithub).
      repeat split; auto.
Qed.

(** X12. [validateConfig] never throws, and the result it leaves is valid
    exactly when it holds no error, which is exactly when the path holds a
    JSON document with a named project whose version is three dot-separated
    numbers, a database of one of the four supported types, and, if it has
    a [github] member, an owner. A missing or unreadable file is invalid;
    a missing [features] member only warns. *)
Theorem config_validity (configPath : string) (file : ConfigFile) :
  exists result,
    validateConfig configPath file fresh = Ok result
    /\ (valid result = true <-> errors result = [])
    /\ (valid result = true
        <-> exists config, file = ConfigRead config /\ config_ok config)
    /\ (forall config,
          file = ConfigRead config ->
          warnings result
          = match cf_features config with
            | Some _ => []
            | None => ["No features configuration found. Using defaults."]
            end).
Proof.
  destruct (validateConfig_returns configPath file)
    as (result & Hrun & Hvalid & Hok).
  exists result. split; [exact Hrun|]. split; [exact Hvalid|].
  split; [exact Hok|].
  intros config ->. cbn in Hrun. injection Hrun as <-. cbn [warnings].
  unfold github_checks.
  assert (Hwarn :
            forall c message result,
              warnings (push_error c message result) = warnings result)
    by reflexivity.
  assert (Hkeep :
            warnings
              (push_warning (negb (truthy_opt (cf_features config)))
                 "No features configuration found. Using defaults."
                 (database_checks config (project_checks config fresh)))
            = match cf_features config with
              | Some _ => []
              | None => ["No features configuration found. Using defaults."]
              end).
  { unfold database_checks, project_checks.
    destruct (cf_features config), (cf_database config) as [database|],
      (cf_project config) as [project|]; cbn;
      repeat match goal with
        | |- context [if ?b then _ else _] => destruct b; cbn
        end; reflexivity. }
  destruct (cf_github config); [rewrite Hwarn|]; exact Hkeep.
Qed.

(** ** The report and the exit code *)

Lemma validateDataModel_returns (modelPath : string) (file : Parser.ModelFile)
  (strict : bool) :
  exists result,
    validateDataModel modelPath file fresh strict = Ok result
    /\ (valid result = true <-> errors result = []).
Proof.
  assert (Hpushed :
            forall message,
              valid (push_error true message fresh) = true
              <-> errors (push_error true message fresh) = []).
  { intros message. cbn. split; discriminate. }
  assert (Hloaded :
            forall loaded : Exc DataModel,
            exists result,
              try_catch
                (dataModel ← loaded;
                 mret (additional_checks dataModel fresh strict))
                (fun error =>
                   mret (push_error true
                           ("Data model validation failed: "
                            +:+ error_text error) fresh))
              = Ok result
              /\ (valid result = true <-> errors result = [])).
  { intros [dataModel|error]; eexists; (split; [reflexivity|]).
    - cbn [valid errors additional_checks]. apply length_zero.
    - apply Hpushed. }
  destruct file as [|parsed|parsed|ext]; unfold validateDataModel.
  - eexists. split; [reflexivity | apply Hpushed].
  - apply Hloaded.
  - apply Hloaded.
  - apply Hloaded.
Qed.

Lemma error_printed (result : Result) (error : string) :
  (valid result = true <-> errors result = []) ->
  error ∈ errors result ->
  ConsoleLog [chalk ["red"] ("    • " +:+ error)] ∈ result_lines result.
Proof.
  intros Hvalid Hin. unfold result_lines. apply elem_of_app. left.
  destruct (valid result).
  - destruct Hvalid as [Hnil _]. rewrite Hnil in Hin by reflexivity.
    inversion Hin.
  - right.
    apply (list_elem_of_fmap_2
             (fun error => ConsoleLog [chalk ["red"] ("    • " +:+ error)])).
    exact Hin.
Qed.

Lemma warning_printed (result : Result) (warning : string) :
  warning ∈ warnings result ->
  ConsoleLog [chalk ["yellow"] ("    ⚠ " +:+ warning)] ∈ result_lines result.
Proof.
  intros Hin. unfold result_lines. apply elem_of_app. right.
  destruct (warnings result) as [|first more] eqn:Hwarnings;
    [inversion Hin|].
  cbn [length Nat.ltb Nat.leb].
  apply (list_elem_of_fmap_2
           (fun warning =>
              ConsoleLog [chalk ["yellow"] ("    ⚠ " +:+ warning)])).
  exact Hin.
Qed.

Lemma last_of_four {A : Type} (xs : list A) (a b c d : A) :
  last (xs ++ [a; b; c; d]) = Some d.
Proof.
  change [a; b; c; d] with ([a; b; c] ++ [d]).
  rewrite app_assoc. apply last_snoc.
Qed.

Lemma no_errors_at_all (config model : Result) :
  (valid config = true <-> errors config = []) ->
  (valid model = true <-> errors model = []) ->
  (negb (valid config) || negb (valid model) = false
   <-> errors config ++ errors model = [])
  /\ ((length (errors config) + length (errors model) =? 0)%nat = true
      <-> errors config ++ errors model = []).
Proof.
  intros Hconfig Hmodel. split.
  - rewrite orb_false_iff, !negb_false_iff, Hconfig, Hmodel. split.
    + intros [-> ->]. reflexivity.
    + intros Hnil. apply app_eq_nil in Hnil. exact Hnil.
  - rewrite <- length_app. apply length_zero.
Qed.

(** X13. [codeforge validate] never throws. It prints every error and every
    warning of the configuration and of the data model, ends its report
    with the line of success exactly when there is no error at all, and
    then returns; with any error the last line is the line of failure and
    the process exits with code 1. *)
Theorem validate_reports_and_exits (options : ValidateOptions)
  (configFile : ConfigFile) (modelFile : Parser.ModelFile) :
  exists config model events,
    validateConfig (vo_config options) configFile fresh = Ok config
    /\ validateDataModel (vo_model options) modelFile fresh
         (truthy_bool (vo_strict options)) = Ok model
    /\ execute options configFile modelFile
       = (events,
          match errors config ++ errors model with
          | [] => Returns
          | _ => Exits 1
          end)
    /\ (forall error,
          error ∈ errors config ++ errors model ->
          ConsoleLog [chalk ["red"] ("    • " +:+ error)] ∈ events)
    /\ (forall warning,
          warning ∈ warnings config ++ warnings model ->
          ConsoleLog [chalk ["yellow"] ("    ⚠ " +:+ warning)] ∈ events)
    /\ last events
       = Some (ConsoleLog
                 [chalk [] newline;
                  match errors config ++ errors model with
                  | [] => chalk ["green"; "bold"] "🎉 All validations passed!"
                  | _ =>
                      chalk ["red"; "bold"]
                        "❌ Validation failed. Please fix the errors above."
                  end]).
Proof.
  destruct (validateConfig_returns (vo_config options) configFile)
    as (config & Hconfig & Hvc & _).
  destruct (validateDataModel_returns (vo_model options) modelFile
              (truthy_bool (vo_strict options)))
    as (model & Hmodel & Hvm).
  destruct (no_errors_at_all config model Hvc Hvm) as [Hexit Htotal].
  exists config, model. eexists.
  split; [exact Hconfig|]. split; [exact Hmodel|].
  unfold execute. rewrite Hconfig, Hmodel.
  split; [|split; [|split]].
  - f_equal.
    destruct (errors config ++ errors model) eqn:Hall.
    + rewrite (proj2 Hexit) by reflexivity. reflexivity.
    + destruct (negb (valid config) || negb (valid model)); [reflexivity|].
      destruct Hexit as [Hnil _]. discriminate Hnil. reflexivity.
  - intros error Hin. apply elem_of_app. right. right.
    unfold displayResults. apply elem_of_app in Hin as [Hin | Hin].
    + apply elem_of_app. right. apply elem_of_app. left.
      apply error_printed; assumption.
    + do 3 (apply elem_of_app; right). apply elem_of_app. left.
      apply error_printed; assumption.
  - intros warning Hin. apply elem_of_app. right. right.
    unfold displayResults. apply elem_of_app in Hin as [Hin | Hin].
    + apply elem_of_app. right. apply elem_of_app. left.
      apply warning_printed; assumption.
    + do 3 (apply elem_of_app; right). apply elem_of_app. left.
      apply warning_printed; assumption.
  - unfold displayResults.
    rewrite app_comm_cons, !app_assoc, last_of_four. f_equal.
    destruct (errors config ++ errors model) eqn:Hall.
    + rewrite (proj2 Htotal) by reflexivity. reflexivity.
    + destruct (length (errors config) + length (errors model) =? 0)%nat;
        [|reflexivity].
      destruct Htotal as [Hnil _]. discriminate Hnil. reflexivity.
Qed.

(** ** Loading a model from YAML and from JSON *)

(** X14. A parsed document loads from a [.yaml] file exactly when it loads
    from a [.json] file, and gives the same model: the model of the
    document, unchanged, which then satisfies the business rules. When it
    does not load, the error of the YAML path is the error of the JSON path
    with [Invalid YAML: ] in front, although the YAML text was read. *)
Theorem yaml_failures_are_wrapped (filePath : string)
  (document : Parser.Document) :
  (forall dataModel,
     Parser.parseFromFile filePath (Parser.JsonFile (Ok document)) = Ok dataModel
     <-> Parser.parseFromFile filePath (Parser.YamlFile (Ok document))
         = Ok dataModel)
  /\ (forall dataModel,
        Parser.parseFromFile filePath (Parser.JsonFile (Ok document))
        = Ok dataModel
        <-> document = Parser.SchemaValid dataModel /\ well_formed dataModel)
  /\ (forall error,
        Parser.parseFromFile filePath (Parser.JsonFile (Ok document))
        = Throw error ->
        Parser.parseFromFile filePath (Parser.YamlFile (Ok document))
        = Throw (ErrorObj ("Invalid YAML: " +:+ error_text error))).
Proof.
  cbn [Parser.parseFromFile].
  unfold Parser.parseFromJson, Parser.parseFromYaml.
  cbn [try_catch mbind Exc_bind bind].
  destruct document as [errors|data]; cbn [Parser.validateAndParse].
  - split; [|split].
    + intros dataModel. cbn. split; discriminate.
    + intros dataModel. split; [discriminate | intros [[=] _]].
    + intros error [= <-]. reflexivity.
  - pose proof (no_business_rule_errors data) as Hwf.
    rewrite validateBusinessRules_throws.
    destruct (Parser.business_rule_errors data) as [|first more];
      cbn [mbind Exc_bind bind mret Exc_ret try_catch].
    + split; [|split].
      * tauto.
      * intros dataModel. split.
        -- intros [= <-]. split; [reflexivity | apply Hwf; reflexivity].
        -- intros [[= <-] _]. reflexivity.
      * discriminate.
    + split; [|split].
      * intros dataModel. split; discriminate.
      * intros dataModel. split; [discriminate|].
        intros [[= <-] Hgood]. apply Hwf in Hgood. discriminate.
      * intros error [= <-]. reflexivity.
Qed.

(** ** The paths of the OpenAPI document *)

Lemma last_of_append (x t : string) (c : ascii) :
  exists front, x +:+ String c t = front +:+ t /\
                String.length front = S (String.length x).
Proof.
  exists (x +:+ String c "").
  induction x as [|d x [IH IHlen]].
  - split; reflexivity.
  - change (String d x +:+ String c t) with (String d (x +:+ String c t)).
    change ((String d x +:+ String c "") +:+ t)
      with (String d ((x +:+ String c "") +:+ t)).
    rewrite IH. split; [reflexivity|].
    change (S (String.length (x +:+ String c "")) = S (S (String.length x))).
    rewrite IHlen. reflexivity.
Qed.

Lemma slash_prefix_inj (a b : string) : "/" +:+ a = "/" +:+ b -> a = b.
Proof. intros [= H]. exact H. Qed.

Lemma entity_path_inj (a b : string) :
  "/" +:+ a +:+ "s" = "/" +:+ b +:+ "s" -> a = b.
Proof.
  intros H. apply slash_prefix_inj in H.
  apply append_suffix_inj in H as [H _]; [exact H | reflexivity].
Qed.

Lemma id_path_inj (a b : string) :
  ("/" +:+ a +:+ "s") +:+ "/{id}" = ("/" +:+ b +:+ "s") +:+ "/{id}" -> a = b.
Proof.
  intros H. apply append_suffix_inj in H as [H _]; [|reflexivity].
  apply entity_path_inj, H.
Qed.

Lemma last_characters (s t : string) (c d : ascii) :
  s +:+ String c "" = t +:+ String d "" -> c = d.
Proof.
  intros Hst. apply append_suffix_inj in Hst as [_ [= ->]]; reflexivity.
Qed.

Lemma id_suffix_is_no_plural (x y : string) : x +:+ "/{id}" <> y +:+ "s".
Proof.
  intros Heq.
  destruct (last_of_append x "{id}" "/") as (g1 & Hg1 & _).
  destruct (last_of_append g1 "id}" "{") as (g2 & Hg2 & _).
  destruct (last_of_append g2 "d}" "i") as (g3 & Hg3 & _).
  destruct (last_of_append g3 "}" "d") as (g4 & Hg4 & _).
  change (x +:+ "/{id}") with (x +:+ String "/" "{id}") in Heq.
  rewrite Hg1 in Heq.
  change (g1 +:+ "{id}") with (g1 +:+ String "{" "id}") in Heq.
  rewrite Hg2 in Heq.
  change (g2 +:+ "id}") with (g2 +:+ String "i" "d}") in Heq.
  rewrite Hg3 in Heq.
  change (g3 +:+ "d}") with (g3 +:+ String "d" "}") in Heq.
  rewrite Hg4 in Heq.
  apply last_characters in Heq. discriminate.
Qed.

Lemma id_path_is_no_entity_path (a b : string) :
  ("/" +:+ a +:+ "s") +:+ "/{id}" <> "/" +:+ b +:+ "s".
Proof. exact (id_suffix_is_no_plural ("/" +:+ a +:+ "s") (String "/" b)). Qed.

Lemma obj_get_set_all_fresh {A : Type} (kvs o : list (string * A))
  (k : string) :
  k ∉ obj_keys kvs -> obj_get k (set_all kvs o) = obj_get k o.
Proof.
  unfold set_all. revert o.
  induction kvs as [|[k' v'] rest IH]; intros o Hfresh; [reflexivity|].
  cbn [fold_left fst snd]. unfold obj_keys in Hfresh. cbn [map fst] in Hfresh.
  apply not_elem_of_cons in Hfresh as [Hne Hrest].
  rewrite IH by exact Hrest. apply obj_get_set_ne. congruence.
Qed.

Lemma path_items_written (entity : Entity) (o : list (string * JsVal))
  (key : string) (item : JsVal) :
  (key, item) ∈ path_items entity ->
  obj_get key (set_all (path_items entity) o) = Some item.
Proof.
  unfold path_items, set_all. cbn [fold_left fst snd].
  rewrite !elem_of_cons, elem_of_nil. intros [[= -> ->] | [[= -> ->] | []]].
  - rewrite obj_get_set_ne by apply id_path_is_no_entity_path.
    apply obj_get_set_eq.
  - apply obj_get_set_eq.
Qed.

Lemma path_items_keys (entity : Entity) :
  obj_keys (path_items entity)
  = ["/" +:+ toLowerCase (e_name entity) +:+ "s";
     ("/" +:+ toLowerCase (e_name entity) +:+ "s") +:+ "/{id}"].
Proof. reflexivity. Qed.

Lemma path_items_apart (entity other : Entity) (key : string) (item : JsVal) :
  (key, item) ∈ path_items entity ->
  toLowerCase (e_name other) <> toLowerCase (e_name entity) ->
  key ∉ obj_keys (path_items other).
Proof.
  intros Hin Hne. rewrite path_items_keys.
  unfold path_items in Hin. rewrite !elem_of_cons, elem_of_nil in Hin.
  rewrite !elem_of_cons, elem_of_nil.
  destruct Hin as [[= -> ->] | [[= -> ->] | []]];
    intros [Heq | [Heq | []]].
  - apply entity_path_inj in Heq. congruence.
  - symmetry in Heq. exact (id_path_is_no_entity_path _ _ Heq).
  - exact (id_path_is_no_entity_path _ _ Heq).
  - apply id_path_inj in Heq. congruence.
Qed.

Lemma paths_keep_entity (entity : Entity) (key : string) (item : JsVal)
  (entities : list Entity) (o : list (string * JsVal)) :
  (key, item) ∈ path_items entity ->
  (forall other,
     other ∈ entities ->
     toLowerCase (e_name other) = toLowerCase (e_name entity) ->
     other = entity) ->
  entity ∈ entities \/ obj_get key o = Some item ->
  obj_get key
    (fold_left (fun acc entity => set_all (path_items entity) acc) entities o)
  = Some item.
Proof.
  intros Hitem. revert o.
  induction entities as [|first rest IH]; intros o Halone Hstart.
  - destruct Hstart as [Hin | Hget]; [inversion Hin | exact Hget].
  - cbn [fold_left]. apply IH.
    + intros other Hother. apply Halone. right. exact Hother.
    + destruct (decide (toLowerCase (e_name first)
                        = toLowerCase (e_name entity))) as [Hsame | Hne].
      * right. rewrite (Halone first) by (left || exact Hsame).
        apply path_items_written, Hitem.
      * rewrite obj_get_set_all_fresh
          by (eapply path_items_apart; [exact Hitem | exact Hne]).
        destruct Hstart as [Hin | Hget]; [|right; exact Hget].
        apply elem_of_cons in Hin as [-> | Hin]; [congruence | left; exact Hin].
Qed.

Lemma paths_from_entities (entities : list Entity) (o : list (string * JsVal))
  (key : string) (item : JsVal) :
  obj_get key
    (fold_left (fun acc entity => set_all (path_items entity) acc) entities o)
  = Some item ->
  (exists entity, entity ∈ entities /\ (key, item) ∈ path_items entity)
  \/ obj_get key o = Some item.
Proof.
  revert o. induction entities as [|first rest IH]; intros o Hget;
    [right; exact Hget|].
  cbn [fold_left] in Hget. apply IH in Hget as [(entity & Hin & Hitem) | Hget].
  - left. exists entity. split; [right; exact Hin | exact Hitem].
  - apply obj_get_set_all in Hget as [Hitem | Hget]; [|right; exact Hget].
    left. exists first. split; [left | exact Hitem].
Qed.

(** X15. Every path item of the OpenAPI document is one of the two items
    the generator builds for some entity of the model, and an entity that
    shares its lower-cased name with no other entity has both of its items
    in the document, under [/<name>s] and [/<name>s/{id}]. (Entities whose
    names differ in case only share these keys: the document keeps the
    items of one of them.) *)
Theorem paths_document_entities (dataModel : DataModel) :
  (forall key item,
     obj_get key (generatePaths dataModel []) = Some item ->
     exists entity,
       entity ∈ m_entities dataModel /\ (key, item) ∈ path_items entity)
  /\ (forall entity key item,
        entity ∈ m_entities dataModel ->
        alone_in_lower_case dataModel entity ->
        (key, item) ∈ path_items entity ->
        obj_get key (generatePaths dataModel []) = Some item)
  /\ (forall entity other,
        entity ∈ m_entities dataModel -> other ∈ m_entities dataModel ->
        toLowerCase (e_name other) = toLowerCase (e_name entity) ->
        obj_keys (path_items other) = obj_keys (path_items entity)).
Proof.
  rewrite generatePaths_items. split; [|split].
  - intros key item Hget.
    apply paths_from_entities in Hget as [Hfound | Hget];
      [exact Hfound | discriminate].
  - intros entity key item Hin Halone Hitem.
    apply (paths_keep_entity entity);
      [exact Hitem | exact Halone | left; exact Hin].
  - intros entity other _ _ Hsame. rewrite !path_items_keys, Hsame.
    reflexivity.
Qed.

(** ** Tags and security schemes *)

Lemma generateTags_names (entities : list Entity) (tags : list JsVal) :
  fold_left
    (fun acc entity =>
       acc ++ [JObj [("name", JStr (e_name entity));
                     ("description",
                       JStr (or_string (e_description entity)
                               (e_name entity +:+ " operations")))]])
    entities tags
  = tags
    ++ map (fun entity =>
              JObj [("name", JStr (e_name entity));
                    ("description",
                      JStr (or_string (e_description entity)
                              (e_name entity +:+ " operations")))])
         entities.
Proof.
  revert tags. induction entities as [|entity rest IH]; intros tags;
    cbn [fold_left map].
  - rewrite app_nil_r. reflexivity.
  - rewrite IH, <- app_assoc. reflexivity.
Qed.

Lemma entity_tag_declared (dataModel : DataModel) (entity : Entity) :
  entity ∈ m_entities dataModel ->
  e_name entity
    ∈ flat_map (fun tag => match member "name" tag with
                           | JStr name => [name]
                           | _ => []
                           end)
        (generateTags dataModel []).
Proof.
  intros Hin. unfold generateTags. rewrite generateTags_names, app_nil_l.
  apply list_elem_of_In, in_flat_map.
  eexists. split.
  - apply in_map, list_elem_of_In, Hin.
  - left. reflexivity.
Qed.

Lemma path_item_tags (entity : Entity) (key tag : string) (item : JsVal) :
  (key, item) ∈ path_items entity -> tag ∈ operation_tags item ->
  tag = e_name entity.
Proof.
  assert (Hlist :
            operation_tags
              (JObj [("get", generateListOperation entity);
                     ("post", generateCreateOperation entity)])
            = [e_name entity; e_name entity]) by reflexivity.
  assert (Hone :
            operation_tags
              (JObj [("get", generateGetOperation entity);
                     ("put", generateUpdateOperation entity);
                     ("delete", generateDeleteOperation entity)])
            = [e_name entity; e_name entity; e_name entity]) by reflexivity.
  unfold path_items. rewrite !elem_of_cons, elem_of_nil.
  intros [[= -> ->] | [[= -> ->] | []]] Htag;
    rewrite ?Hlist, ?Hone in Htag;
    rewrite !elem_of_cons, elem_of_nil in Htag; intuition congruence.
Qed.

(** X16. In every OpenAPI document the generator builds, each tag carried
    by an operation is declared in [tags], every entity has its tag, and
    each security scheme the document requires is declared in
    [components.securitySchemes]. *)
Theorem tags_and_schemes_declared (config : ProjectConfig)
  (dataModel : DataModel) (spec : OpenAPISpec) :
  generateOpenAPISpec config dataModel = Ok spec ->
  (forall key item tag,
     obj_get key (oa_paths spec) = Some item ->
     tag ∈ operation_tags item -> tag ∈ declared_tags spec)
  /\ (forall entity,
        entity ∈ m_entities dataModel -> e_name entity ∈ declared_tags spec)
  /\ (forall scheme,
        scheme ∈ required_schemes spec -> scheme ∈ declared_schemes spec).
Proof.
  intros Hspec. unfold generateOpenAPISpec in Hspec.
  destruct (c_project config) as [project|]; [|discriminate].
  destruct (c_features config) as [features|]; [|discriminate].
  cbn in Hspec. injection Hspec as <-.
  unfold declared_tags, required_schemes, declared_schemes.
  cbn [oa_paths oa_tags oa_security oa_securitySchemes].
  split; [|split].
  - intros key item tag Hget Htag.
    rewrite generatePaths_items in Hget.
    apply paths_from_entities in Hget as [(entity & Hin & Hitem) | Hget];
      [|discriminate].
    rewrite (path_item_tags entity key tag item Hitem Htag).
    apply entity_tag_declared, Hin.
  - intros entity Hin. apply entity_tag_declared, Hin.
  - intros scheme.
    destruct (truthy_bool (ft_authentication features)); cbn; auto.
Qed.

Lemma tags_and_schemes_declared_witness :
  exists spec,
    generateOpenAPISpec sample_config sample_model = Ok spec
    /\ (forall key item tag,
          obj_get key (oa_paths spec) = Some item ->
          tag ∈ operation_tags item -> tag ∈ declared_tags spec)
    /\ (forall entity,
          entity ∈ m_entities sample_model ->
          e_name entity ∈ declared_tags spec)
    /\ (forall scheme,
          scheme ∈ required_schemes spec -> scheme ∈ declared_schemes spec).
Proof.
  eexists. split; [reflexivity|].
  exact (tags_and_schemes_declared sample_config sample_model _ eq_refl).
Defined.

(** ** The paths of the generated backend *)

Lemma includes_slash_cons (c : ascii) (rest : string) :
  includes "/" (String c rest) = Ascii.eqb c "/" || includes "/" rest.
Proof.
  cbn [includes String.prefix].
  destruct (ascii_dec "/" c) as [<- | Hne]; [destruct rest; reflexivity|].
  assert (Ascii.eqb c "/" = false) as -> by (apply Ascii.eqb_neq; congruence).
  reflexivity.
Qed.

Lemma lower_ascii_slash (c : ascii) :
  Ascii.eqb (lower_ascii c) "/" = Ascii.eqb c "/".
Proof.
  destruct c as [[] [] [] [] [] [] [] []]; vm_compute; reflexivity.
Qed.

Lemma includes_slash_lower (s : string) :
  includes "/" (toLowerCase s) = includes "/" s.
Proof.
  induction s as [|c s IH]; [reflexivity|].
  cbn [toLowerCase]. rewrite !includes_slash_cons, lower_ascii_slash, IH.
  reflexivity.
Qed.

Lemma includes_slash_app (s t : string) :
  includes "/" (s +:+ t) = includes "/" s || includes "/" t.
Proof.
  induction s as [|c s IH]; [reflexivity|].
  change (String c s +:+ t) with (String c (s +:+ t)).
  rewrite !includes_slash_cons, IH. apply orb_assoc.
Qed.

Lemma before_slash_app (l t rest : string) :
  includes "/" l = false -> t = String "/" rest ->
  before_slash (l +:+ t) = l.
Proof.
  intros Hfree ->. induction l as [|c l IH]; [reflexivity|].
  rewrite includes_slash_cons in Hfree.
  apply orb_false_iff in Hfree as [Hc Hl].
  change (String c l +:+ String "/" rest) with (String c (l +:+ String "/" rest)).
  cbn [before_slash]. rewrite Hc, IH by exact Hl. reflexivity.
Qed.

Lemma letter_or_digit_is_no_slash (c : ascii) :
  is_lower c || is_upper c || is_digit c = true -> Ascii.eqb c "/" = false.
Proof.
  destruct c as [[] [] [] [] [] [] [] []]; vm_compute; congruence.
Qed.

Lemma letters_and_digits_no_slash (s : string) :
  forallb (fun c => is_lower c || is_upper c || is_digit c)
    (list_ascii_of_string s) = true ->
  includes "/" s = false.
Proof.
  induction s as [|c s IH]; [reflexivity|].
  cbn [list_ascii_of_string forallb].
  intros Hall. apply andb_true_iff in Hall as [Hc Hs].
  rewrite includes_slash_cons, (letter_or_digit_is_no_slash c Hc), IH
    by exact Hs.
  reflexivity.
Qed.

Lemma schema_name_has_no_slash (name : string) :
  PascalCase name = true -> includes "/" name = false.
Proof.
  unfold PascalCase, Validate.matches. destruct name as [|c tail];
    [discriminate|].
  intros Hm. apply andb_true_iff in Hm as [Hc Htail].
  rewrite includes_slash_cons, (letters_and_digits_no_slash tail Htail),
    orb_false_r.
  apply letter_or_digit_is_no_slash. rewrite Hc. apply orb_true_iff.
  left. apply orb_true_r.
Qed.

Lemma append_prefix_inj (a x y : string) : a +:+ x = a +:+ y -> x = y.
Proof.
  induction a as [|c a IH]; [auto|]. intros [= H]. apply IH, H.
Qed.

Lemma directory_of_src (rest : string) :
  directory_of ("src/" +:+ rest) = before_slash rest.
Proof. reflexivity. Qed.

Lemma directory_of_entity_path (l path : string) :
  includes "/" l = false -> path ∈ entity_paths l -> directory_of path = l.
Proof.
  intros Hfree Hin. unfold entity_paths in Hin.
  rewrite !elem_of_cons, elem_of_nil in Hin.
  destruct Hin as [-> | [-> | [-> | [-> | [-> | [-> | []]]]]]];
    (rewrite directory_of_src;
     eapply before_slash_app; [exact Hfree | reflexivity]).
Qed.

Lemma dto_has_slash (t : string) : includes "/" ("dto/" +:+ t) = true.
Proof.
  change ("dto/" +:+ t) with (String "d" (String "t" (String "o" (String "/" t)))).
  rewrite !includes_slash_cons. reflexivity.
Qed.

Lemma entity_paths_NoDup (l : string) :
  includes "/" l = false -> NoDup (entity_paths l).
Proof.
  intros Hfree.
  assert (Hplain :
            forall s t : string,
              s <> t -> "src/" +:+ l +:+ "/" +:+ l +:+ s
                        <> "src/" +:+ l +:+ "/" +:+ l +:+ t).
  { intros s t Hne [= Heq]. apply (append_prefix_inj l) in Heq.
    apply (slash_prefix_inj (l +:+ s) (l +:+ t)) in Heq.
    apply (append_prefix_inj l) in Heq. auto. }
  assert (Hdto :
            forall s t : string,
              includes "/" s = false ->
              "src/" +:+ l +:+ "/" +:+ l +:+ s
              <> "src/" +:+ l +:+ "/dto/" +:+ t).
  { intros s t Hs [= Heq]. apply (append_prefix_inj l) in Heq.
    apply (slash_prefix_inj (l +:+ s) ("dto/" +:+ t)) in Heq.
    apply (f_equal (includes "/")) in Heq.
    rewrite dto_has_slash, includes_slash_app, Hfree, Hs in Heq.
    discriminate Heq. }
  assert (Hkind :
            "src/" +:+ l +:+ "/dto/create-" +:+ l +:+ ".dto.ts"
            <> "src/" +:+ l +:+ "/dto/update-" +:+ l +:+ ".dto.ts").
  { intros [= Heq]. apply (append_prefix_inj l) in Heq. discriminate Heq. }
  unfold entity_paths.
  repeat (apply NoDup_cons; split;
          [rewrite ?elem_of_cons, elem_of_nil; intros Hin|]);
    [| | | | | |apply NoDup_nil; exact I].
  - destruct Hin as [H | [H | [H | [H | [H | []]]]]].
    + exact (Hdto ".entity.ts" _ eq_refl H).
    + exact (Hdto ".entity.ts" _ eq_refl H).
    + revert H; apply Hplain; discriminate.
    + revert H; apply Hplain; discriminate.
    + revert H; apply Hplain; discriminate.
  - destruct Hin as [H | [H | [H | [H | []]]]].
    + exact (Hkind H).
    + symmetry in H. exact (Hdto ".service.ts" _ eq_refl H).
    + symmetry in H. exact (Hdto ".controller.ts" _ eq_refl H).
    + symmetry in H. exact (Hdto ".module.ts" _ eq_refl H).
  - destruct Hin as [H | [H | [H | []]]].
    + symmetry in H. exact (Hdto ".service.ts" _ eq_refl H).
    + symmetry in H. exact (Hdto ".controller.ts" _ eq_refl H).
    + symmetry in H. exact (Hdto ".module.ts" _ eq_refl H).
  - destruct Hin as [H | [H | []]].
    + revert H; apply Hplain; discriminate.
    + revert H; apply Hplain; discriminate.
  - destruct Hin as [H | []].
    revert H; apply Hplain; discriminate.
  - destruct Hin.
Qed.

Lemma NoDup_concat_map (f : string -> list string) (ls : list string) :
  (forall l, l ∈ ls -> NoDup (f l)) ->
  (forall l1 l2 p, l1 ∈ ls -> l2 ∈ ls -> p ∈ f l1 -> p ∈ f l2 -> l1 = l2) ->
  NoDup ls -> NoDup (concat (map f ls)).
Proof.
  intros Heach Hapart Hnd.
  induction Hnd as [|l ls Hl Hnd IH]; [apply NoDup_nil; exact I|].
  cbn [map concat]. apply NoDup_app. split; [|split].
  - apply Heach. left.
  - intros p Hp Hrest. apply list_elem_of_In, in_concat in Hrest
      as (ps & Hps & Hin).
    apply in_map_iff in Hps as (l' & <- & Hl').
    apply list_elem_of_In in Hl', Hin.
    assert (l = l') as <-
        by (apply (Hapart l l' p); [left | right | |]; assumption).
    contradiction.
  - apply IH.
    + intros l' Hl'. apply Heach. right. exact Hl'.
    + intros l1 l2 p H1 H2. apply Hapart; right; assumption.
Qed.

Lemma NoDup_of_concat_map (f : string -> list string) (ls : list string) :
  (forall l, f l <> []) -> NoDup (concat (map f ls)) -> NoDup ls.
Proof.
  intros Hsome. induction ls as [|l ls IH]; intros Hnd;
    [apply NoDup_nil; exact I|].
  cbn [map concat] in Hnd. apply NoDup_app in Hnd as (_ & Hapart & Hrest).
  apply NoDup_cons. split; [|apply IH, Hrest].
  intros Hl. destruct (f l) as [|p ps] eqn:Hf; [exact (Hsome l Hf)|].
  apply (Hapart p); [left|].
  apply list_elem_of_In, in_concat. exists (f l). split.
  - apply in_map, list_elem_of_In, Hl.
  - rewrite Hf. left. reflexivity.
Qed.

Lemma elem_of_entity_files (dirs : list string) (path : string) :
  path ∈ concat (map entity_paths dirs)
  <-> exists l, l ∈ dirs /\ path ∈ entity_paths l.
Proof.
  rewrite list_elem_of_In, in_concat. split.
  - intros (ps & Hps & Hin). apply in_map_iff in Hps as (l & <- & Hl).
    exists l. rewrite !list_elem_of_In. auto.
  - intros (l & Hl & Hin). exists (entity_paths l).
    rewrite in_map_iff, <- list_elem_of_In. split; [|exact Hin].
    exists l. rewrite <- list_elem_of_In. auto.
Qed.

(** A path that lies in no directory but its own is no entity file. *)
Lemma fixed_path_is_no_entity_file (dirs : list string) (path : string) :
  (forall l, l ∈ dirs -> includes "/" l = false) ->
  path ∈ concat (map entity_paths dirs) ->
  directory_of path ∈ dirs
  /\ bool_decide (path ∈ entity_paths (directory_of path)) = true.
Proof.
  intros Hfree Hin. apply elem_of_entity_files in Hin as (l & Hl & Hin).
  rewrite (directory_of_entity_path l path (Hfree l Hl) Hin).
  split; [exact Hl | apply bool_decide_eq_true_2, Hin].
Qed.

Lemma trailing_paths_NoDup (features : Features) :
  NoDup (trailing_paths features).
Proof.
  unfold trailing_paths.
  destruct (truthy_bool (ft_authentication features)),
    (truthy_bool (ft_testing features));
    apply (bool_decide_unpack _); vm_compute; exact I.
Qed.

Lemma leading_apart_from_trailing (features : Features) (path : string) :
  path ∈ leading_paths -> path ∉ trailing_paths features.
Proof.
  unfold trailing_paths, leading_paths. intros Hin.
  destruct (truthy_bool (ft_authentication features)),
    (truthy_bool (ft_testing features));
    repeat (apply elem_of_cons in Hin as [-> | Hin];
            [apply (bool_decide_unpack _); vm_compute; exact I|]);
    inversion Hin.
Qed.

Lemma paths_distinct (dirs : list string) (features : Features) :
  (forall l, l ∈ dirs -> includes "/" l = false) ->
  NoDup (leading_paths ++ concat (map entity_paths dirs)
         ++ trailing_paths features)
  <-> NoDup dirs
      /\ (truthy_bool (ft_authentication features) = true -> "auth" ∉ dirs).
Proof.
  intros Hfree. split.
  - intros Hnd. apply NoDup_app in Hnd as (_ & _ & Hnd).
    apply NoDup_app in Hnd as (Hfiles & Hapart & _). split.
    + apply (NoDup_of_concat_map entity_paths); [discriminate | exact Hfiles].
    + intros Hauth Hin.
      apply (Hapart "src/auth/auth.module.ts").
      * apply elem_of_entity_files. exists "auth". split; [exact Hin|].
        apply (bool_decide_unpack _). vm_compute. exact I.
      * unfold trailing_paths. rewrite Hauth.
        apply (bool_decide_unpack _).
        destruct (truthy_bool (ft_testing features)); vm_compute; exact I.
  - intros [Hnd Hauth]. apply NoDup_app. split; [|split].
    + apply (bool_decide_unpack _). vm_compute. exact I.
    + intros path Hlead Hin. apply elem_of_app in Hin as [Hin | Hin].
      * apply (fixed_path_is_no_entity_file dirs path Hfree) in Hin as [_ Hin].
        unfold leading_paths in Hlead.
        repeat (apply elem_of_cons in Hlead as [-> | Hlead];
                [vm_compute in Hin; discriminate Hin|]).
        inversion Hlead.
      * exact (leading_apart_from_trailing features path Hlead Hin).
    + apply NoDup_app. split; [|split].
      * apply NoDup_concat_map; [| |exact Hnd].
        -- intros l Hl. apply entity_paths_NoDup, Hfree, Hl.
        -- intros l1 l2 p H1 H2 Hp1 Hp2.
           rewrite <- (directory_of_entity_path l1 p (Hfree l1 H1) Hp1).
           apply directory_of_entity_path; [apply Hfree, H2 | exact Hp2].
      * intros path Hin Htrail.
        apply (fixed_path_is_no_entity_file dirs path Hfree) in Hin
          as [Hdir Hin].
        unfold trailing_paths in Htrail.
        destruct (truthy_bool (ft_authentication features)) eqn:Hflag,
          (truthy_bool (ft_testing features));
          repeat (apply elem_of_cons in Htrail as [-> | Htrail];
                  [first [ vm_compute in Hin; discriminate Hin
                         | exact (Hauth eq_refl Hdir) ]|]);
          inversion Htrail.
      * apply trailing_paths_NoDup.
Qed.

Section BackendPaths.

Variable stringify : JsVal -> string.
Variable templates : Templates.

Lemma entity_files_paths (config : ProjectConfig) (entity : Entity)
  (files : list GeneratedFile) :
  generateEntityFiles stringify config entity = Ok files ->
  map gf_path files = entity_paths (toLowerCase (e_name entity)).
Proof.
  unfold generateEntityFiles.
  destruct (generateController config entity) as [controller|error];
    [|discriminate].
  intros [= <-]. reflexivity.
Qed.

Lemma entity_loop_paths (config : ProjectConfig) (dataModel : DataModel)
  (entities : list Entity) (files result : list GeneratedFile) :
  entity_files_loop
    (fun config _ entity => generateEntityFiles stringify config entity)
    config dataModel entities files = Ok result ->
  map gf_path result
  = map gf_path files
    ++ concat (map entity_paths
                 (map (fun entity => toLowerCase (e_name entity)) entities)).
Proof.
  revert files. induction entities as [|entity rest IH]; intros files;
    cbn [entity_files_loop map concat].
  - intros [= <-]. rewrite app_nil_r. reflexivity.
  - destruct (generateEntityFiles stringify config entity) as [more|error]
      eqn:Hmore; [|discriminate].
    cbn [mbind Exc_bind bind]. intros Hloop.
    rewrite (IH _ Hloop), map_app, (entity_files_paths _ _ _ Hmore),
      <- app_assoc.
    reflexivity.
Qed.

Lemma backend_body_paths (config : ProjectConfig) (dataModel : DataModel)
  (files : list GeneratedFile) :
  nestjs_generate_body (generatePackageJson templates)
    (generateAppFiles templates)
    (fun config _ entity => generateEntityFiles stringify config entity)
    (fun config => generateDatabaseFiles templates config dataModel)
    (fun _ => mret (generateAuthFiles templates))
    (fun _ => mret (generateConfigFiles templates))
    (fun _ => mret (generateTestFiles templates))
    config dataModel = Ok files ->
  exists features,
    c_features config = Some features
    /\ map gf_path files
       = leading_paths
         ++ concat (map entity_paths (entity_directories dataModel))
         ++ trailing_paths features.
Proof.
  unfold nestjs_generate_body, generatePackageJson, generateAppFiles,
    generateDatabaseFiles, push_files_if.
  destruct (package_text templates config) as [package|]; [|discriminate].
  destruct (generateMainFile templates config dataModel) as [main|];
    [|discriminate].
  destruct (generateAppModule templates config dataModel) as [module|];
    [|discriminate].
  destruct (generateAppService templates config dataModel) as [service|];
    [|discriminate].
  cbn [mbind Exc_bind bind mret Exc_ret app].
  match goal with
  | |- context [entity_files_loop ?f ?c ?d ?es ?fs] =>
      destruct (entity_files_loop f c d es fs) as [loaded|] eqn:Hloop
  end; [|discriminate].
  apply entity_loop_paths in Hloop.
  destruct (generateDatabaseConfig templates config dataModel) as [database|];
    [|discriminate].
  destruct (generateEnvExample templates config dataModel) as [env|];
    [|discriminate].
  destruct (c_features config) as [features|]; [|discriminate].
  cbn [mbind Exc_bind bind mret Exc_ret read_member].
  intros Hfiles. exists features. split; [reflexivity|].
  unfold trailing_paths, entity_directories.
  destruct (truthy_bool (ft_authentication features)),
    (truthy_bool (ft_testing features));
    cbn [mbind Exc_bind bind mret Exc_ret] in Hfiles;
    injection Hfiles as <-;
    rewrite !map_app, Hloop, <- !app_assoc; reflexivity.
Qed.

(** X17. When the backend generator succeeds on a model whose entity names
    are names the schema admits, the paths of its files are: the package file and the four
    application files; six files per entity, in the directory named by the
    lower-cased entity name; then the database, authentication (if
    enabled), configuration and test (if enabled) files. No two files have
    the same path exactly when the lower-cased entity names are pairwise
    distinct and, with authentication enabled, none of them is [auth]:
    otherwise a later file of the result has the path of an earlier one. *)
Theorem backend_paths_distinct (config : ProjectConfig)
  (dataModel : DataModel) (result : GenerationResult) :
  backend_generate stringify templates config dataModel = Ok result ->
  gr_success result = true ->
  names_match_schema dataModel ->
  exists features,
    c_features config = Some features
    /\ map gf_path (gr_files result)
       = leading_paths
         ++ concat (map entity_paths (entity_directories dataModel))
         ++ trailing_paths features
    /\ (NoDup (map gf_path (gr_files result))
        <-> NoDup (entity_directories dataModel)
            /\ (truthy_bool (ft_authentication features) = true ->
                "auth" ∉ entity_directories dataModel)).
Proof.
  unfold backend_generate, nestjs_generate. rewrite try_generate.
  intros [= <-] Hsuccess Hfree.
  match goal with
  | _ : gr_success (reported ?body) = true |- _ =>
      destruct body as [files|error] eqn:Hbody; [|discriminate Hsuccess]
  end.
  destruct (backend_body_paths _ _ _ Hbody) as (features & Hfeatures & Hpaths).
  exists features. split; [exact Hfeatures|]. split; [exact Hpaths|].
  cbn [reported success gr_files]. rewrite Hpaths.
  apply paths_distinct. intros l Hl. unfold entity_directories in Hl.
  apply list_elem_of_fmap in Hl as (entity & -> & Hentity).
  rewrite includes_slash_lower.
  apply schema_name_has_no_slash, Hfree, Hentity.
Qed.

End BackendPaths.

Lemma backend_paths_distinct_witness :
  exists result features,
    backend_generate (fun _ => "null") blank_templates auth_config auth_model
    = Ok result
    /\ gr_success result = true
    /\ names_match_schema auth_model
    /\ c_features auth_config = Some features
    /\ map gf_path (gr_files result)
       = leading_paths
         ++ concat (map entity_paths (entity_directories auth_model))
         ++ trailing_paths features
    /\ (NoDup (map gf_path (gr_files result))
        <-> NoDup (entity_directories auth_model)
            /\ (truthy_bool (ft_authentication features) = true ->
                "auth" ∉ entity_directories auth_model)).
Proof.
  assert (Hfree : names_match_schema auth_model).
  { intros entity Hin. apply elem_of_cons in Hin as [-> | Hin];
      [reflexivity | inversion Hin]. }
  destruct (backend_paths_distinct (fun _ => "null") blank_templates
              auth_config auth_model _ eq_refl eq_refl Hfree)
    as (features & Hfeatures & Hpaths & Hdistinct).
  eexists. exists features.
  split; [reflexivity|]. split; [reflexivity|]. split; [exact Hfree|].
  split; [exact Hfeatures|]. split; [exact Hpaths | exact Hdistinct].
Defined.

(** ** The dry run of the generate command *)

Lemma listed_path_line (path : string) :
  listed_path (log_plain ("    - backend/" +:+ path)) = Some path.
Proof. reflexivity. Qed.

Lemma includes_slash_after (l rest : string) :
  includes "/" (l +:+ "/" +:+ rest) = true.
Proof.
  rewrite includes_slash_app. change ("/" +:+ rest) with (String "/" rest).
  rewrite includes_slash_cons. apply orb_true_r.
Qed.

Lemma endsWith_app (suffix front s : string) :
  String.length suffix <= String.length s ->
  endsWith suffix (front +:+ s) = endsWith suffix s.
Proof.
  intros Hlen. induction front as [|c front IH]; [reflexivity|].
  change (String c front +:+ s) with (String c (front +:+ s)).
  cbn [endsWith]. rewrite IH.
  destruct (String.eqb suffix (String c (front +:+ s))) eqn:Heq;
    [|reflexivity].
  apply String.eqb_eq in Heq. apply (f_equal String.length) in Heq.
  cbn [String.length] in Heq. rewrite length_append in Heq. lia.
Qed.

Lemma listed_entity_paths (entity : Entity) (event : Event) (path : string) :
  event ∈ dry_run_entity entity -> listed_path event = Some path ->
  path ∈ ["src/" +:+ toLowerCase (e_name entity) +:+ "/"
          +:+ toLowerCase (e_name entity) +:+ ".entity.ts";
          "src/" +:+ toLowerCase (e_name entity) +:+ "/"
          +:+ toLowerCase (e_name entity) +:+ ".service.ts";
          "src/" +:+ toLowerCase (e_name entity) +:+ "/"
          +:+ toLowerCase (e_name entity) +:+ ".controller.ts";
          "src/" +:+ toLowerCase (e_name entity) +:+ "/"
          +:+ toLowerCase (e_name entity) +:+ ".module.ts"].
Proof.
  unfold dry_run_entity. rewrite !elem_of_cons, !elem_of_nil.
  intros [-> | [-> | [-> | [-> | []]]]] [= <-]; auto 6.
Qed.

Lemma listed_in_backend_block (type : string) (dataModel : DataModel)
  (event : Event) (path : string) :
  event ∈ (dry_run_backend type dataModel).1 ->
  listed_path event = Some path ->
  (type = "backend" \/ type = "all") /\ path ∈ dry_run_paths dataModel.
Proof.
  unfold dry_run_backend, dry_run_paths.
  destruct (String.eqb type "backend") eqn:Hbackend;
    [apply String.eqb_eq in Hbackend|];
    (destruct (String.eqb type "all") eqn:Hall;
     [apply String.eqb_eq in Hall|]);
    cbn [orb fst]; try (intros Hin; inversion Hin; fail);
    (intros Hin Hpath; split; [auto|]);
    (apply elem_of_app in Hin as [Hin | Hin];
     [ rewrite !elem_of_cons, elem_of_nil in Hin;
       destruct Hin as [-> | [-> | [-> | [-> | []]]]];
       [discriminate Hpath | | |];
       injection Hpath as <-; apply elem_of_app; left;
       rewrite !elem_of_cons; auto
     | apply elem_of_app; right;
       apply list_elem_of_In, in_flat_map in Hin as (entity & Hentity & Hin);
       apply list_elem_of_In in Hin;
       apply list_elem_of_In, in_flat_map;
       exists (toLowerCase (e_name entity)); split;
       [ unfold entity_directories;
         apply (in_map (fun entity => toLowerCase (e_name entity))), Hentity
       | apply list_elem_of_In, (listed_entity_paths entity event);
         assumption ] ]).
Qed.

Lemma not_listed_elsewhere (type : string) (config : ProjectConfig)
  (event : Event) (path : string) :
  event ∈ (dry_run_specs type config).1
  \/ event ∈ (dry_run_docker type config).1 ->
  listed_path event = Some path -> False.
Proof.
  unfold dry_run_specs, dry_run_docker.
  destruct (String.eqb type "specs" || String.eqb type "all"),
    (String.eqb type "docker" || String.eqb type "all"),
    (c_features config) as [features|];
    cbn [read_member fst];
    try destruct (truthy_bool (ft_asyncapi features));
    try destruct (truthy_bool (ft_docker features));
    cbn [app];
    intros [Hin | Hin] Hpath;
    rewrite ?elem_of_cons, ?elem_of_nil in Hin;
    repeat (destruct Hin as [-> | Hin]; [discriminate Hpath|]);
    try (subst event; discriminate Hpath); try contradiction.
Qed.

Lemma and_then_events (first second : Printed) :
  first.2 = Ok tt -> (and_then first second).1 = first.1 ++ second.1.
Proof. unfold and_then. intros ->. reflexivity. Qed.

Lemma showDryRun_events (type : string) (config : ProjectConfig)
  (dataModel : DataModel) (outputDir : string) (features : Features)
  (event : Event) (path : string) :
  c_features config = Some features ->
  event ∈ (showDryRun type config dataModel outputDir).1 ->
  listed_path event = Some path ->
  event ∈ (dry_run_backend type dataModel).1.
Proof.
  intros Hfeatures Hin Hpath.
  assert (Hspecs : (dry_run_specs type config).2 = Ok tt).
  { unfold dry_run_specs. rewrite Hfeatures.
    destruct (String.eqb type "specs" || String.eqb type "all"); reflexivity. }
  assert (Hbackend : (dry_run_backend type dataModel).2 = Ok tt).
  { unfold dry_run_backend.
    destruct (String.eqb type "backend" || String.eqb type "all");
      reflexivity. }
  unfold showDryRun in Hin.
  rewrite !and_then_events in Hin by (reflexivity || assumption).
  cbn [fst] in Hin.
  apply elem_of_app in Hin as [Hin | Hin].
  { rewrite !elem_of_cons, elem_of_nil in Hin.
    destruct Hin as [-> | [-> | [-> | [-> | [-> | []]]]]];
      discriminate Hpath. }
  apply elem_of_app in Hin as [Hin | Hin].
  { exfalso. apply (not_listed_elsewhere type config event path); auto. }
  apply elem_of_app in Hin as [Hin | Hin]; [exact Hin|].
  exfalso. apply (not_listed_elsewhere type config event path); auto.
Qed.

Lemma backend_block_printed (type : string) (config : ProjectConfig)
  (dataModel : DataModel) (outputDir : string) (features : Features)
  (event : Event) :
  c_features config = Some features ->
  event ∈ (dry_run_backend type dataModel).1 ->
  event ∈ (showDryRun type config dataModel outputDir).1.
Proof.
  intros Hfeatures Hin.
  assert (Hspecs : (dry_run_specs type config).2 = Ok tt).
  { unfold dry_run_specs. rewrite Hfeatures.
    destruct (String.eqb type "specs" || String.eqb type "all"); reflexivity. }
  assert (Hbackend : (dry_run_backend type dataModel).2 = Ok tt).
  { unfold dry_run_backend.
    destruct (String.eqb type "backend" || String.eqb type "all");
      reflexivity. }
  unfold showDryRun.
  rewrite !and_then_events by (reflexivity || assumption). cbn [fst].
  apply elem_of_app. right. apply elem_of_app. right.
  apply elem_of_app. left. exact Hin.
Qed.

Lemma dry_run_paths_listed (type : string) (dataModel : DataModel)
  (path : string) :
  type = "backend" \/ type = "all" ->
  path ∈ dry_run_paths dataModel ->
  log_plain ("    - backend/" +:+ path) ∈ (dry_run_backend type dataModel).1.
Proof.
  intros Htype Hin. unfold dry_run_backend.
  assert (String.eqb type "backend" || String.eqb type "all" = true) as ->
      by (destruct Htype as [-> | ->]; reflexivity).
  cbn [fst]. unfold dry_run_paths in Hin.
  apply elem_of_app in Hin as [Hin | Hin]; apply elem_of_app.
  - left. rewrite !elem_of_cons, elem_of_nil in Hin.
    destruct Hin as [-> | [-> | [-> | []]]];
      [do 1 right | do 2 right | do 3 right]; left; reflexivity.
  - right.
    apply list_elem_of_In, in_flat_map in Hin as (l & Hl & Hin).
    unfold entity_directories in Hl.
    apply in_map_iff in Hl as (entity & <- & Hentity).
    apply list_elem_of_In, in_flat_map. exists entity.
    split; [exact Hentity|].
    apply list_elem_of_In. apply list_elem_of_In in Hin.
    unfold dry_run_entity.
    rewrite !elem_of_cons, elem_of_nil in Hin.
    destruct Hin as [-> | [-> | [-> | [-> | []]]]];
      [ | do 1 right | do 2 right | do 3 right]; left; reflexivity.
Qed.

Lemma dry_run_paths_shape (dataModel : DataModel) (path : string) :
  path ∈ dry_run_paths dataModel ->
  path ∈ ["package.json"; "src/main.ts"; "src/app.module.ts"]
  \/ exists l s,
       l ∈ entity_directories dataModel
       /\ path = "src/" +:+ l +:+ "/" +:+ l +:+ s
       /\ s ∈ [".entity.ts"; ".service.ts"; ".controller.ts"; ".module.ts"].
Proof.
  unfold dry_run_paths. intros Hin.
  apply elem_of_app in Hin as [Hin | Hin]; [left; exact Hin|]. right.
  apply list_elem_of_In, in_flat_map in Hin as (l & Hl & Hin).
  apply list_elem_of_In in Hl, Hin.
  rewrite !elem_of_cons, elem_of_nil in Hin.
  destruct Hin as [-> | [-> | [-> | [-> | []]]]];
    eexists l, _; (split; [exact Hl|]); (split; [reflexivity|]);
    rewrite !elem_of_cons; auto.
Qed.

Section DryRun.

Variable stringify : JsVal -> string.
Variable templates : Templates.

(** X18. After a successful backend generation on the same configuration
    and model: the dry run lists a backend path exactly when the type is
    [backend] or [all] and the path is the package file, [src/main.ts],
    [src/app.module.ts], or the entity, service, controller or module file
    of an entity. Every path it lists is the path of a generated file, but
    the list is not complete: [src/app.controller.ts] and the create DTO
    of every entity are generated and never listed. *)
Theorem dry_run_lists_generated_files (type : string)
  (config : ProjectConfig) (dataModel : DataModel) (outputDir : string)
  (result : GenerationResult) :
  backend_generate stringify templates config dataModel = Ok result ->
  gr_success result = true ->
  (forall path,
     log_plain ("    - backend/" +:+ path)
       ∈ (showDryRun type config dataModel outputDir).1
     <-> (type = "backend" \/ type = "all")
         /\ path ∈ dry_run_paths dataModel)
  /\ (forall path,
        path ∈ dry_run_paths dataModel ->
        path ∈ map gf_path (gr_files result))
  /\ "src/app.controller.ts" ∈ map gf_path (gr_files result)
  /\ ("src/app.controller.ts" ∉ dry_run_paths dataModel)
  /\ (forall entity,
        entity ∈ m_entities dataModel ->
        let entityPath := toLowerCase (e_name entity) in
        let dto :=
          "src/" +:+ entityPath +:+ "/dto/create-" +:+ entityPath
          +:+ ".dto.ts" in
        dto ∈ map gf_path (gr_files result)
        /\ (dto ∉ dry_run_paths dataModel)).
Proof.
  unfold backend_generate, nestjs_generate. rewrite try_generate.
  intros [= <-] Hsuccess.
  match goal with
  | _ : gr_success (reported ?body) = true |- _ =>
      destruct body as [files|error] eqn:Hbody; [|discriminate Hsuccess]
  end.
  destruct (backend_body_paths stringify templates _ _ _ Hbody)
    as (features & Hfeatures & Hpaths).
  cbn [reported success gr_files]. rewrite Hpaths. clear Hbody Hpaths.
  split; [|split; [|split; [|split]]].
  - intros path. split.
    + intros Hin.
      apply (listed_in_backend_block type dataModel
               (log_plain ("    - backend/" +:+ path)) path);
        [|apply listed_path_line].
      apply (showDryRun_events type config dataModel outputDir features
               (log_plain ("    - backend/" +:+ path)) path);
        [exact Hfeatures | exact Hin | apply listed_path_line].
    + intros [Htype Hin].
      apply (backend_block_printed _ _ _ _ features); [exact Hfeatures|].
      apply dry_run_paths_listed; assumption.
  - intros path Hin.
    apply dry_run_paths_shape in Hin as [Hin | (l & s & Hl & -> & Hs)].
    + apply elem_of_app. left. unfold leading_paths.
      rewrite !elem_of_cons, elem_of_nil in Hin. rewrite !elem_of_cons.
      intuition.
    + apply elem_of_app. right. apply elem_of_app. left.
      apply elem_of_entity_files. exists l. split; [exact Hl|].
      unfold entity_paths. rewrite !elem_of_cons, elem_of_nil in Hs.
      rewrite !elem_of_cons.
      destruct Hs as [-> | [-> | [-> | [-> | []]]]]; auto 8.
  - apply elem_of_app. left. apply (bool_decide_unpack _). vm_compute. exact I.
  - intros Hin.
    apply dry_run_paths_shape in Hin as [Hin | (l & s & Hl & Heq & Hs)].
    + revert Hin. apply (bool_decide_unpack _). vm_compute. exact I.
    + injection Heq as Heq. apply (f_equal (includes "/")) in Heq.
      rewrite append_nil_l, includes_slash_after in Heq. discriminate Heq.
  - intros entity Hentity.
    set (entityPath := toLowerCase (e_name entity)).
    set (dto := "src/" +:+ entityPath +:+ "/dto/create-" +:+ entityPath
                +:+ ".dto.ts").
    split.
    + apply elem_of_app. right. apply elem_of_app. left.
      apply elem_of_entity_files. exists entityPath. split.
      * unfold entity_directories.
        apply (list_elem_of_fmap_2 (fun entity => toLowerCase (e_name entity))).
        exact Hentity.
      * unfold entity_paths. right. left.
    + intros Hin.
      assert (Hdto : endsWith ".dto.ts" dto = true).
      { unfold dto.
        rewrite !endsWith_app by (rewrite ?length_append; cbn; lia).
        reflexivity. }
      apply dry_run_paths_shape in Hin as [Hin | (l & s & Hl & Heq & Hs)].
      * rewrite !elem_of_cons, elem_of_nil in Hin.
        destruct Hin as [Heq | [Heq | [Heq | []]]];
          rewrite Heq in Hdto; discriminate Hdto.
      * rewrite Heq in Hdto.
        rewrite !elem_of_cons, elem_of_nil in Hs.
        destruct Hs as [-> | [-> | [-> | [-> | []]]]];
          rewrite !endsWith_app in Hdto
            by (rewrite ?length_append; cbn; lia);
          discriminate Hdto.
Qed.

End DryRun.

Lemma dry_run_lists_generated_files_witness :
  exists result,
    backend_generate (fun _ => "null") blank_templates sample_config
      sample_model = Ok result
    /\ gr_success result = true
    /\ (forall path,
          log_plain ("    - backend/" +:+ path)
            ∈ (showDryRun "all" sample_config sample_model "generated").1
          <-> ("all" = "backend" \/ "all" = "all")
              /\ path ∈ dry_run_paths sample_model)
    /\ (forall path,
          path ∈ dry_run_paths sample_model ->
          path ∈ map gf_path (gr_files result))
    /\ "src/app.controller.ts" ∈ map gf_path (gr_files result)
    /\ ("src/app.controller.ts" ∉ dry_run_paths sample_model)
    /\ (forall entity,
          entity ∈ m_entities sample_model ->
          let entityPath := toLowerCase (e_name entity) in
          let dto :=
            "src/" +:+ entityPath +:+ "/dto/create-" +:+ entityPath
            +:+ ".dto.ts" in
          dto ∈ map gf_path (gr_files result)
          /\ (dto ∉ dry_run_paths sample_model)).
Proof.
  eexists. split; [reflexivity|]. split; [reflexivity|].
  exact (dry_run_lists_generated_files (fun _ => "null") blank_templates "all"
           sample_config sample_model "generated" _ eq_refl eq_refl).
Defined.

(** ** The create DTO: the class and the documented schema *)

Lemma includes_join_of (sep sub x : string) (xs : list string) :
  x ∈ xs -> includes sub x = true -> includes sub (join sep xs) = true.
Proof.
  intros Hin Hsub. induction xs as [|y rest IH]; [inversion Hin|].
  destruct rest as [|z rest].
  - apply elem_of_cons in Hin as [-> | Hin]; [exact Hsub | inversion Hin].
  - change (join sep (y :: z :: rest))
      with (y +:+ sep +:+ join sep (z :: rest)).
    apply elem_of_cons in Hin as [-> | Hin].
    + apply includes_app_l, Hsub.
    + do 2 apply includes_app_r. apply IH, Hin.
Qed.

Lemma dto_filter_is_skip_create (field : EntityField) :
  negb (truthy_bool (f_isPrimaryKey field))
  && negb (truthy_bool (f_isGenerated field))
  && negb (truthy_opt (f_relationship field))
  = negb (skip_create field).
Proof.
  unfold skip_create.
  destruct (truthy_bool (f_isPrimaryKey field)),
    (truthy_bool (f_isGenerated field)), (truthy_opt (f_relationship field));
    reflexivity.
Qed.

Lemma elem_of_dto_fields (entity : Entity) (field : EntityField) :
  field ∈ dto_fields entity
  <-> field ∈ e_fields entity /\ skip_create field = false.
Proof.
  unfold dto_fields. rewrite !list_elem_of_In, filter_In,
    dto_filter_is_skip_create, negb_true_iff.
  reflexivity.
Qed.

Lemma loop_required_names (mapper : DataType -> JsVal)
  (skip : EntityField -> bool) (fields : list EntityField)
  (st : list (string * JsVal) * list string) :
  (schema_fields_loop mapper skip fields st).2
  = st.2
    ++ map f_name
         (List.filter
            (fun f => negb (skip f)
                      && truthy_bool (dt_required (f_dataType f)))
            fields).
Proof.
  revert st. induction fields as [|field rest IH]; intros st;
    cbn [schema_fields_loop List.filter map].
  - rewrite app_nil_r. reflexivity.
  - destruct (skip field); cbn [negb andb]; [apply IH|].
    rewrite IH. cbn [snd].
    destruct (truthy_bool (dt_required (f_dataType field))); cbn [map];
      [rewrite <- app_assoc|]; reflexivity.
Qed.

Lemma generateDtoField_declares (field : EntityField)
  (usedValidators : gset string) :
  includes (dto_declaration field) (generateDtoField field usedValidators).1
  = true.
Proof.
  unfold generateDtoField. cbn [fst].
  apply includes_join, elem_of_app. right. left.
Qed.

Lemma dto_members_declare (fields : list EntityField) (field : EntityField) :
  field ∈ fields ->
  forall (members : list string) (usedValidators : gset string),
  exists member,
    member ∈ (fold_left
                (fun st field =>
                   let member := generateDtoField field st.2 in
                   (st.1 ++ [member.1], member.2))
                fields (members, usedValidators)).1
    /\ includes (dto_declaration field) member = true.
Proof.
  assert (Hkeeps :
            forall fields members usedValidators member,
              member ∈ members ->
              member ∈ (fold_left
                          (fun st field =>
                             let member := generateDtoField field st.2 in
                             (st.1 ++ [member.1], member.2))
                          fields (members, usedValidators)).1).
  { clear. induction fields as [|f rest IH];
      intros members usedValidators member Hin; [exact Hin|].
    cbn [fold_left fst snd]. apply IH, elem_of_app. left. exact Hin. }
  induction fields as [|first rest IH]; intros Hin members usedValidators;
    [inversion Hin|].
  cbn [fold_left fst snd].
  apply elem_of_cons in Hin as [<- | Hin]; [|apply IH, Hin].
  exists (generateDtoField field usedValidators).1. split.
  - apply Hkeeps, elem_of_app. right. left.
  - apply generateDtoField_declares.
Qed.

(** X19. The [Create..Dto] class of an entity and the [Create..Dto] schema
    of the OpenAPI document describe the same payload: the properties of
    the schema are the names of the fields the class declares (those that
    are no primary key, not generated and no relationship); the schema
    requires exactly those of them whose data type is [required]; and the
    class text declares each of them, with [?] exactly when the data type
    is not [required]. *)
Theorem create_dto_matches_schema (entity : Entity) :
  (forall name,
     name ∈ obj_keys (properties_of (entityToCreateDto entity))
     <-> name ∈ map f_name (dto_fields entity))
  /\ required_of (entityToCreateDto entity)
     = map JStr
         (map f_name
            (List.filter
               (fun field => truthy_bool (dt_required (f_dataType field)))
               (dto_fields entity)))
  /\ (forall field,
        field ∈ dto_fields entity ->
        includes (dto_declaration field) (generateCreateDto entity) = true).
Proof.
  split; [|split].
  - intros name. unfold entityToCreateDto.
    rewrite properties_of_schema_object. split.
    + intros Hin. apply loop_keys in Hin as [Hin | (field & Hin & Hskip & <-)];
        [inversion Hin|].
      apply (list_elem_of_fmap_2 f_name), elem_of_dto_fields. auto.
    + intros Hin. apply list_elem_of_fmap in Hin as (field & -> & Hin).
      apply elem_of_dto_fields in Hin as [Hin Hskip].
      apply loop_keeps; assumption.
  - unfold entityToCreateDto.
    rewrite required_of_schema_object, loop_required_names. cbn [snd app].
    unfold dto_fields. do 2 f_equal.
    induction (e_fields entity) as [|field rest IH]; [reflexivity|].
    cbn [List.filter]. rewrite dto_filter_is_skip_create.
    destruct (skip_create field); cbn [negb andb List.filter]; [exact IH|].
    destruct (truthy_bool (dt_required (f_dataType field)));
      [f_equal|]; exact IH.
  - intros field Hin. unfold generateCreateDto, lines.
    destruct (dto_members_declare (dto_fields entity) field Hin [] ∅)
      as (member & Hmember & Hdeclares).
    apply (includes_join_of _ _
             (join (newline +:+ newline)
                (dto_members (dto_fields entity) ∅).1)).
    + apply (list_elem_of_lookup_2 _ 4). reflexivity.
    + apply (includes_join_of _ _ member); assumption.
Qed.

(** ** Relationships in the generated entity classes *)

Lemma accepted_relationship (dataModel : DataModel) (entity : Entity)
  (field : EntityField) (relationship : Relationship) :
  Parser.validateBusinessRules dataModel = Ok tt ->
  entity ∈ m_entities dataModel -> field ∈ e_fields entity ->
  f_relationship field = Some relationship ->
  r_target relationship ∈ map e_name (m_entities dataModel)
  /\ lacks_key relationship = false.
Proof.
  intros Hrules Hentity Hfield Hrelationship.
  assert (Hwf : well_formed dataModel).
  { apply no_business_rule_errors.
    rewrite validateBusinessRules_throws in Hrules.
    destruct (Parser.business_rule_errors dataModel);
      [reflexivity | discriminate]. }
  destruct Hwf as [_ Hwf]. destruct (Hwf entity Hentity) as [_ Hfields].
  exact (Hfields field relationship Hfield Hrelationship).
Qed.

Section EntityClass.

Variable stringify : JsVal -> string.

Lemma entity_class_imports (entity : Entity) (field : EntityField)
  (relationship : Relationship) :
  field ∈ e_fields entity -> f_relationship field = Some relationship ->
  includes
    ("import { " +:+ r_target relationship +:+ " } from '../"
     +:+ toLowerCase (r_target relationship) +:+ "/"
     +:+ toLowerCase (r_target relationship) +:+ ".entity';")
    (generateEntityClass stringify entity) = true.
Proof.
  intros Hfield Hrelationship.
  assert (Himport :
            relationship_import field
            = "import { " +:+ r_target relationship +:+ " } from '../"
              +:+ toLowerCase (r_target relationship) +:+ "/"
              +:+ toLowerCase (r_target relationship) +:+ ".entity';").
  { unfold relationship_import. rewrite Hrelationship. reflexivity. }
  rewrite <- Himport. unfold generateEntityClass, lines.
  apply (includes_join_of _ _
           (join newline
              (map relationship_import
                 (List.filter (fun f => truthy_opt (f_relationship f))
                    (e_fields entity))))).
  - apply (list_elem_of_lookup_2 _ 2). reflexivity.
  - apply includes_join, list_elem_of_In, in_map, filter_In.
    split; [apply list_elem_of_In, Hfield|].
    rewrite Hrelationship. reflexivity.
Qed.

Lemma entity_class_join_column (entity : Entity) (field : EntityField)
  (relationship : Relationship) :
  field ∈ e_fields entity -> f_relationship field = Some relationship ->
  needs_foreignKey (r_type relationship) = true ->
  includes
    ("  @JoinColumn({ name: '" +:+ interpolate (r_foreignKey relationship)
     +:+ "' })")
    (generateEntityClass stringify entity) = true.
Proof.
  intros Hfield Hrelationship Hneeds. unfold generateEntityClass, lines.
  apply (includes_join_of _ _
           (join (newline +:+ newline)
              (map (generateEntityField stringify) (e_fields entity)))).
  - apply (list_elem_of_lookup_2 _ 6). reflexivity.
  - apply (includes_join_of _ _ (generateEntityField stringify field)).
    + apply list_elem_of_In, in_map, list_elem_of_In, Hfield.
    + unfold generateEntityField. rewrite Hrelationship, Hneeds.
      apply includes_join. unfold push_if.
      rewrite !elem_of_app, !elem_of_cons. auto.
Qed.

(** X20. In a model the parser accepted, the code generated for a
    relationship refers to things that exist: the entity class imports the
    target from [../<target>/<target>.entity], which is the entity file of
    an entity of the model, among the files of the backend; and for a
    manyToOne or oneToOne relationship the [@JoinColumn] names the
    [foreignKey] the model gives, never [undefined]. *)
Theorem relationship_code_resolves (dataModel : DataModel) (entity : Entity)
  (field : EntityField) (relationship : Relationship) :
  Parser.validateBusinessRules dataModel = Ok tt ->
  entity ∈ m_entities dataModel -> field ∈ e_fields entity ->
  f_relationship field = Some relationship ->
  includes
    ("import { " +:+ r_target relationship +:+ " } from '../"
     +:+ toLowerCase (r_target relationship) +:+ "/"
     +:+ toLowerCase (r_target relationship) +:+ ".entity';")
    (generateEntityClass stringify entity) = true
  /\ ("src/" +:+ toLowerCase (r_target relationship) +:+ "/"
      +:+ toLowerCase (r_target relationship) +:+ ".entity.ts")
       ∈ concat (map entity_paths (entity_directories dataModel))
  /\ (needs_foreignKey (r_type relationship) = true ->
      exists foreignKey,
        r_foreignKey relationship = Some foreignKey /\ foreignKey <> ""
        /\ includes ("  @JoinColumn({ name: '" +:+ foreignKey +:+ "' })")
             (generateEntityClass stringify entity) = true).
Proof.
  intros Hrules Hentity Hfield Hrelationship.
  destruct (accepted_relationship _ _ _ _ Hrules Hentity Hfield Hrelationship)
    as [Htarget Hkey].
  split; [exact (entity_class_imports entity field relationship Hfield
                   Hrelationship)|].
  split.
  - apply elem_of_entity_files. exists (toLowerCase (r_target relationship)).
    split; [|left].
    apply list_elem_of_fmap in Htarget as (target & -> & Htarget).
    unfold entity_directories.
    apply (list_elem_of_fmap_2 (fun entity => toLowerCase (e_name entity))).
    exact Htarget.
  - intros Hneeds. unfold lacks_key in Hkey. rewrite Hneeds in Hkey.
    apply orb_false_iff in Hkey as [Hkey _]. cbn [andb] in Hkey.
    apply negb_false_iff, truthy_string_true in Hkey
      as (foreignKey & Hsome & Hne).
    exists foreignKey. split; [exact Hsome|]. split; [exact Hne|].
    pose proof (entity_class_join_column entity field relationship Hfield
                  Hrelationship Hneeds) as Hline.
    rewrite Hsome in Hline. exact Hline.
Qed.

Lemma prefix_app_both (a x y : string) :
  String.prefix x y = true -> String.prefix (a +:+ x) (a +:+ y) = true.
Proof.
  intros Hxy. induction a as [|c a IH]; [exact Hxy|].
  change (String.prefix (String c (a +:+ x)) (String c (a +:+ y)) = true).
  cbn [String.prefix]. destruct (ascii_dec c c); [exact IH | contradiction].
Qed.

(** X21. A oneToMany relationship without [foreignKey] passes every check
    on relationships: once its target exists, the parser adds no error for
    it and the validate command adds neither an error nor a warning. Yet
    the decorator generated for it reads the missing key: the entity class
    holds [<target> => <target>.undefined]. *)
Theorem oneToMany_without_foreignKey (entityNames : gset string)
  (entity : Entity) (field : EntityField) (relationship : Relationship)
  (errors : list string) (result : Result) :
  field ∈ e_fields entity ->
  f_relationship field = Some relationship ->
  r_type relationship = OneToMany ->
  r_foreignKey relationship = None ->
  r_target relationship ∈ entityNames ->
  Parser.relationship_rules entityNames entity field errors = errors
  /\ relationship_checks entityNames entity field result = result
  /\ includes
       ("@OneToMany(() => " +:+ r_target relationship +:+ ", "
        +:+ toLowerCase (r_target relationship) +:+ " => "
        +:+ toLowerCase (r_target relationship) +:+ ".undefined")
       (generateEntityClass stringify entity) = true.
Proof.
  intros Hfield Hrelationship Htype Hkey Htarget.
  split; [|split].
  - unfold Parser.relationship_rules.
    rewrite Hrelationship, Htype, (bool_decide_eq_true_2 _ Htarget).
    reflexivity.
  - unfold relationship_checks.
    rewrite Hrelationship, Htype, (bool_decide_eq_true_2 _ Htarget).
    destruct result. reflexivity.
  - unfold generateEntityClass, lines.
    apply (includes_join_of _ _
             (join (newline +:+ newline)
                (map (generateEntityField stringify) (e_fields entity)))).
    { apply (list_elem_of_lookup_2 _ 6). reflexivity. }
    apply (includes_join_of _ _ (generateEntityField stringify field)).
    { apply list_elem_of_In, in_map, list_elem_of_In, Hfield. }
    unfold generateEntityField. rewrite Hrelationship, Htype.
    cbn [needs_foreignKey push_if].
    apply (includes_join_of _ _ ("  " +:+ getRelationshipDecorator field)).
    { rewrite !elem_of_app, !elem_of_cons. auto. }
    apply includes_app_r. unfold getRelationshipDecorator.
    rewrite Hrelationship, Htype, Hkey. cbn [interpolate default from_option].
    apply includes_prefix.
    do 6 apply prefix_app_both.
    apply (prefix_app ".undefined" ".undefined"), prefix_refl.
Qed.

End EntityClass.

Lemma relationship_code_resolves_witness :
  Parser.validateBusinessRules sample_model = Ok tt
  /\ sample_post ∈ m_entities sample_model
  /\ exists field relationship,
       field ∈ e_fields sample_post
       /\ f_relationship field = Some relationship
       /\ includes
            ("import { " +:+ r_target relationship +:+ " } from '../"
             +:+ toLowerCase (r_target relationship) +:+ "/"
             +:+ toLowerCase (r_target relationship) +:+ ".entity';")
            (generateEntityClass (fun _ => "null") sample_post) = true
       /\ ("src/" +:+ toLowerCase (r_target relationship) +:+ "/"
           +:+ toLowerCase (r_target relationship) +:+ ".entity.ts")
            ∈ concat (map entity_paths (entity_directories sample_model))
       /\ (needs_foreignKey (r_type relationship) = true ->
           exists foreignKey,
             r_foreignKey relationship = Some foreignKey /\ foreignKey <> ""
             /\ includes
                  ("  @JoinColumn({ name: '" +:+ foreignKey +:+ "' })")
                  (generateEntityClass (fun _ => "null") sample_post) = true).
Proof.
  assert (Hrules : Parser.validateBusinessRules sample_model = Ok tt)
    by (vm_compute; reflexivity).
  assert (Hentity : sample_post ∈ m_entities sample_model)
    by (right; left).
  split; [exact Hrules|]. split; [exact Hentity|].
  eexists _, _.
  assert (Hfield :
            relation_field "author" (plain TObject)
              (relation ManyToOne "User" (Some "authorId"))
              ∈ e_fields sample_post)
    by (apply (list_elem_of_lookup_2 _ 5); reflexivity).
  split; [exact Hfield|]. split; [reflexivity|].
  exact (relationship_code_resolves (fun _ => "null") sample_model sample_post
           _ _ Hrules Hentity Hfield eq_refl).
Defined.

(** ** The routes of a controller and the documented operations *)

(** X22. The controller of an entity declares the routes POST and GET on
    the collection and GET, PATCH and DELETE on [:id]. The OpenAPI document
    describes, for an entity alone with its lower-cased name, [get] and
    [post] on the collection and [get], [put] and [delete] on the item:
    the update route (PATCH) is the one route it does not describe, and
    the update it describes is a PUT. *)
Theorem routes_and_documented_operations (config : ProjectConfig)
  (dataModel : DataModel) (entity : Entity) (text : string) :
  entity ∈ m_entities dataModel ->
  alone_in_lower_case dataModel entity ->
  generateController config entity = Ok text ->
  (forall decorator,
     decorator ∈ ["  @HttpPost()"; "  @Get()"; "  @Get(':id')";
                  "  @Patch(':id')"; "  @Delete(':id')"] ->
     includes decorator text = true)
  /\ exists collection item,
       obj_get ("/" +:+ toLowerCase (e_name entity) +:+ "s")
         (generatePaths dataModel []) = Some (JObj collection)
       /\ obj_keys collection = ["get"; "post"]
       /\ obj_get (("/" +:+ toLowerCase (e_name entity) +:+ "s") +:+ "/{id}")
            (generatePaths dataModel []) = Some (JObj item)
       /\ obj_keys item = ["get"; "put"; "delete"].
Proof.
  intros Hentity Halone Htext. split.
  - unfold generateController in Htext.
    destruct (c_features config) as [features|]; [|discriminate].
    cbn [mbind Exc_bind bind read_member mret Exc_ret] in Htext.
    injection Htext as <-. unfold lines.
    intros decorator Hin. apply includes_join.
    rewrite !elem_of_cons, elem_of_nil in Hin.
    destruct Hin as [-> | [-> | [-> | [-> | [-> | []]]]]].
    + apply (list_elem_of_lookup_2 _ 31). reflexivity.
    + apply (list_elem_of_lookup_2 _ 39). reflexivity.
    + apply (list_elem_of_lookup_2 _ 51). reflexivity.
    + apply (list_elem_of_lookup_2 _ 60). reflexivity.
    + apply (list_elem_of_lookup_2 _ 72). reflexivity.
  - exists [("get", generateListOperation entity);
            ("post", generateCreateOperation entity)],
      [("get", generateGetOperation entity);
       ("put", generateUpdateOperation entity);
       ("delete", generateDeleteOperation entity)].
    rewrite generatePaths_items.
    split; [|split; [reflexivity|split; [|reflexivity]]].
    + apply (paths_keep_entity entity); [left | exact Halone | left; exact Hentity].
    + apply (paths_keep_entity entity);
        [right; left | exact Halone | left; exact Hentity].
Qed.

Lemma routes_and_documented_operations_witness :
  exists text,
    sample_post ∈ m_entities sample_model
    /\ alone_in_lower_case sample_model sample_post
    /\ generateController sample_config sample_post = Ok text
    /\ (forall decorator,
          decorator ∈ ["  @HttpPost()"; "  @Get()"; "  @Get(':id')";
                       "  @Patch(':id')"; "  @Delete(':id')"] ->
          includes decorator text = true)
    /\ exists collection item,
         obj_get ("/" +:+ toLowerCase (e_name sample_post) +:+ "s")
           (generatePaths sample_model []) = Some (JObj collection)
         /\ obj_keys collection = ["get"; "post"]
         /\ obj_get
              (("/" +:+ toLowerCase (e_name sample_post) +:+ "s") +:+ "/{id}")
              (generatePaths sample_model []) = Some (JObj item)
         /\ obj_keys item = ["get"; "put"; "delete"].
Proof.
  assert (Hentity : sample_post ∈ m_entities sample_model) by (right; left).
  assert (Halone : alone_in_lower_case sample_model sample_post).
  { intros other Hother Hsame.
    apply elem_of_cons in Hother as [-> | Hother]; [discriminate Hsame|].
    apply elem_of_cons in Hother as [-> | Hother];
      [reflexivity | inversion Hother]. }
  eexists. split; [exact Hentity|]. split; [exact Halone|].
  split; [reflexivity|].
  exact (routes_and_documented_operations sample_config sample_model
           sample_post _ Hentity Halone eq_refl).
Defined.

Lemma oneToMany_without_foreignKey_witness :
  posts_field ∈ e_fields blogger
  /\ f_relationship posts_field = Some (relation OneToMany "Post" None)
  /\ Parser.relationship_rules {["Post"]} blogger posts_field [] = []
  /\ relationship_checks {["Post"]} blogger posts_field fresh = fresh
  /\ includes
       ("@OneToMany(() => " +:+ "Post" +:+ ", " +:+ toLowerCase "Post"
        +:+ " => " +:+ toLowerCase "Post" +:+ ".undefined")
       (generateEntityClass (fun _ => "null") blogger) = true.
Proof.
  assert (Hfield : posts_field ∈ e_fields blogger) by (right; left).
  split; [exact Hfield|]. split; [reflexivity|].
  apply (oneToMany_without_foreignKey (fun _ => "null") {["Post"]} blogger
           posts_field (relation OneToMany "Post" None) [] fresh Hfield
           eq_refl eq_refl eq_refl).
  apply elem_of_singleton. reflexivity.
Defined.

(** ** The schemas of the OpenAPI document, by name *)

Lemma common_schemas_other (schemas : list (string * JsVal)) (name : string) :
  name ∉ ["PaginationMeta"; "ErrorResponse"] ->
  obj_get name
    (obj_set "ErrorResponse" ErrorResponse
       (obj_set "PaginationMeta" PaginationMeta schemas))
  = obj_get name schemas.
Proof.
  intros Hfree. rewrite !not_elem_of_cons in Hfree.
  destruct Hfree as (Hp & He & _).
  rewrite !obj_get_set_ne by congruence. reflexivity.
Qed.

Lemma enum_schemas_other (defs : list EnumDefinition)
  (schemas : list (string * JsVal)) (name : string) :
  name ∉ map en_name defs ->
  obj_get name
    (fold_left
       (fun acc enumDef => obj_set (en_name enumDef) (enum_schema enumDef) acc)
       defs schemas)
  = obj_get name schemas.
Proof.
  revert schemas. induction defs as [|def rest IH]; intros schemas Hfree;
    [reflexivity|].
  cbn [fold_left map] in *. apply not_elem_of_cons in Hfree as [Hne Hrest].
  rewrite IH by exact Hrest. apply obj_get_set_ne. congruence.
Qed.

Lemma enum_schema_kept (enumDef : EnumDefinition) (defs : list EnumDefinition)
  (schemas : list (string * JsVal)) :
  (forall other,
     other ∈ defs -> en_name other = en_name enumDef -> other = enumDef) ->
  enumDef ∈ defs
  \/ obj_get (en_name enumDef) schemas = Some (enum_schema enumDef) ->
  obj_get (en_name enumDef)
    (fold_left
       (fun acc enumDef => obj_set (en_name enumDef) (enum_schema enumDef) acc)
       defs schemas)
  = Some (enum_schema enumDef).
Proof.
  revert schemas. induction defs as [|def rest IH]; intros schemas Hone Hstart.
  - destruct Hstart as [Hin | Hget]; [inversion Hin | exact Hget].
  - cbn [fold_left]. apply IH.
    + intros other Hother. apply Hone. right. exact Hother.
    + destruct (decide (en_name def = en_name enumDef)) as [Hsame | Hne].
      * right. rewrite (Hone def) by (left || exact Hsame).
        apply obj_get_set_eq.
      * rewrite obj_get_set_ne by exact Hne.
        destruct Hstart as [Hin | Hget]; [|right; exact Hget].
        apply elem_of_cons in Hin as [-> | Hin]; [congruence | left; exact Hin].
Qed.

Lemma entity_schema_kept (entity : Entity) (entities : list Entity)
  (schemas : list (string * JsVal)) :
  (forall other,
     other ∈ entities -> e_name other = e_name entity -> other = entity) ->
  (forall other,
     other ∈ entities ->
     e_name entity <> "Create" +:+ e_name other +:+ "Dto"
     /\ e_name entity <> "Update" +:+ e_name other +:+ "Dto") ->
  entity ∈ entities
  \/ obj_get (e_name entity) schemas = Some (JObj (entityToSchema entity)) ->
  obj_get (e_name entity)
    (fold_left
       (fun acc entity =>
          obj_set ("Update" +:+ e_name entity +:+ "Dto")
            (JObj (entityToUpdateDto entity))
            (obj_set ("Create" +:+ e_name entity +:+ "Dto")
               (JObj (entityToCreateDto entity))
               (obj_set (e_name entity) (JObj (entityToSchema entity)) acc)))
       entities schemas)
  = Some (JObj (entityToSchema entity)).
Proof.
  revert schemas.
  induction entities as [|first rest IH]; intros schemas Hone Hfree Hstart.
  - destruct Hstart as [Hin | Hget]; [inversion Hin | exact Hget].
  - cbn [fold_left]. apply IH.
    + intros other Hother. apply Hone. right. exact Hother.
    + intros other Hother. apply Hfree. right. exact Hother.
    + destruct (Hfree first) as [Hcreate Hupdate]; [left|].
      rewrite !obj_get_set_ne by congruence.
      destruct (decide (e_name first = e_name entity)) as [Hsame | Hne].
      * right. rewrite (Hone first) by (left || exact Hsame).
        apply obj_get_set_eq.
      * rewrite obj_get_set_ne by exact Hne.
        destruct Hstart as [Hin | Hget]; [|right; exact Hget].
        apply elem_of_cons in Hin as [-> | Hin]; [congruence | left; exact Hin].
Qed.

(** X23. Which schema a name finds in [components.schemas]. The schema of
    an enum is in the document under the enum's name, whatever the entities
    are called, as long as no other enum has the name and the name is none
    of the two shared schemas. The schema of an entity is in the document
    under the entity's name when, besides, no other entity and no enum has
    the name and no entity's [Create..Dto] or [Update..Dto] schema has it.
    So an enum named like an entity takes the place of the entity's
    schema. *)
Theorem schemas_by_name (dataModel : DataModel) :
  (forall enumDef,
     enumDef ∈ enum_list dataModel ->
     (forall other,
        other ∈ enum_list dataModel -> en_name other = en_name enumDef ->
        other = enumDef) ->
     en_name enumDef ∉ ["PaginationMeta"; "ErrorResponse"] ->
     obj_get (en_name enumDef) (openapi_generateSchemas dataModel [])
     = Some (enum_schema enumDef))
  /\ (forall entity,
        entity ∈ m_entities dataModel ->
        (forall other,
           other ∈ m_entities dataModel -> e_name other = e_name entity ->
           other = entity) ->
        schema_name_free dataModel (e_name entity) ->
        e_name entity ∉ map en_name (enum_list dataModel) ->
        obj_get (e_name entity) (openapi_generateSchemas dataModel [])
        = Some (JObj (entityToSchema entity))).
Proof.
  unfold openapi_generateSchemas, add_enum_schemas, enum_list. split.
  - intros enumDef Hin Hone Hfree.
    rewrite common_schemas_other by exact Hfree.
    destruct (m_enums dataModel) as [defs|]; [|inversion Hin].
    cbn [default from_option id] in Hin, Hone.
    apply enum_schema_kept; [exact Hone | left; exact Hin].
  - intros entity Hin Hone [Hcommon Hfree] Henum.
    rewrite common_schemas_other by exact Hcommon.
    assert (Hentities :
              obj_get (e_name entity)
                (fold_left
                   (fun acc entity =>
                      obj_set ("Update" +:+ e_name entity +:+ "Dto")
                        (JObj (entityToUpdateDto entity))
                        (obj_set ("Create" +:+ e_name entity +:+ "Dto")
                           (JObj (entityToCreateDto entity))
                           (obj_set (e_name entity)
                              (JObj (entityToSchema entity)) acc)))
                   (m_entities dataModel) [])
              = Some (JObj (entityToSchema entity))).
    { apply entity_schema_kept; [exact Hone | exact Hfree | left; exact Hin]. }
    destruct (m_enums dataModel) as [defs|]; [|exact Hentities].
    cbn [default from_option id] in Henum.
    rewrite enum_schemas_other by exact Henum. exact Hentities.
Qed.

Lemma schemas_by_name_witness :
  status_enum ∈ enum_list status_model
  /\ obj_get (en_name status_enum) (openapi_generateSchemas status_model [])
     = Some (enum_schema status_enum)
  /\ e_name status_entity = en_name status_enum
  /\ enum_schema status_enum <> JObj (entityToSchema status_entity).
Proof.
  assert (Hin : status_enum ∈ enum_list status_model) by left.
  split; [exact Hin|]. split; [|split; [reflexivity | discriminate]].
  destruct (schemas_by_name status_model) as [Henum _].
  apply (Henum status_enum Hin).
  - intros other Hother _. apply elem_of_cons in Hother as [-> | Hother];
      [reflexivity | inversion Hother].
  - apply (bool_decide_unpack _). vm_compute. exact I.
Defined.

(** ** Naming conventions after the schema *)

Lemma value_loop_warnings (strict : bool) (enumDef : EnumDefinition)
  (values : list string) (result : Result) :
  fold_left
    (fun result value =>
       push_warning (strict && negb (UPPER_CASE value))
         ("Enum " +:+ en_name enumDef +:+ "." +:+ value
          +:+ ": value should be in UPPER_CASE") result)
    values result
  = {| valid := valid result; errors := errors result;
       warnings :=
         warnings result
         ++ (if strict
             then map (fun value =>
                         "Enum " +:+ en_name enumDef +:+ "." +:+ value
                         +:+ ": value should be in UPPER_CASE")
                    (List.filter (fun value => negb (UPPER_CASE value)) values)
             else []) |}.
Proof.
  revert result. induction values as [|value rest IH]; intros result;
    cbn [fold_left List.filter map].
  - destruct strict, result; cbn; rewrite app_nil_r; reflexivity.
  - rewrite IH. destruct strict; cbn [andb].
    + destruct (UPPER_CASE value); cbn [negb map].
      * rewrite push_warning_false. reflexivity.
      * unfold push_warning, push_if. cbn [valid errors warnings].
        rewrite <- app_assoc. reflexivity.
    + rewrite push_warning_false. reflexivity.
Qed.

Lemma enum_loop_warnings (strict : bool) (enums : list EnumDefinition)
  (result : Result) :
  (forall enumDef, enumDef ∈ enums -> PascalCase (en_name enumDef) = true) ->
  fold_left
    (fun result enumDef =>
       let result :=
         push_warning (negb (PascalCase (en_name enumDef)))
           ("Enum " +:+ en_name enumDef +:+ ": name should be in PascalCase")
           result in
       fold_left
         (fun result value =>
            push_warning (strict && negb (UPPER_CASE value))
              ("Enum " +:+ en_name enumDef +:+ "." +:+ value
               +:+ ": value should be in UPPER_CASE") result)
         (en_values enumDef) result)
    enums result
  = {| valid := valid result; errors := errors result;
       warnings :=
         warnings result
         ++ (if strict then concat (map value_warnings enums) else []) |}.
Proof.
  revert result. induction enums as [|enumDef rest IH]; intros result Hnames;
    cbn [fold_left map concat].
  - destruct strict, result; cbn; rewrite app_nil_r; reflexivity.
  - rewrite IH by (intros e He; apply Hnames; right; exact He).
    rewrite (Hnames enumDef) by left. cbn [negb].
    rewrite push_warning_false, value_loop_warnings.
    cbn [valid errors warnings]. unfold value_warnings.
    destruct strict; rewrite <- ?app_assoc, ?app_nil_r; reflexivity.
Qed.

Lemma entity_loop_silent (entities : list Entity) (result : Result) :
  (forall entity,
     entity ∈ entities ->
     PascalCase (e_name entity) = true
     /\ forall field,
          field ∈ e_fields entity -> camelCase (f_name field) = true) ->
  fold_left
    (fun result entity =>
       let result :=
         push_warning (negb (PascalCase (e_name entity)))
           ("Entity " +:+ e_name entity +:+ ": name should be in PascalCase")
           result in
       fold_left
         (fun result field =>
            push_warning (negb (camelCase (f_name field)))
              (field_label entity field
               +:+ "field name should be in camelCase") result)
         (e_fields entity) result)
    entities result
  = result.
Proof.
  intros Hnames. apply fold_left_id. intros a entity Hentity.
  destruct (Hnames entity Hentity) as [Hname Hfields].
  cbn zeta. rewrite Hname. cbn [negb]. rewrite push_warning_false.
  apply fold_left_id. intros b field Hfield.
  rewrite (Hfields field Hfield). apply push_warning_false.
Qed.

(** X24. On a model whose names have the form the schema asks of them, the
    naming pass of the validate command has nothing to say about names:
    without [--strict] it returns the result it was given, and with
    [--strict] it adds exactly one warning for each enum value that is not
    in UPPER_CASE, in model order, and nothing else. *)
Theorem naming_after_the_schema (dataModel : DataModel) (result : Result) :
  names_follow_schema dataModel ->
  validateNamingConventions dataModel result false = result
  /\ validateNamingConventions dataModel result true
     = {| valid := valid result; errors := errors result;
          warnings :=
            warnings result
            ++ concat (map value_warnings (default [] (m_enums dataModel))) |}.
Proof.
  intros [Hentities Henums]. unfold validateNamingConventions.
  rewrite !entity_loop_silent by exact Hentities.
  destruct (m_enums dataModel) as [enums|]; cbn [default from_option id] in *.
  - rewrite !enum_loop_warnings by exact Henums. cbn [valid errors warnings].
    split; [|reflexivity].
    destruct result. cbn. rewrite app_nil_r. reflexivity.
  - split; [reflexivity|]. destruct result. cbn. rewrite app_nil_r.
    reflexivity.
Qed.

Lemma naming_after_the_schema_witness :
  names_follow_schema sample_model
  /\ validateNamingConventions sample_model fresh false = fresh
  /\ validateNamingConventions sample_model fresh true
     = {| valid := valid fresh; errors := errors fresh;
          warnings :=
            warnings fresh
            ++ concat (map value_warnings
                         (default [] (m_enums sample_model))) |}.
Proof.
  assert (Hnames : names_follow_schema sample_model).
  { split.
    - intros entity Hentity.
      apply elem_of_cons in Hentity as [-> | Hentity];
        [|apply elem_of_cons in Hentity as [-> | Hentity];
          [|inversion Hentity]];
        (split; [reflexivity|]); intros field Hfield;
        repeat (apply elem_of_cons in Hfield as [-> | Hfield];
                [reflexivity|]);
        inversion Hfield.
    - intros enumDef Henum.
      apply elem_of_cons in Henum as [-> | Henum];
        [reflexivity | inversion Henum]. }
  split; [exact Hnames|].
  exact (naming_after_the_schema sample_model fresh Hnames).
Defined.
